(* ===== verification/_CoqProject ===== *)
-Q . S2P
Prelude.v
GoNet.v
GoNetFacts.v
K8s.v
Nodes.v
NodesFacts.v
NodeMapSpec.v
Locking.v
Netlink.v
Effects.v
Tables.v
Reconcile.v
Netutil.v
RouteTable.v
LinkAddresses.v
NeighTable.v
Links.v
XfrmTables.v
KernelLaws.v
Sim.v
RouteFacts.v
NeighFacts.v
Faults.v
AddrFacts.v
XfrmFacts.v
PolicyFacts.v
LinkFacts.v
Provider.v
Layer2.v
Gre.v
Vxlan2.v
VxlanLegacy.v
Delivery.v
VxlanPods.v
EspListener.v
Ipsec.v
IpsecFacts.v
IpsecDelivery.v
Dispatch.v
Cni.v
Controller.v
ControllerFacts.v
NodeController.v
System.v
SystemFacts.v
SystemProperties.v
Races.v
Recovery.v
Agent.v
Process.v
ApiTypes.v
Operator.v
