(* ===== verification/Prelude.v ===== *)
(** * kopeio-networking: a Rocq development of the node networking agent

    kopeio-networking runs an agent on every node of a Kubernetes cluster. The agent watches the
    nodes of the API server and makes the kernel of its own node send traffic for the pods of the
    other nodes there, by one of five providers. The development models the agent and a part of its
    operator, and proves what each part does on every input, and what it leaves behind on a kernel
    that keeps its documented contract.

    ** The program and its model

    - Go's standard library: GoNet.v has the parts of package net (To4, Equal, Mask.Size, String,
      ParseIP, ParseCIDR), encoding/binary and strings the program computes with, GoNetFacts.v their
      lemmas, the round trip of IPv4 networks among them. Integers are [Z] with the wrap-around
      written out ([u16], [u32], [u64]), bytes are [Byte.byte], slices that can be nil options.
    - K8s.v: the API's node objects. The constants of k8s.io/api are the class [CoreV1].
    - pkg/routing/nodes.go: Nodes.v. [NodeInfo] and [NodeMap] with the objects behind their pointers
      on a heap, as [me] and the map share them. Each method holds the mutex throughout and is one
      function. NodesFacts.v has the digest of a node and the well-formedness invariant, NodeMapSpec.v
      runs of operations ([nm_run]) and the refinement of the abstract map of digests. Locking.v has
      the methods again as the lists of assignments they make while they hold the mutex
      ([op_writes]), for those who read the map without it.
    - github.com/vishvananda/netlink: Netlink.v has its records; its constants are a class with the
      values of the version in go.mod as an instance.
    - Effects.v: the kernel, files, sockets and the API server are a state [K] with the operations of
      the class [Kernel], of which nothing is assumed. The monad [M] threads that state, a trace of
      the calls that change something with their results, the orders in which the next [range]s over
      maps go (arbitrary permutations), and the provider's own state. A run ends with a value, an
      error or the end of the process ([klog.Fatalf], a panic).
    - pkg/routing/netutil: Netutil.v, RouteTable.v, LinkAddresses.v, NeighTable.v, Links.v and
      XfrmTables.v have one [Ensure] each. All compare what the kernel lists with what is expected;
      Reconcile.v has the loops they share, Tables.v the kernel tables they act on. Their theorems are
      in RouteFacts.v, AddrFacts.v, NeighFacts.v, LinkFacts.v, XfrmFacts.v and PolicyFacts.v. Faults.v
      runs [RouteTable.Ensure] on a kernel that refuses calls now and then ([Flaky]).
    - KernelLaws.v: the contracts of the kernel's tables as classes, and Sim.v a simulated kernel that
      meets them, on which the theorems are applied to concrete inputs. A device has two tables of
      neighbours, that of [ip neigh], keyed by address, and that of [bridge fdb], keyed by hardware
      address; an entry is reported as it was set up to its type, flags and family ([neigh_held]).
    - pkg/routing/provider.go: Provider.v. The class [Provider] is the interface with its contract:
      nothing is done for a version already applied, a success records the version of a ready map, a
      failure records nothing, and the API server is left to the controller. [ensure_version] is the
      frame of all five [EnsureCIDRs]; the instances come with the providers.
    - pkg/routing/layer2, gre, vxlan2, vxlan (vxlan-legacy, with netlink_monitor.go) and ipsec (with
      its strategies and esp_listener.go): Layer2.v, Gre.v, Vxlan2.v, VxlanLegacy.v, EspListener.v,
      Ipsec.v and IpsecFacts.v. A provider's [X_apply] is what its [EnsureCIDRs] does between the
      snapshot and the record of the version.
    - Delivery.v and IpsecDelivery.v: the class [Delivery], what a run of a provider that returned nil
      is worth whatever the kernel held before, with an instance for each of the five providers:
      [delivered] says how a node's pods are reached, [deliverable] what this takes of the nodes, the
      provider and the kernel. For layer2 it takes nothing; for gre, IPv4 pod CIDRs and no
      link with the name of a node's tunnel and other endpoints ([remotes_ipv4], [tunnels_current]); for
      vxlan-legacy, a monitor that was started, /24 pod CIDRs and distinct addresses ([monitor_runs],
      [remotes_24], [addresses_apart]); for vxlan, distinct addresses ([remotes_apart]); for ipsec,
      distinct selectors ([selectors_apart]). The findings are why: outside of these the
      provider can return nil with a node unreached.
      Dispatch.v: [AnyProvider], the value of the interface [routing.Provider] an agent holds, with
      the call through the interface; it meets both classes again. VxlanPods.v: vxlan-legacy together
      with its monitor, from a pod's address to the node it runs on.
    - pkg/cni: Cni.v. pkg/routing/providercontroller.go: Controller.v and ControllerFacts.v, for any
      provider and CNI writer that meet their interfaces. pkg/watchers/nodecontroller.go:
      NodeController.v.
    - The composition: System.v is a step relation ([step]) on the state of the API server, the watch
      channel, the watcher, the node map, the controller, its provider and the kernel, with the steps
      of all parts interleaved in any way: the watcher makes one assignment at a time, the controller
      reads under the mutex between its methods and without the mutex in the middle of them.
      SystemFacts.v has its invariant, SystemProperties.v the theorems about its reachable states,
      Races.v those about memory and the unlocked reads. Recovery.v has the loop of the controller
      with the vxlan provider on a kernel that refuses calls.
    - cmd/networking-agent: Agent.v (options, flags, configuration file, local node, links, provider)
      and Process.v ([pstep]: main, the start of the two controllers, which become a [system], the
      loop over the signals and the end of the process).
    - operator: Operator.v has main.go (flags, set-up of the manager), SetupWithManager and
      rbacModeTransform; the calls into controller-runtime are data, their results a parameter.
      ApiTypes.v has the API types with their accessors and their generated deep copies, over a store
      of the memory that values share.

    The watcher and the controller run concurrently and share the node map. The controller's model
    takes the states of the map at each of its reads as input; ControllerFacts.v only assumes that a self
    node that is known stays known ([self_kept]), and the system is shown to produce nothing else: there
    the reads are steps between and, without the mutex, among the assignments of the watcher.

    ** What is proved

    - The whole agent, in every interleaving and with errors anywhere before: from the start of the
      process and in every configuration, when the watcher has caught up and the version applied last
      is current, every other node is reached, on the provider's condition [deliverable]
      (configured_agent_reaches_every_node); the map and the
      events still to be received never lose a node (watcher_never_loses_a_node); the network is only
      reported available when, on that condition, the nodes are reached (network_reported_when_served);
      from every reachable state the agent gets there by its own steps if its provider succeeds
      (agent_catches_up); the maps are well formed (reachable_maps_well_formed); and the step relation
      has everything the watcher's code does in a [runOnce], whatever it is answered
      (runOnce_is_a_path). What others do to the
      kernel is not made good before the next change of the map, and then if the provider succeeds
      (repaired_on_changes_only).
    - Faults: with the vxlan provider, refused calls only delay the agent (faults_only_delay).
    - Concurrency: the methods of the map are atomic for whoever takes the mutex, although memory
      changes by one assignment at a time (memory_changes_by_assignments); a read without it gives
      a value from before or after the update of a node, never a mixture within a field or a nil
      where there was a self node (unlocked_reads_are_old_or_new, unlocked_reads_never_panic); the
      example torn_reading has two fields of different moments.
    - The process: it ends quietly only on a signal, or for a command line that asks for help, and on a
      signal it does end (exits_quietly_only_on_a_signal, signals_end_the_process); every other end is a
      signal before it listens, a failed start, or a crash by the provider or by an event of an unknown
      type (crashes_have_a_cause); its options are those of the
      configuration file (configuration_file_decides), its command line is ignored
      (command_line_is_ignored).
    - The node map mirrors the API server (watcher_tracks_api, node_map_refines_view,
      update_computes_summary), and its version stands for its content (version_identifies_contents);
      deleted_self_is_never_refreshed is where it does not.
    - Every [Ensure] leaves its table as expected where the contract of the table allows it
      (route_table_converges, link_addresses_converge, neighbours_converge, links_converge,
      xfrm_states_converge, xfrm_policies_converge), makes only calls the difference asks for on any
      kernel (route_calls_justified, policy_calls), and what it does where it cannot succeed
      (changed_route_never_repaired, changed_address_refused, readdressed_state_stuck,
      duplicate_spi_exits). A run on the routes that is interrupted by a refused call is made up for
      by the next ones (routes_converge_despite_faults). The lemmas X_Ensure_success say what is there after a run that succeeded
      from any state of the kernel.
    - End to end, a provider reaches every node that has an address and a pod CIDR, on conditions on the
      nodes and on what the kernel holds that the statements name (layer2_reaches_every_node, vxlan2_reaches_every_node, gre_routes_use_their_tunnels,
      ipsec_protects_every_node, protected_both_ways, both_ends_agree), the monitor of vxlan-legacy
      resolves the addresses of their pods (pod_addresses_are_resolved), names and numbers stay in
      their bounds (tunnel_names, spi_identifies_association), with the inputs on which a provider
      ends the process instead (ipv6_node_exits, colliding_numerals_exit).
    - The controller reports the network available only after the routes and the CNI configuration are
      in place, always does so then, and never gives up (announcement_follows_routes,
      round_announces, controller_ends_only_when_cancelled); the configuration is right and settles
      (config_names_the_pod_cidr, cni_config_settles).
    - The operator: rbac_mode_filters, operator_starts_in_order, unknown_mode_is_found_out_late; deep
      copies share nothing with their originals (deep_copies_are_independent).

    ** Bounds and loops

    No definition runs on fuel that can run out: loops are over lists, and the endless loops of the
    watcher, the controller and the monitor are over the sequence of what they receive, with a result
    for "still running". The parser of IPv6 addresses counts its rounds down from 8, the most the
    address has groups for. The theorem on versions counts increments up to 2^64; the steps of
    [System] and [pstep] carry how often they can increment the version, and the theorems on the
    whole agent hold for runs of fewer than 2^64 increments.

    ** Not modelled

    Log messages (with pkg/util, whose AsJsonString formats them by json.Marshal) and the arguments
    of errors other than the cause; the times in a node condition; YAML, klog's flags and
    time.ParseDuration, which are parameters, like client-go, controller-runtime and the declarative
    pattern; the registration of the operator's API types with the scheme. Reads and writes of the
    node map are sequentially consistent and whole fields are read and written at once, which Go's
    memory model does not promise where the code races. The effects of one round of the controller
    are one step, as nobody else acts on what it acts on between its reads; changes of the kernel by
    other hands fall between two rounds (repaired_on_changes_only takes any state of the kernel).
    Runs that go on from where a refused call has left them are followed up for routes and
    neighbours, and end to end for the vxlan provider once it has its device; the other providers'
    theorems are about one run.
    A signal that the process cannot catch ends it in any state. *)

From stdpp Require Export base gmap strings list pretty sorting.
From Stdlib Require Export ZArith Strings.Byte Lia.

Declare Scope net_scope.
Delimit Scope net_scope with net.
Global Open Scope net_scope.
Global Open Scope Z_scope.

(** ** Bytes

    A Go [byte] is [Byte.byte], so that every value is in range; [zb] reads it as a number
    and [u8] is the conversion [byte(z)], which truncates. *)

#[export] Instance byte_eq_dec : EqDecision byte := Byte.byte_eq_dec.

Definition zb (b : byte) : Z := Z.of_N (Byte.to_N b).

Definition u8 (z : Z) : byte := default x00 (Byte.of_N (Z.to_N (z mod 256))).

Definition byte_and (a b : byte) : byte := u8 (Z.land (zb a) (zb b)).

Definition byte_not (a : byte) : byte := u8 (255 - zb a).

(** [u32] and [u64] are the conversions to (equivalently, the wrap-around of) the unsigned
    machine integers of Go. *)
Definition u16 (z : Z) : Z := z mod 2 ^ 16.
Definition u32 (z : Z) : Z := z mod 2 ^ 32.
Definition u64 (z : Z) : Z := z mod 2 ^ 64.

Lemma zb_range b : 0 <= zb b < 256.
Proof. unfold zb. pose proof (Byte.to_N_bounded b). lia. Qed.

Lemma u8_zb b : u8 (zb b) = b.
Proof. by destruct b. Qed.

Lemma zb_u8 z : zb (u8 z) = z mod 256.
Proof.
  unfold u8, zb. pose proof (Z.mod_pos_bound z 256 ltac:(lia)) as Hb.
  destruct (Byte.of_N (Z.to_N (z mod 256))) as [b|] eqn:Hz; simpl.
  - apply Byte.to_of_N in Hz. lia.
  - apply Byte.of_N_None_iff in Hz. lia.
Qed.

Lemma zb_inj a b : zb a = zb b -> a = b.
Proof. intros H. by rewrite <- (u8_zb a), H, u8_zb. Qed.

(** ** Iteration order

    Go leaves the order of a [range] over a map unspecified. Every such statement of the
    program takes its order from an [Order], an arbitrary permutation of the entries, and a
    theorem about the code quantifies over all of them. *)

Record Order := MkOrder {
  ord : forall A : Type, list A -> list A;
  ord_perm : forall (A : Type) (l : list A), ord A l ≡ₚ l
}.

Definition in_order : Order := MkOrder (fun _ l => l) (fun _ _ => reflexivity _).

Lemma reverse_order_perm (A : Type) (l : list A) : reverse l ≡ₚ l.
Proof. apply reverse_Permutation. Qed.

Definition reverse_order : Order := MkOrder (fun _ l => reverse l) reverse_order_perm.

(** [range o m] is the sequence of entries a [for k, v := range m] visits. *)
Definition range `{Countable K} {V} (o : Order) (m : gmap K V) : list (K * V) :=
  ord o _ (map_to_list m).

Section Range.
Context `{Countable K} {V : Type}.
Implicit Types (o : Order) (m : gmap K V).

Lemma elem_of_range o m k v : (k, v) ∈ range o m <-> m !! k = Some v.
Proof. unfold range. by rewrite (ord_perm o), elem_of_map_to_list. Qed.

Lemma NoDup_range_keys o m : NoDup (range o m).*1.
Proof. unfold range. rewrite (ord_perm o). apply NoDup_fst_map_to_list. Qed.

Lemma NoDup_range o m : NoDup (range o m).
Proof. eapply NoDup_fmap_1, NoDup_range_keys. Qed.

Lemma range_perm o m : range o m ≡ₚ map_to_list m.
Proof. apply ord_perm. Qed.

Lemma list_to_map_range o m : list_to_map (range o m) = m.
Proof.
  rewrite <- (list_to_map_to_list m) at 2.
  apply list_to_map_proper; [apply NoDup_range_keys | apply range_perm].
Qed.
End Range.

(** ** Tables built from a list

    [index_by key l] is the map [m] after [for _, x := range l { m[key(x)] = x }], where a
    [None] key stands for the [continue] of an entry that is skipped: the last entry of a
    key wins. *)

Definition index_by `{Countable K} {A} (key : A -> option K) (l : list A) : gmap K A :=
  foldl (fun m x => match key x with Some k => <[k := x]> m | None => m end) ∅ l.

Section IndexBy.
Context `{Countable K} {A : Type} (key : A -> option K).
Implicit Types (l : list A) (x : A).

Lemma index_by_snoc l x :
  index_by key (l ++ [x])
  = match key x with Some k => <[k := x]> (index_by key l) | None => index_by key l end.
Proof. unfold index_by. by rewrite foldl_app. Qed.

Lemma index_by_Some l k x : index_by key l !! k = Some x -> x ∈ l /\ key x = Some k.
Proof.
  induction l as [|y l IH] using rev_ind; [by cbn; rewrite lookup_empty|].
  rewrite index_by_snoc, elem_of_app, list_elem_of_singleton.
  destruct (key y) as [k'|] eqn:Hy; [|intros []%IH; auto].
  destruct (decide (k' = k)) as [->|Hne].
  - rewrite lookup_insert_eq. intros [= <-]. auto.
  - rewrite lookup_insert_ne by done. intros []%IH. auto.
Qed.

Lemma index_by_is_Some l k x : x ∈ l -> key x = Some k -> is_Some (index_by key l !! k).
Proof.
  induction l as [|y l IH] using rev_ind; [by intros ?%not_elem_of_nil|].
  rewrite index_by_snoc, elem_of_app, list_elem_of_singleton. intros [Hx| ->] Hk.
  - destruct (key y) as [k'|]; [|by apply IH].
    destruct (decide (k' = k)) as [->|Hne].
    + rewrite lookup_insert_eq. eauto.
    + rewrite lookup_insert_ne by done. by apply IH.
  - rewrite Hk, lookup_insert_eq. eauto.
Qed.

Lemma index_by_None l k : index_by key l !! k = None <-> forall x, x ∈ l -> key x ≠ Some k.
Proof.
  split.
  - intros Hk x Hx Hkx. destruct (index_by_is_Some l k x Hx Hkx) as [y Hy]. congruence.
  - intros Hno. destruct (index_by key l !! k) as [x|] eqn:Hx; [|done].
    apply index_by_Some in Hx as [Hx Hk]. by destruct (Hno x Hx).
Qed.

(** When no two entries share a key, the table holds every entry. *)
Lemma index_by_unique l k x :
  NoDup (omap key l) -> index_by key l !! k = Some x <-> x ∈ l /\ key x = Some k.
Proof.
  intros Hnd. split; [apply index_by_Some|]. intros [Hx Hk].
  induction l as [|y l IH] using rev_ind; [by apply not_elem_of_nil in Hx|].
  rewrite index_by_snoc. rewrite omap_app in Hnd. simpl in Hnd.
  apply elem_of_app in Hx. rewrite list_elem_of_singleton in Hx.
  destruct (key y) as [k'|] eqn:Hy; simpl in *.
  - apply NoDup_app in Hnd as (Hnd & Hdisj & _). destruct Hx as [Hx| ->].
    + rewrite lookup_insert_ne; [by apply IH|]. intros ->.
      apply (Hdisj k); [|by left]. apply list_elem_of_omap. eauto.
    + assert (k' = k) as -> by congruence. apply lookup_insert_eq.
  - rewrite app_nil_r in Hnd. destruct Hx as [Hx| ->]; [by apply IH|congruence].
Qed.

(** The table does not depend on the order when no two entries share a key. *)
Lemma index_by_perm l1 l2 :
  NoDup (omap key l1) -> l1 ≡ₚ l2 -> index_by key l1 = index_by key l2.
Proof.
  intros Hnd Hp. apply map_eq. intros k. apply option_eq. intros x.
  rewrite !index_by_unique, Hp; try done. by rewrite <- Hp.
Qed.
End IndexBy.

(** ** Lists *)

Lemma fst_injective_lookup {A B} (l : list (A * B)) a b1 b2 :
  NoDup l.*1 -> (a, b1) ∈ l -> (a, b2) ∈ l -> b1 = b2.
Proof.
  induction l as [|[a' b'] l IH]; simpl; [by intros _ ?%not_elem_of_nil|].
  rewrite NoDup_cons. intros [Hn Hnd] H1 H2.
  apply elem_of_cons in H1, H2.
  assert (forall b, (a', b) ∈ l -> False) as Hno.
  { intros b Hb. apply Hn. apply list_elem_of_fmap. by exists (a', b). }
  destruct H1 as [H1|H1], H2 as [H2|H2]; simplify_eq; eauto; by destruct (Hno _ ltac:(eassumption)).
Qed.

Lemma NoDup_omap_fst {A B C} (f : A * B -> option C) (g : C -> A) (l : list (A * B)) :
  NoDup l.*1 -> (forall p c, p ∈ l -> f p = Some c -> g c = p.1) -> NoDup (g <$> omap f l).
Proof.
  induction l as [|p l IH]; simpl; [constructor|]. rewrite NoDup_cons.
  intros [Hn Hnd] Hg. assert (NoDup (g <$> omap f l)) as Hl.
  { apply IH; [done|]. intros q c Hq. apply Hg. by right. }
  destruct (f p) as [c|] eqn:Hp; simpl; [|done]. apply NoDup_cons. split; [|done].
  rewrite (Hg p c ltac:(by left) Hp). intros Hin. apply Hn.
  apply list_elem_of_fmap in Hin as (c' & Hc' & Hin).
  apply list_elem_of_omap in Hin as (q & Hq & Hfq).
  apply list_elem_of_fmap. exists q. split; [|done].
  rewrite Hc'. apply (Hg q c'); [by right|done].
Qed.

Lemma filter_none {A} (P : A -> Prop) `{!forall x, Decision (P x)} (l : list A) :
  (forall x, x ∈ l -> ~ P x) -> filter P l = [].
Proof.
  induction l as [|x l IH]; [done|]. intros Hn. rewrite filter_cons_False.
  - apply IH. intros y Hy. apply Hn. by right.
  - apply Hn. by left.
Qed.

Lemma filter_all {A} (P : A -> Prop) `{!forall x, Decision (P x)} (l : list A) :
  (forall x, x ∈ l -> P x) -> filter P l = l.
Proof.
  induction l as [|x l IH]; [done|]. intros Hn. rewrite filter_cons_True.
  - f_equal. apply IH. intros y Hy. apply Hn. by right.
  - apply Hn. by left.
Qed.

Lemma filter_cons_bool {A} (f : A -> bool) (x : A) (l : list A) :
  filter f (x :: l) = if f x then x :: filter f l else filter f l.
Proof. rewrite filter_cons. by destruct (f x). Qed.

Lemma filter_snoc_bool {A} (f : A -> bool) (l : list A) x :
  filter (fun y => f y) (l ++ [x]) = filter (fun y => f y) l ++ (if f x then [x] else []).
Proof. rewrite filter_app, (filter_cons_bool f x []). by destruct (f x). Qed.

Lemma filter_split {A} (f : A -> bool) (l : list A) :
  l ≡ₚ filter f l ++ filter (fun x => negb (f x)) l.
Proof.
  induction l as [|x l IH]; [done|]. rewrite !filter_cons_bool. destruct (f x); simpl.
  - by rewrite <- IH.
  - by rewrite <- Permutation_middle, <- IH.
Qed.

Lemma filter_ext_bool {A} (f g : A -> bool) (l : list A) :
  (forall x, x ∈ l -> f x = g x) -> filter f l = filter g l.
Proof.
  induction l as [|x l IH]; [done|]. intros Hfg. rewrite !filter_cons_bool.
  rewrite (Hfg x ltac:(by left)), IH; [done|]. intros y Hy. apply Hfg. by right.
Qed.

(** What is left of a list without repetition when some of its members are taken away. *)
Lemma remainder_iff {A} (l taken kept : list A) a :
  NoDup l -> l ≡ₚ taken ++ kept -> a ∈ kept <-> a ∈ l /\ a ∉ taken.
Proof.
  intros Hnd Hp. rewrite Hp in Hnd. apply NoDup_app in Hnd as (_ & Hd & _).
  rewrite Hp, elem_of_app. split; [|tauto]. intros Hk. split; [auto|]. intros Ht. by apply (Hd a).
Qed.

(** ** Automation *)

Create HintDb net.
Create Rewrite HintDb net.

#[export] Hint Resolve zb_range : net.
#[export] Hint Rewrite u8_zb zb_u8 : net.

(** [dec_bool] turns the boolean tests of the code into propositions. *)
Ltac dec_bool :=
  repeat match goal with
  | H : context [bool_decide _] |- _ => case_bool_decide
  | |- context [bool_decide _] => case_bool_decide
  | H : (_ && _) = true |- _ => apply andb_true_iff in H as [? ?]
  | H : (_ && _)%bool = false |- _ => apply andb_false_iff in H
  | H : (_ || _) = false |- _ => apply orb_false_iff in H as [? ?]
  | H : (_ || _) = true |- _ => apply orb_true_iff in H
  | H : negb _ = true |- _ => apply negb_true_iff in H
  | H : negb _ = false |- _ => apply negb_false_iff in H
  | H : (_ =? _)%Z = true |- _ => apply Z.eqb_eq in H
  | H : (_ =? _)%Z = false |- _ => apply Z.eqb_neq in H
  end.
