(* ===== verification/GoNet.v ===== *)
(** * The parts of Go's standard library that the program computes with

    Package [net] of Go 1.22 (the toolchain of go.mod): [IP], [IPMask], [IPNet] with
    [To4], [Equal], [Mask], [Size], [String], [ParseIP] and [ParseCIDR]; [encoding/binary];
    and the string functions [strings.HasPrefix], [strings.ReplaceAll] and [fmt]'s [%02x].
    A byte slice that may be nil is an [option (list byte)]: [None] is nil, which differs
    from the empty slice [Some []] in a comparison with nil and in nothing else. *)

From Stdlib Require Import Ascii.
From S2P Require Import Prelude.

Definition IP : Type := option (list byte).
Definition IPMask : Type := option (list byte).

#[export] Instance IP_eq_dec : EqDecision IP := option_eq_dec.
#[export] Instance IPMask_eq_dec : EqDecision IPMask := option_eq_dec.

(** The bytes a slice holds: nil has none. *)
Definition bytes_of (s : option (list byte)) : list byte := default [] s.

Record IPNet := MkIPNet { net_IP : IP; net_Mask : IPMask }.

#[export] Instance IPNet_eq_dec : EqDecision IPNet.
Proof. solve_decision. Defined.

(** ** Addresses and masks *)

Definition bytes_Equal (a b : option (list byte)) : bool := bool_decide (bytes_of a = bytes_of b).

Definition v4InV6Prefix : list byte := replicate 10 x00 ++ [xff; xff].

(** [func (ip IP) To4() IP] *)
Definition To4 (ip : IP) : IP :=
  let p := bytes_of ip in
  if bool_decide (length p = 4%nat) then Some p
  else if bool_decide (length p = 16%nat) && bool_decide (take 12 p = v4InV6Prefix)
  then Some (drop 12 p)
  else None.

(** [func (ip IP) Equal(x IP) bool]: an IPv4 address and the same address in IPv6 form are
    equal. *)
Definition IP_Equal (ip x : IP) : bool :=
  let p := bytes_of ip in
  let q := bytes_of x in
  if bool_decide (length p = length q) then bool_decide (p = q)
  else if bool_decide (length p = 4%nat) && bool_decide (length q = 16%nat)
  then bool_decide (take 12 q = v4InV6Prefix) && bool_decide (p = drop 12 q)
  else if bool_decide (length p = 16%nat) && bool_decide (length q = 4%nat)
  then bool_decide (take 12 p = v4InV6Prefix) && bool_decide (q = drop 12 p)
  else false.

(** [func IPv4(a, b, c, d byte) IP]: the 16-byte form. *)
Definition IPv4 (a b c d : byte) : IP := Some (v4InV6Prefix ++ [a; b; c; d]).

Definition IPv4Mask (a b c d : byte) : IPMask := Some [a; b; c; d].

(** [func (ip IP) IsLinkLocalUnicast() bool] *)
Definition IsLinkLocalUnicast (ip : IP) : bool :=
  match To4 ip with
  | Some (a :: b :: _) => bool_decide (a = xa9) && bool_decide (b = xfe)
  | _ => match bytes_of ip with
         | a :: b :: _ => bool_decide (length (bytes_of ip) = 16%nat)
                          && bool_decide (a = xfe) && bool_decide (byte_and b xc0 = x80)
         | _ => false
         end
  end.

(** The inner loop of [simpleMaskLength]: [for v&0x80 != 0 { n++; v <<= 1 }], on a byte; a
    byte has at most eight leading ones, so eight rounds are enough. *)
Fixpoint leading_ones (rounds : nat) (v n : Z) : Z * Z :=
  match rounds with
  | O => (v, n)
  | S r => if Z.testbit v 7 then leading_ones r (Z.shiftl v 1 mod 256) (n + 1) else (v, n)
  end.

(** [func simpleMaskLength(mask IPMask) int], -1 for a mask that is not ones then zeros *)
Fixpoint simpleMaskLength_from (mask : list byte) (n : Z) : Z :=
  match mask with
  | [] => n
  | v :: rest =>
      if bool_decide (v = xff) then simpleMaskLength_from rest (n + 8)
      else let '(v', n') := leading_ones 8 (zb v) n in
           if v' =? 0 then
             if forallb (fun b => bool_decide (b = x00)) rest then n' else -1
           else -1
  end.

Definition simpleMaskLength (mask : list byte) : Z := simpleMaskLength_from mask 0.

(** [func (m IPMask) Size() (ones, bits int)] *)
Definition Mask_Size (m : IPMask) : Z * Z :=
  let ones := simpleMaskLength (bytes_of m) in
  if ones =? -1 then (0, 0) else (ones, Z.of_nat (length (bytes_of m)) * 8).

(** The loop of [CIDRMask]: byte [i] takes its ones from the [n] that remain. *)
Fixpoint CIDRMask_bytes (l : nat) (n : Z) : list byte :=
  match l with
  | O => []
  | S l' => if 8 <=? n then xff :: CIDRMask_bytes l' (n - 8)
            else byte_not (u8 (Z.shiftr 255 n)) :: CIDRMask_bytes l' 0
  end.

Definition CIDRMask (ones bits : Z) : IPMask :=
  if negb (bits =? 32) && negb (bits =? 128) then None
  else if (ones <? 0) || (bits <? ones) then None
  else Some (CIDRMask_bytes (Z.to_nat (bits / 8)) ones).

(** [func (ip IP) Mask(mask IPMask) IP] *)
Definition IP_Mask (ip : IP) (mask : IPMask) : IP :=
  let p := bytes_of ip in
  let m := bytes_of mask in
  let m := if bool_decide (length m = 16%nat) && bool_decide (length p = 4%nat)
              && bool_decide (take 12 m = replicate 12 xff) then drop 12 m else m in
  let p := if bool_decide (length m = 4%nat) && bool_decide (length p = 16%nat)
              && bool_decide (take 12 p = v4InV6Prefix) then drop 12 p else p in
  if bool_decide (length p = length m) then Some (zip_with byte_and p m) else None.

(** ** Printing *)

Definition digit (z : Z) : ascii := Ascii.ascii_of_N (Z.to_N (48 + z)).

(** [netip.appendDecimal], for a value below 1000. *)
Definition appendDecimal (x : Z) : string :=
  (if 100 <=? x then String (digit (x / 100)) EmptyString else EmptyString) +:+
  (if 10 <=? x then String (digit (x / 10 mod 10)) EmptyString else EmptyString) +:+
  String (digit (x mod 10)) EmptyString.

Definition hex_digit (z : Z) : ascii :=
  Ascii.ascii_of_N (Z.to_N (if z <? 10 then 48 + z else 87 + z)).

(** The verb [%02x] of a byte, and [net.hexString]. *)
Definition hex02 (b : byte) : string :=
  String (hex_digit (zb b / 16)) (String (hex_digit (zb b mod 16)) EmptyString).

Definition hexString (l : list byte) : string := foldr (fun b s => hex02 b +:+ s) EmptyString l.

(** [netip.appendHex] of a 16-bit group, without leading zeros. *)
Definition appendHex (x : Z) : string :=
  (if 4096 <=? x then String (hex_digit (x / 4096)) EmptyString else EmptyString) +:+
  (if 256 <=? x then String (hex_digit (x / 256 mod 16)) EmptyString else EmptyString) +:+
  (if 16 <=? x then String (hex_digit (x / 16 mod 16)) EmptyString else EmptyString) +:+
  String (hex_digit (x mod 16)) EmptyString.

Definition dotted (a b c d : byte) : string :=
  appendDecimal (zb a) +:+ "." +:+ appendDecimal (zb b) +:+ "." +:+
  appendDecimal (zb c) +:+ "." +:+ appendDecimal (zb d).

(** The 16-bit groups of an IPv6 address. *)
Fixpoint groups16 (p : list byte) : list Z :=
  match p with
  | a :: b :: rest => (zb a * 256 + zb b) :: groups16 rest
  | _ => []
  end.

(** The length of the run of zero groups a list starts with. *)
Fixpoint zero_run (g : list Z) : nat :=
  match g with
  | x :: rest => if x =? 0 then S (zero_run rest) else O
  | [] => O
  end.

(** The first longest run of at least two zero groups: its start and its length. *)
Fixpoint longest_zero_run (g : list Z) (i : nat) (best : nat * nat) : nat * nat :=
  match g with
  | [] => best
  | _ :: rest =>
      let l := zero_run g in
      longest_zero_run rest (S i)
        (if (2 <=? l)%nat && (best.2 <? l)%nat then (i, l) else best)
  end.

Definition join_colon (g : list Z) : string :=
  match g with
  | [] => EmptyString
  | x :: rest => appendHex x +:+ foldr (fun y s => ":" +:+ appendHex y +:+ s) EmptyString rest
  end.

(** [netip.Addr.appendTo6] *)
Definition IPv6_String (p : list byte) : string :=
  let g := groups16 p in
  let '(s, l) := longest_zero_run g 0 (0%nat, 0%nat) in
  if bool_decide (l = 0%nat) then join_colon g
  else join_colon (take s g) +:+ "::" +:+ join_colon (drop (s + l) g).

(** [func (ip IP) String() string] *)
Definition IP_String (ip : IP) : string :=
  let p := bytes_of ip in
  if bool_decide (length p = 0%nat) then "<nil>"
  else if negb (bool_decide (length p = 4%nat)) && negb (bool_decide (length p = 16%nat))
  then "?" +:+ hexString p
  else match To4 ip with
       | Some [a; b; c; d] => dotted a b c d
       | _ => IPv6_String p
       end.

(** [func networkNumberAndMask(n *IPNet) (ip IP, m IPMask)] *)
Definition networkNumberAndMask (n : IPNet) : IP * IPMask :=
  let ip := match To4 (net_IP n) with
            | Some p => Some p
            | None => if bool_decide (length (bytes_of (net_IP n)) = 16%nat)
                      then Some (bytes_of (net_IP n)) else None
            end in
  match ip with
  | None => (None, None)
  | Some p =>
      let m := bytes_of (net_Mask n) in
      if bool_decide (length m = 4%nat) then
        if bool_decide (length p = 4%nat) then (ip, Some m) else (None, None)
      else if bool_decide (length m = 16%nat) then
        (ip, Some (if bool_decide (length p = 4%nat) then drop 12 m else m))
      else (None, None)
  end.

(** [func (n *IPNet) String() string]. A prefix length is at most 128, within the range of
    [appendDecimal]. *)
Definition IPNet_String (n : IPNet) : string :=
  match networkNumberAndMask n with
  | (Some nn, Some m) =>
      let l := simpleMaskLength m in
      if l =? -1 then IP_String (Some nn) +:+ "/" +:+ hexString m
      else IP_String (Some nn) +:+ "/" +:+ appendDecimal l
  | _ => "<nil>"
  end.

(** ** Parsing *)

Definition is_digit (c : ascii) : bool := (48 <=? N_of_ascii c)%N && (N_of_ascii c <=? 57)%N.

Definition digit_value (c : ascii) : Z := Z.of_N (N_of_ascii c) - 48.

(** [netip.parseIPv4]: [prev] is the character before the current one, [digLen] the digits
    of the current octet. *)
Fixpoint parseIPv4_loop (s : string) (prev : option ascii) (fields : list byte)
    (val digLen : Z) : option (list byte) :=
  match s with
  | EmptyString =>
      if (length fields <? 3)%nat then None else Some (fields ++ [u8 val])
  | String c rest =>
      if is_digit c then
        if (digLen =? 1) && (val =? 0) then None
        else let val' := val * 10 + digit_value c in
             if 255 <? val' then None
             else parseIPv4_loop rest (Some c) fields val' (digLen + 1)
      else if bool_decide (c = "."%char) then
        if bool_decide (prev = None) || bool_decide (rest = EmptyString)
           || bool_decide (prev = Some "."%char) then None
        else if (length fields =? 3)%nat then None
        else parseIPv4_loop rest (Some c) (fields ++ [u8 val]) 0 0
      else None
  end.

Definition netip_parseIPv4 (s : string) : option (list byte) := parseIPv4_loop s None [] 0 0.

Definition hex_value (c : ascii) : option Z :=
  let n := Z.of_N (N_of_ascii c) in
  if (48 <=? n) && (n <=? 57) then Some (n - 48)
  else if (97 <=? n) && (n <=? 102) then Some (n - 87)
  else if (65 <=? n) && (n <=? 70) then Some (n - 55)
  else None.

(** The scan of one hexadecimal group: its value, its length and what follows it; [None] for
    a group of more than four digits. *)
Fixpoint scan_group (s : string) (off : nat) (acc : Z) : option (Z * nat * string) :=
  match s with
  | EmptyString => Some (acc, off, s)
  | String c rest =>
      match hex_value c with
      | None => Some (acc, off, s)
      | Some d =>
          let acc' := acc * 16 + d in
          if (3 <? off)%nat then None
          else if 65535 <? acc' then None
          else scan_group rest (S off) acc'
      end
  end.

(** [netip.parseIPv6], after the zone has been split off: each round reads one group, so
    eight rounds are enough ([for i < 16], [i] growing by two). The result is the bytes
    read, the position of the ellipsis and the rest of the string. *)
Fixpoint parseIPv6_loop (rounds : nat) (s : string) (ip : list byte) (ellipsis : option nat)
    : option (list byte * option nat * string) :=
  match rounds with
  | O => Some (ip, ellipsis, s)
  | S r =>
      match scan_group s 0 0 with
      | None => None
      | Some (acc, off, rest) =>
          if (off =? 0)%nat then None
          else match rest with
          | String "."%char _ =>
              if bool_decide (ellipsis = None) && negb (length ip =? 12)%nat then None
              else if (12 <? length ip)%nat then None
              else match netip_parseIPv4 s with
                   | None => None
                   | Some ip4 => Some (ip ++ ip4, ellipsis, EmptyString)
                   end
          | EmptyString => Some (ip ++ [u8 (acc / 256); u8 acc], ellipsis, EmptyString)
          | String ":"%char EmptyString => None
          | String ":"%char (String ":"%char rest') =>
              let ip' := ip ++ [u8 (acc / 256); u8 acc] in
              match ellipsis with
              | Some _ => None
              | None => match rest' with
                        | EmptyString => Some (ip', Some (length ip'), EmptyString)
                        | _ => parseIPv6_loop r rest' ip' (Some (length ip'))
                        end
              end
          | String ":"%char rest' =>
              parseIPv6_loop r rest' (ip ++ [u8 (acc / 256); u8 acc]) ellipsis
          | String _ _ => None
          end
      end
  end.

Definition netip_parseIPv6 (s : string) : option (list byte) :=
  let finish '(ip, ellipsis, rest) :=
    if negb (bool_decide (rest = EmptyString)) then None
    else if (length ip <? 16)%nat then
      match ellipsis with
      | None => None
      | Some e => Some (take e ip ++ replicate (16 - length ip) x00 ++ drop e ip)
      end
    else match ellipsis with Some _ => None | None => Some ip end in
  match s with
  | String ":"%char (String ":"%char EmptyString) => Some (replicate 16 x00)
  | String ":"%char (String ":"%char rest) => parseIPv6_loop 8 rest [] (Some 0%nat) ≫= finish
  | _ => parseIPv6_loop 8 s [] None ≫= finish
  end.

Fixpoint contains (c : ascii) (s : string) : bool :=
  match s with
  | EmptyString => false
  | String c' rest => bool_decide (c = c') || contains c rest
  end.

(** [netip.ParseAddr] as [net] uses it: 4 bytes or 16, and nothing with a zone, which both
    callers refuse. The first of '.', ':' and '%' in the text decides the form. *)
Fixpoint ParseAddr_form (s whole : string) : option (list byte) :=
  match s with
  | EmptyString => None
  | String "."%char _ => netip_parseIPv4 whole
  | String ":"%char _ => if contains "%"%char whole then None else netip_parseIPv6 whole
  | String "%"%char _ => None
  | String _ rest => ParseAddr_form rest whole
  end.

Definition ParseAddr (s : string) : option (list byte) := ParseAddr_form s s.

(** [netip.Addr.As16] *)
Definition As16 (p : list byte) : list byte :=
  if bool_decide (length p = 4%nat) then v4InV6Prefix ++ p else p.

(** [func ParseIP(s string) IP] *)
Definition ParseIP (s : string) : IP := As16 <$> ParseAddr s.

(** [dtoi], with its bound [big] = 0xFFFFFF: the number, the characters read, and the rest;
    [None] stands for a failure. *)
Fixpoint dtoi_loop (s : string) (n : Z) (i : nat) : option (Z * nat * string) :=
  match s with
  | String c rest =>
      if is_digit c then
        let n' := n * 10 + digit_value c in
        if 16777215 <=? n' then None else dtoi_loop rest n' (S i)
      else Some (n, i, s)
  | EmptyString => Some (n, i, s)
  end.

Definition dtoi (s : string) : option (Z * string) :=
  match dtoi_loop s 0 0 with
  | Some (n, i, rest) => if (i =? 0)%nat then None else Some (n, rest)
  | None => None
  end.

(** The split of a string at the first [c]. *)
Fixpoint split_at (c : ascii) (s : string) : option (string * string) :=
  match s with
  | EmptyString => None
  | String c' rest =>
      if bool_decide (c' = c) then Some (EmptyString, rest)
      else '(a, b) ← split_at c rest; Some (String c' a, b)
  end.

(** [func ParseCIDR(s string) (IP, *IPNet, error)], its second result: [None] is the error. *)
Definition ParseCIDR (s : string) : option IPNet :=
  '(addr, mask) ← split_at "/"%char s;
  p ← ParseAddr addr;
  '(n, rest) ← dtoi mask;
  let bits := Z.of_nat (length p) * 8 in
  if negb (bool_decide (rest = EmptyString)) || (n <? 0) || (bits <? n) then None
  else let m := CIDRMask n bits in
       Some (MkIPNet (IP_Mask (Some (As16 p)) m) m).

(** ** encoding/binary *)

(** [binary.BigEndian.Uint32] of four bytes *)
Definition BigEndian_Uint32 (b0 b1 b2 b3 : byte) : Z :=
  Z.lor (zb b3) (Z.lor (Z.shiftl (zb b2) 8) (Z.lor (Z.shiftl (zb b1) 16) (Z.shiftl (zb b0) 24))).

(** [binary.LittleEndian.PutUint16] and [PutUint32], as the bytes they store. *)
Definition LittleEndian_PutUint16 (v : Z) : list byte := [u8 v; u8 (Z.shiftr v 8)].
Definition LittleEndian_PutUint32 (v : Z) : list byte :=
  [u8 v; u8 (Z.shiftr v 8); u8 (Z.shiftr v 16); u8 (Z.shiftr v 24)].

(** ** strings *)

(** [strings.HasPrefix] *)
Fixpoint HasPrefix (s prefix : string) : bool :=
  match prefix, s with
  | EmptyString, _ => true
  | String p prefix', String c s' => bool_decide (c = p) && HasPrefix s' prefix'
  | String _ _, EmptyString => false
  end.

Fixpoint string_drop (n : nat) (s : string) : string :=
  match n, s with
  | S n', String _ s' => string_drop n' s'
  | _, _ => s
  end.

(** [strings.ReplaceAll] for a non-empty [old]: the occurrences from left to right, not
    overlapping. [skip] counts the characters of an occurrence still to be dropped. *)
Fixpoint ReplaceAll_loop (s old new : string) (skip : nat) : string :=
  match s with
  | EmptyString => EmptyString
  | String c rest =>
      match skip with
      | S k => ReplaceAll_loop rest old new k
      | O => if HasPrefix s old
             then new +:+ ReplaceAll_loop rest old new (String.length old - 1)
             else String c (ReplaceAll_loop rest old new 0)
      end
  end.

Definition ReplaceAll (s old new : string) : string := ReplaceAll_loop s old new 0.

(** [strings.TrimSpace], on ASCII text. *)
Definition is_space (c : ascii) : bool :=
  bool_decide (c ∈ ["009"; "010"; "011"; "012"; "013"; " "]%char).

Fixpoint TrimLeft (s : string) : string :=
  match s with
  | String c rest => if is_space c then TrimLeft rest else s
  | EmptyString => EmptyString
  end.

Definition TrimSpace (s : string) : string := String.rev (TrimLeft (String.rev (TrimLeft s))).

(** ** Examples *)

Example ParseIP_v4 : ParseIP "10.0.0.1" = IPv4 x0a x00 x00 x01.
Proof. vm_compute. reflexivity. Qed.

Example ParseIP_leading_zero : ParseIP "10.0.00.1" = None.
Proof. vm_compute. reflexivity. Qed.

Example ParseIP_mapped : ParseIP "::ffff:10.0.0.1" = IPv4 x0a x00 x00 x01.
Proof. vm_compute. reflexivity. Qed.

Example ParseIP_v6_String :
  IP_String (ParseIP "2001:DB8:0:0:1:0:0:1") = "2001:db8::1:0:0:1".
Proof. vm_compute. reflexivity. Qed.

Example ParseCIDR_v4 :
  ParseCIDR "100.96.2.7/24"
  = Some (MkIPNet (Some [x64; x60; x02; x00]) (IPv4Mask xff xff xff x00)).
Proof. vm_compute. reflexivity. Qed.

Example ParseCIDR_String : IPNet_String <$> ParseCIDR "fd00:10:244::1/64" = Some "fd00:10:244::/64".
Proof. vm_compute. reflexivity. Qed.
