(* ===== verification/GoNetFacts.v ===== *)
(** * Facts about the standard library's addresses

    [IP_Equal] is the equivalence "same 16-byte form"; what [ParseIP] and [ParseCIDR]
    return is well formed, so that equality up to [IP_Equal] is equality there; and for IPv4
    printing is inverted by parsing, which makes the strings the program uses as map keys
    injective on IPv4 networks. *)

From Stdlib Require Import Ascii.
From S2P Require Import Prelude GoNet.

(** ** Equality of addresses *)

Lemma bytes_Equal_iff a b : bytes_Equal a b = true <-> bytes_of a = bytes_of b.
Proof. apply bool_decide_eq_true. Qed.

Lemma take_drop_eq {A} n (p l : list A) x :
  l = take n p -> (p = l ++ x <-> drop n p = x).
Proof.
  intros ->. split; intros H.
  - rewrite <- (take_drop n p) in H at 1. by apply app_inv_head in H.
  - by rewrite <- H, take_drop.
Qed.

Lemma As16_length p : length p = 4%nat -> length (As16 p) = 16%nat.
Proof. intros H. unfold As16. rewrite bool_decide_true by done. rewrite length_app, H. done. Qed.

Lemma prefix_split p q :
  take 12 q = v4InV6Prefix /\ p = drop 12 q <-> v4InV6Prefix ++ p = q.
Proof.
  split.
  - intros [H ->]. by rewrite <- H, take_drop.
  - intros <-. done.
Qed.

(** Two addresses are [Equal] exactly when their 16-byte forms are the same bytes. *)
Lemma IP_Equal_iff a b : IP_Equal a b = true <-> As16 (bytes_of a) = As16 (bytes_of b).
Proof.
  unfold IP_Equal, As16. generalize (bytes_of a) (bytes_of b). clear a b. intros p q.
  case_bool_decide as Hl.
  { rewrite bool_decide_eq_true, Hl. case_bool_decide; [|done].
    split; [by intros ->|apply app_inv_head]. }
  case_bool_decide as Hp4; cbn [andb].
  { rewrite (bool_decide_false (length q = 4%nat)) by congruence.
    case_bool_decide as Hq.
    - rewrite andb_true_iff, !bool_decide_eq_true. apply prefix_split.
    - rewrite andb_false_r. split; [done|]. intros H. exfalso. apply Hq. rewrite <- H.
      rewrite length_app, Hp4. done. }
  rewrite (andb_comm (bool_decide _)).
  case_bool_decide as Hq4; cbn [andb]; [|split; congruence].
  case_bool_decide as Hp.
  - rewrite andb_true_iff, !bool_decide_eq_true, prefix_split. naive_solver.
  - split; [done|]. intros ->. exfalso. apply Hp. rewrite length_app, Hq4. done.
Qed.

Definition IP_equiv (a b : IP) : Prop := IP_Equal a b = true.

#[export] Instance IP_equiv_Equivalence : Equivalence IP_equiv.
Proof.
  split; unfold IP_equiv.
  - intros a. by apply IP_Equal_iff.
  - intros a b. rewrite !IP_Equal_iff. congruence.
  - intros a b c. rewrite !IP_Equal_iff. congruence.
Qed.

Lemma IP_Equal_refl a : IP_Equal a a = true.
Proof. by apply IP_Equal_iff. Qed.

Lemma IP_Equal_sym a b : IP_Equal a b = IP_Equal b a.
Proof. apply eq_bool_prop_intro. rewrite !Is_true_true, !IP_Equal_iff. naive_solver. Qed.

(** On addresses of one length, [Equal] is equality of the bytes. *)
Lemma IP_Equal_same_length a b :
  length (bytes_of a) = length (bytes_of b) -> IP_Equal a b = true -> bytes_of a = bytes_of b.
Proof. unfold IP_Equal. intros ->. rewrite bool_decide_true by done. apply bool_decide_eq_true. Qed.

#[export] Hint Resolve IP_Equal_refl : net.

(** ** What the parsers return *)

Lemma parseIPv4_loop_length s : forall prev fields val dl p,
  (length fields <= 3)%nat -> parseIPv4_loop s prev fields val dl = Some p -> length p = 4%nat.
Proof.
  induction s as [|c s IH]; simpl; intros prev fields val dl p Hf.
  - destruct (length fields <? 3)%nat eqn:Hl; [done|]. intros [= <-].
    apply Nat.ltb_ge in Hl. rewrite length_app. simpl. lia.
  - destruct (is_digit c).
    + destruct (_ && _); [done|]. destruct (255 <? _); [done|]. by apply IH.
    + case_bool_decide; [|done]. destruct (_ || _); [done|].
      destruct (length fields =? 3)%nat eqn:Hl; [done|]. apply Nat.eqb_neq in Hl.
      apply IH. rewrite length_app. simpl. lia.
Qed.

Lemma netip_parseIPv4_length s p : netip_parseIPv4 s = Some p -> length p = 4%nat.
Proof. apply parseIPv4_loop_length. simpl. lia. Qed.

Lemma parseIPv6_loop_length rounds : forall s ip e ip' e' rest,
  (length ip + 2 * rounds <= 16)%nat ->
  parseIPv6_loop rounds s ip e = Some (ip', e', rest) -> (length ip' <= 16)%nat.
Proof.
  induction rounds as [|r IH]; intros s ip e ip' e' rest Hl; cbn [parseIPv6_loop].
  { intros [= <- <- <-]. lia. }
  assert (forall x y, length (ip ++ [x; y]) + 2 * r <= 16)%nat as Hxy.
  { intros x y. rewrite length_app. simpl. lia. }
  intros H. repeat (case_match; simplify_eq; try (eapply IH; [|eassumption]; apply Hxy)).
  all: try (rewrite length_app; simpl; lia).
  all: match goal with H : netip_parseIPv4 _ = Some _ |- _ => apply netip_parseIPv4_length in H end.
  all: match goal with H : (12 <? _)%nat = false |- _ => apply Nat.ltb_ge in H end.
  all: rewrite length_app; lia.
Qed.

Lemma netip_parseIPv6_length s p : netip_parseIPv6 s = Some p -> length p = 16%nat.
Proof.
  unfold netip_parseIPv6. set (finish := fun _ => _).
  assert (forall s e, parseIPv6_loop 8 s [] e ≫= finish = Some p -> length p = 16%nat) as Hf.
  { intros s' e. destruct (parseIPv6_loop 8 s' [] e) as [[[ip e'] rest]|] eqn:Hr; [|done].
    apply parseIPv6_loop_length in Hr; [|simpl; lia]. unfold finish. simpl.
    destruct (negb _); [done|]. destruct (length ip <? 16)%nat eqn:Hl.
    - apply Nat.ltb_lt in Hl. destruct e' as [k|]; [|done]. intros [= <-].
      rewrite !length_app, length_take, length_drop, length_replicate. lia.
    - apply Nat.ltb_ge in Hl. destruct e'; [done|]. intros [= <-]. lia. }
  intros H. repeat (case_match; simplify_eq; eauto).
Qed.

Lemma ParseAddr_length s p : ParseAddr s = Some p -> length p = 4%nat \/ length p = 16%nat.
Proof.
  unfold ParseAddr. generalize s at 2. intros w.
  induction s as [|c s IH]; cbn [ParseAddr_form]; [done|]. intros H.
  repeat (case_match; simplify_eq; eauto using netip_parseIPv4_length, netip_parseIPv6_length).
Qed.

(** [ParseIP] returns nil or a 16-byte address. *)
Lemma ParseIP_length s p : ParseIP s = Some p -> length p = 16%nat.
Proof.
  unfold ParseIP. intros (q & Hq & ->)%fmap_Some.
  apply ParseAddr_length in Hq as [Hq|Hq]; [by apply As16_length|].
  unfold As16. by rewrite bool_decide_false by lia.
Qed.

Lemma CIDRMask_bytes_length l n : length (CIDRMask_bytes l n) = l.
Proof. revert n. induction l as [|l IH]; intros n; simpl; [done|]. case_match; simpl; by rewrite IH. Qed.

(** The networks the parser returns: an address and a mask of one length, 4 or 16. *)
Definition IPNet_wf (n : IPNet) : Prop :=
  exists p m, n = MkIPNet (Some p) (Some m) /\ length p = length m
              /\ (length p = 4%nat \/ length p = 16%nat).

Lemma IP_Mask_As16 p m :
  length p = length m -> length p = 4%nat \/ length p = 16%nat ->
  IP_Mask (Some (As16 p)) (Some m) = Some (zip_with byte_and p m).
Proof.
  intros Hl Hp. unfold IP_Mask, bytes_of. cbn [default from_option id].
  assert (length (As16 p) = 16%nat) as H16.
  { destruct Hp as [Hp|Hp]; [by apply As16_length|]. unfold As16.
    by rewrite bool_decide_false by lia. }
  rewrite (bool_decide_false (length (As16 p) = 4%nat)) by lia.
  rewrite andb_false_r. cbn [andb]. rewrite (bool_decide_true (length (As16 p) = 16%nat)) by done.
  destruct Hp as [Hp|Hp].
  - rewrite (bool_decide_true (length m = 4%nat)) by lia. cbn [andb].
    unfold As16. rewrite (bool_decide_true (length p = 4%nat)) by done.
    rewrite (bool_decide_true (take 12 _ = _)) by done.
    change (drop 12 (v4InV6Prefix ++ p)) with p. by rewrite bool_decide_true by lia.
  - rewrite (bool_decide_false (length m = 4%nat)) by lia. cbn [andb].
    rewrite bool_decide_true by lia. unfold As16.
    by rewrite (bool_decide_false (length p = 4%nat)) by lia.
Qed.

Lemma CIDRMask_Some ones l :
  l = 4%nat \/ l = 16%nat -> 0 <= ones <= Z.of_nat l * 8 ->
  CIDRMask ones (Z.of_nat l * 8) = Some (CIDRMask_bytes l ones).
Proof.
  intros Hl Hb. unfold CIDRMask.
  replace (negb (Z.of_nat l * 8 =? 32) && negb (Z.of_nat l * 8 =? 128)) with false
    by (destruct Hl as [-> | ->]; done).
  rewrite (proj2 (Z.ltb_ge ones 0)), (proj2 (Z.ltb_ge (Z.of_nat l * 8) ones)) by lia.
  cbn [orb]. by rewrite Z.div_mul, Nat2Z.id by lia.
Qed.

Lemma ParseCIDR_inv s n :
  ParseCIDR s = Some n ->
  exists p ones, (length p = 4%nat \/ length p = 16%nat)
    /\ 0 <= ones <= Z.of_nat (length p) * 8
    /\ n = MkIPNet (Some (zip_with byte_and p (CIDRMask_bytes (length p) ones)))
                   (Some (CIDRMask_bytes (length p) ones)).
Proof.
  unfold ParseCIDR.
  destruct (split_at _ s) as [[addr mask]|]; [|done]. simpl.
  destruct (ParseAddr addr) as [p|] eqn:Hp; [|done]. simpl.
  destruct (dtoi mask) as [[ones rest]|]; [|done]. simpl.
  apply ParseAddr_length in Hp. destruct (negb _ || _ || _) eqn:Hb; [done|].
  apply orb_false_iff in Hb as [Hb Hhi]. apply orb_false_iff in Hb as [_ Hlo].
  apply Z.ltb_ge in Hlo, Hhi.
  pose proof (CIDRMask_Some ones (length p) Hp ltac:(lia)) as Hm.
  rewrite Hm. intros [= <-]. exists p, ones. split; [done|]. split; [done|].
  by rewrite IP_Mask_As16 by (rewrite ?CIDRMask_bytes_length; auto).
Qed.

Lemma ParseCIDR_wf s n : ParseCIDR s = Some n -> IPNet_wf n.
Proof.
  intros (p & ones & Hp & _ & ->)%ParseCIDR_inv. eexists _, _. split; [done|].
  rewrite length_zip_with, CIDRMask_bytes_length. lia.
Qed.

(** On parsed networks, equality up to [IP_Equal] and [bytes.Equal] is equality. *)
Lemma IPNet_wf_eq a b :
  IPNet_wf a -> IPNet_wf b ->
  IP_Equal (net_IP a) (net_IP b) = true -> bytes_Equal (net_Mask a) (net_Mask b) = true -> a = b.
Proof.
  intros (p & m & -> & Hl & _) (q & m' & -> & Hl' & _). simpl.
  intros Hip Hm%bytes_Equal_iff. simpl in Hm. subst m'.
  apply IP_Equal_same_length in Hip; simpl in *; [by subst|lia].
Qed.

(** ** IPv4 networks: printing and parsing *)

(** The IPv4 networks in the form [ParseCIDR] gives them: four bytes, a mask of [ones] ones,
    and no host bits. *)
Definition canonical4 (n : IPNet) : Prop :=
  exists p ones, length p = 4%nat /\ 0 <= ones <= 32
    /\ n = MkIPNet (Some p) (Some (CIDRMask_bytes 4 ones))
    /\ zip_with byte_and p (CIDRMask_bytes 4 ones) = p.

Lemma byte_and_idemp a m : byte_and (byte_and a m) m = byte_and a m.
Proof.
  apply zb_inj. unfold byte_and. rewrite !zb_u8. f_equal.
  rewrite (Z.mod_small (Z.land _ _)).
  - by rewrite <- Z.land_assoc, Z.land_diag.
  - pose proof (zb_range a). pose proof (zb_range m). split; [apply Z.land_nonneg; lia|].
    replace (Z.land (zb a) (zb m)) with (Z.land (Z.land (zb a) (zb m)) (Z.ones 8)).
    + rewrite Z.land_ones by lia. apply Z.mod_pos_bound. lia.
    + rewrite <- Z.land_assoc, (Z.land_ones (zb m)) by lia. by rewrite (Z.mod_small (zb m)).
Qed.

Lemma zip_and_idemp p : forall m, length p = length m ->
  zip_with byte_and (zip_with byte_and p m) m = zip_with byte_and p m.
Proof.
  induction p as [|a p IH]; intros [|b m]; simpl; try done. intros [= Hl].
  by rewrite byte_and_idemp, IH.
Qed.

(** What [ParseCIDR] returns for an IPv4 network is canonical. *)
Lemma ParseCIDR_canonical4 s n :
  ParseCIDR s = Some n -> length (bytes_of (net_IP n)) = 4%nat -> canonical4 n.
Proof.
  intros (p & ones & _ & Hb & ->)%ParseCIDR_inv. unfold bytes_of. simpl.
  rewrite length_zip_with, CIDRMask_bytes_length, Nat.min_id. intros Hp.
  rewrite Hp in *. eexists _, ones. repeat split; try (done || lia).
  - rewrite length_zip_with, CIDRMask_bytes_length. lia.
  - apply zip_and_idemp. by rewrite CIDRMask_bytes_length.
Qed.

(** An octet is read back from its decimal digits, in the middle of an address or at its
    end. *)
Lemma parse_octet b prev fields rest :
  exists dl c, is_digit c = true /\
  parseIPv4_loop (appendDecimal (zb b) +:+ rest) prev fields 0 0
  = parseIPv4_loop rest (Some c) fields (zb b) dl.
Proof. destruct b; eexists _, _; (split; [|reflexivity]); reflexivity. Qed.

Lemma parse_dot c prev fields b dl rest :
  prev = Some c -> is_digit c = true -> rest ≠ EmptyString -> (length fields < 3)%nat ->
  parseIPv4_loop ("." +:+ rest) prev fields (zb b) dl
  = parseIPv4_loop rest (Some "."%char) (fields ++ [b]) 0 0.
Proof.
  intros -> Hc Hr Hf. change ("." +:+ rest) with (String "."%char rest).
  cbn [parseIPv4_loop]. change (is_digit "."%char) with false. cbn [negb].
  rewrite (bool_decide_true ("."%char = "."%char)), (bool_decide_false (Some c = None)),
    (bool_decide_false (rest = EmptyString)),
    (bool_decide_false (Some c = Some "."%char)) by (done || (intros [= ->]; done)).
  rewrite (proj2 (Nat.eqb_neq (length fields) 3)) by lia. cbn [orb]. by rewrite u8_zb.
Qed.

Lemma appendDecimal_nonempty x s : appendDecimal x +:+ s ≠ EmptyString.
Proof. unfold appendDecimal. destruct (100 <=? x), (10 <=? x); done. Qed.

Lemma string_app_nil_r s : s +:+ EmptyString = s.
Proof. induction s as [|c s IH]; [done|]. change (String c (s +:+ EmptyString) = String c s). by rewrite IH. Qed.

Lemma string_app_assoc s1 s2 s3 : (s1 +:+ s2) +:+ s3 = s1 +:+ (s2 +:+ s3).
Proof.
  induction s1 as [|c s IH]; [done|].
  change (String c ((s +:+ s2) +:+ s3) = String c (s +:+ (s2 +:+ s3))). by rewrite IH.
Qed.

Lemma netip_parseIPv4_dotted a b c d : netip_parseIPv4 (dotted a b c d) = Some [a; b; c; d].
Proof.
  unfold netip_parseIPv4, dotted.
  destruct (parse_octet a None [] ("." +:+ appendDecimal (zb b) +:+ "." +:+
    appendDecimal (zb c) +:+ "." +:+ appendDecimal (zb d))) as (? & x & Hx & ->).
  rewrite (parse_dot x) by (done || apply appendDecimal_nonempty || (simpl; lia)).
  destruct (parse_octet b (Some "."%char) ([] ++ [a]) ("." +:+ appendDecimal (zb c) +:+ "." +:+
    appendDecimal (zb d))) as (? & y & Hy & ->).
  rewrite (parse_dot y) by (done || apply appendDecimal_nonempty || (simpl; lia)).
  destruct (parse_octet c (Some "."%char) (([] ++ [a]) ++ [b]) ("." +:+ appendDecimal (zb d)))
    as (? & z & Hz & ->).
  rewrite <- (string_app_nil_r (appendDecimal (zb d))).
  rewrite (parse_dot z) by (done || apply appendDecimal_nonempty || (simpl; lia)).
  destruct (parse_octet d (Some "."%char) ((([] ++ [a]) ++ [b]) ++ [c]) EmptyString)
    as (? & w & Hw & ->).
  cbn. by rewrite u8_zb.
Qed.

Lemma ParseAddr_form_decimal b rest whole :
  ParseAddr_form (appendDecimal (zb b) +:+ "." +:+ rest) whole = netip_parseIPv4 whole.
Proof. destruct b; reflexivity. Qed.

Lemma ParseAddr_dotted a b c d : ParseAddr (dotted a b c d) = Some [a; b; c; d].
Proof.
  transitivity (netip_parseIPv4 (dotted a b c d)); [|apply netip_parseIPv4_dotted].
  exact (ParseAddr_form_decimal a _ _).
Qed.

Lemma contains_app x s1 s2 : contains x (s1 +:+ s2) = contains x s1 || contains x s2.
Proof.
  induction s1 as [|c s IH]; [done|].
  change (bool_decide (x = c) || contains x (s +:+ s2) = (bool_decide (x = c) || contains x s) || contains x s2).
  by rewrite IH, orb_assoc.
Qed.

Lemma dotted_no_slash a b c d : contains "/"%char (dotted a b c d) = false.
Proof.
  assert (forall x, contains "/"%char (appendDecimal (zb x)) = false) as H by (intros x; by destruct x).
  unfold dotted. rewrite !contains_app, !H. done.
Qed.

Lemma split_at_app c s rest :
  contains c s = false -> split_at c (s +:+ String c rest) = Some (s, rest).
Proof.
  induction s as [|x s IH]; simpl; intros H.
  - change (split_at c (String c rest) = Some (EmptyString, rest)). simpl.
    by rewrite bool_decide_true.
  - apply orb_false_iff in H as [Hx H]. apply bool_decide_eq_false in Hx.
    change (split_at c (String x (s +:+ String c rest)) = Some (String x s, rest)). simpl.
    rewrite bool_decide_false by congruence. by rewrite IH.
Qed.

(** A check over the 33 IPv4 prefix lengths. *)
Lemma prefix_lengths (P : Z -> bool) :
  forallb P (seqZ 0 33) = true -> forall l, 0 <= l <= 32 -> P l = true.
Proof.
  intros H l Hl. rewrite forallb_forall in H. apply H.
  apply list_elem_of_In, elem_of_seqZ. lia.
Qed.

Lemma simpleMaskLength_CIDRMask l : 0 <= l <= 32 -> simpleMaskLength (CIDRMask_bytes 4 l) = l.
Proof.
  intros Hl. apply Z.eqb_eq.
  apply (prefix_lengths (fun l => simpleMaskLength (CIDRMask_bytes 4 l) =? l)); [|done].
  vm_compute. reflexivity.
Qed.

Lemma dtoi_appendDecimal l : 0 <= l <= 32 -> dtoi (appendDecimal l) = Some (l, EmptyString).
Proof.
  intros Hl. set (P := fun l => bool_decide (dtoi (appendDecimal l) = Some (l, EmptyString))).
  assert (P l = true) as H by (apply prefix_lengths; [vm_compute; reflexivity|done]).
  by apply bool_decide_eq_true in H.
Qed.

Lemma To4_4 a b c d : To4 (Some [a; b; c; d]) = Some [a; b; c; d].
Proof. reflexivity. Qed.

Lemma IP_String_4 a b c d : IP_String (Some [a; b; c; d]) = dotted a b c d.
Proof. reflexivity. Qed.

Lemma networkNumberAndMask_4 a b c d m :
  length m = 4%nat ->
  networkNumberAndMask (MkIPNet (Some [a; b; c; d]) (Some m)) = (Some [a; b; c; d], Some m).
Proof. intros H. destruct m as [|? [|? [|? [|? []]]]]; done. Qed.

Lemma canonical4_String a b c d l :
  0 <= l <= 32 ->
  IPNet_String (MkIPNet (Some [a; b; c; d]) (Some (CIDRMask_bytes 4 l)))
  = dotted a b c d +:+ "/" +:+ appendDecimal l.
Proof.
  intros Hl. unfold IPNet_String.
  rewrite networkNumberAndMask_4 by apply CIDRMask_bytes_length.
  rewrite simpleMaskLength_CIDRMask, IP_String_4 by done. cbv zeta.
  by rewrite (proj2 (Z.eqb_neq l (-1))) by lia.
Qed.

(** Parsing inverts printing. *)
Lemma ParseCIDR_canonical4_String n : canonical4 n -> ParseCIDR (IPNet_String n) = Some n.
Proof.
  intros (p & l & Hp & Hl & -> & Hcan).
  destruct p as [|a [|b [|c [|d [|]]]]]; try done.
  rewrite canonical4_String by done. unfold ParseCIDR.
  change ("/" +:+ appendDecimal l) with (String "/"%char (appendDecimal l)).
  rewrite split_at_app by apply dotted_no_slash. cbn [mbind option_bind].
  rewrite ParseAddr_dotted. cbn [mbind option_bind].
  rewrite dtoi_appendDecimal by done. cbn [mbind option_bind].
  rewrite bool_decide_true by done. change (Z.of_nat (length [a; b; c; d]) * 8) with 32.
  rewrite (proj2 (Z.ltb_ge l 0)), (proj2 (Z.ltb_ge 32 l)) by lia. cbn [negb orb].
  change 32 with (Z.of_nat 4 * 8). rewrite (CIDRMask_Some l 4) by (auto; lia).
  rewrite IP_Mask_As16; [by rewrite Hcan| |by left]. by rewrite CIDRMask_bytes_length.
Qed.

(** The string of an IPv4 network determines it. *)
Lemma IPNet_String_inj4 m n :
  canonical4 m -> canonical4 n -> IPNet_String m = IPNet_String n -> m = n.
Proof.
  intros Hm%ParseCIDR_canonical4_String Hn%ParseCIDR_canonical4_String H. congruence.
Qed.

Lemma dotted_inj a b c d a' b' c' d' :
  dotted a b c d = dotted a' b' c' d' -> [a; b; c; d] = [a'; b'; c'; d'].
Proof.
  intros H. pose proof (netip_parseIPv4_dotted a b c d) as H1. rewrite H in H1.
  rewrite netip_parseIPv4_dotted in H1. congruence.
Qed.

(** Link-local addresses are recognised in either form. *)
Lemma IsLinkLocalUnicast_As16 ip :
  IsLinkLocalUnicast ip = IsLinkLocalUnicast (Some (As16 (bytes_of ip))).
Proof.
  unfold As16. case_bool_decide as Hl; [|by destruct ip].
  destruct ip as [p|]; simpl in *; [|done].
  by destruct p as [|a [|b [|c [|d [|? ?]]]]].
Qed.

Lemma IsLinkLocalUnicast_Equal a b : IP_Equal a b = true -> IsLinkLocalUnicast a = IsLinkLocalUnicast b.
Proof. intros H%IP_Equal_iff. by rewrite IsLinkLocalUnicast_As16, H, <- IsLinkLocalUnicast_As16. Qed.
