(* ===== verification/K8s.v ===== *)
(** * The Kubernetes API objects the agent reads

    [corev1.Node] with the fields the program uses. The string constants of the API belong
    to k8s.io/api: they are a parameter, the class [CoreV1]. *)

From S2P Require Import Prelude.

Record NodeAddress := MkNodeAddress { addr_Type : string; addr_Address : string }.

Record NodeCondition := MkNodeCondition { cond_Type : string; cond_Status : string }.

Record NodeSystemInfo := MkNodeSystemInfo {
  MachineID : string;
  SystemUUID : string;
  BootID : string
}.

Record Node := MkNode {
  node_Name : string;
  Spec_PodCIDR : string;
  Status_Addresses : list NodeAddress;
  Status_Conditions : list NodeCondition;
  Status_NodeInfo : NodeSystemInfo
}.

(** The constants of k8s.io/api/core/v1. The two condition statuses are cases of one Go
    [switch], which the compiler accepts only when they differ. *)
Class CoreV1 := {
  NodeInternalIP : string;
  NodeNetworkUnavailable : string;
  ConditionTrue : string;
  ConditionFalse : string;
  condition_distinct : ConditionTrue ≠ ConditionFalse
}.

(** The values of k8s.io/api v0.29. *)
Definition corev1_v0_29 : CoreV1 := {|
  NodeInternalIP := "InternalIP";
  NodeNetworkUnavailable := "NetworkUnavailable";
  ConditionTrue := "True";
  ConditionFalse := "False";
  condition_distinct := ltac:(discriminate)
|}.
