(* ===== verification/Nodes.v ===== *)
(** * The node map: pkg/routing/nodes.go

    [NodeInfo] is the digest of a node the routing providers work with; [NodeMap] holds one
    per node, by name. [me] points into the same objects as the map does, so the model keeps
    the heap: [nodes] and [me] hold locations, [heap] what they point to. Every exported
    method runs under the map's mutex, so each is one atomic step. *)

From S2P Require Import Prelude GoNet GoNetFacts K8s.

(** ** NodeInfo *)

Record NodeInfo := MkNodeInfo {
  Name : string;
  Address : IP;
  PodCIDR : option IPNet;
  NetworkAvailable : bool
}.

#[export] Instance NodeInfo_eq_dec : EqDecision NodeInfo.
Proof. solve_decision. Defined.

(** The zero value of the struct. *)
Definition zero_NodeInfo : NodeInfo := MkNodeInfo EmptyString None None false.

Definition set_Address (n : NodeInfo) (a : IP) : NodeInfo :=
  MkNodeInfo (Name n) a (PodCIDR n) (NetworkAvailable n).
Definition set_PodCIDR (n : NodeInfo) (c : option IPNet) : NodeInfo :=
  MkNodeInfo (Name n) (Address n) c (NetworkAvailable n).
Definition set_NetworkAvailable (n : NodeInfo) (b : bool) : NodeInfo :=
  MkNodeInfo (Name n) (Address n) (PodCIDR n) b.

(** [sort.Strings] *)
Definition sort_Strings (l : list string) : list string := merge_sort String.le l.

Section Update.
Context `{CoreV1}.

(** The first block of [update]: the pod CIDR. *)
Definition update_PodCIDR (n : NodeInfo) (src : Node) (changed : bool) : NodeInfo * bool :=
  let cidr := Spec_PodCIDR src in
  if bool_decide (cidr = EmptyString) then
    match PodCIDR n with
    | Some _ => (set_PodCIDR n None, true)
    | None => (n, changed)
    end
  else match ParseCIDR cidr with
       | None =>
           match PodCIDR n with
           | Some _ => (set_PodCIDR n None, true)
           | None => (n, changed)
           end
       | Some ipnet =>
           match PodCIDR n with
           | None => (set_PodCIDR n (Some ipnet), true)
           | Some old =>
               if negb (IP_Equal (net_IP ipnet) (net_IP old))
                  || negb (bytes_Equal (net_Mask old) (net_Mask ipnet))
               then (set_PodCIDR n (Some ipnet), true)
               else (n, changed)
           end
       end.

(** The addresses of type InternalIP, in the order of the status. *)
Definition internalIPs (src : Node) : list string :=
  addr_Address <$> filter (fun a => addr_Type a = NodeInternalIP) (Status_Addresses src).

(** The second block of [update]: the address. *)
Definition update_Address (n : NodeInfo) (src : Node) (changed : bool) : NodeInfo * bool :=
  let ips := internalIPs src in
  if (length ips =? 0)%nat then
    match Address n with
    | Some _ => (set_Address n None, true)
    | None => (n, changed)
    end
  else
    let ips := if negb (length ips =? 1)%nat then sort_Strings ips else ips in
    let internalIP := default EmptyString (head ips) in
    match ParseIP internalIP with
    | None =>
        match Address n with
        | Some _ => (set_Address n None, true)
        | None => (n, changed)
        end
    | Some a =>
        if negb (IP_Equal (Address n) (Some a)) then (set_Address n (Some a), true)
        else (n, changed)
    end.

(** The loop over the conditions, in the third block. *)
Definition networkAvailable (src : Node) : bool :=
  foldl (fun networkAvailable condition =>
    if bool_decide (cond_Type condition = NodeNetworkUnavailable) then
      if bool_decide (cond_Status condition = ConditionFalse) then true
      else if bool_decide (cond_Status condition = ConditionTrue) then false
      else networkAvailable
    else networkAvailable) true (Status_Conditions src).

Definition update_NetworkAvailable (n : NodeInfo) (src : Node) (changed : bool)
    : NodeInfo * bool :=
  if negb (Bool.eqb (networkAvailable src) (NetworkAvailable n))
  then (set_NetworkAvailable n (networkAvailable src), true)
  else (n, changed).

(** [func (n *NodeInfo) update(src *corev1.Node) bool] *)
Definition NodeInfo_update (n : NodeInfo) (src : Node) : NodeInfo * bool :=
  let '(n, changed) := update_PodCIDR n src false in
  let '(n, changed) := update_Address n src changed in
  update_NetworkAvailable n src changed.
End Update.

(** ** NodeMap *)

Abbreviation loc := positive (only parsing).

Record NodeMap := MkNodeMap {
  mePredicate : Node -> bool;
  ready : bool;
  nodes : gmap string loc;
  version : Z;
  me : option loc;
  heap : gmap loc NodeInfo
}.

(** The object a pointer refers to. *)
Definition deref (h : gmap loc NodeInfo) (l : loc) : NodeInfo := default zero_NodeInfo (h !! l).

Definition NewNodeMap (mePredicate : Node -> bool) : NodeMap :=
  MkNodeMap mePredicate false ∅ 0 None ∅.

Definition IsVersion (m : NodeMap) (v : Z) : bool := version m =? v.

Definition IsReady (m : NodeMap) : bool := ready m.

Definition MarkReady (m : NodeMap) : NodeMap :=
  MkNodeMap (mePredicate m) true (nodes m) (version m) (me m) (heap m).

(** [func (m *NodeMap) Snapshot() ( *NodeInfo, []NodeInfo, uint64)]; copies, in the order of
    a [range] over the map. *)
Definition Snapshot (o : Order) (m : NodeMap) : option NodeInfo * list NodeInfo * Z :=
  if negb (ready m) then (None, [], 0)
  else (Some (match me m with Some l => deref (heap m) l | None => zero_NodeInfo end),
        (fun e => deref (heap m) e.2) <$> range o (nodes m),
        version m).

Definition removeNode (m : NodeMap) (nodeName : string) : NodeMap :=
  MkNodeMap (mePredicate m) (ready m) (delete nodeName (nodes m)) (u64 (version m + 1))
    (me m) (heap m).

Section NodeMapOps.
Context `{CoreV1}.

Definition RemoveNode (m : NodeMap) (node : Node) : NodeMap := removeNode m (node_Name node).

(** [func (m *NodeMap) updateNode(src *corev1.Node) bool] *)
Definition updateNode (m : NodeMap) (src : Node) : NodeMap * bool :=
  let name := node_Name src in
  let '(nodes', heap', node, changed) :=
    match nodes m !! name with
    | Some l => (nodes m, heap m, l, false)
    | None =>
        let l := fresh (dom (heap m)) in
        (<[name := l]> (nodes m),
         <[l := MkNodeInfo name None None false]> (heap m), l, true)
    end in
  let '(info, updated) := NodeInfo_update (deref heap' node) src in
  let heap' := <[node := info]> heap' in
  let changed := if updated then true else changed in
  let '(me', changed) :=
    match me m with
    | None => if mePredicate m src then (Some node, true) else (None, changed)
    | Some l => (Some l, changed)
    end in
  (MkNodeMap (mePredicate m) (ready m) nodes'
     (if changed then u64 (version m + 1) else version m) me' heap', changed).

Definition UpdateNode (m : NodeMap) (src : Node) : NodeMap * bool := updateNode m src.

(** The first loop of [ReplaceAllNodes]: the names of the list, and every node updated. *)
Definition replace_update (st : gset string * NodeMap * bool) (node : Node)
    : gset string * NodeMap * bool :=
  let '(names, m, changed) := st in
  let names := {[node_Name node]} ∪ names in
  let '(m, c) := updateNode m node in
  (names, m, if c then true else changed).

(** The second loop: the nodes that are not in the list are removed. *)
Definition replace_remove (names : gset string) (st : NodeMap * bool) (e : string * loc)
    : NodeMap * bool :=
  let '(m, changed) := st in
  if bool_decide (e.1 ∈ names) then (m, changed) else (removeNode m e.1, true).

(** [func (m *NodeMap) ReplaceAllNodes(nodes []corev1.Node) bool] *)
Definition ReplaceAllNodes (o : Order) (m : NodeMap) (l : list Node) : NodeMap * bool :=
  let '(names, m, changed) := foldl replace_update (∅, m, false) l in
  foldl (replace_remove names) (m, changed) (range o (nodes m)).
End NodeMapOps.
