(* ===== verification/NodesFacts.v ===== *)
(** * The node map refines a map from node names to digests

    [summarize] is the digest of a node as a pure function of the API object. [update] is
    shown to compute it and to report a change exactly when there was one; the operations of
    [NodeMap] are then updates of the abstract map [view], and a version number that is met
    again stands for the same contents. *)

From S2P Require Import Prelude GoNet GoNetFacts K8s Nodes.

(** ** The abstract specification *)

Section Summary.
Context `{CoreV1}.

Definition summary_PodCIDR (src : Node) : option IPNet := ParseCIDR (Spec_PodCIDR src).

(** The least internal address, in the order of strings. *)
Definition summary_Address (src : Node) : IP :=
  match head (sort_Strings (internalIPs src)) with
  | Some ip => ParseIP ip
  | None => None
  end.

Definition decides_network (c : NodeCondition) : Prop :=
  cond_Type c = NodeNetworkUnavailable
  /\ (cond_Status c = ConditionTrue \/ cond_Status c = ConditionFalse).

#[export] Instance decides_network_dec c : Decision (decides_network c).
Proof. apply _. Defined.

(** The last condition that says "unavailable" or "not unavailable" decides. *)
Definition summary_NetworkAvailable (src : Node) : bool :=
  match last (filter decides_network (Status_Conditions src)) with
  | Some c => bool_decide (cond_Status c = ConditionFalse)
  | None => true
  end.

Definition summarize (name : string) (src : Node) : NodeInfo :=
  MkNodeInfo name (summary_Address src) (summary_PodCIDR src) (summary_NetworkAvailable src).
End Summary.

(** What the fields of a [NodeInfo] can hold: results of the parsers. *)
Definition NodeInfo_wf (n : NodeInfo) : Prop :=
  (forall c, PodCIDR n = Some c -> IPNet_wf c)
  /\ (forall a, Address n = Some a -> length a = 16%nat).

(** ** NodeInfo.update *)

Section UpdateFacts.
Context `{CoreV1}.
Implicit Types (n : NodeInfo) (src : Node) (changed : bool).

Lemma summarize_wf name src : NodeInfo_wf (summarize name src).
Proof.
  split; simpl.
  - intros c. apply ParseCIDR_wf.
  - intros a. unfold summary_Address. case_match; [apply ParseIP_length|done].
Qed.

Lemma update_PodCIDR_spec n src changed :
  NodeInfo_wf n ->
  update_PodCIDR n src changed
  = (set_PodCIDR n (summary_PodCIDR src),
     changed || negb (bool_decide (PodCIDR n = summary_PodCIDR src))).
Proof.
  intros [Hwf _]. unfold update_PodCIDR, summary_PodCIDR.
  assert (set_PodCIDR n (PodCIDR n) = n) as Hid by (by destruct n).
  case_bool_decide as He.
  - rewrite He. change (ParseCIDR EmptyString) with (@None IPNet).
    destruct (PodCIDR n) as [c|] eqn:Hc; [by rewrite orb_true_r|].
    rewrite bool_decide_true, orb_false_r by done. congruence.
  - destruct (ParseCIDR (Spec_PodCIDR src)) as [ipnet|] eqn:Hp;
      destruct (PodCIDR n) as [old|] eqn:Hc.
    2,3: by rewrite bool_decide_false, orb_true_r.
    2: rewrite bool_decide_true, orb_false_r by done; congruence.
    destruct (negb _ || negb _) eqn:Hne.
    + rewrite bool_decide_false, orb_true_r; [done|]. intros [= ->].
      rewrite IP_Equal_refl in Hne. simpl in Hne. apply negb_true_iff in Hne.
      rewrite (proj2 (bytes_Equal_iff _ _)) in Hne; done.
    + apply orb_false_iff in Hne as [Hi%negb_false_iff Hm%negb_false_iff].
      assert (old = ipnet) as <-.
      { apply IPNet_wf_eq; [by apply Hwf|by eapply ParseCIDR_wf| |done].
        by rewrite IP_Equal_sym. }
      rewrite bool_decide_true, orb_false_r by done. congruence.
Qed.

Lemma internalIPs_head src :
  internalIPs src ≠ [] ->
  head (sort_Strings (internalIPs src))
  = Some (default EmptyString (head (if negb (length (internalIPs src) =? 1)%nat
                                     then sort_Strings (internalIPs src)
                                     else internalIPs src))).
Proof.
  intros Hne. unfold sort_Strings.
  pose proof (merge_sort_Permutation String.le (internalIPs src)) as Hp.
  destruct (internalIPs src) as [|a [|b l]]; [done|done|].
  change (negb (length (a :: b :: l) =? 1)%nat) with true. cbv iota.
  destruct (merge_sort String.le (a :: b :: l)) as [|x l']; [|done].
  by apply Permutation_nil_l in Hp.
Qed.

Lemma update_Address_spec n src changed :
  NodeInfo_wf n ->
  update_Address n src changed
  = (set_Address n (summary_Address src),
     changed || negb (bool_decide (Address n = summary_Address src))).
Proof.
  intros [_ Hwf]. unfold update_Address, summary_Address.
  assert (set_Address n (Address n) = n) as Hid by (by destruct n).
  destruct (decide (internalIPs src = [])) as [He|Hne].
  { rewrite He. simpl. destruct (Address n) as [a|] eqn:Ha; [by rewrite orb_true_r|].
    rewrite bool_decide_true, orb_false_r by done. congruence. }
  rewrite (proj2 (Nat.eqb_neq _ _)) by (by intros ?%length_zero_iff_nil).
  rewrite internalIPs_head by done.
  destruct (ParseIP (default _ _)) as [a|] eqn:Hp.
  - destruct (negb (IP_Equal (Address n) (Some a))) eqn:Hne'.
    + rewrite bool_decide_false, orb_true_r; [done|]. intros Ha.
      by rewrite Ha, IP_Equal_refl in Hne'.
    + apply negb_false_iff in Hne'.
      assert (Address n = Some a) as Ha.
      { apply ParseIP_length in Hp. destruct (Address n) as [b|] eqn:Hb.
        - apply IP_Equal_same_length in Hne'; [simpl in Hne'; congruence|].
          simpl. rewrite (Hwf b); done.
        - apply IP_Equal_iff in Hne'. unfold As16 in Hne'. simpl in Hne'.
          destruct a; [done|]. rewrite bool_decide_false in Hne' by (simpl in *; lia). done. }
      rewrite Ha, bool_decide_true, orb_false_r by done. congruence.
  - destruct (Address n) as [b|] eqn:Hb; [by rewrite orb_true_r|].
    rewrite bool_decide_true, orb_false_r by done. congruence.
Qed.

Lemma networkAvailable_spec src : networkAvailable src = summary_NetworkAvailable src.
Proof.
  unfold networkAvailable, summary_NetworkAvailable. generalize (Status_Conditions src). intros l.
  induction l as [|c l IH] using rev_ind; [done|].
  rewrite foldl_app, filter_app. simpl. rewrite filter_cons, filter_nil, IH.
  pose proof condition_distinct as Hd. case_decide as Hc.
  - rewrite last_snoc. destruct Hc as [Ht Hs]. rewrite bool_decide_true by done.
    destruct Hs as [Hs|Hs]; repeat case_bool_decide; congruence.
  - rewrite app_nil_r. unfold decides_network in Hc. repeat case_bool_decide; tauto.
Qed.

Lemma update_NetworkAvailable_spec n src changed :
  update_NetworkAvailable n src changed
  = (set_NetworkAvailable n (summary_NetworkAvailable src),
     changed || negb (bool_decide (NetworkAvailable n = summary_NetworkAvailable src))).
Proof.
  unfold update_NetworkAvailable. rewrite networkAvailable_spec.
  assert (set_NetworkAvailable n (NetworkAvailable n) = n) as Hid by (by destruct n).
  destruct (Bool.eqb_spec (summary_NetworkAvailable src) (NetworkAvailable n)) as [He|Hne]; simpl.
  - rewrite He, bool_decide_true, orb_false_r, Hid; done.
  - rewrite bool_decide_false, orb_true_r by congruence. done.
Qed.

(** [update] computes the digest, whatever the object held before, and reports a change
    exactly when the object differs afterwards. *)
Lemma NodeInfo_update_spec n src :
  NodeInfo_wf n ->
  NodeInfo_update n src
  = (summarize (Name n) src, negb (bool_decide (n = summarize (Name n) src))).
Proof.
  intros Hwf. unfold NodeInfo_update.
  rewrite update_PodCIDR_spec by done. cbn [fst snd].
  assert (NodeInfo_wf (set_PodCIDR n (summary_PodCIDR src))) as Hwf1.
  { destruct Hwf as [_ Ha]. split; simpl; [|done]. intros c. apply ParseCIDR_wf. }
  rewrite update_Address_spec by done. rewrite update_NetworkAvailable_spec.
  f_equal. destruct n as [nm a c b]. simpl. unfold summarize.
  apply eq_bool_prop_intro. rewrite !Is_true_true.
  rewrite !orb_true_iff, !negb_true_iff, !bool_decide_eq_false.
  destruct (decide (a = summary_Address src)), (decide (c = summary_PodCIDR src)),
    (decide (b = summary_NetworkAvailable src)); intuition congruence.
Qed.
End UpdateFacts.

(** ** NodeMap *)

(** The abstract state: the digest of every node, by name. *)
Definition view (m : NodeMap) : gmap string NodeInfo := deref (heap m) <$> nodes m.

(** What [me] points to. *)
Definition me_info (m : NodeMap) : option NodeInfo := deref (heap m) <$> me m.

(** Pointers are valid, every object of the map carries the name it is filed under, and the
    version is a [uint64]. *)
Record NodeMap_wf (m : NodeMap) : Prop := {
  wf_node : forall name l, nodes m !! name = Some l ->
    exists n, heap m !! l = Some n /\ Name n = name;
  wf_me : forall l, me m = Some l -> is_Some (heap m !! l);
  wf_heap : forall l n, heap m !! l = Some n -> NodeInfo_wf n;
  wf_version : 0 <= version m < 2 ^ 64
}.

(** The nodes of a snapshot. *)
Definition snapshot_list (o : Order) (m : NodeMap) : list NodeInfo :=
  (fun e => deref (heap m) e.2) <$> range o (nodes m).

Lemma snapshot_nodes m o :
  NodeMap_wf m ->
  (forall n, n ∈ snapshot_list o m <-> view m !! Name n = Some n) /\ NoDup (Name <$> snapshot_list o m).
Proof.
  intros Hwf. unfold snapshot_list.
  assert (forall e, e ∈ range o (nodes m) -> Name (deref (heap m) e.2) = e.1) as Hname.
  { intros [name l] Hl%elem_of_range. destruct (wf_node _ Hwf _ _ Hl) as (n & Hn & Hnm).
    simpl. unfold deref. by rewrite Hn. }
  split.
  - intros n. rewrite list_elem_of_fmap. unfold view. rewrite lookup_fmap. split.
    + intros ([name l] & -> & He). rewrite (Hname _ He). apply elem_of_range in He. simpl.
      by rewrite He.
    + intros (l & Hl & ->)%fmap_Some. exists (Name (deref (heap m) l), l).
      split; [done|]. rewrite elem_of_range. done.
  - rewrite <- list_fmap_compose. erewrite list_fmap_ext; [apply (NoDup_range_keys o (nodes m))|].
    intros i e He. apply Hname. by eapply list_elem_of_lookup_2.
Qed.

Lemma u64_range z : 0 <= u64 z < 2 ^ 64.
Proof. apply Z.mod_pos_bound. lia. Qed.

Lemma NewNodeMap_wf p : NodeMap_wf (NewNodeMap p).
Proof. by split; simpl. Qed.

Lemma nodes_inj m name1 name2 l :
  NodeMap_wf m -> nodes m !! name1 = Some l -> nodes m !! name2 = Some l -> name1 = name2.
Proof.
  intros Hwf (n1 & Hn1 & <-)%(wf_node _ Hwf) (n2 & Hn2 & <-)%(wf_node _ Hwf). congruence.
Qed.

Lemma view_lookup_name m name n : NodeMap_wf m -> view m !! name = Some n -> Name n = name.
Proof.
  intros Hwf. unfold view. rewrite lookup_fmap. intros (l & Hl & ->)%fmap_Some.
  destruct (wf_node _ Hwf _ _ Hl) as (n' & Hn' & Hname). unfold deref. by rewrite Hn'.
Qed.

Section NodeMapFacts.
Context `{CoreV1}.
Implicit Types (m : NodeMap) (src : Node) (o : Order).

(** The location [updateNode] writes to. *)
Definition target (m : NodeMap) (name : string) : loc :=
  default (fresh (dom (heap m))) (nodes m !! name).

Definition is_new (m : NodeMap) (name : string) : bool := bool_decide (nodes m !! name = None).

Definition old_info (m : NodeMap) (name : string) : NodeInfo :=
  default (MkNodeInfo name None None false) (view m !! name).

(** [updateNode], with its updates of the heap put together. *)
Lemma updateNode_eq m src :
  NodeMap_wf m ->
  let name := node_Name src in
  let new := summarize name src in
  let me_now := bool_decide (me m = None) && mePredicate m src in
  let changed := is_new m name || negb (bool_decide (old_info m name = new)) || me_now in
  updateNode m src
  = (MkNodeMap (mePredicate m) (ready m) (<[name := target m name]> (nodes m))
       (if changed then u64 (version m + 1) else version m)
       (if me_now then Some (target m name) else me m)
       (<[target m name := new]> (heap m)),
     changed).
Proof.
  intros Hwf. cbv zeta. unfold updateNode, is_new, old_info, target, view.
  set (name := node_Name src). rewrite lookup_fmap.
  destruct (nodes m !! name) as [l|] eqn:Hl; simpl.
  - destruct (wf_node _ Hwf _ _ Hl) as (n & Hn & Hname). unfold deref. rewrite Hn. simpl.
    rewrite NodeInfo_update_spec by (by eapply wf_heap). rewrite Hname.
    rewrite (insert_id (nodes m) name l) by done.
    destruct (me m); simpl; [|destruct (mePredicate m src)];
      destruct (bool_decide (n = _)); done.
  - set (l := fresh _). unfold deref. rewrite lookup_insert_eq. simpl.
    rewrite NodeInfo_update_spec by done. simpl. rewrite insert_insert_eq.
    destruct (me m); simpl; [|destruct (mePredicate m src)]; by repeat case_match.
Qed.

Lemma target_fresh m name : nodes m !! name = None -> heap m !! target m name = None.
Proof. intros Hn. unfold target. rewrite Hn. simpl. apply not_elem_of_dom, is_fresh. Qed.

Lemma target_other m name name' l :
  NodeMap_wf m -> nodes m !! name' = Some l -> name' ≠ name -> l ≠ target m name.
Proof.
  intros Hwf Hl Hne ->. destruct (nodes m !! name) as [l'|] eqn:Hn.
  - unfold target in Hl. rewrite Hn in Hl. simpl in Hl. apply Hne. by eapply nodes_inj.
  - destruct (wf_node _ Hwf _ _ Hl) as (n & Hh & _). by rewrite target_fresh in Hh.
Qed.

Lemma updateNode_wf m src : NodeMap_wf m -> NodeMap_wf (updateNode m src).1.
Proof.
  intros Hwf. rewrite updateNode_eq by done. cbn [fst]. set (name := node_Name src).
  split; cbn [nodes heap me version].
  - intros name' l. destruct (decide (name = name')) as [<-|Hne].
    + rewrite lookup_insert_eq. intros [= <-]. rewrite lookup_insert_eq. eauto.
    + rewrite lookup_insert_ne by done. intros Hl.
      rewrite lookup_insert_ne by (by apply not_eq_sym; eapply target_other).
      by apply wf_node.
  - intros l Hl. destruct (decide (target m name = l)) as [<-|Hne].
    + rewrite lookup_insert_eq. eauto.
    + rewrite lookup_insert_ne by done. apply wf_me; [done|].
      destruct (_ && _); congruence.
  - intros l n. destruct (decide (target m name = l)) as [<-|Hne].
    + rewrite lookup_insert_eq. intros [= <-]. apply summarize_wf.
    + rewrite lookup_insert_ne by done. by apply wf_heap.
  - case_match; [apply u64_range|by apply wf_version].
Qed.

(** [UpdateNode] files the digest of the node under its name and leaves the rest. *)
Lemma updateNode_view m src :
  NodeMap_wf m ->
  view (updateNode m src).1 = <[node_Name src := summarize (node_Name src) src]> (view m).
Proof.
  intros Hwf. rewrite updateNode_eq by done. unfold view. cbn [fst nodes heap].
  set (name := node_Name src). apply map_eq. intros name'. rewrite lookup_fmap.
  destruct (decide (name = name')) as [<-|Hne].
  - rewrite !lookup_insert_eq. simpl. unfold deref. by rewrite lookup_insert_eq.
  - rewrite !lookup_insert_ne, lookup_fmap by done.
    destruct (nodes m !! name') as [l|] eqn:Hl; [|done]. simpl. unfold deref.
    rewrite lookup_insert_ne; [done|]. by apply not_eq_sym; eapply target_other.
Qed.

Lemma is_new_view m name : is_new m name = bool_decide (view m !! name = None).
Proof.
  unfold is_new, view. rewrite lookup_fmap. apply bool_decide_ext.
  by destruct (nodes m !! name).
Qed.

(** The change it reports: a new name, a new digest, or the discovery of [me]. *)
Lemma updateNode_changed m src :
  NodeMap_wf m ->
  (updateNode m src).2
  = negb (bool_decide (view m !! node_Name src = Some (summarize (node_Name src) src)))
    || (bool_decide (me m = None) && mePredicate m src).
Proof.
  intros Hwf. rewrite updateNode_eq by done. cbn [snd]. rewrite is_new_view. f_equal.
  unfold old_info. destruct (view m !! node_Name src) as [n|]; simpl; [|done].
  f_equal. apply bool_decide_ext. naive_solver.
Qed.

Lemma updateNode_version m src :
  NodeMap_wf m ->
  version (updateNode m src).1
  = if (updateNode m src).2 then u64 (version m + 1) else version m.
Proof. intros Hwf. rewrite updateNode_eq by done. done. Qed.

Lemma removeNode_wf m name : NodeMap_wf m -> NodeMap_wf (removeNode m name).
Proof.
  intros Hwf. split; cbn [removeNode nodes heap me version].
  - intros name' l [_ Hl]%lookup_delete_Some. by apply wf_node.
  - apply (wf_me _ Hwf).
  - apply (wf_heap _ Hwf).
  - apply u64_range.
Qed.

Lemma removeNode_view m name : view (removeNode m name) = delete name (view m).
Proof. unfold view, removeNode. simpl. by rewrite fmap_delete. Qed.

Lemma MarkReady_wf m : NodeMap_wf m -> NodeMap_wf (MarkReady m).
Proof. intros [? ? ? ?]. by split. Qed.
(** Nothing is written when no change is reported. *)
Lemma updateNode_unchanged m src :
  NodeMap_wf m -> (updateNode m src).2 = false -> (updateNode m src).1 = m.
Proof.
  intros Hwf. rewrite updateNode_eq by done. cbn [fst snd]. set (name := node_Name src).
  intros Hc. rewrite Hc. apply orb_false_iff in Hc as [Hc Hme].
  apply orb_false_iff in Hc as [Hnew Hold%negb_false_iff]. rewrite Hme.
  apply bool_decide_eq_false in Hnew. apply bool_decide_eq_true in Hold.
  unfold old_info, view in Hold. rewrite lookup_fmap in Hold. unfold target.
  destruct (nodes m !! name) as [l|] eqn:Hl; [|done]. simpl in *.
  destruct (wf_node _ Hwf _ _ Hl) as (n & Hn & _). unfold deref in Hold. rewrite Hn in Hold.
  simpl in Hold. rewrite insert_id by done. rewrite <- Hold, insert_id by done. by destruct m.
Qed.

(** *** The version number

    [advances b m (m', changed)]: between [m] and [m'] the version was incremented at most
    [b] times, and at least once if a change is reported; without a report, nothing moved. *)
Definition advances (b : Z) (m : NodeMap) (r : NodeMap * bool) : Prop :=
  exists k, 0 <= k <= b /\ version r.1 = u64 (version m + k)
    /\ (k = 0 -> r.1 = m) /\ r.2 = bool_decide (0 < k) /\ NodeMap_wf r.1.

Lemma u64_add_l a b : u64 (u64 a + b) = u64 (a + b).
Proof. unfold u64. rewrite Z.add_mod_idemp_l by lia. done. Qed.

Lemma advances_wf b m r : advances b m r -> NodeMap_wf r.1.
Proof. by intros (? & ? & ? & ? & ? & ?). Qed.

Lemma advances_refl m : NodeMap_wf m -> advances 0 m (m, false).
Proof.
  intros Hwf. exists 0. rewrite Z.add_0_r. split_and!; try done || lia.
  symmetry. apply Z.mod_small, Hwf.
Qed.

Lemma advances_trans b1 b2 m1 m2 m3 c1 c2 :
  advances b1 m1 (m2, c1) -> advances b2 m2 (m3, c2) ->
  advances (b1 + b2) m1 (m3, if c2 then true else c1).
Proof.
  intros (k1 & ? & Hv1 & Hz1 & Hc1 & Hwf1) (k2 & ? & Hv2 & Hz2 & Hc2 & Hwf2). simpl in *.
  exists (k1 + k2). simpl. split_and!; try done || lia.
  - by rewrite Hv2, Hv1, u64_add_l, Z.add_assoc.
  - intros Hk. rewrite Hz2, Hz1 by lia. done.
  - subst. case_bool_decide; symmetry; [apply bool_decide_eq_true_2; lia|].
    apply bool_decide_ext. lia.
Qed.

Lemma advances_updateNode m src : NodeMap_wf m -> advances 1 m (updateNode m src).
Proof.
  intros Hwf. exists (if (updateNode m src).2 then 1 else 0).
  pose proof (updateNode_version m src Hwf) as Hv.
  pose proof (updateNode_unchanged m src Hwf) as Hu.
  pose proof (updateNode_wf m src Hwf) as Hwf'.
  destruct (updateNode m src) as [m' []]; simpl in *; split_and!; try done || lia.
  - rewrite Hv, Z.add_0_r. symmetry. apply Z.mod_small, Hwf.
  - intros _. by apply Hu.
Qed.

Lemma advances_removeNode m name : NodeMap_wf m -> advances 1 m (removeNode m name, true).
Proof. intros Hwf. exists 1. split_and!; try done || lia. by apply removeNode_wf. Qed.

(** *** ReplaceAllNodes *)

(** The digests of a list of nodes: the last node of a name counts. *)
Definition digests (l : list Node) : gmap string NodeInfo :=
  (fun src => summarize (node_Name src) src) <$> index_by (fun src => Some (node_Name src)) l.

Lemma digests_snoc l src :
  digests (l ++ [src]) = <[node_Name src := summarize (node_Name src) src]> (digests l).
Proof. unfold digests. by rewrite index_by_snoc, fmap_insert. Qed.

Lemma replace_update_spec m l :
  NodeMap_wf m ->
  let '(names, m', changed) := foldl replace_update (∅, m, false) l in
  names = dom (digests l) /\ view m' = digests l ∪ view m
  /\ advances (Z.of_nat (length l)) m (m', changed).
Proof.
  intros Hwf. induction l as [|src l IH] using rev_ind.
  { cbn [foldl]. unfold digests, index_by. cbn [foldl]. rewrite fmap_empty, dom_empty_L.
    rewrite (left_id_L ∅ (∪)). auto using advances_refl. }
  rewrite foldl_app. destruct (foldl _ _ l) as [[names m1] c1]. destruct IH as (Hn & Hv & Ha).
  cbn [foldl replace_update]. assert (NodeMap_wf m1) as Hwf1 by (by eapply (advances_wf _ _ (m1, c1))).
  pose proof (updateNode_view m1 src Hwf1) as Hv2.
  pose proof (advances_updateNode m1 src Hwf1) as Ha2.
  destruct (updateNode m1 src) as [m2 c2]. simpl in Hv2.
  rewrite digests_snoc, dom_insert_L, Hn. split; [done|]. split.
  - by rewrite Hv2, Hv, insert_union_l.
  - rewrite length_app, Nat2Z.inj_add. by eapply advances_trans.
Qed.

Lemma replace_remove_spec names es : forall m c,
  NodeMap_wf m ->
  let '(m', c') := foldl (replace_remove names) (m, c) es in
  (forall k, view m' !! k = if bool_decide (k ∈ es.*1 /\ k ∉ names) then None else view m !! k)
  /\ exists d, advances (Z.of_nat (length es)) m (m', d) /\ c' = if d then true else c.
Proof.
  induction es as [|[k0 l0] es IH]; intros m c Hwf; cbn [foldl replace_remove].
  { split; [|exists false; auto using advances_refl].
    intros k. rewrite bool_decide_false; [done|]. by intros [?%not_elem_of_nil _]. }
  cbn [fst]. case_bool_decide as Hk0.
  - specialize (IH m c Hwf). destruct (foldl _ _ _) as [m' c'].
    destruct IH as (Hv & d & Ha & Hc). split.
    + intros k. rewrite Hv, fmap_cons. erewrite bool_decide_ext; [done|].
      rewrite elem_of_cons. cbn [fst]. split; [tauto|]. intros [[->|] ?]; done.
    + exists d. split; [|done]. destruct Ha as (n & ? & ?). exists n. split; [simpl length; lia|done].
  - specialize (IH (removeNode m k0) true (removeNode_wf m k0 Hwf)).
    destruct (foldl _ _ _) as [m' c']. destruct IH as (Hv & d & Ha & Hc). split.
    + intros k. rewrite Hv, removeNode_view, fmap_cons. cbn [fst]. destruct (decide (k = k0)) as [->|Hne].
      * rewrite lookup_delete_eq. rewrite (bool_decide_true (k0 ∈ k0 :: es.*1 /\ _)) by (split; [by left|done]).
        by destruct (bool_decide _).
      * rewrite lookup_delete_ne by done. erewrite bool_decide_ext; [done|].
        rewrite elem_of_cons. tauto.
    + exists true. split; [|by destruct d].
      replace (Z.of_nat (length _)) with (1 + Z.of_nat (length es)) by (simpl length; lia).
      pose proof (advances_trans _ _ _ _ _ _ _ (advances_removeNode m k0 Hwf) Ha) as Ht.
      by destruct d.
Qed.

Lemma size_union_le (X Y : gset string) : (size (X ∪ Y) <= size X + size Y)%nat.
Proof.
  rewrite size_union_alt. apply Nat.add_le_mono_l, subseteq_size. set_solver.
Qed.

Lemma digests_size l : (size (dom (digests l)) <= length l)%nat.
Proof.
  induction l as [|src l IH] using rev_ind.
  { unfold digests, index_by. cbn [foldl]. by rewrite fmap_empty, dom_empty_L, size_empty. }
  rewrite digests_snoc, dom_insert_L, length_app. etrans; [apply size_union_le|].
  rewrite size_singleton. simpl. lia.
Qed.

Lemma dom_view m : dom (view m) = dom (nodes m).
Proof. unfold view. apply dom_fmap_L. Qed.

Lemma length_range (V : Type) o (x : gmap string V) : length (range o x) = size x.
Proof. rewrite range_perm. by rewrite length_map_to_list. Qed.

Lemma ReplaceAllNodes_spec o m l :
  NodeMap_wf m ->
  view (ReplaceAllNodes o m l).1 = digests l
  /\ advances (2 * Z.of_nat (length l) + Z.of_nat (size (nodes m))) m (ReplaceAllNodes o m l).
Proof.
  intros Hwf. unfold ReplaceAllNodes. pose proof (replace_update_spec m l Hwf) as H1.
  destruct (foldl replace_update _ l) as [[names m1] c1]. destruct H1 as (Hn & Hv & Ha1).
  assert (NodeMap_wf m1) as Hwf1 by (by eapply (advances_wf _ _ (m1, c1))).
  pose proof (replace_remove_spec names (range o (nodes m1)) m1 c1 Hwf1) as H2.
  destruct (foldl (replace_remove names) _ _) as [m2 c2]. destruct H2 as (Hv2 & d & Ha2 & ->).
  cbn [fst]. split.
  - apply map_eq. intros k. rewrite Hv2, Hn. case_bool_decide as Hk.
    + destruct Hk as [_ Hk]. symmetry. by apply not_elem_of_dom.
    + rewrite Hv. destruct (digests l !! k) as [x|] eqn:Hx.
      * by apply lookup_union_Some_l.
      * rewrite lookup_union_r by done. destruct (view m !! k) as [y|] eqn:Hy; [|done].
        exfalso. apply Hk. split; [|by apply not_elem_of_dom].
        assert (k ∈ dom (nodes m1)) as [x' Hx']%elem_of_dom.
        { rewrite <- dom_view, Hv, dom_union_L. apply elem_of_union_r, elem_of_dom. eauto. }
        apply list_elem_of_fmap. exists (k, x'). split; [done|]. by apply elem_of_range.
  - pose proof (advances_trans _ _ _ _ _ _ _ Ha1 Ha2) as (n & Hb & ?). exists n.
    split; [|done]. rewrite length_range in Hb.
    assert (size (nodes m1) <= length l + size (nodes m))%nat; [|lia].
    rewrite <- !(size_dom (D := gset string)), <- !dom_view, Hv, dom_union_L.
    etrans; [apply size_union_le|]. pose proof (digests_size l). lia.
Qed.
End NodeMapFacts.
