(* ===== verification/NodeMapSpec.v ===== *)
(** * Runs of the node map

    The watcher applies [UpdateNode], [RemoveNode], [ReplaceAllNodes] and [MarkReady] in any
    order while the routing controller reads snapshots. [nm_run m c m'] is such a run; [c]
    bounds how often it increments the version. The theorems of this file are about every
    state a run reaches. *)

From S2P Require Import Prelude GoNet GoNetFacts K8s Nodes NodesFacts.

Section Runs.
Context `{CoreV1}.
Implicit Types (m : NodeMap) (src : Node) (o : Order).

Inductive nm_op :=
| OpUpdate (src : Node)
| OpRemove (src : Node)
| OpReplace (o : Order) (l : list Node)
| OpReady.

Definition nm_apply (m : NodeMap) (op : nm_op) : NodeMap :=
  match op with
  | OpUpdate src => (UpdateNode m src).1
  | OpRemove src => RemoveNode m src
  | OpReplace o l => (ReplaceAllNodes o m l).1
  | OpReady => MarkReady m
  end.

(** How often an operation can increment the version. *)
Definition op_bound (m : NodeMap) (op : nm_op) : Z :=
  match op with
  | OpUpdate _ | OpRemove _ => 1
  | OpReplace _ l => 2 * Z.of_nat (length l) + Z.of_nat (size (nodes m))
  | OpReady => 0
  end.

Inductive nm_run (m : NodeMap) : Z -> NodeMap -> Prop :=
| run_refl : nm_run m 0 m
| run_step c m' op : nm_run m c m' -> nm_run m (c + op_bound m' op) (nm_apply m' op).

(** What a snapshot can show of a map, apart from its version. *)
Definition observe (m : NodeMap) : gmap string NodeInfo * option NodeInfo :=
  (view m, me_info m).

Definition evolves (b : Z) (m m' : NodeMap) : Prop :=
  exists k, 0 <= k <= b /\ version m' = u64 (version m + k)
    /\ (k = 0 -> observe m' = observe m) /\ NodeMap_wf m'.

Lemma advances_evolves b m r : advances b m r -> evolves b m r.1.
Proof.
  intros (k & ? & ? & Hz & _ & ?). exists k. split_and!; try done || lia.
  intros Hk. by rewrite Hz.
Qed.

Lemma evolves_apply m op : NodeMap_wf m -> evolves (op_bound m op) m (nm_apply m op).
Proof.
  intros Hwf. destruct op as [src|src|o l|]; simpl.
  - by apply advances_evolves, advances_updateNode.
  - exact (advances_evolves _ _ _ (advances_removeNode m (node_Name src) Hwf)).
  - apply advances_evolves. by apply ReplaceAllNodes_spec.
  - exists 0. rewrite Z.add_0_r. split_and!; try done || lia; [|by apply MarkReady_wf].
    symmetry. apply Z.mod_small, Hwf.
Qed.

Lemma evolves_trans b1 b2 m1 m2 m3 :
  evolves b1 m1 m2 -> evolves b2 m2 m3 -> evolves (b1 + b2) m1 m3.
Proof.
  intros (k1 & ? & Hv1 & Hz1 & Hwf1) (k2 & ? & Hv2 & Hz2 & Hwf2).
  exists (k1 + k2). split_and!; try done || lia.
  - by rewrite Hv2, Hv1, u64_add_l, Z.add_assoc.
  - intros Hk. rewrite Hz2, Hz1 by lia. done.
Qed.

Lemma run_evolves m c m' : NodeMap_wf m -> nm_run m c m' -> evolves c m m'.
Proof.
  intros Hwf. induction 1 as [|c m' op Hr IH].
  - exists 0. rewrite Z.add_0_r. split_and!; try done || lia. symmetry. apply Z.mod_small, Hwf.
  - eapply evolves_trans; [exact IH|]. apply evolves_apply. by destruct IH as (? & ? & ? & ? & ?).
Qed.

Lemma run_wf m c m' : NodeMap_wf m -> nm_run m c m' -> NodeMap_wf m'.
Proof. intros Hwf Hr. by destruct (run_evolves m c m' Hwf Hr) as (? & ? & ? & ? & ?). Qed.

(** *** The self node *)

(** [me] points to an object the map no longer holds. *)
Definition orphaned (m : NodeMap) (n : NodeInfo) : Prop :=
  exists l, me m = Some l /\ heap m !! l = Some n /\ forall name, nodes m !! name ≠ Some l.

Lemma orphaned_updateNode m src n :
  NodeMap_wf m -> orphaned m n -> orphaned (updateNode m src).1 n.
Proof.
  intros Hwf (l & Hme & Hl & Ho). rewrite updateNode_eq by done. cbn [fst].
  assert (target m (node_Name src) ≠ l) as Hne.
  { unfold target. destruct (nodes m !! node_Name src) as [l'|] eqn:Hn; simpl.
    - intros ->. by destruct (Ho (node_Name src)).
    - intros <-. pose proof (target_fresh m _ Hn) as Hf. unfold target in Hf.
      rewrite Hn in Hf. simpl in Hf. congruence. }
  exists l. cbn [me heap nodes]. rewrite Hme. simpl. split; [done|].
  rewrite lookup_insert_ne by done. split; [done|]. intros name.
  destruct (decide (node_Name src = name)) as [<-|].
  - rewrite lookup_insert_eq. congruence.
  - rewrite lookup_insert_ne by done. apply Ho.
Qed.

Lemma orphaned_removeNode m name n : orphaned m n -> orphaned (removeNode m name) n.
Proof.
  intros (l & Hme & Hl & Ho). exists l. simpl. split_and!; [done..|].
  intros name' [_ ?]%lookup_delete_Some. by apply (Ho name').
Qed.

Lemma orphaned_ReplaceAllNodes o m l n :
  NodeMap_wf m -> orphaned m n -> orphaned (ReplaceAllNodes o m l).1 n.
Proof.
  intros Hwf Ho. unfold ReplaceAllNodes.
  assert (forall l st, NodeMap_wf st.1.2 /\ orphaned st.1.2 n ->
    NodeMap_wf (foldl replace_update st l).1.2 /\ orphaned (foldl replace_update st l).1.2 n) as H1.
  { clear. intros l. induction l as [|src l IH]; intros [[names m] c] [Hwf Ho]; [done|].
    cbn [foldl replace_update]. apply IH.
    pose proof (updateNode_wf m src Hwf). pose proof (orphaned_updateNode m src n Hwf Ho).
    by destruct (updateNode m src). }
  specialize (H1 l (∅, m, false) (conj Hwf Ho)).
  destruct (foldl replace_update _ l) as [[names m1] c1]. destruct H1 as [_ Ho1].
  simpl in Ho1. generalize (range o (nodes m1)) as es. intros es. revert m1 c1 Ho1.
  induction es as [|e es IH]; intros m1 c1 Ho1; [done|]. cbn [foldl replace_remove].
  case_bool_decide; apply IH; [done|]. by apply orphaned_removeNode.
Qed.

Lemma orphaned_run m c m' n : NodeMap_wf m -> nm_run m c m' -> orphaned m n -> orphaned m' n.
Proof.
  intros Hwf Hr Ho. induction Hr as [|c m' op Hr IH]; [done|].
  pose proof (run_wf _ _ _ Hwf Hr) as Hwf'. destruct op; simpl.
  - by apply orphaned_updateNode.
  - by apply orphaned_removeNode.
  - by apply orphaned_ReplaceAllNodes.
  - exact IH.
Qed.

Lemma remove_me_orphaned m src l n :
  NodeMap_wf m -> me m = Some l -> nodes m !! node_Name src = Some l -> heap m !! l = Some n ->
  orphaned (RemoveNode m src) n.
Proof.
  intros Hwf Hme Hl Hn. exists l. simpl. split_and!; [done..|].
  intros name [Hne Hl']%lookup_delete_Some. apply Hne. by eapply nodes_inj.
Qed.
End Runs.

(** ** Properties *)

Section Properties.
Context `{CoreV1}.

(** C13: [NodeInfo.update] computes the digest of the API object: its pod CIDR as parsed, its
    least internal address, and the availability its last decisive condition gives. What the
    object held before does not matter, and the result says whether it differs. *)
Theorem update_computes_summary n src :
  NodeInfo_wf n ->
  NodeInfo_update n src
  = (summarize (Name n) src, negb (bool_decide (n = summarize (Name n) src))).
Proof. apply NodeInfo_update_spec. Qed.

(** C10: Every operation of a reachable [NodeMap] acts on the abstract map as the API server's
    view says: an update files the digest of the node, a removal deletes it, and
    [ReplaceAllNodes] leaves the digests of the list and nothing else, in whatever order the
    stale entries are visited. *)
Theorem node_map_refines_view p c m op :
  nm_run (NewNodeMap p) c m ->
  view (nm_apply m op)
  = match op with
    | OpUpdate src => <[node_Name src := summarize (node_Name src) src]> (view m)
    | OpRemove src => delete (node_Name src) (view m)
    | OpReplace _ l => digests l
    | OpReady => view m
    end.
Proof.
  intros Hr. pose proof (run_wf _ _ _ (NewNodeMap_wf p) Hr) as Hwf. destruct op; simpl.
  - by apply updateNode_view.
  - apply removeNode_view.
  - by apply ReplaceAllNodes_spec.
  - done.
Qed.

(** C11: A version number stands for one content. Along any run of fewer than 2^64 version
    increments from a reachable map, [IsVersion] of the old version answers true only when
    every node and the self node are what they were: a provider that skips its work because
    the version it applied is still current skips nothing. *)
Theorem version_identifies_contents p c0 m c m' :
  nm_run (NewNodeMap p) c0 m -> nm_run m c m' -> c < 2 ^ 64 ->
  IsVersion m' (version m) = true -> observe m' = observe m.
Proof.
  intros H0 Hr Hc Hv%Z.eqb_eq. pose proof (run_wf _ _ _ (NewNodeMap_wf p) H0) as Hwf.
  destruct (run_evolves _ _ _ Hwf Hr) as (k & Hk & Hver & Hz & _). apply Hz.
  pose proof (wf_version _ Hwf) as Hb. rewrite Hv in Hver. unfold u64 in Hver.
  Z.div_mod_to_equations. lia.
Qed.

(** [UpdateNode] returns true exactly when the observable state of a reachable map
    changed, and the version moves by exactly one in that case and not at all otherwise. *)
Theorem UpdateNode_reports_change p c m src :
  nm_run (NewNodeMap p) c m ->
  let '(m', changed) := UpdateNode m src in
  changed = negb (bool_decide (observe m' = observe m))
  /\ version m' = if changed then u64 (version m + 1) else version m.
Proof.
  intros Hr. pose proof (run_wf _ _ _ (NewNodeMap_wf p) Hr) as Hwf. unfold UpdateNode.
  pose proof (updateNode_view m src Hwf) as Hv. pose proof (updateNode_changed m src Hwf) as Hc.
  pose proof (updateNode_version m src Hwf) as Hver.
  pose proof (updateNode_unchanged m src Hwf) as Hu. pose proof (updateNode_eq m src Hwf) as He.
  destruct (updateNode m src) as [m' []] eqn:E; simpl in *; (split; [|done]).
  2: by rewrite (Hu eq_refl), bool_decide_true.
  rewrite bool_decide_false; [done|]. unfold observe. rewrite Hv. intros [= Hview Hme].
  symmetry in Hc. apply orb_true_iff in Hc as [Hc%negb_true_iff%bool_decide_eq_false|Hc].
  - apply Hc. rewrite <- Hview. apply lookup_insert_eq.
  - injection He as He1 _. unfold me_info in Hme. rewrite He1 in Hme. cbn [me] in Hme.
    rewrite Hc in Hme. apply andb_true_iff in Hc as [Hc%bool_decide_eq_true _].
    by rewrite Hc in Hme.
Qed.

(** A snapshot of a reachable, ready map is the digest of every node, each once, with
    the current version; the order is the map's own. Its first result is never nil, so the
    providers' test for a missing local node cannot fire on a ready map: when no node has
    been recognised as the local one, it is the zero [NodeInfo]. *)
Theorem Snapshot_reports_view p c m o :
  nm_run (NewNodeMap p) c m -> IsReady m = true ->
  exists me l, Snapshot o m = (Some me, l, version m)
    /\ (forall n, n ∈ l <-> view m !! Name n = Some n) /\ NoDup (Name <$> l)
    /\ me = default zero_NodeInfo (me_info m).
Proof.
  intros Hr Hready. pose proof (run_wf _ _ _ (NewNodeMap_wf p) Hr) as Hwf.
  unfold Snapshot. unfold IsReady in Hready. rewrite Hready. simpl. eexists _, _.
  split; [done|]. destruct (snapshot_nodes m o Hwf) as [Hin Hnd].
  split_and!; [exact Hin|exact Hnd|]. unfold me_info. by destruct (me m).
Qed.

(** C37: Once the self node has been deleted, what the map reports as the self node is frozen:
    no later update, removal or relisting changes it, not even one that brings a node of the
    same name back with another address or CIDR. *)
Theorem deleted_self_is_never_refreshed p c0 m src n c m' :
  nm_run (NewNodeMap p) c0 m ->
  me m = nodes m !! node_Name src -> me_info m = Some n ->
  nm_run (RemoveNode m src) c m' -> me_info m' = Some n.
Proof.
  intros H0 Hsame Hn Hr. pose proof (run_wf _ _ _ (NewNodeMap_wf p) H0) as Hwf.
  unfold me_info in Hn. destruct (me m) as [l|] eqn:Hme; [|done]. simpl in Hn.
  destruct (wf_me _ Hwf l Hme) as [n' Hn']. unfold deref in Hn. rewrite Hn' in Hn.
  simpl in Hn. assert (n' = n) as -> by congruence.
  pose proof (remove_me_orphaned m src l n Hwf Hme (eq_sym Hsame) Hn') as Ho.
  apply (orphaned_run _ _ _ _ (removeNode_wf m _ Hwf) Hr) in Ho.
  destruct Ho as (l' & Hme' & Hl' & _). unfold me_info. rewrite Hme'. simpl.
  unfold deref. by rewrite Hl'.
Qed.

(** The address chosen for a node does not depend on the order in which the API lists its
    addresses. *)
Theorem address_choice_is_consistent n src addresses :
  Status_Addresses src ≡ₚ addresses ->
  NodeInfo_update n (MkNode (node_Name src) (Spec_PodCIDR src) addresses
                       (Status_Conditions src) (Status_NodeInfo src))
  = NodeInfo_update n src.
Proof.
  intros Hp. unfold NodeInfo_update.
  assert (forall n c, update_Address n (MkNode (node_Name src) (Spec_PodCIDR src) addresses
    (Status_Conditions src) (Status_NodeInfo src)) c = update_Address n src c) as Ha.
  { intros n' c. set (src' := MkNode _ _ addresses _ _).
    assert (internalIPs src ≡ₚ internalIPs src') as Hip.
    { unfold internalIPs. by rewrite Hp. }
    assert (sort_Strings (internalIPs src) = sort_Strings (internalIPs src')) as Hs.
    { apply (Sorted_unique String.le); try (apply Sorted_merge_sort; apply _).
      unfold sort_Strings. by rewrite !merge_sort_Permutation. }
    unfold update_Address. rewrite <- Hs, <- (Permutation_length Hip).
    destruct (length (internalIPs src) =? 1)%nat eqn:Hl; [|done].
    apply Nat.eqb_eq in Hl. destruct (internalIPs src) as [|a []]; try done.
    apply Permutation_singleton_l in Hip. by rewrite Hip. }
  change (update_PodCIDR n (MkNode _ _ _ _ _) false) with (update_PodCIDR n src false).
  destruct (update_PodCIDR n src false) as [n1 c1]. rewrite Ha. by destruct (update_Address n1 src c1).
Qed.
End Properties.

(** ** Witnesses *)

Section Witnesses.

Definition sample_node (name cidr ip : string) : Node :=
  MkNode name cidr [MkNodeAddress "InternalIP" ip; MkNodeAddress "Hostname" name]
    [MkNodeCondition "Ready" "True"; MkNodeCondition "NetworkUnavailable" "True"]
    (MkNodeSystemInfo EmptyString EmptyString EmptyString).

Definition node_a : Node := sample_node "a" "100.96.1.0/24" "172.20.0.1".
Definition node_a' : Node := sample_node "a" "100.96.9.0/24" "172.20.0.9".
Definition node_b : Node := sample_node "b" "100.96.2.0/24" "172.20.0.2".

Definition is_a (n : Node) : bool := bool_decide (node_Name n = "a").

#[local] Instance sample_corev1 : CoreV1 := corev1_v0_29.

(** A map that has seen the nodes [a], its own, and [b]. *)
Definition map_ab : NodeMap :=
  nm_apply (nm_apply (NewNodeMap is_a) (OpReplace in_order [node_a; node_b])) OpReady.

Lemma map_ab_run : nm_run (NewNodeMap is_a) (0 + 4 + 0) map_ab.
Proof. exact (run_step _ _ _ OpReady (run_step _ _ _ (OpReplace in_order [node_a; node_b]) (run_refl _))). Qed.

Definition info_a : NodeInfo :=
  MkNodeInfo "a" (IPv4 xac x14 x00 x01)
    (Some (MkIPNet (Some [x64; x60; x01; x00]) (IPv4Mask xff xff xff x00))) false.

Lemma update_computes_summary_witness :
  NodeInfo_wf zero_NodeInfo
  /\ NodeInfo_update zero_NodeInfo node_a
     = (summarize (Name zero_NodeInfo) node_a,
        negb (bool_decide (zero_NodeInfo = summarize (Name zero_NodeInfo) node_a)))
  /\ summarize "a" node_a = info_a.
Proof.
  assert (NodeInfo_wf zero_NodeInfo) as Hwf by (split; discriminate).
  split; [exact Hwf|]. split; [exact (update_computes_summary zero_NodeInfo node_a Hwf)|].
  vm_compute. reflexivity.
Defined.

Lemma node_map_refines_view_witness :
  view (nm_apply map_ab (OpReplace reverse_order [node_b])) = digests [node_b].
Proof. exact (node_map_refines_view is_a _ map_ab (OpReplace reverse_order [node_b]) map_ab_run). Defined.

Lemma version_identifies_contents_witness :
  observe (nm_apply map_ab (OpUpdate node_b)) = observe map_ab.
Proof.
  apply (version_identifies_contents is_a _ map_ab (0 + 1) _ map_ab_run).
  - exact (run_step _ _ _ (OpUpdate node_b) (run_refl _)).
  - reflexivity.
  - vm_compute. reflexivity.
Defined.

Lemma UpdateNode_reports_change_witness :
  let '(m', changed) := UpdateNode map_ab node_a' in
  changed = negb (bool_decide (observe m' = observe map_ab))
  /\ version m' = if changed then u64 (version map_ab + 1) else version map_ab.
Proof. exact (UpdateNode_reports_change is_a _ map_ab node_a' map_ab_run). Defined.

Lemma Snapshot_reports_view_witness :
  exists me l, Snapshot reverse_order map_ab = (Some me, l, version map_ab)
    /\ (forall n, n ∈ l <-> view map_ab !! Name n = Some n) /\ NoDup (Name <$> l)
    /\ me = default zero_NodeInfo (me_info map_ab).
Proof. exact (Snapshot_reports_view is_a _ map_ab reverse_order map_ab_run eq_refl). Defined.

(** The self node is deleted and comes back with another CIDR and address: the map files the
    new digest, and still reports the old one as its own. *)
Lemma deleted_self_is_never_refreshed_witness :
  let m' := nm_apply (RemoveNode map_ab node_a) (OpUpdate node_a') in
  me_info m' = Some info_a /\ view m' !! "a" = Some (summarize "a" node_a')
  /\ summarize "a" node_a' ≠ info_a.
Proof.
  split; [|split; [vm_compute; reflexivity|vm_compute; discriminate]].
  apply (deleted_self_is_never_refreshed is_a _ map_ab node_a info_a (0 + 1) _ map_ab_run).
  - vm_compute. reflexivity.
  - vm_compute. reflexivity.
  - exact (run_step _ _ _ (OpUpdate node_a') (run_refl _)).
Defined.

Lemma address_choice_is_consistent_witness :
  let twice := MkNode "c" EmptyString
    [MkNodeAddress "InternalIP" "10.0.0.9"; MkNodeAddress "InternalIP" "10.0.0.10"] []
    (MkNodeSystemInfo EmptyString EmptyString EmptyString) in
  Address (NodeInfo_update zero_NodeInfo (MkNode "c" EmptyString
    [MkNodeAddress "InternalIP" "10.0.0.10"; MkNodeAddress "InternalIP" "10.0.0.9"] []
    (MkNodeSystemInfo EmptyString EmptyString EmptyString))).1
  = Address (NodeInfo_update zero_NodeInfo twice).1.
Proof.
  intros twice.
  exact (f_equal (fun r => Address r.1) (address_choice_is_consistent zero_NodeInfo twice
    [MkNodeAddress "InternalIP" "10.0.0.10"; MkNodeAddress "InternalIP" "10.0.0.9"]
    (perm_swap _ _ _))).
Defined.

End Witnesses.
