(* ===== verification/Locking.v ===== *)
(** * The node map at the grain of single assignments

    Every method of the map holds the mutex, but the controller reads [nodeMap.me] and the fields
    behind it without it, so it can see the map between two assignments of a method. Here a method is
    the list of the assignments it makes while it holds the mutex ([op_writes]); carried out to the
    end they are the method's function in Nodes.v, and what a reader finds half way is a value from
    before or after the update of one node. Reads and writes are taken to be sequentially consistent. *)

From S2P Require Import Prelude GoNet GoNetFacts K8s Nodes NodesFacts NodeMapSpec.

(** ** Assignments *)

Inductive write :=
(** [m.nodes[name] = node], with [node] pointing to a new [NodeInfo]. *)
| FileNode (name : string) (l : loc)
| SetPodCIDR (l : loc) (c : option IPNet)
| SetAddress (l : loc) (a : IP)
| SetNetworkAvailable (l : loc) (b : bool)
| SetMe (l : loc)
| IncVersion
| DeleteNode (name : string)
| SetReady.

Definition set_field (l : loc) (f : NodeInfo -> NodeInfo) (m : NodeMap) : NodeMap :=
  MkNodeMap (mePredicate m) (ready m) (nodes m) (version m) (me m) (<[l := f (deref (heap m) l)]> (heap m)).

Definition write_apply (m : NodeMap) (x : write) : NodeMap :=
  match x with
  | FileNode name l =>
      MkNodeMap (mePredicate m) (ready m) (<[name := l]> (nodes m)) (version m) (me m)
        (<[l := MkNodeInfo name None None false]> (heap m))
  | SetPodCIDR l c => set_field l (fun n => set_PodCIDR n c) m
  | SetAddress l a => set_field l (fun n => set_Address n a) m
  | SetNetworkAvailable l b => set_field l (fun n => set_NetworkAvailable n b) m
  | SetMe l => MkNodeMap (mePredicate m) (ready m) (nodes m) (version m) (Some l) (heap m)
  | IncVersion => MkNodeMap (mePredicate m) (ready m) (nodes m) (u64 (version m + 1)) (me m) (heap m)
  | DeleteNode name => MkNodeMap (mePredicate m) (ready m) (delete name (nodes m)) (version m) (me m) (heap m)
  | SetReady => MkNodeMap (mePredicate m) true (nodes m) (version m) (me m) (heap m)
  end.

(** What memory holds after some assignments. *)
Definition memory (m : NodeMap) (ws : list write) : NodeMap := foldl write_apply m ws.

Section Writes.
Context `{CoreV1}.
Implicit Types (m : NodeMap) (src : Node) (o : Order) (n : NodeInfo) (l : loc).

(** The assignments of [NodeInfo.update]: each block assigns its field exactly when it sets
    [changed]. The second component is the result. *)
Definition update_writes l n src : list write * bool :=
  let '(n1, c1) := update_PodCIDR n src false in
  let '(n2, c2) := update_Address n1 src false in
  let '(n3, c3) := update_NetworkAvailable n2 src false in
  ((if c1 then [SetPodCIDR l (PodCIDR n1)] else []) ++
   (if c2 then [SetAddress l (Address n2)] else []) ++
   (if c3 then [SetNetworkAvailable l (NetworkAvailable n3)] else []), c1 || c2 || c3).

(** The assignments of [updateNode] in their order. *)
Definition updateNode_writes m src : list write :=
  let name := node_Name src in
  let '(filing, node, n, changed) :=
    match nodes m !! name with
    | Some l => ([], l, deref (heap m) l, false)
    | None => let l := fresh (dom (heap m)) in ([FileNode name l], l, MkNodeInfo name None None false, true)
    end in
  let '(updating, updated) := update_writes node n src in
  let changed := if updated : bool then true else changed in
  let '(self, changed) :=
    match me m with
    | None => if mePredicate m src then ([SetMe node], true) else ([], changed)
    | Some _ => ([], changed)
    end in
  filing ++ updating ++ self ++ if changed : bool then [IncVersion] else [].

Definition removeNode_writes (name : string) : list write := [DeleteNode name; IncVersion].

(** The two loops of [ReplaceAllNodes]. *)
Fixpoint updates_writes m (l : list Node) : list write :=
  match l with
  | [] => []
  | src :: l => updateNode_writes m src ++ updates_writes (updateNode m src).1 l
  end.

Definition removes_writes (names : gset string) (es : list (string * loc)) : list write :=
  e ← es; if bool_decide (e.1 ∈ names) then [] else removeNode_writes e.1.

Definition ReplaceAllNodes_writes o m (l : list Node) : list write :=
  let '(names, m', _) := foldl replace_update (∅, m, false) l in
  updates_writes m l ++ removes_writes names (range o (nodes m')).

(** The critical section of a method. *)
Definition op_writes m (op : nm_op) : list write :=
  match op with
  | OpUpdate src => updateNode_writes m src
  | OpRemove src => removeNode_writes (node_Name src)
  | OpReplace o l => ReplaceAllNodes_writes o m l
  | OpReady => [SetReady]
  end.

(** ** Carried out to the end *)

Lemma memory_app m ws1 ws2 : memory m (ws1 ++ ws2) = memory (memory m ws1) ws2.
Proof. apply foldl_app. Qed.

Lemma negb_false_eq (P : Prop) `{Decision P} : negb (bool_decide P) = false -> P.
Proof. by rewrite negb_false_iff, bool_decide_eq_true. Qed.

(** The assignments of [update], of which those that would change nothing are left out. *)
Lemma update_writes_eq l n src :
  NodeInfo_wf n ->
  update_writes l n src =
    ((if bool_decide (PodCIDR n = summary_PodCIDR src) then [] else [SetPodCIDR l (summary_PodCIDR src)]) ++
     (if bool_decide (Address n = summary_Address src) then [] else [SetAddress l (summary_Address src)]) ++
     (if bool_decide (NetworkAvailable n = summary_NetworkAvailable src) then []
      else [SetNetworkAvailable l (summary_NetworkAvailable src)]),
     negb (bool_decide (n = summarize (Name n) src))).
Proof.
  intros Hwf. pose proof (NodeInfo_update_spec n src Hwf) as Hu. unfold update_writes, NodeInfo_update in *.
  rewrite update_PodCIDR_spec in * by done.
  assert (NodeInfo_wf (set_PodCIDR n (summary_PodCIDR src))) as Hwf1.
  { destruct Hwf as [_ Ha]. split; simpl; [|done]. intros c. apply ParseCIDR_wf. }
  rewrite update_Address_spec in * by done. rewrite update_NetworkAvailable_spec in *. injection Hu as Hu.
  cbn in Hu |- *. f_equal; [|exact Hu]. by repeat case_bool_decide.
Qed.

Lemma updateNode_writes_eq m src :
  NodeMap_wf m ->
  let name := node_Name src in
  let me_now := bool_decide (me m = None) && mePredicate m src in
  let changed := is_new m name || negb (bool_decide (old_info m name = summarize name src)) || me_now in
  updateNode_writes m src =
    (if is_new m name then [FileNode name (target m name)] else []) ++
    (update_writes (target m name) (old_info m name) src).1 ++
    (if me_now then [SetMe (target m name)] else []) ++ (if changed then [IncVersion] else []).
Proof.
  intros Hwf. cbv zeta. unfold updateNode_writes, is_new, old_info, target, view. rewrite lookup_fmap.
  destruct (nodes m !! node_Name src) as [l|] eqn:Hl; simpl.
  - destruct (wf_node _ Hwf _ _ Hl) as (n & Hn & Hname). unfold deref. rewrite Hn. simpl.
    rewrite update_writes_eq by (by eapply wf_heap). rewrite Hname. cbn [fst].
    destruct (me m); simpl; [|destruct (mePredicate m src)]; by destruct (bool_decide (n = _)).
  - rewrite update_writes_eq by done. cbn [fst Name].
    destruct (me m); simpl; [|destruct (mePredicate m src)]; by repeat case_bool_decide.
Qed.

Lemma set_field_id m l n f : heap m !! l = Some n -> f n = n -> set_field l f m = m.
Proof. intros Hn Hf. unfold set_field, deref. rewrite Hn. simpl. rewrite Hf, insert_id by done. by destruct m. Qed.

Lemma lookup_set_field m l n f : heap m !! l = Some n -> heap (set_field l f m) !! l = Some (f n).
Proof. intros Hn. unfold set_field, deref. simpl. by rewrite lookup_insert_eq, Hn. Qed.

Lemma set_field_twice m l f g : set_field l g (set_field l f m) = set_field l (fun n => g (f n)) m.
Proof. unfold set_field, deref. simpl. by rewrite lookup_insert_eq, insert_insert_eq. Qed.

(** [update] on the object at [l]. *)
Lemma update_writes_run m l n src :
  heap m !! l = Some n -> NodeInfo_wf n ->
  memory m (update_writes l n src).1 = set_field l (fun _ => summarize (Name n) src) m.
Proof.
  intros Hn Hwf. rewrite update_writes_eq by done. cbn [fst]. rewrite !memory_app.
  assert (forall m', heap m' !! l = Some n ->
    memory m' (if bool_decide (PodCIDR n = summary_PodCIDR src) then [] else [SetPodCIDR l (summary_PodCIDR src)])
    = set_field l (fun n => set_PodCIDR n (summary_PodCIDR src)) m') as H1.
  { intros m' Hn'. case_bool_decide as He; [|done]. symmetry. eapply set_field_id; [done|]. rewrite <- He. by destruct n. }
  rewrite H1 by done. clear H1. set (m1 := set_field l _ m).
  assert (heap m1 !! l = Some (set_PodCIDR n (summary_PodCIDR src))) as Hn1.
  { by apply (lookup_set_field m l n (fun n => set_PodCIDR n (summary_PodCIDR src))). }
  assert (memory m1 (if bool_decide (Address n = summary_Address src) then [] else [SetAddress l (summary_Address src)])
    = set_field l (fun n => set_Address n (summary_Address src)) m1) as ->.
  { case_bool_decide as He; [|done]. symmetry. eapply set_field_id; [done|]. rewrite <- He. by destruct n. }
  set (m2 := set_field l _ m1).
  assert (heap m2 !! l = Some (set_Address (set_PodCIDR n (summary_PodCIDR src)) (summary_Address src))) as Hn2.
  { by apply (lookup_set_field m1 l _ (fun n => set_Address n (summary_Address src))). }
  assert (memory m2 (if bool_decide (NetworkAvailable n = summary_NetworkAvailable src) then []
                     else [SetNetworkAvailable l (summary_NetworkAvailable src)])
    = set_field l (fun n => set_NetworkAvailable n (summary_NetworkAvailable src)) m2) as ->.
  { case_bool_decide as He; [|done]. symmetry. eapply set_field_id; [done|]. rewrite <- He. by destruct n. }
  unfold m2, m1. rewrite !set_field_twice. unfold set_field, deref. rewrite Hn. done.
Qed.

Lemma updateNode_writes_run m src : NodeMap_wf m -> memory m (updateNode_writes m src) = (updateNode m src).1.
Proof.
  intros Hwf. rewrite updateNode_writes_eq, updateNode_eq by done. cbn [fst].
  set (name := node_Name src). set (l := target m name). rewrite !memory_app.
  set (m1 := memory m (if is_new m name then [FileNode name l] else [])).
  assert (m1 = MkNodeMap (mePredicate m) (ready m) (<[name := l]> (nodes m)) (version m) (me m)
                 (<[l := old_info m name]> (heap m)) /\ NodeInfo_wf (old_info m name) /\ Name (old_info m name) = name) as (-> & Hi & Hn).
  { unfold m1, l, target, is_new, old_info, view. rewrite lookup_fmap.
    destruct (nodes m !! name) as [k|] eqn:Hk; simpl; [|done].
    destruct (wf_node _ Hwf _ _ Hk) as (n & Hn & Hnm). unfold deref. rewrite Hn. simpl.
    rewrite !insert_id by done. split; [by destruct m|]. split; [by eapply wf_heap|done]. }
  erewrite update_writes_run; [|apply lookup_insert_eq|done]. rewrite Hn. unfold set_field. simpl.
  rewrite insert_insert_eq. by destruct (_ && mePredicate m src), (_ || _).
Qed.

Lemma updates_writes_run (items : list Node) : forall m names c,
  NodeMap_wf m -> memory m (updates_writes m items) = (foldl replace_update (names, m, c) items).1.2.
Proof.
  induction items as [|src items IH]; intros m names c Hwf; [done|]. cbn [updates_writes foldl replace_update].
  rewrite memory_app, updateNode_writes_run by done. pose proof (updateNode_wf m src Hwf) as Hwf1.
  destruct (updateNode m src) as [m1 c1]. by apply IH.
Qed.

Lemma removes_writes_run names es : forall m c,
  memory m (removes_writes names es) = (foldl (replace_remove names) (m, c) es).1.
Proof.
  induction es as [|e es IH]; intros m c; [done|]. unfold removes_writes. rewrite bind_cons, memory_app.
  cbn [foldl replace_remove]. case_bool_decide; [apply IH|]. apply (IH (removeNode m e.1)).
Qed.

(** The assignments of a critical section together are the operation. *)
Lemma op_writes_run m op : NodeMap_wf m -> memory m (op_writes m op) = nm_apply m op.
Proof.
  intros Hwf. destruct op as [src|src|o l|]; simpl; [by apply updateNode_writes_run|done| |done].
  unfold ReplaceAllNodes_writes, ReplaceAllNodes. pose proof (updates_writes_run l m ∅ false Hwf) as Hu.
  destruct (foldl replace_update _ l) as [[names m1] c1]. rewrite memory_app, Hu. apply removes_writes_run.
Qed.

(** ** Half way *)

(** What an assignment finds when it is made. *)
Definition write_ok m (x : write) : Prop :=
  match x with
  | FileNode name l => heap m !! l = None
  | SetPodCIDR _ c => forall c', c = Some c' -> IPNet_wf c'
  | SetAddress _ a => forall a', a = Some a' -> length a' = 16%nat
  | SetMe l => me m = None /\ is_Some (heap m !! l)
  | SetNetworkAvailable _ _ | IncVersion | DeleteNode _ | SetReady => True
  end.

Fixpoint writes_ok m (ws : list write) : Prop :=
  match ws with
  | [] => True
  | x :: ws => write_ok m x /\ writes_ok (write_apply m x) ws
  end.

(** The self node stays known, and no object changes its name. *)
Definition follows m m' : Prop :=
  (forall l, me m = Some l -> me m' = Some l) /\
  (forall l n, heap m !! l = Some n -> exists n', heap m' !! l = Some n' /\ Name n' = Name n).

#[export] Instance follows_preorder : PreOrder follows.
Proof.
  split; [split; eauto|]. intros m1 m2 m3 [H1 H1'] [H2 H2']. split; [auto|]. intros l n Hn.
  destruct (H1' l n Hn) as (n2 & Hn2 & <-). by apply H2'.
Qed.

Lemma set_field_follows m l f : (forall n, Name (f n) = Name n) -> follows m (set_field l f m).
Proof.
  intros Hf. split; [done|]. intros k n Hn. unfold set_field. simpl. destruct (decide (l = k)) as [->|Hne].
  - rewrite lookup_insert_eq. eexists. split; [done|]. unfold deref. by rewrite Hn, Hf.
  - rewrite lookup_insert_ne by done. eauto.
Qed.

Lemma write_follows m x : write_ok m x -> follows m (write_apply m x).
Proof.
  destruct x as [name l|l c|l a|l b|l| |name|]; cbn [write_ok write_apply]; intros Hx;
    try (by apply set_field_follows); try (by split; simpl; eauto).
  - split; [done|]. intros k n Hn. simpl. rewrite lookup_insert_ne by congruence. eauto.
  - destruct Hx as [Hm _]. split; [congruence|]. simpl. eauto.
Qed.

Lemma NodeInfo_wf_deref m l : NodeMap_wf m -> NodeInfo_wf (deref (heap m) l).
Proof.
  intros Hwf. unfold deref. destruct (heap m !! l) as [n|] eqn:Hn; [by eapply wf_heap|done].
Qed.

Lemma set_field_wf m l f :
  NodeMap_wf m -> (forall n, Name (f n) = Name n) -> NodeInfo_wf (f (deref (heap m) l)) -> NodeMap_wf (set_field l f m).
Proof.
  intros Hwf Hf Hi. destruct (set_field_follows m l f Hf) as [_ Hn]. split; simpl.
  - intros name k Hk. destruct (wf_node _ Hwf _ _ Hk) as (n & Hn0 & <-). by apply Hn.
  - intros k Hk. destruct (wf_me _ Hwf _ Hk) as [n Hn0]. destruct (Hn k n Hn0) as (n' & Hn' & _). by exists n'.
  - intros k n. destruct (decide (l = k)) as [->|Hne].
    + rewrite lookup_insert_eq. by intros [= <-].
    + rewrite lookup_insert_ne by done. by apply wf_heap.
  - apply Hwf.
Qed.

Lemma write_wf m x : NodeMap_wf m -> write_ok m x -> NodeMap_wf (write_apply m x).
Proof.
  intros Hwf Hx. destruct (write_follows m x Hx) as [_ Hn].
  pose proof (fun l => NodeInfo_wf_deref m l Hwf) as Hd.
  destruct x as [name l|l c|l a|l b|l| |name|]; cbn [write_ok write_apply] in *.
  - split; simpl; [| | |apply Hwf].
    + intros name' k [[<- <-]|[_ Hk]]%lookup_insert_Some; [rewrite lookup_insert_eq; eauto|].
      destruct (wf_node _ Hwf _ _ Hk) as (n & Hn0 & <-). by apply Hn.
    + intros k Hk. destruct (wf_me _ Hwf _ Hk) as [n Hn0]. destruct (Hn k n Hn0) as (n' & Hn' & _). by exists n'.
    + intros k n [[<- <-]|[_ Hk]]%lookup_insert_Some; [done|by eapply wf_heap].
  - apply set_field_wf; [done..|]. split; [done|apply Hd].
  - apply set_field_wf; [done..|]. split; [apply Hd|done].
  - apply set_field_wf; [done..|]. apply Hd.
  - split; simpl; try apply Hwf. intros k [= <-]. apply Hx.
  - split; simpl; try apply Hwf. apply u64_range.
  - split; simpl; try apply Hwf. intros name' k [_ Hk]%lookup_delete_Some. by apply Hwf.
  - by apply MarkReady_wf.
Qed.

Lemma writes_ok_app ws1 : forall m ws2, writes_ok m (ws1 ++ ws2) <-> writes_ok m ws1 /\ writes_ok (memory m ws1) ws2.
Proof.
  induction ws1 as [|x ws1 IH]; intros m ws2; simpl; [tauto|]. rewrite IH. tauto.
Qed.

Lemma writes_wf ws : forall m, NodeMap_wf m -> writes_ok m ws -> NodeMap_wf (memory m ws) /\ follows m (memory m ws).
Proof.
  induction ws as [|x ws IH]; intros m Hwf; [done|]. intros [Hx Hws].
  destruct (IH _ (write_wf m x Hwf Hx) Hws) as [Hw Hf]. split; [done|]. etransitivity; [by apply write_follows|done].
Qed.

Lemma update_writes_ok m l n src : NodeInfo_wf n -> writes_ok m (update_writes l n src).1.
Proof.
  intros Hn. rewrite update_writes_eq by done. destruct (summarize_wf EmptyString src) as [Hc Ha]. cbn in Hc, Ha.
  cbn [fst]. repeat case_bool_decide; simpl; auto.
Qed.

Lemma old_info_wf m name : NodeMap_wf m -> NodeInfo_wf (old_info m name) /\ Name (old_info m name) = name.
Proof.
  intros Hwf. unfold old_info. destruct (view m !! name) as [n|] eqn:Hv; [|done]. simpl.
  split; [|by eapply view_lookup_name]. unfold view in Hv. rewrite lookup_fmap in Hv.
  apply fmap_Some in Hv as (l & _ & ->). by apply NodeInfo_wf_deref.
Qed.

(** Filing and updating leave [me] alone. *)
Lemma memory_me ws : forall m, Forall (fun x => match x with SetMe _ => False | _ => True end) ws -> me (memory m ws) = me m.
Proof.
  induction ws as [|x ws IH]; intros m Hws; [done|]. apply Forall_cons in Hws as [Hx Hws].
  cbn [memory foldl]. etransitivity; [by apply IH|]. by destruct x.
Qed.

Lemma updateNode_writes_ok m src : NodeMap_wf m -> writes_ok m (updateNode_writes m src).
Proof.
  intros Hwf. rewrite updateNode_writes_eq by done. set (name := node_Name src). set (l := target m name).
  set (new := if is_new m name then _ else []). destruct (old_info_wf m name Hwf) as [Hi _].
  assert (writes_ok m new /\ is_Some (heap (memory m new) !! l)) as [Hnew Hl].
  { unfold new, is_new, l. case_bool_decide as Hn; simpl.
    - rewrite lookup_insert_eq. split; [split; [by apply target_fresh|done]|by eexists].
    - split; [done|]. unfold target. destruct (nodes m !! name) as [k|] eqn:Hk; [|done]. simpl.
      destruct (wf_node _ Hwf _ _ Hk) as (n & Hn' & _). by exists n. }
  apply writes_ok_app. split; [done|]. rewrite app_assoc. apply writes_ok_app.
  destruct (writes_wf new m Hwf Hnew) as [Hwf1 _].
  split; [|destruct (_ || _); simpl; by repeat split]. apply writes_ok_app. split; [by apply update_writes_ok|].
  destruct (bool_decide (me m = None)) eqn:Hme; [|done]. destruct (mePredicate m src); [|done]. apply bool_decide_eq_true in Hme.
  simpl. split; [|done]. destruct (writes_wf _ _ Hwf1 (update_writes_ok (memory m new) l _ src Hi)) as [_ [_ Hf]].
  split.
  - rewrite !memory_me; [done| |].
    + unfold new. case_match; by repeat constructor.
    + rewrite update_writes_eq by done. cbn [fst]. repeat case_bool_decide; by repeat constructor.
  - destruct Hl as [n Hn]. destruct (Hf l n Hn) as (n' & Hn' & _). by exists n'.
Qed.

Lemma updates_writes_ok (items : list Node) : forall m, NodeMap_wf m -> writes_ok m (updates_writes m items).
Proof.
  induction items as [|src items IH]; intros m Hwf; [done|]. cbn [updates_writes]. apply writes_ok_app.
  split; [by apply updateNode_writes_ok|]. rewrite updateNode_writes_run by done. by apply IH, updateNode_wf.
Qed.

Lemma removes_writes_ok names es : forall m, writes_ok m (removes_writes names es).
Proof.
  induction es as [|e es IH]; intros m; [done|]. unfold removes_writes. rewrite bind_cons. apply writes_ok_app.
  split; [|apply IH]. by case_bool_decide; repeat split.
Qed.

Lemma op_writes_ok m op : NodeMap_wf m -> writes_ok m (op_writes m op).
Proof.
  intros Hwf. destruct op as [src|src|o l|]; simpl; [by apply updateNode_writes_ok|done| |done].
  unfold ReplaceAllNodes_writes. destruct (foldl replace_update _ l) as [[names m1] c1].
  apply writes_ok_app. split; [by apply updates_writes_ok|apply removes_writes_ok].
Qed.

(** Half way the map is well formed, and it only goes on from there. *)
Lemma half_way m op ws1 ws2 :
  NodeMap_wf m -> op_writes m op = ws1 ++ ws2 ->
  NodeMap_wf (memory m ws1) /\ follows m (memory m ws1) /\ writes_ok (memory m ws1) ws2 /\
  follows (memory m ws1) (nm_apply m op).
Proof.
  intros Hwf Ho. pose proof (op_writes_ok m op Hwf) as Hok. rewrite Ho in Hok. apply writes_ok_app in Hok as [H1 H2].
  destruct (writes_wf _ _ Hwf H1) as [Hwf1 Hf1]. destruct (writes_wf _ _ Hwf1 H2) as [_ Hf2].
  rewrite <- op_writes_run, Ho, memory_app by done. done.
Qed.

(** ** What an unlocked read finds *)

(** The variables the controller reads without the mutex, and the address, which is of their kind. *)
Inductive slot :=
| Self
| PodCIDR_of (l : loc)
| Address_of (l : loc)
| NetworkAvailable_of (l : loc).

#[export] Instance slot_eq_dec : EqDecision slot.
Proof. solve_decision. Defined.

Definition assigns (x : write) : option slot :=
  match x with
  | SetMe _ => Some Self
  | SetPodCIDR l _ => Some (PodCIDR_of l)
  | SetAddress l _ => Some (Address_of l)
  | SetNetworkAvailable l _ => Some (NetworkAvailable_of l)
  | _ => None
  end.

(** Two states of memory hold the same in a variable. *)
Definition agree (v : slot) m m' : Prop :=
  match v with
  | Self => me m = me m'
  | PodCIDR_of l => PodCIDR (deref (heap m) l) = PodCIDR (deref (heap m') l)
  | Address_of l => Address (deref (heap m) l) = Address (deref (heap m') l)
  | NetworkAvailable_of l => NetworkAvailable (deref (heap m) l) = NetworkAvailable (deref (heap m') l)
  end.

#[export] Instance agree_equivalence v : Equivalence (agree v).
Proof. split; [intros m|intros m m'|intros m1 m2 m3]; destruct v; simpl; congruence. Qed.

Lemma deref_set_field m l f k : deref (heap (set_field l f m)) k = if decide (l = k) then f (deref (heap m) k) else deref (heap m) k.
Proof.
  unfold set_field, deref. simpl. destruct (decide (l = k)) as [->|Hne].
  - by rewrite lookup_insert_eq.
  - by rewrite lookup_insert_ne.
Qed.

(** A new node comes with what an object that is not there reads as. *)
Lemma write_agree m x v : write_ok m x -> assigns x ≠ Some v -> agree v m (write_apply m x).
Proof.
  destruct x as [name l|l c|l a|l b|l| |name|]; cbn [write_ok assigns write_apply]; intros Hx Ha;
    try (by destruct v).
  - destruct v as [|k|k|k]; simpl; [done|..]; unfold deref; (destruct (decide (l = k)) as [->|Hne];
      [by rewrite lookup_insert_eq, Hx|by rewrite lookup_insert_ne]).
  - destruct v; unfold agree; [done|..]; rewrite deref_set_field; case_decide; by subst.
  - destruct v; unfold agree; [done|..]; rewrite deref_set_field; case_decide; by subst.
  - destruct v; unfold agree; [done|..]; rewrite deref_set_field; case_decide; by subst.
Qed.

Lemma writes_agree v ws : forall m, writes_ok m ws -> v ∉ omap assigns ws -> agree v m (memory m ws).
Proof.
  induction ws as [|x ws IH]; intros m Hok Hv; [done|]. destruct Hok as [Hx Hok]. cbn [memory foldl].
  cbn [omap list_omap] in Hv. transitivity (write_apply m x).
  - apply write_agree; [done|]. intros Ha. apply Hv. rewrite Ha. by left.
  - apply IH; [done|]. intros Hin. apply Hv. destruct (assigns x); [by right|done].
Qed.

(** With one assignment to a variable at most, it holds its first or its last value. *)
Lemma old_or_new v m ws1 ws2 :
  writes_ok m (ws1 ++ ws2) -> NoDup (omap assigns (ws1 ++ ws2)) ->
  agree v (memory m ws1) m \/ agree v (memory m ws1) (memory m (ws1 ++ ws2)).
Proof.
  rewrite writes_ok_app, omap_app, NoDup_app, memory_app. intros [H1 H2] (_ & Hd & _).
  destruct (decide (v ∈ omap assigns ws1)) as [Hv|Hv].
  - right. apply writes_agree; [done|]. by apply Hd.
  - left. symmetry. by apply writes_agree.
Qed.

Lemma updateNode_writes_once m src : NodeMap_wf m -> NoDup (omap assigns (updateNode_writes m src)).
Proof.
  intros Hwf. destruct (old_info_wf m (node_Name src) Hwf) as [Hi _].
  rewrite updateNode_writes_eq, update_writes_eq by done. cbn [fst].
  assert (forall b1 b2 b3 b4 b5 b6 : bool, forall name l c a up,
    NoDup (omap assigns ((if b1 then [FileNode name l] else []) ++
      ((if b2 then [] else [SetPodCIDR l c]) ++ (if b3 then [] else [SetAddress l a]) ++
       (if b4 then [] else [SetNetworkAvailable l up])) ++
      (if b5 then [SetMe l] else []) ++ (if b6 then [IncVersion] else [])))) as Hall; [|apply Hall].
  intros b1 b2 b3 b4 b5 b6 name l c a up. destruct b1, b2, b3, b4, b5, b6; simpl;
    repeat (apply NoDup_cons; split; [rewrite ?elem_of_cons, ?elem_of_nil; naive_solver|]); apply NoDup_nil_2.
Qed.

(** The update or removal of one node, which is what a critical section consists of. *)
Inductive part m : list write -> Prop :=
| part_update src : part m (updateNode_writes m src)
| part_remove name : part m (removeNode_writes name)
| part_ready : part m [SetReady].

Definition updates_one m m' : Prop :=
  (exists src, m' = (updateNode m src).1) \/ (exists name, m' = removeNode m name) \/ m' = MarkReady m.

Lemma part_updates_one m ws : NodeMap_wf m -> part m ws -> updates_one m (memory m ws).
Proof.
  intros Hwf [src|name|]; [left|right; left|by right; right].
  - exists src. by apply updateNode_writes_run.
  - by exists name.
Qed.

Lemma part_once m ws : NodeMap_wf m -> part m ws -> writes_ok m ws /\ NoDup (omap assigns ws).
Proof.
  intros Hwf [src|name|]; [|by repeat constructor..].
  split; [by apply updateNode_writes_ok|by apply updateNode_writes_once].
Qed.

Inductive parts m : list write -> Prop :=
| parts_nil : parts m []
| parts_cons ws rest : part m ws -> parts (memory m ws) rest -> parts m (ws ++ rest).

Lemma parts_app m ws1 ws2 : parts m ws1 -> parts (memory m ws1) ws2 -> parts m (ws1 ++ ws2).
Proof.
  induction 1 as [m|m ws rest Hp _ IH]; intros H2; [done|]. rewrite <- app_assoc.
  apply parts_cons; [done|]. apply IH. by rewrite <- memory_app.
Qed.

Lemma part_parts m ws : part m ws -> parts m ws.
Proof. intros Hp. rewrite <- (app_nil_r ws). apply parts_cons; [done|apply parts_nil]. Qed.

Lemma updates_writes_parts (items : list Node) : forall m, NodeMap_wf m -> parts m (updates_writes m items).
Proof.
  induction items as [|src items IH]; intros m Hwf; [apply parts_nil|]. cbn [updates_writes].
  apply parts_cons; [apply part_update|]. rewrite updateNode_writes_run by done. by apply IH, updateNode_wf.
Qed.

Lemma removes_writes_parts names es : forall m, parts m (removes_writes names es).
Proof.
  induction es as [|e es IH]; intros m; [apply parts_nil|]. unfold removes_writes. rewrite bind_cons.
  apply parts_app; [|apply IH]. case_bool_decide; [apply parts_nil|apply part_parts, part_remove].
Qed.

Lemma op_writes_parts m op : NodeMap_wf m -> parts m (op_writes m op).
Proof.
  intros Hwf. destruct op as [src|src|o l|]; simpl;
    [apply part_parts, part_update|apply part_parts, part_remove| |apply part_parts, part_ready].
  unfold ReplaceAllNodes_writes. destruct (foldl replace_update _ l) as [[names m1] c1].
  apply parts_app; [by apply updates_writes_parts|apply removes_writes_parts].
Qed.

(** The update of one node that is under way. *)
Lemma parts_split m ws : forall ws1 ws2,
  parts m ws -> NodeMap_wf m -> ws = ws1 ++ ws2 ->
  exists pre mid post, ws1 = pre ++ mid /\ rtc updates_one m (memory m pre) /\
    NodeMap_wf (memory m pre) /\ part (memory m pre) (mid ++ post).
Proof.
  intros ws1 ws2 Hp. revert ws1 ws2. induction Hp as [m|m ws rest Hp _ IH]; intros ws1 ws2 Hwf Hs.
  - symmetry in Hs. apply app_nil in Hs as [-> ->]. exists [], [], [SetReady]. split_and!; [done..|apply part_ready].
  - destruct (part_once m ws Hwf Hp) as [Hok _]. destruct (writes_wf _ _ Hwf Hok) as [Hwf1 _].
    apply app_eq_inv in Hs as [(k & -> & _)|(k & -> & Hs)].
    + exists [], ws1, k. by split_and!.
    + destruct (IH k ws2 Hwf1 Hs) as (pre & mid & post & -> & Hr & Hw & Hpart).
      exists (ws ++ pre), mid, post. rewrite memory_app, app_assoc. split_and!; [done| |done..].
      eapply rtc_l; [by apply part_updates_one|done].
Qed.

(** Half way through a critical section every variable holds what it holds before or after
    the update of one node, which is the same update for all variables. *)
Lemma half_way_old_or_new m op ws1 ws2 :
  NodeMap_wf m -> op_writes m op = ws1 ++ ws2 ->
  exists m1 m2, rtc updates_one m m1 /\ updates_one m1 m2 /\ NodeMap_wf m1 /\
    forall v, agree v (memory m ws1) m1 \/ agree v (memory m ws1) m2.
Proof.
  intros Hwf Ho. destruct (parts_split m _ ws1 ws2 (op_writes_parts m op Hwf) Hwf Ho) as (pre & mid & post & -> & Hr & Hw & Hp).
  exists (memory m pre), (memory (memory m pre) (mid ++ post)). split_and!; [done|by apply part_updates_one|done|].
  intros v. rewrite memory_app. destruct (part_once _ _ Hw Hp) as [Hok Hd]. by apply old_or_new.
Qed.
End Writes.
