(* ===== verification/Netlink.v ===== *)
(** * The netlink library's data

    The structs of github.com/vishvananda/netlink (v1.1.0) with the fields the program reads
    or writes, and its constants as a parameter, the class [NetlinkConsts]. Package [syscall]
    is part of Go's standard library, so its constants have their Linux values. *)

From S2P Require Import Prelude GoNet.

(** ** Package syscall *)

Definition RTPROT_BOOT : Z := 3.
Definition RT_TABLE_MAIN : Z := 254.
Definition RTN_UNICAST : Z := 1.
Definition AF_INET : Z := 2.
Definition AF_BRIDGE : Z := 7.
Definition RTNH_F_ONLINK : Z := 4.
Definition RTM_NEWNEIGH : Z := 28.
Definition RTM_GETNEIGH : Z := 30.
Definition IPPROTO_UDP : Z := 17.

(** [net.FlagUp] and [net.FlagLoopback] of package net. *)
Definition FlagUp : Z := 1.
Definition FlagLoopback : Z := 4.

(** ** Links *)

Definition HardwareAddr : Type := option (list byte).

#[export] Instance HardwareAddr_eq_dec : EqDecision HardwareAddr := option_eq_dec.

Record LinkAttrs := MkLinkAttrs {
  link_Name : string;
  link_Index : Z;
  link_MTU : Z;
  link_HardwareAddr : HardwareAddr;
  link_Flags : Z
}.

#[export] Instance LinkAttrs_eq_dec : EqDecision LinkAttrs.
Proof. solve_decision. Defined.

(** The dynamic type behind the interface [netlink.Link]. *)
Inductive LinkKind :=
| Gretun (Local Remote : IP) (Ttl : Z)
| Vxlan (Learning : bool) (VxlanId VtepDevIndex : Z) (SrcAddr : IP) (Port : Z)
| GenericLink (LinkType : string).

#[export] Instance LinkKind_eq_dec : EqDecision LinkKind.
Proof. solve_decision. Defined.

Record Link := MkLink { Attrs : LinkAttrs; Kind : LinkKind }.

#[export] Instance Link_eq_dec : EqDecision Link.
Proof. solve_decision. Defined.

(** ** Addresses, neighbours and routes *)

Record Addr := MkAddr {
  addr_IPNet : option IPNet;
  addr_Label : string;
  addr_Flags : Z;
  addr_Scope : Z
}.

#[export] Instance Addr_eq_dec : EqDecision Addr.
Proof. solve_decision. Defined.

Record Neigh := MkNeigh {
  neigh_LinkIndex : Z;
  neigh_Family : Z;
  neigh_State : Z;
  neigh_Type : Z;
  neigh_Flags : Z;
  neigh_IP : IP;
  neigh_HardwareAddr : HardwareAddr
}.

#[export] Instance Neigh_eq_dec : EqDecision Neigh.
Proof. solve_decision. Defined.

Record NexthopInfo := MkNexthopInfo { nh_LinkIndex : Z; nh_Hops : Z; nh_Gw : IP }.

#[export] Instance NexthopInfo_eq_dec : EqDecision NexthopInfo.
Proof. solve_decision. Defined.

Record Route := MkRoute {
  rt_LinkIndex : Z;
  rt_ILinkIndex : Z;
  rt_Scope : Z;
  rt_Dst : option IPNet;
  rt_Src : IP;
  rt_Gw : IP;
  rt_MultiPath : list NexthopInfo;
  rt_Protocol : Z;
  rt_Priority : Z;
  rt_Table : Z;
  rt_Type : Z;
  rt_Tos : Z;
  rt_Flags : Z
}.

#[export] Instance Route_eq_dec : EqDecision Route.
Proof. solve_decision. Defined.

(** A composite literal with the fields the providers set; the others are zero. *)
Definition new_Route (LinkIndex : Z) (Dst : option IPNet) (Gw : IP)
    (Protocol Table Type_ : Z) : Route :=
  MkRoute LinkIndex 0 0 Dst None Gw [] Protocol 0 Table Type_ 0 0.

(** ** XFRM *)

Record XfrmMark := MkXfrmMark { mark_Value : Z; mark_Mask : Z }.

#[export] Instance XfrmMark_eq_dec : EqDecision XfrmMark.
Proof. solve_decision. Defined.

Record XfrmStateAlgo := MkXfrmStateAlgo {
  algo_Name : string;
  algo_Key : option (list byte);
  algo_TruncateLen : Z;
  algo_ICVLen : Z
}.

#[export] Instance XfrmStateAlgo_eq_dec : EqDecision XfrmStateAlgo.
Proof. solve_decision. Defined.

Record XfrmStateEncap := MkXfrmStateEncap {
  encap_Type : Z;
  encap_SrcPort : Z;
  encap_DstPort : Z;
  encap_OriginalAddress : IP
}.

#[export] Instance XfrmStateEncap_eq_dec : EqDecision XfrmStateEncap.
Proof. solve_decision. Defined.

Record XfrmStateLimits := MkXfrmStateLimits {
  ByteSoft : Z;
  ByteHard : Z;
  PacketSoft : Z;
  PacketHard : Z;
  TimeSoft : Z;
  TimeHard : Z;
  TimeUseSoft : Z;
  TimeUseHard : Z
}.

#[export] Instance XfrmStateLimits_eq_dec : EqDecision XfrmStateLimits.
Proof. solve_decision. Defined.

Definition zero_Limits : XfrmStateLimits := MkXfrmStateLimits 0 0 0 0 0 0 0 0.

Record XfrmState := MkXfrmState {
  xs_Dst : IP;
  xs_Src : IP;
  xs_Proto : Z;
  xs_Mode : Z;
  xs_Spi : Z;
  xs_Reqid : Z;
  xs_ReplayWindow : Z;
  xs_Limits : XfrmStateLimits;
  xs_Mark : option XfrmMark;
  xs_Auth : option XfrmStateAlgo;
  xs_Crypt : option XfrmStateAlgo;
  xs_Aead : option XfrmStateAlgo;
  xs_Encap : option XfrmStateEncap
}.

#[export] Instance XfrmState_eq_dec : EqDecision XfrmState.
Proof. solve_decision. Defined.

Record XfrmPolicyTmpl := MkXfrmPolicyTmpl {
  tmpl_Dst : IP;
  tmpl_Src : IP;
  tmpl_Proto : Z;
  tmpl_Mode : Z;
  tmpl_Spi : Z;
  tmpl_Reqid : Z
}.

#[export] Instance XfrmPolicyTmpl_eq_dec : EqDecision XfrmPolicyTmpl.
Proof. solve_decision. Defined.

Record XfrmPolicy := MkXfrmPolicy {
  xp_Dst : option IPNet;
  xp_Src : option IPNet;
  xp_Proto : Z;
  xp_DstPort : Z;
  xp_SrcPort : Z;
  xp_Dir : Z;
  xp_Priority : Z;
  xp_Index : Z;
  xp_Mark : option XfrmMark;
  xp_Tmpls : list XfrmPolicyTmpl
}.

#[export] Instance XfrmPolicy_eq_dec : EqDecision XfrmPolicy.
Proof. solve_decision. Defined.

(** ** Constants of the library, and the names it has for the kinds of links *)

Class NetlinkConsts := {
  FAMILY_ALL : Z;
  FAMILY_V4 : Z;
  NUD_REACHABLE : Z;
  NUD_PERMANENT : Z;
  NTF_SELF : Z;
  SCOPE_UNIVERSE : Z;
  XFRM_PROTO_ESP : Z;
  XFRM_PROTO_AH : Z;
  XFRM_MODE_TUNNEL : Z;
  XFRM_DIR_IN : Z;
  XFRM_DIR_OUT : Z;
  XFRM_DIR_FWD : Z;
  XFRM_SOCKET_IN : Z;
  XFRM_SOCKET_OUT : Z;
  XFRM_ENCAP_ESPINUDP : Z;
  (** The method [Type()] of a link. *)
  Link_Type : LinkKind -> string;
  XFRM_dirs_distinct :
    NoDup [XFRM_DIR_IN; XFRM_DIR_OUT; XFRM_DIR_FWD; XFRM_SOCKET_IN; XFRM_SOCKET_OUT];
  XFRM_protos_distinct : XFRM_PROTO_ESP ≠ XFRM_PROTO_AH;
  FAMILY_V4_not_bridge : FAMILY_V4 ≠ AF_BRIDGE
}.

(** The values of netlink v1.1.0 on Linux. *)
Definition netlink_v1_1_0 : NetlinkConsts := {|
  FAMILY_ALL := 0;
  FAMILY_V4 := AF_INET;
  NUD_REACHABLE := 2;
  NUD_PERMANENT := 128;
  NTF_SELF := 2;
  SCOPE_UNIVERSE := 0;
  XFRM_PROTO_ESP := 50;
  XFRM_PROTO_AH := 51;
  XFRM_MODE_TUNNEL := 1;
  XFRM_DIR_IN := 0;
  XFRM_DIR_OUT := 1;
  XFRM_DIR_FWD := 2;
  XFRM_SOCKET_IN := 3;
  XFRM_SOCKET_OUT := 4;
  XFRM_ENCAP_ESPINUDP := 2;
  Link_Type k := match k with Gretun _ _ _ => "gre" | Vxlan _ _ _ _ _ => "vxlan" | GenericLink t => t end;
  XFRM_dirs_distinct := ltac:(apply (bool_decide_unpack _); vm_compute; exact I);
  XFRM_protos_distinct := ltac:(discriminate);
  FAMILY_V4_not_bridge := ltac:(discriminate)
|}.
