(* ===== verification/Effects.v ===== *)
(** * Effects

    The program acts on the kernel through netlink, on files, sockets and the API server. All
    of that is outside src/: it is a parameter, an arbitrary state [K] with the operations of
    the class [Kernel]. [M] is the monad the translated code runs in: it threads the kernel
    state, a trace of the calls that change something with their results, the orders in which
    coming [range] statements visit maps, and the state [P] of the provider object. A result
    is a value, an error, or the end of the process ([klog.Fatalf] or a panic). *)

From S2P Require Import Prelude GoNet Netlink.

(** ** Errors and results *)

(** An error of a library call, an error made of a message alone, or [fmt.Errorf] of a format
    with the error it reports; the other arguments of a format are left out. *)
Inductive error :=
| Errno (n : Z)
| LinkNotFoundError
| NotExist
| ErrorMsg (format : string)
| Errorf (format : string) (cause : error).

#[export] Instance error_eq_dec : EqDecision error.
Proof. solve_decision. Defined.

Inductive outcome (A : Type) :=
| Ret (a : A)
| Err (e : error)
| Exit.
Arguments Ret {A} a.
Arguments Err {A} e.
Arguments Exit {A}.

(** The calls that change the world. *)
Inductive action :=
| RouteAdd (r : Route)
| RouteDel (r : Route)
| LinkAdd (l : Link)
| LinkDel (l : Link)
| LinkSetUp (l : Link)
| LinkSetMTU (l : Link) (mtu : Z)
| LinkSetHardwareAddr (l : Link) (hw : HardwareAddr)
| AddrAdd (l : Link) (a : Addr)
| AddrDel (l : Link) (a : Addr)
| NeighSet (n : Neigh)
| XfrmStateAdd (s : XfrmState)
| XfrmStateUpdate (s : XfrmState)
| XfrmStateDel (s : XfrmState)
| XfrmStateFlush (proto : Z)
| XfrmPolicyAdd (p : XfrmPolicy)
| XfrmPolicyUpdate (p : XfrmPolicy)
| XfrmPolicyDel (p : XfrmPolicy)
| XfrmPolicyFlush
| WriteFile (path contents : string) (perm : Z)
| Modprobe (module : string)
| MonitorSubscribe (linkIndex : Z)
| SetsockoptString (fd level opt : Z) (value : list byte)
| SetsockoptInt (fd level opt value : Z)
| Bind (fd port : Z)
| CloseFd (fd : Z)
| PatchNodeCondition (node type status reason message : string)
| Sleep (seconds : Z).

(** ** The outside world *)

Class Kernel (K : Type) := {
  exec : action -> K -> option error * K;
  (** [netlink.LinkAdd] fills in the index of the object it is given. *)
  k_LinkAdd : Link -> K -> (Link + error) * K;
  k_LinkByName : string -> K -> (option Link + error) * K;
  k_LinkList : K -> (list Link + error) * K;
  k_AddrList : Link -> Z -> K -> (list Addr + error) * K;
  k_NeighList : Z -> Z -> K -> (list Neigh + error) * K;
  k_RouteList : option Link -> Z -> K -> (list Route + error) * K;
  k_XfrmStateList : Z -> K -> (list XfrmState + error) * K;
  k_XfrmPolicyList : Z -> K -> (list XfrmPolicy + error) * K;
  k_ReadFile : string -> K -> (string + error) * K;
  k_Socket : Z -> Z -> Z -> K -> (Z + error) * K
}.

(** ** The monad *)

Record World (K P : Type) := MkWorld {
  kern : K;
  trace : list (action * option error);
  sched : nat -> Order;
  prov : P
}.
Arguments MkWorld {K P} kern trace sched prov.
Arguments kern {K P} w.
Arguments trace {K P} w.
Arguments sched {K P} w.
Arguments prov {K P} w.

Definition M (K P A : Type) : Type := World K P -> outcome A * World K P.

Section Monad.
Context {K P : Type}.

#[export] Instance M_ret : MRet (M K P) := fun A a w => (Ret a, w).

#[export] Instance M_bind : MBind (M K P) := fun A B f x w =>
  match x w with
  | (Ret a, w') => f a w'
  | (Err e, w') => (Err e, w')
  | (Exit, w') => (Exit, w')
  end.

Definition fail {A} (e : error) : M K P A := fun w => (Err e, w).

(** [klog.Fatalf], or a run-time panic. *)
Definition exit {A} : M K P A := fun w => (Exit, w).

(** [if err != nil { return fmt.Errorf(format, ..., err) }] *)
Definition wrap {A} (format : string) (x : M K P A) : M K P A := fun w =>
  match x w with
  | (Err e, w') => (Err (Errorf format e), w')
  | r => r
  end.

(** The error of a call as a value, for code that goes on after one. *)
Definition try {A} (x : M K P A) : M K P (A + error) := fun w =>
  match x w with
  | (Ret a, w') => (Ret (inl a), w')
  | (Err e, w') => (Ret (inr e), w')
  | (Exit, w') => (Exit, w')
  end.

Definition next_order : M K P Order := fun w =>
  (Ret (sched w 0%nat), MkWorld (kern w) (trace w) (fun n => sched w (S n)) (prov w)).

Definition get_prov : M K P P := fun w => (Ret (prov w), w).

Definition set_prov (p : P) : M K P unit := fun w =>
  (Ret tt, MkWorld (kern w) (trace w) (sched w) p).

(** An assignment to a field of the provider. *)
Definition modify_prov (f : P -> P) : M K P unit := fun w =>
  (Ret tt, MkWorld (kern w) (trace w) (sched w) (f (prov w))).

(** [for _, x := range l { ... }] over a slice, left at the first error. *)
Fixpoint each {A} (f : A -> M K P unit) (l : list A) : M K P unit :=
  match l with
  | [] => mret tt
  | x :: rest => f x ≫= fun _ => each f rest
  end.

Context `{Kernel K}.

(** A call that only reads. *)
Definition query {A} (q : K -> (A + error) * K) : M K P A := fun w =>
  let '(r, k) := q (kern w) in
  (match r with inl a => Ret a | inr e => Err e end, MkWorld k (trace w) (sched w) (prov w)).

(** A call that changes something. *)
Definition call (a : action) : M K P unit := fun w =>
  let '(e, k) := exec a (kern w) in
  (match e with None => Ret tt | Some e => Err e end,
   MkWorld k (trace w ++ [(a, e)]) (sched w) (prov w)).

Definition netlink_LinkAdd (l : Link) : M K P Link := fun w =>
  let '(r, k) := k_LinkAdd l (kern w) in
  (match r with inl l' => Ret l' | inr e => Err e end,
   MkWorld k (trace w ++ [(LinkAdd l, match r with inl _ => None | inr e => Some e end)])
     (sched w) (prov w)).
End Monad.

(** ** Reasoning about runs *)

Section Runs.
Context {K P : Type} `{Kernel K}.
Implicit Types (w : World K P).

Lemma bind_run {A B} (x : M K P A) (f : A -> M K P B) w :
  (x ≫= f) w = match x w with
               | (Ret a, w') => f a w'
               | (Err e, w') => (Err e, w')
               | (Exit, w') => (Exit, w')
               end.
Proof. reflexivity. Qed.

Lemma bind_Ret_inv {A B} (x : M K P A) (f : A -> M K P B) w b w2 :
  (x ≫= f) w = (Ret b, w2) -> exists a w1, x w = (Ret a, w1) /\ f a w1 = (Ret b, w2).
Proof. rewrite bind_run. destruct (x w) as [[a|e|] w1]; naive_solver. Qed.

Lemma wrap_Ret_inv {A} fmt (x : M K P A) w a w' :
  wrap fmt x w = (Ret a, w') -> x w = (Ret a, w').
Proof. unfold wrap. by destruct (x w) as [[] ?]. Qed.

(** [wrap] changes nothing but the text of an error. *)
Lemma wrap_world {A} fmt (x : M K P A) w : (wrap fmt x w).2 = (x w).2.
Proof. unfold wrap. by destruct (x w) as [[] ?]. Qed.

Lemma wrap_Exit {A} fmt (x : M K P A) w : (wrap fmt x w).1 = Exit <-> (x w).1 = Exit.
Proof. unfold wrap. by destruct (x w) as [[] ?]. Qed.

(** A sequence of calls, run until one fails: the calls made with their results, the error,
    and the state they leave. *)
Fixpoint exec_all (acts : list action) (k : K) : list (action * option error) * option error * K :=
  match acts with
  | [] => ([], None, k)
  | a :: rest =>
      match exec a k with
      | (None, k') => let '(log, e, k'') := exec_all rest k' in ((a, None) :: log, e, k'')
      | (Some e, k') => ([(a, Some e)], Some e, k')
      end
  end.

(** The world after a sequence of calls. *)
Definition after w (s : nat -> Order) (log : list (action * option error)) (k : K) : World K P :=
  MkWorld k (trace w ++ log) s (prov w).

Definition outcome_of (fmt : string) (e : option error) : outcome unit :=
  match e with None => Ret tt | Some e => Err (Errorf fmt e) end.

Lemma after_after w s log k s' log' k' :
  after (after w s log k) s' log' k' = after w s' (log ++ log') k'.
Proof. unfold after. simpl. by rewrite <- app_assoc. Qed.

Lemma kern_after w s log k : kern (after w s log k) = k.
Proof. reflexivity. Qed.

Lemma sched_after w s log k : sched (after w s log k) = s.
Proof. reflexivity. Qed.

Lemma prov_after w s log k : prov (after w s log k) = prov w.
Proof. reflexivity. Qed.

Lemma trace_after w s log k : trace (after w s log k) = trace w ++ log.
Proof. reflexivity. Qed.

Lemma bind_ret {A B} (a : A) (f : A -> M K P B) w : (mret a ≫= f) w = f a w.
Proof. reflexivity. Qed.

Lemma bind_query {A B} fmt (q : K -> (A + error) * K) (f : A -> M K P B) w a k :
  q (kern w) = (inl a, k) -> (wrap fmt (query q) ≫= f) w = f a (after w (sched w) [] k).
Proof. intros Hq. rewrite bind_run. unfold wrap, query, after. by rewrite Hq, app_nil_r. Qed.

Lemma bind_query_error {A B} fmt (q : K -> (A + error) * K) (f : A -> M K P B) w e k :
  q (kern w) = (inr e, k) ->
  (wrap fmt (query q) ≫= f) w = (Err (Errorf fmt e), after w (sched w) [] k).
Proof. intros Hq. rewrite bind_run. unfold wrap, query, after. by rewrite Hq, app_nil_r. Qed.

Lemma bind_order {B} (f : Order -> M K P B) w :
  (next_order ≫= f) w = f (sched w 0%nat) (after w (fun n => sched w (S n)) [] (kern w)).
Proof. rewrite bind_run. unfold next_order, after. by rewrite app_nil_r. Qed.

(** A loop whose body is one call. *)
Lemma each_call {A} fmt (f : A -> action) (l : list A) : forall w,
  each (fun x => wrap fmt (call (f x))) l w
  = let '(log, e, k) := exec_all (f <$> l) (kern w) in
    (outcome_of fmt e, after w (sched w) log k).
Proof.
  induction l as [|x l IH]; intros w; cbn [each fmap list_fmap exec_all].
  - unfold after. rewrite app_nil_r. by destruct w.
  - rewrite bind_run. unfold wrap at 1, call. destruct (exec (f x) (kern w)) as [[e|] k]; [done|].
    rewrite IH. unfold after. simpl. destruct (exec_all _ k) as [[log e'] k'].
    by rewrite <- app_assoc.
Qed.

Lemma exec_all_app l1 l2 k :
  exec_all (l1 ++ l2) k
  = match exec_all l1 k with
    | (log, None, k') => let '(log', e, k'') := exec_all l2 k' in (log ++ log', e, k'')
    | r => r
    end.
Proof.
  revert k. induction l1 as [|a l1 IH]; intros k; simpl; [by destruct (exec_all l2 k) as [[]]|].
  destruct (exec a k) as [[e|] k']; [done|]. rewrite IH.
  destruct (exec_all l1 k') as [[log [e|]] k'']; [done|]. by destruct (exec_all l2 k'') as [[]].
Qed.

(** The log of a sequence: its calls in order, all of them if none failed, else up to and with
    the one that did. *)
Inductive ran : list action -> list (action * option error) -> option error -> Prop :=
| ran_nil : ran [] [] None
| ran_ok a acts log e : ran acts log e -> ran (a :: acts) ((a, None) :: log) e
| ran_failed a acts e : ran (a :: acts) [(a, Some e)] (Some e).

Lemma exec_all_ran acts : forall k log e k', exec_all acts k = (log, e, k') -> ran acts log e.
Proof.
  induction acts as [|a acts IH]; intros k log e k'; simpl; [intros [= <- <- <-]; constructor|].
  destruct (exec a k) as [[x|] k1]; [intros [= <- <- <-]; constructor|].
  destruct (exec_all acts k1) as [[log' e'] k2] eqn:Hr. intros [= <- <- <-]. constructor. by eapply IH.
Qed.

Lemma ran_in acts log e a r : ran acts log e -> (a, r) ∈ log -> a ∈ acts.
Proof.
  induction 1 as [|b acts log e _ IH|b acts e]; rewrite ?elem_of_cons.
  - by intros ?%not_elem_of_nil.
  - intros [Hx|Hx]; [simplify_eq; by left|right; by apply IH].
  - intros [Hx|Hx%not_elem_of_nil]; [simplify_eq; by left|done].
Qed.

(** The calls of a sequence that all succeed. *)
Lemma ran_success acts log e : ran acts log e -> e = None -> log = (fun a => (a, None)) <$> acts.
Proof.
  induction 1 as [|b acts log e Hr IH|b acts e]; [done| |done]. intros He. cbn. f_equal. by apply IH.
Qed.
End Runs.

(** ** Runs that keep a property of the kernel *)

Section Quiet.
Context {K P : Type} `{Kernel K} (Q : K -> Prop).

Definition quiet {A} (x : M K P A) : Prop := forall w, Q (kern w) -> Q (kern (x w).2).

Lemma quiet_ret {A} (a : A) : quiet (mret a).
Proof. by intros w. Qed.

Lemma quiet_fail {A} e : quiet (@fail K P A e).
Proof. by intros w. Qed.

Lemma quiet_exit {A} : quiet (@exit K P A).
Proof. by intros w. Qed.

Lemma quiet_order : quiet next_order.
Proof. by intros w. Qed.

Lemma quiet_get : quiet get_prov.
Proof. by intros w. Qed.

Lemma quiet_modify (f : P -> P) : quiet (modify_prov f).
Proof. by intros w. Qed.

Lemma quiet_bind {A B} (x : M K P A) (g : A -> M K P B) : quiet x -> (forall a, quiet (g a)) -> quiet (x ≫= g).
Proof.
  intros Hx Hg w Hw. rewrite bind_run. specialize (Hx w Hw). destruct (x w) as [[a|e|] w1]; [|done..]. by apply Hg.
Qed.

Lemma quiet_wrap {A} fmt (x : M K P A) : quiet x -> quiet (wrap fmt x).
Proof. intros Hx w. rewrite wrap_world. apply Hx. Qed.

Lemma quiet_try {A} (x : M K P A) : quiet x -> quiet (try x).
Proof. intros Hx w Hw. specialize (Hx w Hw). unfold try. by destruct (x w) as [[] ?]. Qed.

Lemma quiet_each {A} (f : A -> M K P unit) l : (forall a, quiet (f a)) -> quiet (each f l).
Proof. intros Hf. induction l as [|a l IH]; [apply quiet_ret|]. by apply quiet_bind. Qed.

Lemma quiet_call a : (forall k, Q k -> Q (exec a k).2) -> quiet (call a).
Proof. intros Ha w Hw. specialize (Ha (kern w) Hw). unfold call. by destruct (exec a (kern w)) as [[] ?]. Qed.

Lemma quiet_query {A} (q : K -> (A + error) * K) : (forall k, Q k -> Q (q k).2) -> quiet (query q).
Proof. intros Hq w Hw. specialize (Hq (kern w) Hw). unfold query. by destruct (q (kern w)) as [[] ?]. Qed.
End Quiet.

#[export] Hint Resolve quiet_ret quiet_fail quiet_exit quiet_order quiet_get quiet_modify : net.

(** [quiet_steps] walks through a run; what is left are its calls and queries. *)
Ltac quiet_steps :=
  repeat first
    [ solve [auto with net]
    | simple apply quiet_bind; [|intros ?]
    | simple apply quiet_wrap | simple apply quiet_try | simple apply quiet_each; intros ?
    | simple apply quiet_call | simple apply quiet_query
    | case_match ].

Create Rewrite HintDb world.

#[export] Hint Rewrite @after_after @kern_after @sched_after @prov_after @trace_after
  app_nil_l app_nil_r @bind_ret : world.

(** [world] computes the parts of a world after some calls. *)
Ltac world := autorewrite with world; cbv beta iota.

(** [run_inv] takes a run that returned a value apart, statement by statement. *)
Ltac run_inv_step H :=
  match type of H with
  | (_ ≫= _) _ = (Ret _, _) =>
      let a := fresh "a" in let w := fresh "w" in let H1 := fresh H in
      apply bind_Ret_inv in H as (a & w & H1 & H); run_inv_step H1
  | wrap _ _ _ = (Ret _, _) => apply wrap_Ret_inv in H
  | _ => idtac
  end.

Ltac run_inv H := run_inv_step H.
