(* ===== verification/Tables.v ===== *)
(** * Kernel tables

    What the code relies on of a table of the kernel (routes, addresses, XFRM states): an
    entry is added when no entry occupies its slot and refused with EEXIST otherwise, and an
    entry that was listed can be deleted. [Table] is that contract, for the two calls [add]
    and [del]; the lemmas run the loops of the [Ensure] functions against it. *)

From S2P Require Import Prelude Effects.

Definition EEXIST : error := Errno 17.

Section Table.
Context {K : Type} `{Kernel K} {A : Type}.

Record Table (add del : A -> action) := MkTable {
  entries : K -> list A;
  (** Whether an entry holds the slot another one would take. *)
  occupies : A -> A -> bool;
  (** What the kernel reports for an entry that was added. *)
  stored : A -> A -> Prop;
  (** The entries the kernel takes when their slot is free. *)
  accepts : A -> Prop;
  (** The rest of the kernel's state is the same. *)
  others : K -> K -> Prop;
  others_preorder : PreOrder others;
  stored_occupies : forall x y z, stored x y -> occupies y z = occupies x z;
  add_free : forall k x, accepts x -> (forall y, y ∈ entries k -> occupies y x = false) ->
    exists y k', exec (add x) k = (None, k') /\ stored x y /\ entries k' ≡ₚ y :: entries k /\ others k k';
  (** Whatever the kernel thinks of an entry, when it takes it the entry is there. *)
  add_success : forall k x k', exec (add x) k = (None, k') ->
    exists y, stored x y /\ entries k' ≡ₚ y :: entries k /\ others k k';
  add_taken : forall k x y, y ∈ entries k -> occupies y x = true ->
    exists k', exec (add x) k = (Some EEXIST, k') /\ entries k' ≡ₚ entries k /\ others k k';
  del_present : forall k x, x ∈ entries k ->
    exists k', exec (del x) k = (None, k') /\ entries k ≡ₚ x :: entries k' /\ others k k';
  (** Whatever a deletion finds, it takes no entry of another slot. *)
  del_success : forall k x k', exec (del x) k = (None, k') ->
    forall y, y ∈ entries k -> y ≠ x -> occupies y x = false -> y ∈ entries k'
}.

#[local] Existing Instance others_preorder.

Arguments entries {add del} t k.
Arguments occupies {add del} t x y.
Arguments stored {add del} t x y.
Arguments accepts {add del} t x.
Arguments others {add del} t k k'.

Context {add del : A -> action} (t : Table add del).
Implicit Types (k : K) (x y : A) (l : list A).

Lemma delete_all l : forall k rest,
  entries t k ≡ₚ l ++ rest ->
  exists k', exec_all (del <$> l) k = ((fun a => (a, None)) <$> (del <$> l), None, k') /\
             entries t k' ≡ₚ rest /\ others t k k'.
Proof.
  induction l as [|x l IH]; intros k rest Hk; cbn [fmap list_fmap exec_all].
  - exists k. split_and!; [done|done|reflexivity].
  - destruct (del_present _ _ t k x) as (k1 & He & Hp & Ho).
    { rewrite Hk. by left. }
    destruct (IH k1 rest) as (k2 & He2 & Hp2 & Ho2).
    { apply (Permutation.Permutation_cons_inv (a := x)). by rewrite <- Hp, Hk. }
    exists k2. rewrite He, He2. split_and!; [done|done|by transitivity k1].
Qed.

(** No entry of the list takes the slot of a later one. *)
Fixpoint apart (l : list A) : Prop :=
  match l with
  | [] => True
  | x :: l => (forall y, y ∈ l -> occupies t x y = false) /\ apart l
  end.

Lemma add_all l : forall k,
  (forall x, x ∈ l -> accepts t x) -> apart l ->
  (forall x y, x ∈ l -> y ∈ entries t k -> occupies t y x = false) ->
  exists ys k', exec_all (add <$> l) k = ((fun a => (a, None)) <$> (add <$> l), None, k') /\
             Forall2 (stored t) l ys /\ entries t k' ≡ₚ ys ++ entries t k /\ others t k k'.
Proof.
  induction l as [|x l IH]; intros k Hacc Hap Hfree; cbn [fmap list_fmap exec_all].
  - exists [], k. split_and!; [done|constructor|done|reflexivity].
  - destruct Hap as [Hx Hap].
    destruct (add_free _ _ t k x) as (y & k1 & He & Hs & Hp & Ho).
    { apply Hacc. by left. } { intros y. apply Hfree. by left. }
    destruct (IH k1) as (ys & k2 & He2 & Hs2 & Hp2 & Ho2).
    { intros z Hz. apply Hacc. by right. } { done. }
    { intros z y' Hz. rewrite Hp, elem_of_cons. intros [->|Hy'].
      - rewrite (stored_occupies _ _ t x y z Hs). by apply Hx.
      - apply Hfree; [by right|done]. }
    exists (y :: ys), k2. rewrite He, He2. split_and!; [done|by constructor| |by transitivity k1].
    rewrite Hp2, Hp. by rewrite <- Permutation_middle.
Qed.

(** Additions that were all taken. *)
Lemma add_all_success l : forall k log k',
  exec_all (add <$> l) k = (log, None, k') ->
  exists ys, Forall2 (stored t) l ys /\ entries t k' ≡ₚ ys ++ entries t k /\ others t k k'.
Proof.
  induction l as [|x l IH]; intros k log k'; cbn [fmap list_fmap exec_all].
  - intros [= _ <-]. exists []. split_and!; [constructor|done|reflexivity].
  - destruct (exec (add x) k) as [[e|] k1] eqn:He; [done|].
    destruct (exec_all (add <$> l) k1) as [[log1 e1] k2] eqn:Hl. intros [= _ -> <-].
    destruct (add_success _ _ t k x k1 He) as (y & Hs & Hp & Ho).
    destruct (IH k1 log1 k2 Hl) as (ys & Hs2 & Hp2 & Ho2).
    exists (y :: ys). split_and!; [by constructor| |by transitivity k1].
    rewrite Hp2, Hp. by rewrite <- Permutation_middle.
Qed.

(** Adding to a table that holds a slot of the list fails, and only adds entries of the list
    whose slot was free. *)
Lemma add_all_blocked l x : forall k a,
  (forall z, z ∈ l -> accepts t z) -> x ∈ l -> a ∈ entries t k -> occupies t a x = true ->
  exists log ys k', exec_all (add <$> l) k = (log, Some EEXIST, k') /\
    entries t k' ≡ₚ ys ++ entries t k /\
    forall y, y ∈ ys -> exists z, z ∈ l /\ stored t z y /\ occupies t a z = false.
Proof.
  induction l as [|z l IH]; intros k a Hacc Hx Ha Hc; [by apply not_elem_of_nil in Hx|].
  cbn [fmap list_fmap exec_all].
  destruct (decide (Exists (fun y => occupies t y z = true) (entries t k))) as [Hz|Hz].
  { apply Exists_exists in Hz as (y & Hy & Hyz).
    destruct (add_taken _ _ t k z y Hy Hyz) as (k' & Hr & Hp & _).
    rewrite Hr. exists [(add z, Some EEXIST)], [], k'. split_and!; [done|done|].
    by intros ? ?%not_elem_of_nil. }
  assert (forall y, y ∈ entries t k -> occupies t y z = false) as Hfree.
  { intros y Hy. apply not_true_iff_false. intros Hyz. apply Hz, Exists_exists. eauto. }
  destruct (add_free _ _ t k z (Hacc z ltac:(by left)) Hfree) as (y & k1 & Hr & Hs & Hp & _).
  apply elem_of_cons in Hx as [->|Hx]; [by rewrite Hfree in Hc|].
  destruct (IH k1 a) as (log & ys & k' & Hl & Hp' & Hys); [|done|by rewrite Hp; right|done|].
  { intros z' Hz'. apply Hacc. by right. }
  rewrite Hr, Hl. exists ((add z, None) :: log), (ys ++ [y]), k'. split_and!; [done| |].
  - by rewrite Hp', Hp, <- app_assoc.
  - intros z'. rewrite elem_of_app, list_elem_of_singleton. intros [Hz'| ->].
    + destruct (Hys z' Hz') as (x' & Hx' & ?). exists x'. split; [by right|done].
    + exists z. split_and!; [by left|done|by apply Hfree].
Qed.
End Table.

Arguments entries {K H A add del} t k : rename.
Arguments occupies {K H A add del} t x y : rename.
Arguments stored {K H A add del} t x y : rename.
Arguments accepts {K H A add del} t x : rename.
Arguments others {K H A add del} t k k' : rename.

#[export] Existing Instance others_preorder.

(** ** Updates in place

    Some tables can also replace an entry by another one of the same key. *)
Section Update.
Context {K : Type} `{Kernel K} {A Key : Type} {add del : A -> action} (t : Table add del).
Context (upd : A -> action) (key : A -> Key) (same : A -> A -> bool).
Context (same_key : forall y x, same y x = true -> key y = key x).
Context (stored_key : forall x y, stored t x y -> key y = key x).
Context (upd_replaces : forall k x y, accepts t x -> y ∈ entries t k -> same y x = true ->
  exists y' rest x' k', exec (upd x) k = (None, k') /\ stored t x x' /\
    entries t k ≡ₚ y' :: rest /\ same y' x = true /\ entries t k' ≡ₚ x' :: rest).
Implicit Types (k : K) (x y : A) (l : list A).

Lemma key_inj l x y : NoDup (key <$> l) -> x ∈ l -> y ∈ l -> key x = key y -> x = y.
Proof.
  clear. induction l as [|z l IH]; [by intros _ ?%not_elem_of_nil|]. cbn. intros [Hn Hnd]%NoDup_cons.
  rewrite !elem_of_cons. intros [->|Hx] [->|Hy] He; [done| | |by apply IH].
  - destruct Hn. rewrite He. by apply list_elem_of_fmap_2.
  - destruct Hn. rewrite <- He. by apply list_elem_of_fmap_2.
Qed.

(** Updates of entries the table holds under distinct keys. *)
Lemma update_entries l : forall k olds rest,
  entries t k ≡ₚ olds ++ rest -> NoDup (key <$> entries t k) ->
  Forall2 (fun y x => same y x = true) olds l -> (forall x, x ∈ l -> accepts t x) ->
  exists ys k', exec_all (upd <$> l) k = ((fun a => (a, None)) <$> (upd <$> l), None, k') /\
    Forall2 (stored t) l ys /\ entries t k' ≡ₚ ys ++ rest.
Proof using same_key stored_key upd_replaces.
  induction l as [|x l IH]; intros k olds rest Hk Hnd Hol Hacc; cbn [fmap list_fmap exec_all].
  { apply Forall2_nil_inv_r in Hol as ->. by exists [], k. }
  apply Forall2_cons_inv_r in Hol as (y & olds' & Hy & Hol & ->). rename olds' into olds.
  destruct (upd_replaces k x y (Hacc x ltac:(by left))) as (y' & rest' & x' & k1 & Hr & Hs & Hp & Hc & Hp1);
    [rewrite Hk; by left|done|].
  assert (y' = y) as ->.
  { apply (key_inj (entries t k)); [done|rewrite Hp; by left|rewrite Hk; by left|].
    by rewrite (same_key _ _ Hc), (same_key _ _ Hy). }
  assert (rest' ≡ₚ olds ++ rest) as Hrest.
  { apply (Permutation.Permutation_cons_inv (a := y)). by rewrite <- Hp, Hk. }
  destruct (IH k1 olds (x' :: rest)) as (ys & k' & Hr' & Hs' & Hp').
  - by rewrite Hp1, Hrest, Permutation_middle.
  - rewrite Hp1. rewrite Hp in Hnd. cbn in *. rewrite (stored_key _ _ Hs), <- (same_key _ _ Hc). done.
  - done.
  - intros z Hz. apply Hacc. by right.
  - exists (x' :: ys), k'. rewrite Hr, Hr'. split_and!; [done|by constructor|].
    rewrite Hp'. by rewrite <- Permutation_middle.
Qed.
End Update.

(** ** Runs of calls that were all taken

    What is there after calls that the kernel took, whatever it held before. *)
Section Success.
Context {K : Type} `{Kernel K} {A Key : Type} {add del : A -> action} (t : Table add del).
Context (upd : A -> action) (key : A -> Key) (same : A -> A -> bool).
Context (same_key : forall y x, same y x = true -> key y = key x).
Context (occupies_key : forall y x, occupies t y x = true -> key y = key x).
Context (stored_key : forall x y, stored t x y -> key y = key x).
Context (upd_success : forall k x k', exec (upd x) k = (None, k') -> exists x', stored t x x' /\
  x' ∈ entries t k' /\ forall y, y ∈ entries t k -> same y x = false -> y ∈ entries t k').
Implicit Types (k : K) (x y : A) (l : list A).

Lemma update_success_keeps l y : forall k log k',
  exec_all (upd <$> l) k = (log, None, k') -> y ∈ entries t k -> key y ∉ key <$> l -> y ∈ entries t k'.
Proof using same_key upd_success.
  induction l as [|x l IH]; intros k log k'; cbn [fmap list_fmap exec_all]; [by intros [= _ <-]|].
  destruct (exec (upd x) k) as [[e|] k1] eqn:He; [done|].
  destruct (exec_all (upd <$> l) k1) as [[log1 e1] k2] eqn:Hl. intros [= _ -> <-] Hy Hn.
  rewrite not_elem_of_cons in Hn. destruct Hn as [Hx Hn]. apply (IH k1 log1 k2); [done| |done].
  destruct (upd_success _ _ _ He) as (x' & _ & _ & Hk). apply Hk; [done|].
  apply not_true_iff_false. by intros Hs%same_key.
Qed.

Lemma update_success_there l x : forall k log k',
  exec_all (upd <$> l) k = (log, None, k') -> NoDup (key <$> l) -> x ∈ l ->
  exists x', stored t x x' /\ x' ∈ entries t k'.
Proof using same_key stored_key upd_success.
  induction l as [|z l IH]; intros k log k'; cbn [fmap list_fmap exec_all]; [by intros _ _ ?%not_elem_of_nil|].
  destruct (exec (upd z) k) as [[e|] k1] eqn:He; [done|].
  destruct (exec_all (upd <$> l) k1) as [[log1 e1] k2] eqn:Hl. intros [= _ -> <-] [Hn Hnd]%NoDup_cons Hx.
  apply elem_of_cons in Hx as [->|Hx]; [|by eapply IH].
  destruct (upd_success _ _ _ He) as (x' & Hs & Hin & _). exists x'. split; [done|].
  apply (update_success_keeps _ _ _ _ _ Hl); [done|]. by rewrite (stored_key _ _ Hs).
Qed.

Lemma delete_success_keeps l y : forall k log k',
  exec_all (del <$> l) k = (log, None, k') -> y ∈ entries t k -> key y ∉ key <$> l -> y ∈ entries t k'.
Proof using occupies_key.
  induction l as [|x l IH]; intros k log k'; cbn [fmap list_fmap exec_all]; [by intros [= _ <-]|].
  destruct (exec (del x) k) as [[e|] k1] eqn:He; [done|].
  destruct (exec_all (del <$> l) k1) as [[log1 e1] k2] eqn:Hl. intros [= _ -> <-] Hy Hn.
  rewrite not_elem_of_cons in Hn. destruct Hn as [Hx Hn]. apply (IH k1 log1 k2); [done| |done].
  apply (del_success _ _ t _ _ _ He y Hy); [by intros ->|]. apply not_true_iff_false. by intros Ho%occupies_key.
Qed.

(** Creations, updates and deletions: what is to be there is there at the end. *)
Lemma reconcile_success create updates remove k log1 k1 log2 k2 log3 k3 :
  exec_all (add <$> create) k = (log1, None, k1) -> exec_all (upd <$> updates) k1 = (log2, None, k2) ->
  exec_all (del <$> remove) k2 = (log3, None, k3) ->
  NoDup (key <$> updates) -> (forall i, i ∈ key <$> create -> i ∉ key <$> updates) ->
  (forall x, x ∈ create \/ x ∈ updates -> key x ∉ key <$> remove) ->
  (forall x, x ∈ create \/ x ∈ updates -> exists y, stored t x y /\ y ∈ entries t k3) /\
  (forall y, y ∈ entries t k -> key y ∉ key <$> updates -> key y ∉ key <$> remove -> y ∈ entries t k3).
Proof using same_key occupies_key stored_key upd_success.
  intros Hc Hu Hd Hnd Hcu Hr. destruct (add_all_success t create k log1 k1 Hc) as (ys & Hys & Hp & _).
  split; cycle 1.
  { intros y Hy Hyu Hyr. apply (delete_success_keeps _ _ _ _ _ Hd); [|done].
    apply (update_success_keeps _ _ _ _ _ Hu); [|done]. rewrite Hp. apply elem_of_app. by right. }
  intros x Hx. assert (exists y, stored t x y /\ y ∈ entries t k2) as (y & Hs & Hy).
  { destruct Hx as [Hx|Hx]; [|by eapply update_success_there].
    apply list_elem_of_lookup in Hx as [i Hi]. destruct (Forall2_lookup_l _ _ _ _ _ Hys Hi) as (y & Hy & Hs).
    exists y. split; [done|]. apply (update_success_keeps _ _ _ _ _ Hu).
    - rewrite Hp. apply elem_of_app. left. by eapply list_elem_of_lookup_2.
    - rewrite (stored_key _ _ Hs). intros Hk. apply (Hcu (key x)); [|done].
      apply list_elem_of_fmap_2. by eapply list_elem_of_lookup_2. }
  exists y. split; [done|]. apply (delete_success_keeps _ _ _ _ _ Hd); [done|].
  rewrite (stored_key _ _ Hs). by apply Hr.
Qed.
End Success.
