(* ===== verification/Reconcile.v ===== *)
(** * Reconciling a table with its expected content

    The [Ensure] functions of pkg/routing/netutil compare what the kernel holds with what
    the provider wants, both indexed by a key, and remove, create or update entries. This
    file has what their proofs share: when the entries kept and the entries created bring
    the table in step with the expected one. *)

From S2P Require Import Prelude.

(** ** The loops over the two maps *)

Section Loops.
Context `{Countable K} {A B : Type}.
Implicit Types (entries : list (K * A)) (m : gmap K B).

(** The values of the entries whose key the map [m] does not hold. *)
Definition not_in m entries : list A :=
  omap (fun e => match m !! e.1 with None => Some e.2 | Some _ => None end) entries.

(** The entries that differ from what the map [m] holds under their key, with the latter. *)
Definition changed (eqv : B -> A -> bool) m entries : list (B * A) :=
  omap (fun e => match m !! e.1 with
                 | None => None
                 | Some a => if negb (eqv a e.2) then Some (a, e.2) else None
                 end) entries.

(** The values of the entries that [m] does not hold or that differ from it. *)
Definition not_in_or_changed (eqv : B -> A -> bool) m entries : list A :=
  omap (fun e => match m !! e.1 with
                 | None => Some e.2
                 | Some a => if negb (eqv a e.2) then Some e.2 else None
                 end) entries.

Lemma elem_of_not_in m o (n : gmap K A) a :
  a ∈ not_in m (range o n) <-> exists k, n !! k = Some a /\ m !! k = None.
Proof.
  unfold not_in. rewrite list_elem_of_omap. split.
  - intros ([k b] & Hin & Hb). apply elem_of_range in Hin. simpl in Hb.
    destruct (m !! k) eqn:He; [done|]. simplify_eq. eauto.
  - intros (k & Ha & He). exists (k, a). simpl. by rewrite elem_of_range, He.
Qed.

Lemma elem_of_changed eqv m o (n : gmap K A) a e :
  (a, e) ∈ changed eqv m (range o n)
  <-> exists k, n !! k = Some e /\ m !! k = Some a /\ eqv a e = false.
Proof.
  unfold changed. rewrite list_elem_of_omap. split.
  - intros ([k b] & Hin & Hb). apply elem_of_range in Hin. simpl in Hb.
    destruct (m !! k) as [a'|] eqn:Ha; [|done]. destruct (eqv a' b) eqn:Hq; [done|].
    injection Hb as <- <-. by exists k.
  - intros (k & He & Ha & Hq). exists (k, e). simpl. by rewrite elem_of_range, Ha, Hq.
Qed.

Lemma elem_of_not_in_or_changed eqv m o (n : gmap K A) e :
  e ∈ not_in_or_changed eqv m (range o n)
  <-> exists k, n !! k = Some e /\ forall a, m !! k = Some a -> eqv a e = false.
Proof.
  unfold not_in_or_changed. rewrite list_elem_of_omap. split.
  - intros ([k b] & Hin & Hb). apply elem_of_range in Hin. simpl in Hb. exists k.
    destruct (m !! k) as [a|]; [destruct (eqv a b) eqn:Hq|]; simplify_eq; naive_solver.
  - intros (k & He & Ha). exists (k, e). rewrite elem_of_range. split; [done|]. simpl.
    destruct (m !! k) as [a|]; [|done]. by rewrite Ha.
Qed.

(** The loops visit an entry at most once. *)
Lemma NoDup_omap_range {C} (g : K * A -> option C) (keyC : C -> option K) o (n : gmap K A) :
  (forall k a c, n !! k = Some a -> g (k, a) = Some c -> keyC c = Some k) -> NoDup (omap g (range o n)).
Proof.
  intros Hg. pose proof (NoDup_range_keys o n) as Hnd.
  assert (forall p, p ∈ range o n -> n !! p.1 = Some p.2) as Hin by (intros [k a]; apply elem_of_range).
  induction (range o n) as [|[k a] l IH]; [by apply NoDup_nil|]. cbn in *.
  apply NoDup_cons in Hnd as [Hn Hnd].
  assert (NoDup (omap g l)) as Hl by (apply IH; [done|intros p Hp; apply Hin; by right]).
  destruct (g (k, a)) as [c|] eqn:Hc; [|done]. apply NoDup_cons. split; [|done].
  intros ([k' a'] & Hin' & Hc')%list_elem_of_omap. apply Hn, list_elem_of_fmap. exists (k', a').
  split; [|done]. simpl.
  pose proof (Hg k a c (Hin (k, a) ltac:(by left)) Hc).
  pose proof (Hg k' a' c (Hin (k', a') ltac:(by right)) Hc'). congruence.
Qed.
End Loops.

Lemma NoDup_not_in `{Countable K} {A B} (key : A -> option K) (m : gmap K B) o (l : list A) :
  NoDup (not_in m (range o (index_by key l))).
Proof.
  apply (NoDup_omap_range _ key). intros k a c Ha Hc. simpl in Hc. apply index_by_Some in Ha as [_ Ha].
  destruct (m !! k); [done|]. by injection Hc as <-.
Qed.

Lemma NoDup_changed `{Countable K} {A} (key : A -> option K) eqv (m : gmap K A) o (l : list A) :
  NoDup (changed eqv m (range o (index_by key l))).
Proof.
  apply (NoDup_omap_range _ (fun p => key p.2)). intros k a c Ha Hc. simpl in Hc.
  destruct (m !! k) as [b|]; [|done]. destruct (eqv b a); [done|]. injection Hc as <-.
  by apply index_by_Some in Ha as [_ Ha].
Qed.

Lemma NoDup_not_in_or_changed `{Countable K} {A} (key : A -> option K) eqv (m : gmap K A) o (l : list A) :
  NoDup (not_in_or_changed eqv m (range o (index_by key l))).
Proof.
  apply (NoDup_omap_range _ key). intros k a c Ha Hc. simpl in Hc. apply index_by_Some in Ha as [_ Ha].
  destruct (m !! k) as [b|]; [destruct (eqv b a)|]; [done| |]; by injection Hc as <-.
Qed.

(** ** Tables in step *)

Section Reconcile.
Context `{Countable K} {A : Type} (key : A -> option K) (eqv : A -> A -> bool).
Implicit Types (actual expected kept created final : list A).

(** Both tables hold the same keys, and what the actual one holds equals what is expected. *)
Definition in_sync (actual expected : gmap K A) : Prop :=
  forall k, match actual !! k, expected !! k with
            | Some a, Some e => eqv a e = true
            | None, None => True
            | _, _ => False
            end.

(** An entry that is not expected, or differs from the expected one. *)
Definition stale (expected : gmap K A) (a : A) : bool :=
  match key a with
  | None => false
  | Some k => match expected !! k with None => true | Some e => negb (eqv a e) end
  end.

(** An expected entry that is missing, or differs from the actual one. *)
Definition wanted (actual : gmap K A) (e : A) : bool :=
  match key e with
  | None => false
  | Some k => match actual !! k with None => true | Some a => negb (eqv a e) end
  end.

Lemma NoDup_omap_inj (l : list A) x y k :
  NoDup (omap key l) -> x ∈ l -> y ∈ l -> key x = Some k -> key y = Some k -> x = y.
Proof.
  intros Hnd Hx Hy Hkx Hky.
  pose proof (proj2 (index_by_unique key l k x Hnd) (conj Hx Hkx)).
  pose proof (proj2 (index_by_unique key l k y Hnd) (conj Hy Hky)). congruence.
Qed.

Lemma elem_of_omap_key (l : list A) k : k ∈ omap key l <-> exists x, x ∈ l /\ key x = Some k.
Proof. apply list_elem_of_omap. Qed.

Lemma NoDup_omap_filter (P : A -> bool) (l : list A) :
  NoDup (omap key l) -> NoDup (omap key (filter P l)).
Proof.
  induction l as [|x l IH]; [done|]. rewrite filter_cons. simpl. intros Hnd.
  destruct (key x) as [k|] eqn:Hx; simpl in Hnd.
  - apply NoDup_cons in Hnd as [Hn Hnd]. case_decide; [|by apply IH].
    simpl. rewrite Hx. apply NoDup_cons. split; [|by apply IH].
    rewrite elem_of_omap_key in Hn |- *. intros (y & Hy & Hk). apply Hn. exists y.
    by apply list_elem_of_filter in Hy as [_ Hy].
  - case_decide; [|by apply IH]. simpl. rewrite Hx. by apply IH.
Qed.

Lemma NoDup_omap_key {B} (keyB : B -> option K) (f : A -> option B) (l : list A) :
  NoDup (omap key l) ->
  (forall x y, f x = Some y -> key x = keyB y /\ is_Some (key x)) -> NoDup (omap f l).
Proof.
  intros Hnd Hf. induction l as [|x l IH]; [by apply NoDup_nil|]. cbn in *.
  destruct (f x) as [y|] eqn:Hy.
  - destruct (Hf x y Hy) as [Hk [k Hkx]]. rewrite Hkx in Hnd. apply NoDup_cons in Hnd as [Hn Hnd].
    apply NoDup_cons. split; [|by apply IH]. intros Hin. apply Hn.
    apply list_elem_of_omap in Hin as (x' & Hin & Hy'). apply list_elem_of_omap.
    exists x'. split; [done|]. destruct (Hf x' y Hy') as [Hk' _]. congruence.
  - apply IH. destruct (key x); [by apply NoDup_cons in Hnd as [_ Hnd]|done].
Qed.

(** [y] is how the table holds the entry [e] it was given. *)
Definition held (e y : A) : Prop := key y = key e /\ eqv y e = true.

Lemma held_refl e : (forall e, eqv e e = true) -> held e e.
Proof. by split. Qed.

Lemma Forall2_held_keys (l ys : list A) : Forall2 held l ys -> omap key ys = omap key l.
Proof.
  induction 1 as [|e y l ys [Hk _] _ IH]; [done|]. cbn. rewrite Hk. destruct (key e); [f_equal|]; exact IH.
Qed.

(** The entries that are not stale together with the wanted ones are what is expected. *)
Lemma reconciled actual expected created final :
  NoDup (omap key actual) -> NoDup (omap key expected) ->
  Forall2 held (filter (wanted (index_by key actual)) expected) created ->
  final ≡ₚ created ++ filter (fun a => negb (stale (index_by key expected) a)) actual ->
  NoDup (omap key final) /\ in_sync (index_by key final) (index_by key expected).
Proof.
  intros Ha He Hc Hf. pose proof (Forall2_held_keys _ _ Hc) as Hck.
  assert (NoDup (omap key final)) as Hnd.
  { rewrite Hf, omap_app, Hck. apply NoDup_app. split_and!; [by apply NoDup_omap_filter| |by apply NoDup_omap_filter].
    intros k (e & Hin & Hke)%elem_of_omap_key (a & Hin' & Hka)%elem_of_omap_key.
    apply list_elem_of_filter in Hin as [Hw Hin], Hin' as [Hs Hin'].
    unfold wanted in Hw. unfold stale in Hs. rewrite Hke in Hw. rewrite Hka in Hs.
    rewrite (proj2 (index_by_unique key actual k a Ha) (conj Hin' Hka)) in Hw.
    rewrite (proj2 (index_by_unique key expected k e He) (conj Hin Hke)) in Hs.
    by destruct (eqv a e). }
  split; [done|]. intros k.
  destruct (index_by key expected !! k) as [e|] eqn:Hek.
  - apply index_by_unique in Hek as Hek'; [|done]. destruct Hek' as [Hin Hk].
    destruct (wanted (index_by key actual) e) eqn:Hw.
    + destruct (list_elem_of_lookup_1 (filter (wanted (index_by key actual)) expected) e) as [i Hi].
      { apply list_elem_of_filter. by rewrite Hw. }
      destruct (Forall2_lookup_l _ _ _ _ _ Hc Hi) as (y & Hy & Hky & Heq).
      rewrite (proj2 (index_by_unique key final k y Hnd)); [done|]. split; [|congruence].
      rewrite Hf. apply elem_of_app. left. by eapply list_elem_of_lookup_2.
    + unfold wanted in Hw. rewrite Hk in Hw.
      destruct (index_by key actual !! k) as [a|] eqn:Hak; [|done].
      apply negb_false_iff in Hw. apply index_by_Some in Hak as [Hain Hka].
      rewrite (proj2 (index_by_unique key final k a Hnd)); [done|]. split; [|done].
      rewrite Hf. apply elem_of_app. right. apply list_elem_of_filter. split; [|done].
      unfold stale. rewrite Hka, Hek, Hw. done.
  - rewrite (proj2 (index_by_None key final k)); [done|]. intros x Hx Hkx.
    assert (k ∈ omap key expected \/ exists a, a ∈ actual /\ key a = Some k /\
              stale (index_by key expected) a = false) as [Hin|(a & Hin & Hka & Hs)].
    { rewrite Hf in Hx. apply elem_of_app in Hx as [Hx|Hx].
      - left. assert (k ∈ omap key created) as Hkc by (apply elem_of_omap_key; eauto).
        rewrite Hck in Hkc. apply elem_of_omap_key in Hkc as (e & Hin & Hke).
        apply list_elem_of_filter in Hin as [_ Hin]. apply elem_of_omap_key. eauto.
      - right. apply list_elem_of_filter in Hx as [Hp Hx]. exists x. by destruct (stale _ x). }
    + apply elem_of_omap_key in Hin as (e & Hin & Hke).
      by apply (proj1 (index_by_None key expected k) Hek e Hin).
    + unfold stale in Hs. by rewrite Hka, Hek in Hs.
Qed.

(** Filters that look at the key collect an entry once. *)
Lemma NoDup_filter_keyed (f : A -> bool) (l : list A) :
  (forall a, f a = true -> is_Some (key a)) -> NoDup (omap key l) -> NoDup (filter f l).
Proof.
  intros Hf. induction l as [|a l IH]; [intros _; by apply NoDup_nil|]. simpl. intros Hl.
  rewrite filter_cons_bool. destruct (key a) as [k|] eqn:Hk.
  - apply NoDup_cons in Hl as [Hn Hl]. destruct (f a); [|by apply IH].
    apply NoDup_cons. split; [|by apply IH]. intros Hi. apply Hn.
    apply list_elem_of_filter in Hi as [_ Hi]. apply elem_of_omap_key. eauto.
  - destruct (f a) eqn:Hfa; [|by apply IH]. apply Hf in Hfa as [k Hk']. congruence.
Qed.

Lemma NoDup_wanted (actual : gmap K A) (l : list A) :
  NoDup (omap key l) -> NoDup (filter (wanted actual) l).
Proof.
  apply NoDup_filter_keyed. intros a Ha. unfold wanted in Ha. destruct (key a); [eauto|done].
Qed.

(** A list of the stale entries, in any order and without repetition, is what is removed. *)
Lemma stale_perm actual (removed : list A) (expected : gmap K A) :
  NoDup (omap key actual) -> NoDup removed ->
  (forall a, a ∈ removed <-> a ∈ actual /\ stale expected a = true) ->
  removed ≡ₚ filter (stale expected) actual.
Proof.
  intros Ha Hr Hin. apply NoDup_Permutation; [done| |].
  - apply NoDup_filter_keyed; [|done]. intros a Hs. unfold stale in Hs. destruct (key a); [eauto|done].
  - intros a. rewrite Hin, list_elem_of_filter. destruct (stale expected a); naive_solver.
Qed.

(** The loop over the expected map collects the wanted entries. *)
Lemma wanted_perm (actual : gmap K A) (expected : list A) o :
  NoDup (omap key expected) ->
  not_in_or_changed eqv actual (range o (index_by key expected)) ≡ₚ filter (wanted actual) expected.
Proof.
  intros He. apply NoDup_Permutation.
  - apply NoDup_not_in_or_changed.
  - eapply NoDup_wanted, He.
  - intros e. rewrite elem_of_not_in_or_changed, list_elem_of_filter. split.
    + intros (k & Hk & Hw). apply index_by_Some in Hk as [Hin Hk]. split; [|done].
      unfold wanted. rewrite Hk. destruct (actual !! k) as [a|]; [|done]. by rewrite Hw.
    + intros [Hw Hin]. unfold wanted in Hw. destruct (key e) as [k|] eqn:Hk; [|done].
      exists k. split; [by apply index_by_unique|]. intros a Ha. rewrite Ha in Hw. by destruct (eqv a e).
Qed.

(** A table in step has nothing stale and nothing wanted. *)
Lemma in_sync_nothing_wanted actual expected :
  NoDup (omap key expected) ->
  in_sync (index_by key actual) (index_by key expected) ->
  filter (wanted (index_by key actual)) expected = [].
Proof.
  intros He Hs. apply filter_none. intros e Hin Hw. unfold wanted in Hw.
  destruct (key e) as [k|] eqn:Hk; [|done]. specialize (Hs k).
  rewrite (proj2 (index_by_unique key expected k e He) (conj Hin Hk)) in Hs.
  destruct (index_by key actual !! k); [by rewrite Hs in Hw|done].
Qed.

Lemma in_sync_nothing_stale (actual expected : gmap K A) k a :
  in_sync actual expected -> actual !! k = Some a ->
  exists e, expected !! k = Some e /\ eqv a e = true.
Proof. intros Hs Ha. specialize (Hs k). rewrite Ha in Hs. destruct (expected !! k); [eauto|done]. Qed.
End Reconcile.
