(* ===== verification/Netutil.v ===== *)
(** * Comparison of addresses and networks: pkg/routing/netutil/helpers.go *)

From S2P Require Import Prelude GoNet GoNetFacts.

(** [func ipEqual(a net.IP, e net.IP) bool] *)
Definition ipEqual (a e : IP) : bool :=
  match a with
  | None => match e with None => true | Some _ => false end
  | Some _ => match e with None => false | Some _ => IP_Equal a e end
  end.

(** [func ipnetEqual(a *net.IPNet, e *net.IPNet) bool] *)
Definition ipnetEqual (a e : option IPNet) : bool :=
  match a with
  | None => match e with None => true | Some _ => false end
  | Some a' =>
      match e with
      | None => false
      | Some e' =>
          if negb (bytes_Equal (net_Mask a') (net_Mask e')) then false
          else if negb (ipEqual (net_IP a') (net_IP e')) then false
          else true
      end
  end.

Lemma ipEqual_refl a : ipEqual a a = true.
Proof. destruct a; simpl; [apply IP_Equal_refl|done]. Qed.

Lemma ipEqual_iff a e :
  ipEqual a e = true <-> (a = None <-> e = None) /\ As16 (bytes_of a) = As16 (bytes_of e).
Proof.
  destruct a as [a|], e as [e|]; simpl; rewrite ?IP_Equal_iff; naive_solver.
Qed.

Lemma ipnetEqual_refl a : ipnetEqual a a = true.
Proof.
  destruct a as [n|]; simpl; [|done].
  by rewrite (proj2 (bytes_Equal_iff _ _) eq_refl), ipEqual_refl.
Qed.

Lemma ipnetEqual_iff a e :
  ipnetEqual (Some a) (Some e) = true
  <-> bytes_of (net_Mask a) = bytes_of (net_Mask e) /\ ipEqual (net_IP a) (net_IP e) = true.
Proof.
  simpl. rewrite <- bytes_Equal_iff.
  destruct (bytes_Equal _ _), (ipEqual _ _); simpl; naive_solver.
Qed.

Lemma bytes_Equal_refl a : bytes_Equal a a = true.
Proof. by apply bytes_Equal_iff. Qed.

#[export] Hint Resolve ipEqual_refl ipnetEqual_refl bytes_Equal_refl : net.
Create Rewrite HintDb net_refl.

#[export] Hint Rewrite ipEqual_refl ipnetEqual_refl bytes_Equal_refl IP_Equal_refl Z.eqb_refl : net_refl.

(** [net_refl] proves that a comparison function of the program is reflexive. *)
Ltac net_refl :=
  autorewrite with net_refl; rewrite ?Nat.eqb_refl, ?String.eqb_refl, ?bool_decide_eq_true_2 by done;
  cbn [negb orb andb]; try reflexivity.
