(* ===== verification/RouteTable.v ===== *)
(** * The route table: pkg/routing/netutil/route_table.go *)

From S2P Require Import Prelude GoNet GoNetFacts Netlink Effects Reconcile Netutil.

(** [func nexthopInfoEqual(a, e *netlink.NexthopInfo) bool] *)
Definition nexthopInfoEqual (a e : NexthopInfo) : bool :=
  if negb (nh_LinkIndex a =? nh_LinkIndex e) || negb (nh_Hops a =? nh_Hops e) then false
  else if negb (ipEqual (nh_Gw a) (nh_Gw e)) then false
  else true.

(** [func routeEqual(a, e *netlink.Route) bool] *)
Definition routeEqual (a e : Route) : bool :=
  if negb (rt_LinkIndex a =? rt_LinkIndex e) || negb (rt_ILinkIndex a =? rt_ILinkIndex e)
     || negb (rt_Scope a =? rt_Scope e) || negb (rt_Protocol a =? rt_Protocol e)
     || negb (rt_Priority a =? rt_Priority e) || negb (rt_Table a =? rt_Table e)
     || negb (rt_Type a =? rt_Type e) || negb (rt_Tos a =? rt_Tos e)
     || negb (rt_Flags a =? rt_Flags e) then false
  else if negb (ipnetEqual (rt_Dst a) (rt_Dst e)) then false
  else if negb (ipEqual (rt_Src a) (rt_Src e)) then false
  else if negb (ipEqual (rt_Gw a) (rt_Gw e)) then false
  else if negb (length (rt_MultiPath a) =? length (rt_MultiPath e))%nat then false
  else forallb (fun p => nexthopInfoEqual p.1 p.2) (zip (rt_MultiPath a) (rt_MultiPath e)).

(** The key of the maps in [Ensure]: [Dst.String()], none for a route without one. *)
Definition route_key (r : Route) : option string := IPNet_String <$> rt_Dst r.

(** The loop over [expected], in order: the map of what is expected and the lists [create] and
    [remove]; [None] is the return for a route without a destination. *)
Fixpoint RouteTable_diff (actualMap : gmap string Route) (expected : list Route)
    (expectedMap : gmap string Route) (create remove : list Route)
    : option (gmap string Route * list Route * list Route) :=
  match expected with
  | [] => Some (expectedMap, create, remove)
  | e :: rest =>
      match rt_Dst e with
      | None => None
      | Some dst =>
          let k := IPNet_String dst in
          let expectedMap := <[k := e]> expectedMap in
          match actualMap !! k with
          | None => RouteTable_diff actualMap rest expectedMap (create ++ [e]) remove
          | Some a =>
              if negb (routeEqual a e)
              then RouteTable_diff actualMap rest expectedMap (create ++ [e]) (remove ++ [a])
              else RouteTable_diff actualMap rest expectedMap create remove
          end
      end
  end.

Section Ensure.
Context {K P : Type} `{Kernel K} `{NetlinkConsts}.

(** [func (t *RouteTable) Ensure(link netlink.Link, expected []*netlink.Route,
    deleteExtraRoutes bool) error] *)
Definition RouteTable_Ensure (link : option Link) (expected : list Route)
    (deleteExtraRoutes : bool) : M K P unit :=
  actualList ← wrap "error doing `ip route show`: %v" (query (k_RouteList link FAMILY_ALL));
  let actualMap := index_by route_key actualList in
  match RouteTable_diff actualMap expected ∅ [] [] with
  | None => fail (ErrorMsg "expected route did not have dst: %v")
  | Some (expectedMap, create, remove) =>
      (if deleteExtraRoutes then
         o ← next_order;
         let remove := remove ++ not_in expectedMap (range o actualMap) in
         each (fun r => wrap "error removing route: %v" (call (RouteDel r))) remove
       else mret tt);;
      each (fun r => wrap "error creating route %v: %v" (call (RouteAdd r))) create
  end.
End Ensure.

Lemma nexthopInfoEqual_refl a : nexthopInfoEqual a a = true.
Proof. unfold nexthopInfoEqual. net_refl. Qed.

Lemma routeEqual_refl a : routeEqual a a = true.
Proof.
  unfold routeEqual. net_refl.
  induction (rt_MultiPath a) as [|p l IH]; simpl; [done|]. by rewrite nexthopInfoEqual_refl.
Qed.
