(* ===== verification/LinkAddresses.v ===== *)
(** * The addresses of a link: pkg/routing/netutil/link_addresses.go *)

From S2P Require Import Prelude GoNet Netlink Effects Reconcile Netutil.

(** [func addrEqual(a, e *netlink.Addr) bool] *)
Definition addrEqual (a e : Addr) : bool :=
  if negb (String.eqb (addr_Label a) (addr_Label e)) || negb (addr_Flags a =? addr_Flags e)
     || negb (addr_Scope a =? addr_Scope e) then false
  else if negb (ipnetEqual (addr_IPNet a) (addr_IPNet e)) then false
  else true.

(** The key of an address of the link; those without a network and the link-local ones are
    skipped. *)
Definition addr_actual_key (a : Addr) : option string :=
  match addr_IPNet a with
  | None => None
  | Some n => if IsLinkLocalUnicast (net_IP n) then None else Some (IPNet_String n)
  end.

(** The key of an expected address; link-local ones are not skipped here. *)
Definition addr_expected_key (e : Addr) : option string := IPNet_String <$> addr_IPNet e.

Section Ensure.
Context {K P : Type} `{Kernel K} `{NetlinkConsts}.

(** [func EnsureLinkAddresses(link netlink.Link, expected []*netlink.Addr) error] *)
Definition EnsureLinkAddresses (link : Link) (expected : list Addr) : M K P unit :=
  actualList ← wrap "error listing link addresses: %v" (query (k_AddrList link FAMILY_ALL));
  let actualMap := index_by addr_actual_key actualList in
  let expectedMap := index_by addr_expected_key expected in
  o1 ← next_order;
  let create := not_in_or_changed addrEqual actualMap (range o1 expectedMap) in
  let remove := fst <$> changed addrEqual actualMap (range o1 expectedMap) in
  o2 ← next_order;
  let remove := remove ++ not_in expectedMap (range o2 actualMap) in
  each (fun r => wrap "error doing `ip addr add %s dev link %s`: %v" (call (AddrAdd link r))) create;;
  each (fun r => wrap "error doing `ip addr del %s dev link %s address: %v" (call (AddrDel link r))) remove.
End Ensure.

Lemma addrEqual_refl a : addrEqual a a = true.
Proof. unfold addrEqual. net_refl. Qed.
