(* ===== verification/NeighTable.v ===== *)
(** * The neighbour table: pkg/routing/netutil/neigh_table.go *)

From S2P Require Import Prelude GoNet Netlink Effects Reconcile Netutil.

(** [func neighEqual(a, e *netlink.Neigh) bool] *)
Definition neighEqual (a e : Neigh) : bool :=
  if negb (neigh_Type a =? neigh_Type e) || negb (neigh_Family a =? neigh_Family e)
     || negb (neigh_Flags a =? neigh_Flags e) || negb (neigh_LinkIndex a =? neigh_LinkIndex e)
     || negb (neigh_State a =? neigh_State e) then false
  else if negb (IP_Equal (neigh_IP a) (neigh_IP e)) then false
  else if negb (bytes_Equal (neigh_HardwareAddr a) (neigh_HardwareAddr e)) then false
  else true.

(** The key of both maps: [IP.String()], none for an entry without an IP. *)
Definition neigh_key (n : Neigh) : option string :=
  match neigh_IP n with None => None | Some _ => Some (IP_String (neigh_IP n)) end.

Section Ensure.
Context {K P : Type} `{Kernel K} `{NetlinkConsts}.

(** [func (t *NeighTable) Ensure(link netlink.Link, expected []*netlink.Neigh) error] *)
Definition NeighTable_Ensure (link : Link) (expected : list Neigh) : M K P unit :=
  actualList ← wrap "error listing layer2 config: %v"
    (query (k_NeighList (link_Index (Attrs link)) FAMILY_ALL));
  let actualMap := index_by neigh_key actualList in
  let expectedMap := index_by neigh_key expected in
  o ← next_order;
  let upsert := not_in_or_changed neighEqual actualMap (range o expectedMap) in
  each (fun r => wrap "error doing `ip neigh replace to %s lladdr %s dev %d`: %v" (call (NeighSet r)))
    upsert.
End Ensure.

Lemma neighEqual_refl n : neighEqual n n = true.
Proof. unfold neighEqual. net_refl. Qed.
