(* ===== verification/Links.v ===== *)
(** * Links: pkg/routing/netutil/links.go *)

From S2P Require Import Prelude GoNet Netlink Effects Reconcile.

(** [func linkEqual(a, e netlink.Link) bool] *)
Definition linkEqual `{NetlinkConsts} (a e : Link) : bool :=
  if negb (String.eqb (Link_Type (Kind a)) (Link_Type (Kind e))) then false
  else if negb (String.eqb (link_Name (Attrs a)) (link_Name (Attrs e))) then false
  else true.

Definition link_name (l : Link) : string := link_Name (Attrs l).

(** The key of a link of the system: its name, if it has the prefix. *)
Definition link_actual_key (prefix : string) (l : Link) : option string :=
  if HasPrefix (link_name l) prefix then Some (link_name l) else None.

(** [retMap] after the loop over [expectedMap]: the links that exist; one that differs is only
    reported. *)
Definition links_present (actualMap : gmap string Link) (entries : list (string * Link))
    : gmap string Link :=
  foldl (fun m e => match actualMap !! e.1 with None => m | Some a => <[e.1 := a]> m end) ∅ entries.

Section Ensure.
Context {K P : Type} `{Kernel K}.

(** The loop over [create]: [retMap] gets the object [LinkAdd] was given, with the index the
    call fills in. *)
Fixpoint links_create (create : list Link) (retMap : gmap string Link) : M K P (gmap string Link) :=
  match create with
  | [] => mret retMap
  | l :: rest =>
      l' ← wrap "error creating link %v: %v" (netlink_LinkAdd l);
      links_create rest (<[link_name l' := l']> retMap)
  end.

(** [func (t *Links) Ensure(expected []netlink.Link, prefix string) (map[string]netlink.Link, error)] *)
Definition Links_Ensure (expected : list Link) (prefix : string) : M K P (gmap string Link) :=
  allLinks ← wrap "error doing `ip route show`: %v" (query k_LinkList);
  let actualMap := index_by (link_actual_key prefix) allLinks in
  let expectedMap := index_by (fun e => Some (link_name e)) expected in
  o1 ← next_order;
  let create := not_in actualMap (range o1 expectedMap) in
  let retMap := links_present actualMap (range o1 expectedMap) in
  o2 ← next_order;
  let remove := not_in expectedMap (range o2 actualMap) in
  each (fun l => wrap "error removing link: %v" (call (LinkDel l))) remove;;
  links_create create retMap.
End Ensure.
