(* ===== verification/XfrmTables.v ===== *)
(** * XFRM states and policies: pkg/routing/netutil/xfrm_state_table.go, xfrm_policy_table.go *)

From S2P Require Import Prelude GoNet Netlink Effects Reconcile Netutil.

(** ** Comparison *)

(** [func xfrmMarkEqual(l *netlink.XfrmMark, r *netlink.XfrmMark) bool] *)
Definition xfrmMarkEqual (l r : option XfrmMark) : bool :=
  match l, r with
  | Some l, Some r => (mark_Mask l =? mark_Mask r) && (mark_Value l =? mark_Value r)
  | None, None => true
  | _, _ => false
  end.

(** [func xfrmStateAlgoEqual(l *netlink.XfrmStateAlgo, r *netlink.XfrmStateAlgo) bool] *)
Definition xfrmStateAlgoEqual (l r : option XfrmStateAlgo) : bool :=
  match l, r with
  | Some l, Some r =>
      if negb (algo_TruncateLen l =? algo_TruncateLen r) then false
      else if negb (algo_ICVLen l =? algo_ICVLen r) then false
      else if negb (String.eqb (algo_Name l) (algo_Name r)) then false
      else if negb (bytes_Equal (algo_Key l) (algo_Key r)) then false
      else true
  | None, None => true
  | _, _ => false
  end.

(** [func xfrmStateEncapEqual(l *netlink.XfrmStateEncap, r *netlink.XfrmStateEncap) bool] *)
Definition xfrmStateEncapEqual (l r : option XfrmStateEncap) : bool :=
  match l, r with
  | Some l, Some r =>
      if negb (encap_Type l =? encap_Type r) then false
      else if negb (encap_SrcPort l =? encap_SrcPort r) then false
      else if negb (encap_DstPort l =? encap_DstPort r) then false
      else IP_Equal (encap_OriginalAddress l) (encap_OriginalAddress r)
  | None, None => true
  | _, _ => false
  end.

(** [func xfrmStateEqual(l *netlink.XfrmState, r *netlink.XfrmState) bool] *)
Definition xfrmStateEqual (l r : XfrmState) : bool :=
  if negb (xs_Proto l =? xs_Proto r) then false
  else if negb (xs_Mode l =? xs_Mode r) then false
  else if negb (xs_Spi l =? xs_Spi r) then false
  else if negb (xs_Reqid l =? xs_Reqid r) then false
  else if negb (xs_ReplayWindow l =? xs_ReplayWindow r) then false
  else if negb (IP_Equal (xs_Dst l) (xs_Dst r)) then false
  else if negb (IP_Equal (xs_Src l) (xs_Src r)) then false
  else if negb (bool_decide (xs_Limits l = xs_Limits r)) then false
  else if negb (xfrmMarkEqual (xs_Mark l) (xs_Mark r)) then false
  else if negb (xfrmStateAlgoEqual (xs_Auth l) (xs_Auth r)) then false
  else if negb (xfrmStateAlgoEqual (xs_Crypt l) (xs_Crypt r)) then false
  else if negb (xfrmStateAlgoEqual (xs_Aead l) (xs_Aead r)) then false
  else if negb (xfrmStateEncapEqual (xs_Encap l) (xs_Encap r)) then false
  else true.

(** [func xfrmPolicyTmplEqual(l *netlink.XfrmPolicyTmpl, r *netlink.XfrmPolicyTmpl) bool]; the
    only call passes the addresses of two slice elements, which are never nil. *)
Definition xfrmPolicyTmplEqual (l r : XfrmPolicyTmpl) : bool :=
  if negb (tmpl_Proto l =? tmpl_Proto r) then false
  else if negb (tmpl_Mode l =? tmpl_Mode r) then false
  else if negb (tmpl_Spi l =? tmpl_Spi r) then false
  else if negb (tmpl_Reqid l =? tmpl_Reqid r) then false
  else if negb (IP_Equal (tmpl_Dst l) (tmpl_Dst r)) then false
  else if negb (IP_Equal (tmpl_Src l) (tmpl_Src r)) then false
  else true.

(** [func xfrmPolicyMatches(a *netlink.XfrmPolicy, e *netlink.XfrmPolicy) bool] *)
Definition xfrmPolicyMatches (a e : XfrmPolicy) : bool :=
  if negb (xp_Dir a =? xp_Dir e) then false
  else if negb (xp_SrcPort a =? xp_SrcPort e) then false
  else if negb (xp_DstPort a =? xp_DstPort e) then false
  else if negb (xp_Proto a =? xp_Proto e) then false
  else if negb (ipnetEqual (xp_Dst a) (xp_Dst e)) then false
  else if negb (ipnetEqual (xp_Src a) (xp_Src e)) then false
  else true.

(** [func xfrmPolicyEqual(l *netlink.XfrmPolicy, r *netlink.XfrmPolicy) bool] *)
Definition xfrmPolicyEqual (l r : XfrmPolicy) : bool :=
  if negb (xp_Dir l =? xp_Dir r) then false
  else if negb (xp_Priority l =? xp_Priority r) then false
  else if negb (xp_Index l =? xp_Index r) then false
  else if negb (xp_SrcPort l =? xp_SrcPort r) then false
  else if negb (xp_DstPort l =? xp_DstPort r) then false
  else if negb (xp_Proto l =? xp_Proto r) then false
  else if negb (ipnetEqual (xp_Dst l) (xp_Dst r)) then false
  else if negb (ipnetEqual (xp_Src l) (xp_Src r)) then false
  else if negb (xfrmMarkEqual (xp_Mark l) (xp_Mark r)) then false
  else if negb (length (xp_Tmpls l) =? length (xp_Tmpls r))%nat then false
  else forallb (fun p => xfrmPolicyTmplEqual p.1 p.2) (zip (xp_Tmpls l) (xp_Tmpls r)).

(** [e.Index = a.Index] *)
Definition set_Index (i : Z) (p : XfrmPolicy) : XfrmPolicy :=
  MkXfrmPolicy (xp_Dst p) (xp_Src p) (xp_Proto p) (xp_DstPort p) (xp_SrcPort p) (xp_Dir p)
    (xp_Priority p) i (xp_Mark p) (xp_Tmpls p).

(** ** States *)

(** The map of the expected states; [None] is the [klog.Fatalf] on a duplicate SPI. *)
Fixpoint states_by_spi (l : list XfrmState) (expected : gmap Z XfrmState)
    : option (gmap Z XfrmState) :=
  match l with
  | [] => Some expected
  | e :: rest =>
      match expected !! xs_Spi e with
      | Some _ => None
      | None => states_by_spi rest (<[xs_Spi e := e]> expected)
      end
  end.

(** ** Policies *)

(** The inner loop: the last policy of the list that matches [e]. *)
Definition policy_match (actual : list XfrmPolicy) (e : XfrmPolicy) : option XfrmPolicy :=
  foldl (fun a p => if xfrmPolicyMatches p e then Some p else a) None actual.

(** The loop over [expected]: the lists [create] and [updates], the latter with the index of
    the policy they replace. *)
Definition policies_missing (actual expected : list XfrmPolicy) : list XfrmPolicy :=
  omap (fun e => match policy_match actual e with None => Some e | Some _ => None end) expected.

Definition policies_changed (actual expected : list XfrmPolicy) : list XfrmPolicy :=
  omap (fun e => match policy_match actual e with
                 | None => None
                 | Some a =>
                     let e := set_Index (xp_Index a) e in
                     if negb (xfrmPolicyEqual a e) then Some e else None
                 end) expected.

(** The policies whose [actualMatched] is false after that loop. *)
Definition policies_extra (actual expected : list XfrmPolicy) : list XfrmPolicy :=
  filter (fun p => negb (existsb (xfrmPolicyMatches p) expected)) actual.

Section Ensure.
Context {K P : Type} `{Kernel K} `{NetlinkConsts}.

(** [func (p *XfrmStateTable) Flush() error] *)
Definition XfrmStateTable_Flush : M K P unit := call (XfrmStateFlush 0).

(** [func (p *XfrmPolicyTable) Flush() error] *)
Definition XfrmPolicyTable_Flush : M K P unit := call XfrmPolicyFlush.

(** [func (p *XfrmStateTable) Ensure(expectedList []*netlink.XfrmState) error] *)
Definition XfrmStateTable_Ensure (expectedList : list XfrmState) : M K P unit :=
  actualList ← wrap "error listing xfrm state: %v" (query (k_XfrmStateList FAMILY_ALL));
  let actualMap := index_by (fun a => Some (xs_Spi a)) actualList in
  match states_by_spi expectedList ∅ with
  | None => exit
  | Some expected =>
      o1 ← next_order;
      let create := not_in actualMap (range o1 expected) in
      let updates := snd <$> changed xfrmStateEqual actualMap (range o1 expected) in
      o2 ← next_order;
      let remove := not_in expected (range o2 actualMap) in
      each (fun p => wrap "error creating state %v: %v" (call (XfrmStateAdd p))) create;;
      each (fun p => wrap "error updating state %v: %v" (call (XfrmStateUpdate p))) updates;;
      each (fun p => wrap "error removing state: %v" (call (XfrmStateDel p))) remove
  end.

(** [func (t *XfrmPolicyTable) Ensure(expected []*netlink.XfrmPolicy) error] *)
Definition XfrmPolicyTable_Ensure (expected : list XfrmPolicy) : M K P unit :=
  actual ← wrap "error listing xfrm policies: %v" (query (k_XfrmPolicyList FAMILY_ALL));
  let create := policies_missing actual expected in
  let updates := policies_changed actual expected in
  let remove := policies_extra actual expected in
  each (fun p => wrap "error creating policy: %v" (call (XfrmPolicyAdd p))) create;;
  each (fun p => wrap "error updating policy: %v" (call (XfrmPolicyUpdate p))) updates;;
  each (fun p => wrap "error removing policy: %v" (call (XfrmPolicyDel p))) remove.
End Ensure.

Lemma xfrmMarkEqual_refl m : xfrmMarkEqual m m = true.
Proof. destruct m; simpl; net_refl. Qed.

Lemma xfrmStateAlgoEqual_refl a : xfrmStateAlgoEqual a a = true.
Proof. destruct a; simpl; net_refl. Qed.

Lemma xfrmStateEncapEqual_refl e : xfrmStateEncapEqual e e = true.
Proof. destruct e; simpl; net_refl. Qed.

Lemma xfrmStateEqual_refl s : xfrmStateEqual s s = true.
Proof.
  unfold xfrmStateEqual. rewrite xfrmMarkEqual_refl, !xfrmStateAlgoEqual_refl, xfrmStateEncapEqual_refl.
  net_refl.
Qed.

Lemma xfrmPolicyTmplEqual_refl t : xfrmPolicyTmplEqual t t = true.
Proof. unfold xfrmPolicyTmplEqual. net_refl. Qed.

Lemma xfrmPolicyEqual_refl p : xfrmPolicyEqual p p = true.
Proof.
  unfold xfrmPolicyEqual. rewrite xfrmMarkEqual_refl. net_refl.
  induction (xp_Tmpls p) as [|t l IH]; simpl; [done|]. by rewrite xfrmPolicyTmplEqual_refl.
Qed.
