(* ===== verification/KernelLaws.v ===== *)
(** * What the code relies on of the kernel

    One class per kernel table, all of them consequences of the documented behaviour of
    rtnetlink and XFRM: what a listing reports, when an entry is refused, and what an update
    or a replacement leaves. A component's theorems about the state it leaves behind are proved
    against its class; Sim.v has a kernel that meets all of them. *)

From S2P Require Import Prelude GoNet GoNetFacts Netlink Effects Tables Reconcile Netutil.
From S2P Require Import RouteTable LinkAddresses NeighTable Links XfrmTables.

Definition ESRCH : error := Errno 3.

(** ** Routes

    A route is refused when one with the same destination, table, TOS and priority exists. *)
Definition route_conflict (a b : Route) : bool :=
  bool_decide (route_key a = route_key b) && (rt_Table a =? rt_Table b)
  && (rt_Tos a =? rt_Tos b) && (rt_Priority a =? rt_Priority b).

Class RouteLaws (K : Type) `{Kernel K} `{NetlinkConsts} := {
  route_table : Table RouteAdd RouteDel;
  (** The routes [netlink.RouteList(link, FAMILY_ALL)] reports. *)
  route_listed : option Link -> Route -> bool;
  route_occupies : forall a b, occupies route_table a b = route_conflict a b;
  route_stored : forall e y, stored route_table e y ->
    held route_key routeEqual e y /\ (forall link, route_listed link y = route_listed link e);
  RouteList_lists : forall link k, exists l,
    k_RouteList link FAMILY_ALL k = (inl l, k) /\ l ≡ₚ filter (route_listed link) (entries route_table k)
}.

(** ** Addresses

    A link holds a network at most once. The kernel may report other labels and flags than it
    was given. *)
Definition addr_conflict (a b : Addr) : bool :=
  bool_decide (addr_expected_key a = addr_expected_key b).

Class AddrLaws (K : Type) `{Kernel K} `{NetlinkConsts} := {
  addr_table : forall link, Table (AddrAdd link) (AddrDel link);
  addr_occupies : forall link a b, occupies (addr_table link) a b = addr_conflict a b;
  addr_stored : forall link e y, stored (addr_table link) e y ->
    addr_expected_key y = addr_expected_key e /\ addr_actual_key y = addr_actual_key e;
  AddrList_lists : forall link k, exists l,
    k_AddrList link FAMILY_ALL k = (inl l, k) /\ l ≡ₚ entries (addr_table link) k
}.

(** ** Neighbours

    A device has two tables. In the one of [ip neigh] an entry is identified by its address. The
    entries of family AF_BRIDGE are in the forwarding table, [bridge fdb], where the hardware
    address identifies an entry and the address is where it leads to. *)
Definition is_fdb (n : Neigh) : bool := neigh_Family n =? AF_BRIDGE.

(** Setting [b] replaces [a]. *)
Definition neigh_slot (a b : Neigh) : bool :=
  (neigh_LinkIndex a =? neigh_LinkIndex b) && Bool.eqb (is_fdb a) (is_fdb b)
  && if is_fdb b then bytes_Equal (neigh_HardwareAddr a) (neigh_HardwareAddr b) else bool_decide (neigh_key a = neigh_key b).

(** [y] is the entry [e] as the kernel reports it: in the same table of the same device, with the
    same state, address and hardware address. Type, flags and the family of an [ip neigh] entry can be
    others than those given; so a family of 0 becomes that of the address. *)
Definition neigh_held (e y : Neigh) : Prop :=
  neigh_LinkIndex y = neigh_LinkIndex e /\ is_fdb y = is_fdb e /\ neigh_State y = neigh_State e /\
  neigh_key y = neigh_key e /\ bytes_Equal (neigh_HardwareAddr y) (neigh_HardwareAddr e) = true.

(** An entry that resolves an address: there is nothing left for the kernel to find out. *)
Definition neigh_regular `{NetlinkConsts} (n : Neigh) : Prop :=
  is_Some (neigh_key n) /\ (neigh_State n = NUD_PERMANENT \/ neigh_State n = NUD_REACHABLE) /\
  exists hw, neigh_HardwareAddr n = Some hw /\ length hw = 6%nat.

Class NeighLaws (K : Type) `{Kernel K} `{NetlinkConsts} := {
  neighs : K -> list Neigh;
  (** The entries [netlink.NeighList(linkIndex, FAMILY_ALL)] reports. *)
  neigh_listed : Z -> Neigh -> bool;
  (** Which entries the kernel takes is left open. *)
  neigh_accepts : Neigh -> Prop;
  NeighSet_accepted : forall k n, neigh_accepts n -> exists k', exec (NeighSet n) k = (None, k');
  (** Whatever the kernel thinks of an entry, when it takes it the entry is there, and those of other
      slots stay. *)
  NeighSet_success : forall k n k', neigh_regular n -> exec (NeighSet n) k = (None, k') ->
    (exists y, y ∈ neighs k' /\ neigh_held n y /\ forall m, m ∈ neighs k' -> m = y \/ m ∈ neighs k) /\
    forall m, m ∈ neighs k -> neigh_slot m n = false -> m ∈ neighs k';
  NeighList_lists : forall i k, exists l,
    k_NeighList i FAMILY_ALL k = (inl l, k) /\ l ≡ₚ filter (neigh_listed i) (neighs k)
}.

(** ** XFRM states

    A state is identified by its destination, its protocol and its SPI. *)
Definition state_conflict (a b : XfrmState) : bool :=
  IP_Equal (xs_Dst a) (xs_Dst b) && (xs_Proto a =? xs_Proto b) && (xs_Spi a =? xs_Spi b).

Class StateLaws (K : Type) `{Kernel K} `{NetlinkConsts} := {
  state_table : Table XfrmStateAdd XfrmStateDel;
  state_occupies : forall a b, occupies state_table a b = state_conflict a b;
  state_stored : forall e y, stored state_table e y -> xfrmStateEqual y e = true;
  XfrmStateUpdate_replaces : forall k x y, accepts state_table x ->
    y ∈ entries state_table k -> state_conflict y x = true -> exists y' rest x' k',
    exec (XfrmStateUpdate x) k = (None, k') /\ stored state_table x x' /\
    entries state_table k ≡ₚ y' :: rest /\ state_conflict y' x = true /\
    entries state_table k' ≡ₚ x' :: rest;
  XfrmStateUpdate_missing : forall k x,
    (forall y, y ∈ entries state_table k -> state_conflict y x = false) -> exists k',
    exec (XfrmStateUpdate x) k = (Some ESRCH, k') /\ entries state_table k' ≡ₚ entries state_table k;
  XfrmStateUpdate_success : forall k x k', exec (XfrmStateUpdate x) k = (None, k') -> exists x',
    stored state_table x x' /\ x' ∈ entries state_table k' /\
    forall y, y ∈ entries state_table k -> state_conflict y x = false -> y ∈ entries state_table k';
  XfrmStateList_lists : forall k, exists l,
    k_XfrmStateList FAMILY_ALL k = (inl l, k) /\ l ≡ₚ entries state_table k
}.

(** ** XFRM policies

    A policy is identified by its selector, its direction and its mark. The kernel gives a policy
    an index of its own. Which policies it accepts is left open: the policies of a socket, which
    it lists too, are not added this way. *)
Definition policy_conflict (a b : XfrmPolicy) : bool :=
  xfrmPolicyMatches a b && xfrmMarkEqual (xp_Mark a) (xp_Mark b).

(** [y] is the policy [e], under some index. *)
Definition policy_held (e y : XfrmPolicy) : Prop := xfrmPolicyEqual y (set_Index (xp_Index y) e) = true.

Class PolicyLaws (K : Type) `{Kernel K} `{NetlinkConsts} := {
  policy_table : Table XfrmPolicyAdd XfrmPolicyDel;
  policy_occupies : forall a b, occupies policy_table a b = policy_conflict a b;
  policy_stored : forall e y, stored policy_table e y -> policy_held e y;
  XfrmPolicyUpdate_replaces : forall k x y, accepts policy_table x ->
    y ∈ entries policy_table k -> policy_conflict y x = true -> exists y' rest x' k',
    exec (XfrmPolicyUpdate x) k = (None, k') /\ stored policy_table x x' /\
    entries policy_table k ≡ₚ y' :: rest /\ policy_conflict y' x = true /\
    entries policy_table k' ≡ₚ x' :: rest;
  (** The update of a policy that is not there adds it. *)
  XfrmPolicyUpdate_success : forall k x k', exec (XfrmPolicyUpdate x) k = (None, k') -> exists x',
    stored policy_table x x' /\ x' ∈ entries policy_table k' /\
    forall y, y ∈ entries policy_table k -> policy_conflict y x = false -> y ∈ entries policy_table k';
  XfrmPolicyList_lists : forall k, exists l,
    k_XfrmPolicyList FAMILY_ALL k = (inl l, k) /\ l ≡ₚ entries policy_table k
}.

(** ** Links

    [LinkAdd] refuses a name in use and otherwise hands the link back with its index. *)
Class LinkLaws (K : Type) `{Kernel K} := {
  links : K -> list Link;
  link_accepts : Link -> Prop;
  LinkAdd_free : forall k l, link_accepts l -> (forall m, m ∈ links k -> link_name m ≠ link_name l) ->
    exists l' k', k_LinkAdd l k = (inl l', k') /\ link_name l' = link_name l /\ Kind l' = Kind l /\
      links k' ≡ₚ l' :: links k;
  (** Whatever the kernel thinks of a link, when it takes it the link is there. *)
  LinkAdd_success : forall k l l' k', k_LinkAdd l k = (inl l', k') ->
    link_name l' = link_name l /\ Kind l' = Kind l /\ links k' ≡ₚ l' :: links k;
  LinkDel_present : forall k l, l ∈ links k ->
    exists k', exec (LinkDel l) k = (None, k') /\ links k ≡ₚ l :: links k';
  LinkList_lists : forall k, exists l, k_LinkList k = (inl l, k) /\ l ≡ₚ links k
}.

(** ** Frames: the neighbour and the routing table are separate *)
Class NeighRouteFrame (K : Type) `{Kernel K} `{NetlinkConsts} `{!RouteLaws K} `{!NeighLaws K} := {
  NeighSet_routes : forall n k, entries route_table (exec (NeighSet n) k).2 ≡ₚ entries route_table k;
  routes_neighs : forall k k', others route_table k k' -> neighs k' ≡ₚ neighs k
}.

(** Setting a link up changes its flags; and a routing table is no list of links. *)
Definition link_identity (l : Link) : string * Z * LinkKind := (link_name l, link_Index (Attrs l), Kind l).

Class LinkRouteFrame (K : Type) `{Kernel K} `{NetlinkConsts} `{!RouteLaws K} `{!LinkLaws K} := {
  LinkSetUp_links : forall l k, link_identity <$> links (exec (LinkSetUp l) k).2 ≡ₚ link_identity <$> links k;
  routes_links : forall k k', others route_table k k' -> links k' ≡ₚ links k
}.
