(* ===== verification/Sim.v ===== *)
(** * A simulated kernel

    A kernel small enough to compute with that meets every law of KernelLaws.v: the theorems
    are applied to it at concrete inputs. *)

From S2P Require Import Prelude GoNet GoNetFacts Netlink Effects Tables Reconcile Netutil.
From S2P Require Import RouteTable LinkAddresses NeighTable Links XfrmTables KernelLaws.

Fixpoint remove_first `{EqDecision A} (x : A) (l : list A) : list A :=
  match l with
  | [] => []
  | y :: l => if decide (x = y) then l else y :: remove_first x l
  end.

Lemma remove_first_perm `{EqDecision A} (x : A) l : x ∈ l -> l ≡ₚ x :: remove_first x l.
Proof.
  induction l as [|y l IH]; [by intros ?%not_elem_of_nil|]. simpl. rewrite elem_of_cons.
  destruct (decide (x = y)) as [->|Hne]; [done|]. intros [?|Hx]; [done|].
  rewrite Permutation_swap. f_equiv. by apply IH.
Qed.

Lemma remove_first_other `{EqDecision A} (x y : A) l : y ∈ l -> y ≠ x -> y ∈ remove_first x l.
Proof.
  induction l as [|z l IH]; [by intros ?%not_elem_of_nil|]. simpl. rewrite elem_of_cons. intros [->|Hy] Hne.
  - destruct (decide (x = z)); [congruence|by left].
  - destruct (decide (x = z)); [done|]. right. by apply IH.
Qed.

Record Sim := MkSim {
  sim_links : list Link;
  sim_addrs : list (Link * Addr);
  sim_neighs : list Neigh;
  sim_routes : list Route;
  sim_states : list XfrmState;
  sim_policies : list XfrmPolicy;
  sim_files : list (string * string)
}.

Definition sim_empty : Sim := MkSim [] [] [] [] [] [] [].

Definition set_links x k := MkSim x (sim_addrs k) (sim_neighs k) (sim_routes k) (sim_states k) (sim_policies k) (sim_files k).
Definition set_addrs x k := MkSim (sim_links k) x (sim_neighs k) (sim_routes k) (sim_states k) (sim_policies k) (sim_files k).
Definition set_neighs x k := MkSim (sim_links k) (sim_addrs k) x (sim_routes k) (sim_states k) (sim_policies k) (sim_files k).
Definition set_routes x k := MkSim (sim_links k) (sim_addrs k) (sim_neighs k) x (sim_states k) (sim_policies k) (sim_files k).
Definition set_states x k := MkSim (sim_links k) (sim_addrs k) (sim_neighs k) (sim_routes k) x (sim_policies k) (sim_files k).
Definition set_policies x k := MkSim (sim_links k) (sim_addrs k) (sim_neighs k) (sim_routes k) (sim_states k) x (sim_files k).
Definition set_files x k := MkSim (sim_links k) (sim_addrs k) (sim_neighs k) (sim_routes k) (sim_states k) (sim_policies k) x.

(** Adding to and deleting from one of the lists. *)
Definition sim_add {A} (get : Sim -> list A) (put : list A -> Sim -> Sim) (conflict : A -> A -> bool)
    (x : A) (k : Sim) : option error * Sim :=
  if existsb (fun y => conflict y x) (get k) then (Some EEXIST, k) else (None, put (x :: get k) k).

Definition sim_del `{EqDecision A} (get : Sim -> list A) (put : list A -> Sim -> Sim) (x : A) (k : Sim)
    : option error * Sim :=
  if decide (x ∈ get k) then (None, put (remove_first x (get k)) k) else (Some ESRCH, k).

Definition sim_replace {A} (get : Sim -> list A) (put : list A -> Sim -> Sim) (same : A -> A -> bool)
    (x : A) (k : Sim) : Sim :=
  put (x :: filter (fun y => negb (same y x)) (get k)) k.

Definition link_addrs (l : Link) (k : Sim) : list Addr :=
  snd <$> filter (fun p => bool_decide (p.1 = l)) (sim_addrs k).

Definition put_link_addrs (l : Link) (as_ : list Addr) (k : Sim) : Sim :=
  set_addrs (((fun a => (l, a)) <$> as_) ++ filter (fun p => negb (bool_decide (p.1 = l))) (sim_addrs k)) k.

(** An entry as it is reported: with the family of its address, and a type also in the forwarding table. *)
Definition sim_reported (n : Neigh) : Neigh :=
  MkNeigh (neigh_LinkIndex n) (if neigh_Family n =? 0 then AF_INET else neigh_Family n) (neigh_State n)
    (if is_fdb n then 1 else neigh_Type n) (neigh_Flags n) (neigh_IP n) (neigh_HardwareAddr n).

Definition sim_exec (a : action) (k : Sim) : option error * Sim :=
  match a with
  | RouteAdd r => sim_add sim_routes set_routes route_conflict r k
  | RouteDel r => sim_del sim_routes set_routes r k
  | LinkDel l => sim_del sim_links set_links l k
  | AddrAdd l x => sim_add (link_addrs l) (put_link_addrs l) addr_conflict x k
  | AddrDel l x => sim_del (link_addrs l) (put_link_addrs l) x k
  | NeighSet n => (None, sim_replace sim_neighs set_neighs neigh_slot (sim_reported n) k)
  | XfrmStateAdd s => sim_add sim_states set_states state_conflict s k
  | XfrmStateDel s => sim_del sim_states set_states s k
  | XfrmStateUpdate s =>
      match list_find (fun y => state_conflict y s = true) (sim_states k) with
      | Some (_, y) => (None, set_states (s :: remove_first y (sim_states k)) k)
      | None => (Some ESRCH, k)
      end
  | XfrmStateFlush _ => (None, set_states [] k)
  | XfrmPolicyAdd p => sim_add sim_policies set_policies policy_conflict p k
  | XfrmPolicyUpdate p =>
      match list_find (fun y => policy_conflict y p = true) (sim_policies k) with
      | Some (_, y) => (None, set_policies (p :: remove_first y (sim_policies k)) k)
      | None => (None, set_policies (p :: sim_policies k) k)
      end
  | XfrmPolicyDel p => sim_del sim_policies set_policies p k
  | XfrmPolicyFlush => (None, set_policies [] k)
  | WriteFile path contents _ => (None, set_files ((path, contents) :: sim_files k) k)
  | _ => (None, k)
  end.

Definition with_index (i : Z) (l : Link) : Link :=
  MkLink (MkLinkAttrs (link_Name (Attrs l)) i (link_MTU (Attrs l)) (link_HardwareAddr (Attrs l))
            (link_Flags (Attrs l))) (Kind l).

Definition sim_route_listed (link : option Link) (r : Route) : bool :=
  match link with None => true | Some l => rt_LinkIndex r =? link_Index (Attrs l) end.

Definition sim_neigh_listed (i : Z) (n : Neigh) : bool := neigh_LinkIndex n =? i.

Definition sim_by_name (name : string) (l : Link) : bool := bool_decide (link_name l = name).

#[export] Instance sim_kernel : Kernel Sim := {|
  exec := sim_exec;
  k_LinkAdd l k :=
    if existsb (sim_by_name (link_name l)) (sim_links k) then (inr EEXIST, k)
    else let l' := with_index (1 + Z.of_nat (length (sim_links k))) l in
         (inl l', set_links (l' :: sim_links k) k);
  k_LinkByName name k :=
    (match filter (sim_by_name name) (sim_links k) with
     | l :: _ => inl (Some l)
     | [] => inr LinkNotFoundError
     end, k);
  k_LinkList k := (inl (sim_links k), k);
  k_AddrList l _ k := (inl (link_addrs l k), k);
  k_NeighList i _ k := (inl (filter (sim_neigh_listed i) (sim_neighs k)), k);
  k_RouteList l _ k := (inl (filter (sim_route_listed l) (sim_routes k)), k);
  k_XfrmStateList _ k := (inl (sim_states k), k);
  k_XfrmPolicyList _ k := (inl (sim_policies k), k);
  k_ReadFile path k :=
    (match filter (fun f => bool_decide (f.1 = path)) (sim_files k) with
     | f :: _ => inl f.2
     | [] => inr NotExist
     end, k);
  k_Socket _ _ _ k := (inl 3, k)
|}.

(** A world that starts with an empty log and visits maps in their own order. *)
Definition sim_world {P} (k : Sim) (p : P) : World Sim P := MkWorld k [] (fun _ => in_order) p.

(** ** The laws *)

Section ListTable.
Context `{EqDecision A} (add del : A -> action).
Context (get : Sim -> list A) (put : list A -> Sim -> Sim) (conflict : A -> A -> bool).
Context (get_put : forall l k, get (put l k) ≡ₚ l).
Context (put_put : forall l l' k, put l' (put l k) = put l' k).
Context (exec_add : forall x k, sim_exec (add x) k = sim_add get put conflict x k).
Context (exec_del : forall x k, sim_exec (del x) k = sim_del get put x k).

Definition list_others (k k' : Sim) : Prop := put [] k = put [] k'.

Lemma list_others_put l k : list_others k (put l k).
Proof using put_put. unfold list_others. by rewrite put_put. Qed.

Lemma list_others_preorder : PreOrder list_others.
Proof.
  clear. split; [by intros k|]. intros k1 k2 k3 H1 H2. unfold list_others in *. congruence.
Qed.

Definition list_table : Table add del.
Proof using get_put put_put exec_add exec_del.
  refine {| entries := get; occupies := conflict; stored := eq; accepts := fun _ => True;
            others := list_others; others_preorder := list_others_preorder |}.
  - by intros x y z ->.
  - intros k x _ Hfree. exists x, (put (x :: get k) k). cbn [exec sim_kernel]. rewrite exec_add.
    unfold sim_add. destruct (existsb _ (get k)) eqn:Hc.
    + apply existsb_exists in Hc as (y & Hy%list_elem_of_In & Hc). by rewrite Hfree in Hc.
    + split_and!; [done|done|apply get_put|apply list_others_put].
  - intros k x k'. cbn [exec sim_kernel]. rewrite exec_add. unfold sim_add.
    destruct (existsb _ (get k)); [done|]. intros [= <-]. exists x.
    split_and!; [done|apply get_put|apply list_others_put].
  - intros k x y Hy Hc. exists k. cbn [exec sim_kernel]. rewrite exec_add. unfold sim_add.
    assert (existsb (fun y => conflict y x) (get k) = true) as ->.
    { apply existsb_exists. exists y. by rewrite <- list_elem_of_In. }
    by split_and!.
  - intros k x Hx. exists (put (remove_first x (get k)) k). cbn [exec sim_kernel]. rewrite exec_del.
    unfold sim_del. rewrite decide_True by done.
    split_and!; [done| |apply list_others_put]. rewrite get_put. by apply remove_first_perm.
  - intros k x k'. cbn [exec sim_kernel]. rewrite exec_del. unfold sim_del.
    case_decide as Hx; [|done]. intros [= <-] y Hy Hne _. rewrite get_put. by apply remove_first_other.
Defined.
End ListTable.

Section Instances.
Context `{NetlinkConsts}.

Definition sim_route_table : Table RouteAdd RouteDel :=
  list_table RouteAdd RouteDel sim_routes set_routes route_conflict
    (fun l _ => reflexivity l) (fun _ _ _ => eq_refl) (fun _ _ => eq_refl) (fun _ _ => eq_refl).

#[export] Instance sim_RouteLaws : RouteLaws Sim.
Proof.
  refine {| route_table := sim_route_table; route_listed := sim_route_listed |}.
  - done.
  - intros e y Hs. change (e = y) in Hs. subst y. split; [|done]. apply held_refl, routeEqual_refl.
  - intros link k. by eexists.
Defined.

Lemma link_addrs_put l as_ k : link_addrs l (put_link_addrs l as_ k) ≡ₚ as_.
Proof.
  unfold link_addrs, put_link_addrs. simpl. rewrite filter_app, fmap_app.
  rewrite (filter_all _ ((fun a => (l, a)) <$> as_)), (filter_none _ (filter _ (sim_addrs k))).
  - rewrite app_nil_r. clear k. induction as_ as [|a as_ IH]; [done|]. cbn. f_equiv. exact IH.
  - intros [l' a] [Hn _]%list_elem_of_filter Hy. simpl in *. by case_bool_decide.
  - intros p (a & -> & _)%list_elem_of_fmap. by rewrite bool_decide_eq_true_2.
Qed.

Lemma put_link_addrs_put l as1 as2 k :
  put_link_addrs l as2 (put_link_addrs l as1 k) = put_link_addrs l as2 k.
Proof.
  unfold put_link_addrs, set_addrs. simpl. f_equal. f_equal. rewrite filter_app.
  rewrite (filter_none _ ((fun a => (l, a)) <$> as1)), (filter_all _ (filter _ (sim_addrs k))); [done| |].
  - by intros p [Hn _]%list_elem_of_filter.
  - intros p (a & -> & _)%list_elem_of_fmap. rewrite bool_decide_eq_true_2 by done. by intros ?.
Qed.

Definition sim_addr_table (l : Link) : Table (AddrAdd l) (AddrDel l) :=
  list_table (AddrAdd l) (AddrDel l) (link_addrs l) (put_link_addrs l) addr_conflict
    (link_addrs_put l) (put_link_addrs_put l) (fun _ _ => eq_refl) (fun _ _ => eq_refl).

#[export] Instance sim_AddrLaws : AddrLaws Sim.
Proof.
  refine {| addr_table := sim_addr_table |}.
  - done.
  - intros l e y Hs. change (e = y) in Hs. by subst y.
  - intros l k. by eexists.
Defined.

Lemma sim_reported_fdb n : is_fdb (sim_reported n) = is_fdb n.
Proof. unfold is_fdb. simpl. by destruct (Z.eqb_spec (neigh_Family n) 0) as [->|]. Qed.

Lemma sim_reported_slot m n : neigh_slot m (sim_reported n) = neigh_slot m n.
Proof. unfold neigh_slot. by rewrite sim_reported_fdb. Qed.

#[export] Instance sim_NeighLaws : NeighLaws Sim.
Proof.
  refine {| neighs := sim_neighs; neigh_listed := sim_neigh_listed; neigh_accepts := fun _ => True |}.
  - intros k n _. by eexists.
  - intros k n k' _ [= <-]. pose proof (sim_reported_fdb n) as Hf. split.
    + exists (sim_reported n). split; [by left|]. split.
      * split_and!; [done|done|done|done|by apply bool_decide_eq_true].
      * intros m [->|[_ Hm]%list_elem_of_filter]%elem_of_cons; [by left|by right].
    + intros m Hm Hs. right. apply list_elem_of_filter. by rewrite sim_reported_slot, Hs.
  - intros i k. by eexists.
Defined.

#[export] Instance sim_NeighRouteFrame : NeighRouteFrame Sim.
Proof.
  split; [by intros n k|]. intros [] [] Ho. unfold others in Ho. cbn in Ho. unfold list_others, set_routes in Ho.
  by injection Ho as _ _ -> _ _ _.
Qed.

Definition sim_state_table : Table XfrmStateAdd XfrmStateDel :=
  list_table XfrmStateAdd XfrmStateDel sim_states set_states state_conflict
    (fun l _ => reflexivity l) (fun _ _ _ => eq_refl) (fun _ _ => eq_refl) (fun _ _ => eq_refl).

#[export] Instance sim_StateLaws : StateLaws Sim.
Proof.
  refine {| state_table := sim_state_table |}.
  - done.
  - intros e y Hs. change (e = y) in Hs. subst y. apply xfrmStateEqual_refl.
  - intros k x y _ Hy Hc. cbn [exec sim_kernel sim_exec].
    destruct (list_find_elem_of (fun y => state_conflict y x = true) (sim_states k) y Hy Hc) as [[i z] Hz].
    rewrite Hz. apply list_find_Some in Hz as (Hz & Hcz & _).
    exists z, (remove_first z (sim_states k)), x, (set_states (x :: remove_first z (sim_states k)) k).
    split_and!; [done|done| |done|done]. apply remove_first_perm. by eapply list_elem_of_lookup_2.
  - intros k x Hn. exists k. cbn [exec sim_kernel sim_exec].
    destruct (list_find _ (sim_states k)) as [[i z]|] eqn:Hz; [|done].
    apply list_find_Some in Hz as (Hz%list_elem_of_lookup_2 & Hcz & _). by rewrite Hn in Hcz.
  - intros k x k'. cbn [exec sim_kernel sim_exec]. destruct (list_find _ _) as [[i z]|] eqn:Hz; [|done].
    apply list_find_Some in Hz as (_ & Hcz & _). intros [= <-]. exists x. split_and!; [done|by left|].
    intros y Hy Hc. right. apply remove_first_other; [done|]. intros ->. congruence.
  - intros k. by eexists.
Defined.

Definition sim_policy_table : Table XfrmPolicyAdd XfrmPolicyDel :=
  list_table XfrmPolicyAdd XfrmPolicyDel sim_policies set_policies policy_conflict
    (fun l _ => reflexivity l) (fun _ _ _ => eq_refl) (fun _ _ => eq_refl) (fun _ _ => eq_refl).

#[export] Instance sim_PolicyLaws : PolicyLaws Sim.
Proof.
  refine {| policy_table := sim_policy_table |}.
  - done.
  - intros e y Hs. change (e = y) in Hs. subst y. unfold policy_held. destruct e. apply xfrmPolicyEqual_refl.
  - intros k x y _ Hy Hc. cbn [exec sim_kernel sim_exec].
    destruct (list_find_elem_of (fun y => policy_conflict y x = true) (sim_policies k) y Hy Hc) as [[i z] Hz].
    rewrite Hz. apply list_find_Some in Hz as (Hz & Hcz & _).
    exists z, (remove_first z (sim_policies k)), x, (set_policies (x :: remove_first z (sim_policies k)) k).
    split_and!; [done|done| |done|done]. apply remove_first_perm. by eapply list_elem_of_lookup_2.
  - intros k x k'. cbn [exec sim_kernel sim_exec]. destruct (list_find _ _) as [[i z]|] eqn:Hz; intros [= <-].
    + apply list_find_Some in Hz as (_ & Hcz & _). exists x. split_and!; [done|by left|].
      intros y Hy Hc. right. apply remove_first_other; [done|]. intros ->. congruence.
    + exists x. split_and!; [done|by left|]. intros y Hy _. by right.
  - intros k. by eexists.
Defined.

#[export] Instance sim_LinkLaws : LinkLaws Sim.
Proof.
  refine {| links := sim_links; link_accepts := fun _ => True |}.
  - intros k l _ Hn. cbn [k_LinkAdd sim_kernel].
    destruct (existsb (sim_by_name (link_name l)) (sim_links k)) eqn:Hc.
    + apply existsb_exists in Hc as (m & Hm%list_elem_of_In & Hc). unfold sim_by_name in Hc.
      case_bool_decide; [|done]. by destruct (Hn m Hm).
    + by eexists _, _.
  - intros k l l' k'. cbn [k_LinkAdd sim_kernel].
    destruct (existsb (sim_by_name (link_name l)) (sim_links k)); [done|]. by intros [= <- <-].
  - intros k l Hl. exists (set_links (remove_first l (sim_links k)) k).
    cbn [exec sim_kernel sim_exec]. unfold sim_del. rewrite decide_True by done.
    split; [done|]. by apply remove_first_perm.
  - intros k. by eexists.
Defined.

#[export] Instance sim_LinkRouteFrame : LinkRouteFrame Sim.
Proof.
  split; [by intros l k|]. intros [] [] Ho. unfold others in Ho. cbn in Ho. unfold list_others, set_routes in Ho.
  by injection Ho as -> _ _ _ _ _.
Qed.

End Instances.

(** ** Concrete inputs *)

Definition net4 (a b c d : Z) (n : Z) : IPNet :=
  MkIPNet (Some [u8 a; u8 b; u8 c; u8 d]) (CIDRMask n 32).

Definition ip4 (a b c d : Z) : IP := Some [u8 a; u8 b; u8 c; u8 d].

Definition eth0 : Link := MkLink (MkLinkAttrs "eth0" 2 1500 None FlagUp) (GenericLink "device").

(** [by_computation] decides a closed proposition by evaluating it. *)
Ltac by_computation := apply (bool_decide_unpack _); vm_compute; exact I.

(** [by_members] proves a property of the members of a closed list one by one. *)
Ltac by_members := apply Forall_forall; repeat constructor.
