(* ===== verification/RouteFacts.v ===== *)
(** * What [RouteTable.Ensure] does: pkg/routing/netutil/route_table.go

    The kernel's contract for routes ([RouteLaws]), the calls one run makes, and the theorems:
    a run brings the listed routes in step with the expected ones, a second run does nothing,
    no call touches a route it has no reason to, and, without the deletion of extra routes, a
    route that changed is never repaired. *)

From S2P Require Import Prelude GoNet GoNetFacts Netlink Effects Reconcile Tables Netutil RouteTable KernelLaws Sim.

(** ** The calls of a run *)

Section Diff.
Implicit Types (actualMap m : gmap string Route) (expected c r : list Route).

Definition changed_actual actualMap (e : Route) : option Route :=
  k ← route_key e; a ← actualMap !! k; if routeEqual a e then None else Some a.

Lemma RouteTable_diff_eq actualMap expected : forall m c r,
  RouteTable_diff actualMap expected m c r
  = if forallb (fun e => bool_decide (is_Some (rt_Dst e))) expected
    then Some (foldl (fun m e => match route_key e with Some k => <[k := e]> m | None => m end) m expected,
               c ++ filter (wanted route_key routeEqual actualMap) expected,
               r ++ omap (changed_actual actualMap) expected)
    else None.
Proof.
  induction expected as [|e expected IH]; intros m c r; simpl; [by rewrite !app_nil_r|].
  destruct (rt_Dst e) as [dst|] eqn:Hd; simpl; [|done].
  assert (route_key e = Some (IPNet_String dst)) as Hk by (unfold route_key; by rewrite Hd).
  rewrite Hk, filter_cons_bool.
  assert (wanted route_key routeEqual actualMap e
          = match actualMap !! IPNet_String dst with None => true | Some a => negb (routeEqual a e) end)
    as -> by (unfold wanted; by rewrite Hk).
  assert (changed_actual actualMap e
          = match actualMap !! IPNet_String dst with
            | Some a => if routeEqual a e then None else Some a
            | None => None
            end) as -> by (unfold changed_actual; rewrite Hk; simpl; by destruct (actualMap !! _)).
  destruct (actualMap !! IPNet_String dst) as [a|]; simpl.
  - destruct (routeEqual a e); simpl; rewrite IH; by rewrite <- ?app_assoc.
  - rewrite IH. by rewrite <- ?app_assoc.
Qed.

Lemma RouteTable_diff_spec actualMap expected :
  (forall e, e ∈ expected -> is_Some (rt_Dst e)) ->
  RouteTable_diff actualMap expected ∅ [] []
  = Some (index_by route_key expected, filter (wanted route_key routeEqual actualMap) expected,
          omap (changed_actual actualMap) expected).
Proof.
  intros Hd. rewrite RouteTable_diff_eq.
  destruct (forallb _ expected) eqn:Hf; [done|]. exfalso. apply not_true_iff_false in Hf.
  apply Hf, forallb_forall. intros e He%list_elem_of_In. by rewrite bool_decide_eq_true_2 by auto.
Qed.

Lemma RouteTable_diff_None actualMap expected e :
  e ∈ expected -> rt_Dst e = None -> RouteTable_diff actualMap expected ∅ [] [] = None.
Proof.
  intros He Hd. rewrite RouteTable_diff_eq. destruct (forallb _ expected) eqn:Hf; [|done].
  rewrite forallb_forall in Hf. apply list_elem_of_In, Hf in He.
  apply bool_decide_eq_true in He. rewrite Hd in He. by destruct He.
Qed.

(** The routes [Ensure] deletes when it deletes extra routes. *)
Definition RouteTable_removed (o : Order) (actual expected : list Route) : list Route :=
  let actualMap := index_by route_key actual in
  omap (changed_actual actualMap) expected
  ++ not_in (index_by route_key expected) (range o actualMap).

Lemma changed_actual_Some actualMap e a :
  changed_actual actualMap e = Some a
  <-> exists k, route_key e = Some k /\ actualMap !! k = Some a /\ routeEqual a e = false.
Proof.
  unfold changed_actual. destruct (route_key e) as [k|]; simpl; [|naive_solver].
  destruct (actualMap !! k) as [b|] eqn:Hb; simpl; [|naive_solver].
  destruct (routeEqual b e) eqn:Hq; split; intros Hx; [done| |by exists k; simplify_eq|].
  - destruct Hx as (k' & ? & ? & ?). congruence.
  - destruct Hx as (k' & ? & ? & ?). congruence.
Qed.

(** Only stale routes that were listed are deleted, whatever the lists are. *)
Lemma removed_stale o (actual expected : list Route) a :
  NoDup (omap route_key expected) ->
  a ∈ RouteTable_removed o actual expected ->
  a ∈ actual /\ stale route_key routeEqual (index_by route_key expected) a = true.
Proof.
  intros He. unfold RouteTable_removed. rewrite elem_of_app, elem_of_not_in, list_elem_of_omap.
  intros [(e & Hin & (k & Hk & Ha & Hq)%changed_actual_Some)|(k & Ha & Hn)];
    apply index_by_Some in Ha as [Ha Hka]; (split; [done|]); unfold stale; rewrite Hka.
  - by rewrite (proj2 (index_by_unique route_key expected k e He) (conj Hin Hk)), Hq.
  - by rewrite Hn.
Qed.

Lemma NoDup_removed o actual expected :
  NoDup (omap route_key expected) -> NoDup (RouteTable_removed o actual expected).
Proof.
  intros He. unfold RouteTable_removed. apply NoDup_app. split_and!.
  - apply (NoDup_omap_key route_key route_key _ _ He).
    intros e a (k & Hk & Ha & _)%changed_actual_Some. apply index_by_Some in Ha as [_ Ha].
    rewrite Hk, Ha. eauto.
  - intros a (e & Hin & (k & Hk & Ha & _)%changed_actual_Some)%list_elem_of_omap
      (k' & Ha' & Hn)%elem_of_not_in.
    apply index_by_Some in Ha as [_ Ha], Ha' as [_ Ha']. assert (k' = k) as -> by congruence.
    by apply (proj1 (index_by_None route_key expected k) Hn e Hin).
  - apply NoDup_not_in.
Qed.

Lemma removed_perm o actual expected :
  NoDup (omap route_key actual) -> NoDup (omap route_key expected) ->
  RouteTable_removed o actual expected
  ≡ₚ filter (stale route_key routeEqual (index_by route_key expected)) actual.
Proof.
  intros Ha He. apply stale_perm; [done|by apply NoDup_removed|]. intros a. split.
  - by apply removed_stale.
  - intros [Hin Hs]. unfold stale in Hs. destruct (route_key a) as [k|] eqn:Hk; [|done].
    pose proof (proj2 (index_by_unique route_key actual k a Ha) (conj Hin Hk)) as Hak.
    unfold RouteTable_removed. rewrite elem_of_app, elem_of_not_in, list_elem_of_omap.
    destruct (index_by route_key expected !! k) as [e|] eqn:Hek; [left|right; eauto].
    apply index_by_Some in Hek as [Hine Hke]. exists e. split; [done|].
    apply changed_actual_Some. exists k. split_and!; [done|done|by destruct (routeEqual a e)].
Qed.
End Diff.

Section Runs.
Context {K P : Type} `{Kernel K} `{NetlinkConsts}.
Implicit Types (w : World K P) (link : option Link) (expected actual : list Route).

Lemma RouteTable_Ensure_list_error link expected del w e k :
  k_RouteList link FAMILY_ALL (kern w) = (inr e, k) ->
  RouteTable_Ensure link expected del w
  = (Err (Errorf "error doing `ip route show`: %v" e), after w (sched w) [] k).
Proof. intros Hl. unfold RouteTable_Ensure. by rewrite (bind_query_error _ _ _ _ _ _ Hl). Qed.

Lemma RouteTable_Ensure_no_dst link expected del w e r k :
  k_RouteList link FAMILY_ALL (kern w) = (inl r, k) -> e ∈ expected -> rt_Dst e = None ->
  RouteTable_Ensure link expected del w
  = (Err (ErrorMsg "expected route did not have dst: %v"), after w (sched w) [] k).
Proof.
  intros Hl He Hd. unfold RouteTable_Ensure.
  rewrite (bind_query _ _ _ _ _ _ Hl), (RouteTable_diff_None _ _ e He Hd). reflexivity.
Qed.

Lemma RouteTable_Ensure_create link expected w actual k :
  k_RouteList link FAMILY_ALL (kern w) = (inl actual, k) ->
  (forall e, e ∈ expected -> is_Some (rt_Dst e)) ->
  RouteTable_Ensure link expected false w
  = let '(log, e, k') :=
      exec_all (RouteAdd <$> filter (wanted route_key routeEqual (index_by route_key actual)) expected) k in
    (outcome_of "error creating route %v: %v" e, after w (sched w) log k').
Proof.
  intros Hl Hd. unfold RouteTable_Ensure.
  rewrite (bind_query _ _ _ _ _ _ Hl), RouteTable_diff_spec by done. cbv beta iota.
  world. rewrite each_call. world. destruct (exec_all _ _) as [[log e] k']. by world.
Qed.

Lemma RouteTable_Ensure_delete link expected w actual k :
  k_RouteList link FAMILY_ALL (kern w) = (inl actual, k) ->
  (forall e, e ∈ expected -> is_Some (rt_Dst e)) ->
  RouteTable_Ensure link expected true w
  = let s := fun n => sched w (S n) in
    let '(log, e, k1) := exec_all (RouteDel <$> RouteTable_removed (sched w 0%nat) actual expected) k in
    match e with
    | Some e => (Err (Errorf "error removing route: %v" e), after w s log k1)
    | None =>
        let '(log2, e2, k2) :=
          exec_all (RouteAdd <$> filter (wanted route_key routeEqual (index_by route_key actual)) expected) k1 in
        (outcome_of "error creating route %v: %v" e2, after w s (log ++ log2) k2)
    end.
Proof.
  intros Hl Hd. unfold RouteTable_Ensure.
  rewrite (bind_query _ _ _ _ _ _ Hl), RouteTable_diff_spec by done. cbv beta iota.
  rewrite bind_run, bind_order. world. rewrite each_call. world. fold (RouteTable_removed (sched w 0%nat) actual expected).
  destruct (exec_all (RouteDel <$> _) k) as [[log [e|]] k1]; unfold outcome_of at 1; world; [done|].
  rewrite each_call. world. destruct (exec_all _ k1) as [[log2 e2] k2]. by world.
Qed.
End Runs.

(** ** Convergence *)

Section Converge.
Context {K P : Type} `{Kernel K} `{NetlinkConsts} `{!RouteLaws K}.
Implicit Types (w : World K P) (link : option Link) (expected : list Route) (k : K).

Definition listed_routes link k : list Route := filter (route_listed link) (entries route_table k).

Definition other_routes link k : list Route :=
  filter (fun r => negb (route_listed link r)) (entries route_table k).

(** What [Ensure] needs of its argument and of the kernel to succeed: the expected routes have
    distinct destinations, show up in the listing once they are created, and do not clash with
    a route outside of it. *)
Record route_goal link expected k : Prop := {
  goal_dst : forall e, e ∈ expected -> is_Some (rt_Dst e);
  goal_expected : NoDup (omap route_key expected);
  goal_actual : NoDup (omap route_key (listed_routes link k));
  goal_listed : forall e, e ∈ expected -> route_listed link e = true;
  goal_accepts : forall e, e ∈ expected -> accepts route_table e;
  goal_foreign : forall e r, e ∈ expected -> r ∈ other_routes link k -> route_conflict r e = false
}.

Definition routes_in_sync link expected k : Prop :=
  NoDup (omap route_key (listed_routes link k)) /\
  in_sync routeEqual (index_by route_key (listed_routes link k)) (index_by route_key expected).

Lemma routes_split link k : entries route_table k ≡ₚ listed_routes link k ++ other_routes link k.
Proof. apply filter_split. Qed.

Lemma route_conflict_key a b : route_conflict a b = true -> route_key a = route_key b.
Proof. unfold route_conflict. rewrite !andb_true_iff. intros [[[Hk%bool_decide_eq_true _] _] _]. done. Qed.

Lemma omap_perm {A B} (f : A -> option B) (l1 l2 : list A) : l1 ≡ₚ l2 -> omap f l1 ≡ₚ omap f l2.
Proof. by intros ->. Qed.

Lemma apart_expected (l : list Route) :
  (forall e, e ∈ l -> is_Some (rt_Dst e)) -> NoDup (omap route_key l) -> apart route_table l.
Proof.
  induction l as [|x l IH]; intros Hd Hnd; [done|]. cbn in *. unfold route_key at 1 in Hnd.
  destruct (Hd x ltac:(by left)) as [dst Hdst]. rewrite Hdst in Hnd. cbn in Hnd.
  apply NoDup_cons in Hnd as [Hn Hnd]. split; [|apply IH; [|done]; intros e He; apply Hd; by right].
  intros y Hy. rewrite route_occupies. apply not_true_iff_false. intros Hc%route_conflict_key.
  apply Hn, list_elem_of_omap. exists y. split; [done|]. rewrite <- Hc. unfold route_key. by rewrite Hdst.
Qed.

(** What is left of the listed routes once the stale ones are deleted. *)
Definition kept_routes expected (l : list Route) : list Route :=
  filter (fun a => negb (stale route_key routeEqual (index_by route_key expected) a)) l.

Definition created_routes expected (l : list Route) : list Route :=
  filter (wanted route_key routeEqual (index_by route_key l)) expected.

Lemma created_expected expected l e : e ∈ created_routes expected l -> e ∈ expected.
Proof. by intros [_ Hi]%list_elem_of_filter. Qed.

(** A route that is kept does not hold the slot of one that is created. *)
Lemma kept_created_keys expected l e r :
  NoDup (omap route_key l) -> NoDup (omap route_key expected) -> is_Some (rt_Dst e) ->
  e ∈ created_routes expected l -> r ∈ kept_routes expected l -> route_key r ≠ route_key e.
Proof.
  intros Hl He [dst Hdst] [Hw Hi]%list_elem_of_filter [Hst Hr]%list_elem_of_filter Hck.
  assert (route_key e = Some (IPNet_String dst)) as Hke by (unfold route_key; by rewrite Hdst).
  unfold wanted in Hw. unfold stale in Hst. rewrite Hck, Hke in Hst. rewrite Hke in Hw.
  rewrite (proj2 (index_by_unique route_key l _ r Hl) (conj Hr (eq_trans Hck Hke))) in Hw.
  rewrite (proj2 (index_by_unique route_key expected _ e He) (conj Hi Hke)) in Hst.
  by destruct (routeEqual r e).
Qed.

Lemma kept_created_apart expected l e r :
  NoDup (omap route_key l) -> NoDup (omap route_key expected) -> is_Some (rt_Dst e) ->
  e ∈ created_routes expected l -> r ∈ kept_routes expected l -> route_conflict r e = false.
Proof.
  intros Hl He Hd Hi Hr. apply not_true_iff_false. intros Hck%route_conflict_key.
  by apply (kept_created_keys expected l e r).
Qed.

Lemma stored_routes link (l ys : list Route) :
  Forall2 (stored route_table) l ys -> Forall (fun e => route_listed link e = true) l ->
  Forall2 (held route_key routeEqual) l ys /\ Forall (fun y => route_listed link y = true) ys.
Proof.
  induction 1 as [|e y l ys Hs _ IH]; [done|]. intros [Hel Hl]%Forall_cons.
  destruct (IH Hl) as [IH1 IH2], (route_stored e y Hs) as [Hh Hly].
  split; constructor; [done|done| |done]. by rewrite Hly.
Qed.

Lemma filter_Forall_true {A} (f : A -> bool) (l : list A) :
  Forall (fun x => f x = true) l -> filter f l = l /\ filter (fun x => negb (f x)) l = [].
Proof.
  induction 1 as [|x l Hx _ [IH1 IH2]]; [done|]. by rewrite !filter_cons_bool, Hx, IH1, IH2.
Qed.

Lemma filter_Forall_false {A} (f : A -> bool) (l : list A) :
  Forall (fun x => f x = false) l -> filter f l = [] /\ filter (fun x => negb (f x)) l = l.
Proof.
  induction 1 as [|x l Hx _ [IH1 IH2]]; [done|]. by rewrite !filter_cons_bool, Hx, IH1, IH2.
Qed.

Lemma listed_Forall link k : Forall (fun r => route_listed link r = true) (listed_routes link k).
Proof. apply Forall_forall. intros r [Hr _]%list_elem_of_filter. by destruct (route_listed link r). Qed.

Lemma other_Forall link k : Forall (fun r => route_listed link r = false) (other_routes link k).
Proof. apply Forall_forall. intros r [Hr _]%list_elem_of_filter. by destruct (route_listed link r). Qed.

(** The adding loop, on a table that holds the routes that are kept and the unlisted ones. *)
Lemma create_routes link expected k (l : list Route) k1 :
  route_goal link expected k -> l ≡ₚ listed_routes link k ->
  entries route_table k1 ≡ₚ kept_routes expected l ++ other_routes link k ->
  exists k2,
    exec_all (RouteAdd <$> created_routes expected l) k1
    = ((fun a => (a, None)) <$> (RouteAdd <$> created_routes expected l), None, k2) /\
    routes_in_sync link expected k2 /\ other_routes link k2 ≡ₚ other_routes link k /\
    others route_table k1 k2.
Proof.
  intros [Hd He Ha Hl Hacc Hf] Hlk Hk1. pose proof (omap_perm route_key _ _ Hlk) as Hkeys.
  assert (NoDup (omap route_key l)) as Hla by (by rewrite Hkeys).
  pose proof (created_expected expected l) as Hc.
  destruct (add_all route_table (created_routes expected l) k1) as (ys & k2 & Hx & Hs & Hp & Ho).
  { intros e Hi. by apply Hacc, Hc. }
  { apply apart_expected; [intros e Hi; by apply Hd, Hc|]. by apply NoDup_omap_filter. }
  { intros e r Hi Hr. rewrite route_occupies. rewrite Hk1 in Hr.
    apply elem_of_app in Hr as [Hr|Hr]; [|by apply Hf; [apply Hc|]].
    by apply (kept_created_apart expected l); [done..|apply Hd, Hc| |]. }
  destruct (stored_routes link _ _ Hs) as [Hheld Hly%filter_Forall_true].
  { apply Forall_forall. intros e Hi. by apply Hl, Hc. }
  assert (Forall (fun r => route_listed link r = true) (kept_routes expected l)) as Hkl%filter_Forall_true.
  { apply Forall_forall. intros r [_ Hr]%list_elem_of_filter. rewrite Hlk in Hr.
    revert r Hr. apply Forall_forall, listed_Forall. }
  pose proof (filter_Forall_false _ _ (other_Forall link k)) as Hol.
  exists k2. split_and!; [done| | |done].
  - apply (reconciled route_key routeEqual l expected ys); [done..|].
    unfold listed_routes. rewrite Hp, Hk1, !filter_app.
    by rewrite (proj1 Hly), (proj1 Hkl), (proj1 Hol), app_nil_r.
  - unfold other_routes at 1. rewrite Hp, Hk1, !filter_app.
    by rewrite (proj2 Hly), (proj2 Hkl), (proj2 Hol).
Qed.

(** Without deletions, when no listed route has to change, [Ensure] succeeds and adds what is
    missing. *)
Lemma RouteTable_Ensure_adds link expected w :
  route_goal link expected (kern w) ->
  (forall r e, r ∈ listed_routes link (kern w) -> e ∈ expected -> route_key r = route_key e -> routeEqual r e = true) ->
  exists log k2,
    RouteTable_Ensure link expected false w = (Ret tt, after w (sched w) log k2) /\
    (forall e, e ∈ expected -> exists y, y ∈ entries route_table k2 /\ held route_key routeEqual e y) /\
    (forall r, r ∈ entries route_table (kern w) -> r ∈ entries route_table k2) /\
    others route_table (kern w) k2.
Proof.
  intros Hg Hsame. destruct (RouteList_lists link (kern w)) as (l & Hl & Hp).
  fold (listed_routes link (kern w)) in Hp.
  assert (NoDup (omap route_key l)) as Hla by (rewrite (omap_perm route_key _ _ Hp); apply Hg).
  rewrite (RouteTable_Ensure_create _ _ _ _ _ Hl) by apply Hg. fold (created_routes expected l).
  pose proof (created_expected expected l) as Hc.
  destruct (add_all route_table (created_routes expected l) (kern w)) as (ys & k2 & Hx & Hs & Hk2 & Ho).
  { intros e Hi. by apply Hg, Hc. }
  { apply apart_expected; [intros e Hi; by apply Hg, Hc|]. apply NoDup_omap_filter, Hg. }
  { intros e r Hi Hr. rewrite route_occupies. rewrite (routes_split link), elem_of_app in Hr.
    destruct Hr as [Hr|Hr]; [|by eapply Hg; [apply Hc|]].
    apply not_true_iff_false. intros Hck%route_conflict_key.
    pose proof (Hsame r e Hr (Hc e Hi) Hck) as Heq. apply list_elem_of_filter in Hi as [Hw Hi].
    destruct (goal_dst _ _ _ Hg e Hi) as [dst Hdst].
    assert (route_key e = Some (IPNet_String dst)) as Hke by (unfold route_key; by rewrite Hdst).
    unfold wanted in Hw. rewrite Hke in Hw.
    rewrite (proj2 (index_by_unique route_key l _ r Hla)) in Hw; [by rewrite Heq in Hw|].
    split; [by rewrite Hp|congruence]. }
  rewrite Hx. eexists _, k2. split_and!; [reflexivity| | |done].
  - intros e He. destruct (decide (e ∈ created_routes expected l)) as [Hi|Hi].
    + apply list_elem_of_lookup in Hi as [i Hi].
      destruct (Forall2_lookup_l _ _ _ _ _ Hs Hi) as (y & Hy%list_elem_of_lookup_2 & Hsy).
      exists y. rewrite Hk2, elem_of_app. split; [by left|by apply route_stored].
    + destruct (goal_dst _ _ _ Hg e He) as [dst Hdst].
      assert (route_key e = Some (IPNet_String dst)) as Hke by (unfold route_key; by rewrite Hdst).
      assert (wanted route_key routeEqual (index_by route_key l) e = false) as Hw.
      { apply not_true_iff_false. intros Hw. apply Hi, list_elem_of_filter. by rewrite Hw. }
      unfold wanted in Hw. rewrite Hke in Hw. destruct (index_by route_key l !! _) as [r|] eqn:Hr; [|done].
      apply index_by_Some in Hr as [Hr Hkr]. apply negb_false_iff in Hw. exists r.
      split; [|split; [congruence|done]]. rewrite Hk2, elem_of_app. right.
      rewrite (routes_split link), elem_of_app, <- Hp. by left.
  - intros r Hr. rewrite Hk2, elem_of_app. by right.
Qed.

#[local] Existing Instance others_preorder.

(** Deleting extra routes, [Ensure] succeeds and leaves the listed routes in step with the
    expected ones and every other route as it was. *)
Lemma RouteTable_Ensure_converges link expected w :
  route_goal link expected (kern w) ->
  exists log k2,
    RouteTable_Ensure link expected true w
    = (Ret tt, after w (fun n => sched w (S n)) log k2) /\
    routes_in_sync link expected k2 /\ other_routes link k2 ≡ₚ other_routes link (kern w) /\
    others route_table (kern w) k2.
Proof.
  intros Hg. destruct (RouteList_lists link (kern w)) as (l & Hl & Hp).
  fold (listed_routes link (kern w)) in Hp.
  assert (NoDup (omap route_key l)) as Hla by (rewrite (omap_perm route_key _ _ Hp); apply Hg).
  rewrite (RouteTable_Ensure_delete _ _ _ _ _ Hl) by apply Hg.
  destruct (delete_all route_table (RouteTable_removed (sched w 0%nat) l expected) (kern w)
              (kept_routes expected l ++ other_routes link (kern w))) as (k1 & Hx1 & Hk1 & Ho1).
  { rewrite (removed_perm _ _ _ Hla (goal_expected _ _ _ Hg)), routes_split, <- Hp, app_assoc.
    f_equiv. apply filter_split. }
  destruct (create_routes link expected (kern w) l k1 Hg Hp Hk1) as (k2 & Hx2 & Hs & Hoth & Ho2).
  unfold created_routes in Hx2. rewrite Hx1, Hx2.
  eexists _, k2. split_and!; [reflexivity|done|done|by transitivity k1].
Qed.
End Converge.

(** ** A table in step *)

Section Settled.
Context {K P : Type} `{Kernel K} `{NetlinkConsts}.
Implicit Types (w : World K P) (link : option Link) (expected actual : list Route).

Lemma removed_in_sync o actual expected :
  NoDup (omap route_key expected) ->
  in_sync routeEqual (index_by route_key actual) (index_by route_key expected) ->
  RouteTable_removed o actual expected = [].
Proof.
  intros He Hs. destruct (RouteTable_removed o actual expected) as [|a l] eqn:Hr; [done|exfalso].
  assert (a ∈ RouteTable_removed o actual expected) as Ha by (rewrite Hr; by left).
  unfold RouteTable_removed in Ha. rewrite elem_of_app, elem_of_not_in, list_elem_of_omap in Ha.
  destruct Ha as [(e & Hin & (k & Hk & Ha & Hq)%changed_actual_Some)|(k & Ha & Hn)];
    specialize (Hs k); rewrite Ha in Hs.
  - rewrite (proj2 (index_by_unique route_key expected k e He) (conj Hin Hk)) in Hs. congruence.
  - by rewrite Hn in Hs.
Qed.

(** On any kernel, a run that finds the expected routes makes no call. *)
Lemma RouteTable_Ensure_settled link expected del w actual k :
  k_RouteList link FAMILY_ALL (kern w) = (inl actual, k) ->
  (forall e, e ∈ expected -> is_Some (rt_Dst e)) -> NoDup (omap route_key expected) ->
  in_sync routeEqual (index_by route_key actual) (index_by route_key expected) ->
  exists s, RouteTable_Ensure link expected del w = (Ret tt, after w s [] k).
Proof.
  intros Hl Hd He Hs. destruct del.
  - rewrite (RouteTable_Ensure_delete _ _ _ _ _ Hl) by done.
    rewrite (removed_in_sync _ _ _ He Hs), (in_sync_nothing_wanted _ _ _ _ He Hs). by eexists.
  - rewrite (RouteTable_Ensure_create _ _ _ _ _ Hl) by done.
    rewrite (in_sync_nothing_wanted _ _ _ _ He Hs). by eexists.
Qed.
End Settled.

(** ** Theorems *)

Section Theorems.
Context {K P : Type} `{Kernel K} `{NetlinkConsts} `{!RouteLaws K}.
Implicit Types (w : World K P) (link : option Link) (expected actual : list Route).

End Theorems.

Section Safety.
Context {K P : Type} `{Kernel K} `{NetlinkConsts}.
Implicit Types (w : World K P) (link : option Link) (expected actual : list Route).

Lemma dst_cases expected :
  (forall e, e ∈ expected -> is_Some (rt_Dst e)) \/ (exists e, e ∈ expected /\ rt_Dst e = None).
Proof.
  destruct (decide (Exists (fun e => rt_Dst e = None) expected)) as [Hx|Hx].
  - right. by apply Exists_exists.
  - left. intros e He. apply not_eq_None_Some. intros Hn. apply Hx, Exists_exists. eauto.
Qed.

(** The deletions and additions a run may make. *)
Definition justified del actual expected (dels adds : list Route) : Prop :=
  (forall a, a ∈ dels -> del = true /\ a ∈ actual /\
     stale route_key routeEqual (index_by route_key expected) a = true) /\
  (forall a, a ∈ adds -> a ∈ expected /\
     wanted route_key routeEqual (index_by route_key actual) a = true) /\
  ((exists a, a ∈ expected /\ rt_Dst a = None) -> dels = [] /\ adds = []).

Lemma planned_justified o actual expected :
  NoDup (omap route_key expected) -> (forall e, e ∈ expected -> is_Some (rt_Dst e)) ->
  let adds := filter (wanted route_key routeEqual (index_by route_key actual)) expected in
  justified true actual expected (RouteTable_removed o actual expected) adds /\
  justified false actual expected [] adds.
Proof.
  intros He Hd adds.
  assert ((exists a, a ∈ expected /\ rt_Dst a = None) -> False) as Hno.
  { intros (a & Ha & Hn). destruct (Hd a Ha). congruence. }
  assert (forall a, a ∈ adds -> a ∈ expected /\ wanted route_key routeEqual (index_by route_key actual) a = true).
  { intros a [Hw Ha]%list_elem_of_filter. split; [done|]. by destruct (wanted _ _ _ a). }
  split; (split_and!; [|done|by intros ?%Hno]).
  - intros a Ha. split; [done|]. by eapply removed_stale.
  - by intros a ?%not_elem_of_nil.
Qed.

(** C35: on any kernel and whatever fails, [RouteTable.Ensure] deletes only routes that were
    listed and are not expected as they are, and only when it may delete extra routes; it adds
    only expected routes that are missing or changed; all deletions come before all additions;
    it stops at the first call that fails and returns an error exactly then; and an expected
    route without a destination is an error before any call. *)
Theorem route_calls_justified link expected del w actual k :
  k_RouteList link FAMILY_ALL (kern w) = (inl actual, k) -> NoDup (omap route_key expected) ->
  exists dels adds log e s k' r,
    RouteTable_Ensure link expected del w = (r, after w s log k') /\
    justified del actual expected dels adds /\
    ran ((RouteDel <$> dels) ++ (RouteAdd <$> adds)) log e /\
    match r with
    | Ret _ => e = None /\ forall a, a ∈ expected -> is_Some (rt_Dst a)
    | Err _ => is_Some e \/ exists a, a ∈ expected /\ rt_Dst a = None
    | Exit => False
    end.
Proof.
  intros Hl He. destruct (dst_cases expected) as [Hd|(a & Ha & Hda)]; cycle 1.
  { rewrite (RouteTable_Ensure_no_dst _ _ _ _ a _ _ Hl Ha Hda).
    exists [], [], [], None, (sched w), k, (Err (ErrorMsg "expected route did not have dst: %v")).
    split_and!; [done| |constructor|eauto]. split_and!; [by intros ? ?%not_elem_of_nil..|done]. }
  destruct (planned_justified (sched w 0%nat) actual expected He Hd) as [Hjt Hjf]. destruct del.
  - rewrite (RouteTable_Ensure_delete _ _ _ _ _ Hl Hd). cbv zeta.
    set (dels := RouteTable_removed _ _ _) in *. set (adds := filter _ expected) in *.
    pose proof (exec_all_app (RouteDel <$> dels) (RouteAdd <$> adds) k) as Happ.
    destruct (exec_all (RouteDel <$> dels) k) as [[log1 [e1|]] k1] eqn:Hx1.
    + eexists dels, adds, _, _, _, _, _.
      split_and!; [reflexivity|apply Hjt..|by eapply exec_all_ran|by left; eexists].
    + destruct (exec_all (RouteAdd <$> adds) k1) as [[log2 e2] k2] eqn:Hx2.
      eexists dels, adds, _, _, _, _, _.
      split_and!; [reflexivity|apply Hjt..|by eapply exec_all_ran|]. destruct e2; [by left; eexists|done].
  - rewrite (RouteTable_Ensure_create _ _ _ _ _ Hl Hd). set (adds := filter _ expected) in *.
    destruct (exec_all (RouteAdd <$> adds) k) as [[log e] k'] eqn:Hx.
    eexists [], adds, _, _, _, _, _.
    split_and!; [reflexivity|apply Hjf..|by eapply exec_all_ran|]. destruct e; [by left; eexists|done].
Qed.
End Safety.

(** ** Routes that are never repaired *)

Section Stuck.
Context {K P : Type} `{Kernel K} `{NetlinkConsts} `{!RouteLaws K}.
Implicit Types (w : World K P) (link : option Link) (expected : list Route) (k : K).

(** The slot of [e] is held by a route, and no listed route to its destination is equal to it. *)
Definition route_blocked link (e : Route) k : Prop :=
  (exists a, a ∈ entries route_table k /\ route_conflict a e = true) /\
  (forall r, r ∈ listed_routes link k -> route_key r = route_key e -> routeEqual r e = false).

(** Runs of [Ensure] without the deletion of extra routes, one after the other. *)
Fixpoint retries link expected (n : nat) w : World K P :=
  match n with
  | O => w
  | S n => retries link expected n (snd (RouteTable_Ensure link expected false w))
  end.

Lemma blocked_step link expected e w :
  (forall x, x ∈ expected -> is_Some (rt_Dst x) /\ accepts route_table x) ->
  NoDup (omap route_key expected) -> e ∈ expected -> route_blocked link e (kern w) ->
  exists w', RouteTable_Ensure link expected false w
             = (Err (Errorf "error creating route %v: %v" EEXIST), w') /\
             route_blocked link e (kern w').
Proof.
  intros Hx He Hin [(a & Ha & Hc) Hne]. destruct (RouteList_lists link (kern w)) as (l & Hl & Hp).
  rewrite (RouteTable_Ensure_create _ _ _ _ _ Hl) by (intros x Hi; by apply Hx).
  destruct (Hx e Hin) as [[dst Hdst] _].
  assert (route_key e = Some (IPNet_String dst)) as Hke by (unfold route_key; by rewrite Hdst).
  destruct (add_all_blocked route_table (created_routes expected l) e (kern w) a) as (log & ys & k' & Hr & Hp' & Hys).
  { intros x Hi. by apply Hx, (created_expected expected l). }
  { apply list_elem_of_filter. split; [|done]. unfold wanted. rewrite Hke.
    destruct (index_by route_key l !! _) as [r|] eqn:Hr; [|done].
    apply index_by_Some in Hr as [Hr Hkr]. rewrite (Hne r); [done| |congruence].
    unfold listed_routes. by rewrite <- Hp. }
  { done. } { by rewrite route_occupies. }
  unfold created_routes in Hr. rewrite Hr. eexists. split; [reflexivity|]. simpl. split.
  - exists a. split; [|done]. rewrite Hp'. apply elem_of_app. by right.
  - intros r Hr' Hkr. unfold listed_routes in Hr'. rewrite Hp', filter_app, elem_of_app in Hr'.
    destruct Hr' as [Hr'|Hr']; [|by apply Hne].
    apply list_elem_of_filter in Hr' as [_ (x & Hi & Hs & Hcx)%Hys]. rewrite route_occupies in Hcx.
    apply route_stored in Hs as [[Hk _] _]. apply created_expected in Hi as Hix.
    assert (x = e) as -> by (apply (NoDup_omap_inj route_key expected _ _ _ He Hix Hin) in Hke; congruence).
    congruence.
Qed.

(** Without the deletion of extra routes (the layer2 and gre providers), a route that has to
    change is added while the route it replaces is still there, so the kernel refuses it: every
    run, however often it is repeated, ends with EEXIST, and the old route stays. *)
Theorem changed_route_never_repaired link expected e w n :
  (forall x, x ∈ expected -> is_Some (rt_Dst x) /\ accepts route_table x) ->
  NoDup (omap route_key expected) -> e ∈ expected -> route_blocked link e (kern w) ->
  fst (RouteTable_Ensure link expected false (retries link expected n w))
  = Err (Errorf "error creating route %v: %v" EEXIST) /\
  route_blocked link e (kern (retries link expected n w)).
Proof.
  intros Hx He Hin Hb. revert w Hb. induction n as [|n IH]; intros w Hb; simpl;
    destruct (blocked_step link expected e w Hx He Hin Hb) as (w' & Hr & Hb').
  - by rewrite Hr.
  - rewrite Hr. by apply IH.
Qed.
End Stuck.

(** ** What a successful run leaves

    Whatever the routing table held before and whatever else the kernel may refuse: when
    [Ensure] returns nil, every expected route is there. *)

Section Delivered.
Context {K P : Type} `{Kernel K} `{NetlinkConsts} `{!RouteLaws K}.
Implicit Types (w : World K P) (link : option Link) (expected actual : list Route) (k : K).

Definition routes_held expected k : Prop :=
  forall e, e ∈ expected -> exists y, y ∈ entries route_table k /\ held route_key routeEqual e y.

(** The routes whose addition succeeded, next to those that were equal already. *)
Lemma wanted_added_held expected actual k0 k log k' :
  exec_all (RouteAdd <$> created_routes expected actual) k = (log, None, k') ->
  (forall e, e ∈ expected -> is_Some (rt_Dst e)) ->
  (forall a e, a ∈ actual -> e ∈ expected -> route_key a = route_key e -> routeEqual a e = true ->
     index_by route_key actual !! default EmptyString (route_key e) = Some a -> a ∈ entries route_table k) ->
  others route_table k0 k ->
  routes_held expected k' /\ others route_table k0 k' /\
  (forall r, r ∈ entries route_table k -> r ∈ entries route_table k').
Proof.
  intros Hx Hd Hkept Ho. destruct (add_all_success route_table _ _ _ _ Hx) as (ys & Hs & Hp & Ho2).
  split_and!; [|by transitivity k|intros r Hr; rewrite Hp; apply elem_of_app; by right].

  intros e He. destruct (decide (e ∈ created_routes expected actual)) as [Hc|Hc].
  - apply list_elem_of_lookup in Hc as [i Hi]. destruct (Forall2_lookup_l _ _ _ _ _ Hs Hi) as (y & Hy & Hse).
    exists y. split; [rewrite Hp; apply elem_of_app; left; by eapply list_elem_of_lookup_2|].
    by apply route_stored in Hse as [Hh _].
  - destruct (Hd e He) as [dst Hdst].
    assert (route_key e = Some (IPNet_String dst)) as Hke by (unfold route_key; by rewrite Hdst).
    assert (wanted route_key routeEqual (index_by route_key actual) e = false) as Hw.
    { apply not_true_iff_false. intros Hw. apply Hc, list_elem_of_filter. by rewrite Hw. }
    unfold wanted in Hw. rewrite Hke in Hw.
    destruct (index_by route_key actual !! IPNet_String dst) as [a|] eqn:Ha; [|done].
    apply negb_false_iff in Hw. apply index_by_Some in Ha as Ha'. destruct Ha' as [Hin Hka].
    exists a. split; [|split; [congruence|done]]. rewrite Hp. apply elem_of_app. right.
    apply (Hkept a e); [done|done|congruence|done|]. by rewrite Hke.
Qed.

Lemma RouteTable_Ensure_dst link expected del w w' :
  RouteTable_Ensure link expected del w = (Ret tt, w') -> forall e, e ∈ expected -> is_Some (rt_Dst e).
Proof.
  intros Hr e He. apply not_eq_None_Some. intros Hd.
  destruct (RouteList_lists link (kern w)) as (l & Hl & _).
  by rewrite (RouteTable_Ensure_no_dst _ _ _ _ _ _ _ Hl He Hd) in Hr.
Qed.

Lemma RouteTable_Ensure_adds_success link expected w w' :
  RouteTable_Ensure link expected false w = (Ret tt, w') ->
  routes_held expected (kern w') /\ others route_table (kern w) (kern w') /\ prov w' = prov w /\
  (forall r, r ∈ entries route_table (kern w) -> r ∈ entries route_table (kern w')).
Proof.
  intros Hr. pose proof (RouteTable_Ensure_dst _ _ _ _ _ Hr) as Hd.
  destruct (RouteList_lists link (kern w)) as (l & Hl & Hp).
  rewrite (RouteTable_Ensure_create _ _ _ _ _ Hl Hd) in Hr. fold (created_routes expected l) in Hr.
  destruct (exec_all _ (kern w)) as [[log [e|]] k'] eqn:Hx; [done|]. injection Hr as <-.
  destruct (wanted_added_held expected l (kern w) (kern w) log k' Hx Hd) as (? & ? & ?); [|reflexivity|done].
  intros a e Ha _ _ _ _. rewrite Hp in Ha. by apply list_elem_of_filter in Ha as [_ Ha].
Qed.

Lemma RouteTable_Ensure_success link expected w w' :
  NoDup (omap route_key expected) ->
  RouteTable_Ensure link expected true w = (Ret tt, w') ->
  routes_held expected (kern w') /\ others route_table (kern w) (kern w') /\ prov w' = prov w.
Proof.
  intros He Hr. pose proof (RouteTable_Ensure_dst _ _ _ _ _ Hr) as Hd.
  destruct (RouteList_lists link (kern w)) as (l & Hl & Hp).
  rewrite (RouteTable_Ensure_delete _ _ _ _ _ Hl Hd) in Hr. cbv zeta in Hr.
  fold (created_routes expected l) in Hr. set (dels := RouteTable_removed _ _ _) in Hr.
  assert (exists rest, l ≡ₚ dels ++ rest) as [rest Hrest].
  { apply submseteq_Permutation, NoDup_submseteq; [by apply NoDup_removed|]. intros a Ha. by eapply removed_stale. }
  destruct (delete_all route_table dels (kern w) (rest ++ other_routes link (kern w))) as (k1 & Hx1 & Hk1 & Ho1).
  { rewrite (routes_split link), app_assoc. f_equiv. unfold listed_routes. by rewrite <- Hp. }
  rewrite Hx1 in Hr. destruct (exec_all _ k1) as [[log [e|]] k'] eqn:Hx; [done|]. injection Hr as <-.
  destruct (wanted_added_held expected l (kern w) k1 log k' Hx Hd) as (? & ? & ?); [|done|done].
  intros a e Ha Hin Hk Hq Hidx. rewrite Hk1. apply elem_of_app. left.
  assert (a ∉ dels) as Hn.
  { intros [_ Hst]%removed_stale; [|done]. unfold stale in Hst. rewrite Hk in Hst.
    destruct (Hd e Hin) as [dst Hdst]. unfold route_key at 1 in Hst. rewrite Hdst in Hst. cbn in Hst.
    rewrite (proj2 (index_by_unique route_key expected _ e He)) in Hst; [by rewrite Hq in Hst|].
    split; [done|]. unfold route_key. by rewrite Hdst. }
  rewrite Hrest, elem_of_app in Ha. by destruct Ha.
Qed.
End Delivered.

(** ** The theorems at concrete inputs *)

(** [route_goal_by_computation] evaluates the conditions of [route_goal] on a simulated kernel. *)
Ltac route_goal_by_computation :=
  split;
  [apply Forall_forall; by_computation | by_computation | by_computation
  |apply Forall_forall; by_computation | intros ? _; exact I
  |let e := fresh in let r := fresh in let He := fresh in let Hr := fresh in
   intros e r He Hr; revert r Hr; apply Forall_forall; revert e He; apply Forall_forall; by_computation].

Section Witnesses.
#[local] Existing Instance netlink_v1_1_0.

(** A default route, a route through an old gateway and one to a node that is gone. *)
Definition sim_routing : Sim := set_routes
  [new_Route 2 None (ip4 10 0 0 1) RTPROT_BOOT RT_TABLE_MAIN RTN_UNICAST;
   new_Route 2 (Some (net4 100 96 1 0 24)) (ip4 10 0 0 8) RTPROT_BOOT RT_TABLE_MAIN RTN_UNICAST;
   new_Route 2 (Some (net4 100 96 9 0 24)) (ip4 10 0 0 9) RTPROT_BOOT RT_TABLE_MAIN RTN_UNICAST;
   new_Route 5 (Some (net4 100 96 2 0 24)) (ip4 10 0 0 9) RTPROT_BOOT 100 RTN_UNICAST] sim_empty.

Definition sim_expected : list Route :=
  [new_Route 2 (Some (net4 100 96 1 0 24)) (ip4 10 0 0 7) RTPROT_BOOT RT_TABLE_MAIN RTN_UNICAST;
   new_Route 2 (Some (net4 100 96 2 0 24)) (ip4 10 0 0 6) RTPROT_BOOT RT_TABLE_MAIN RTN_UNICAST].

Lemma sim_goal : route_goal (Some eth0) sim_expected sim_routing.
Proof. route_goal_by_computation. Qed.


Lemma route_calls_justified_witness :
  exists log s k' r, RouteTable_Ensure (P := unit) (Some eth0) sim_expected false (sim_world sim_routing tt)
                       = (r, after (sim_world sim_routing tt) s log k') /\
    forall a x, (RouteDel a, x) ∈ log -> False.
Proof.
  assert (k_RouteList (Some eth0) FAMILY_ALL (kern (sim_world sim_routing tt))
          = (inl (filter (sim_route_listed (Some eth0)) (sim_routes sim_routing)), sim_routing)) as Hl
    by reflexivity.
  assert (NoDup (omap route_key sim_expected)) as He by by_computation.
  destruct (route_calls_justified (P := unit) (Some eth0) sim_expected false (sim_world sim_routing tt) _ _ Hl He)
    as (dels & adds & log & e & s & k' & r & Hr & (Hd & _) & Hran & _).
  exists log, s, k', r. split; [exact Hr|]. intros a r' Hin.
  pose proof (ran_in _ _ _ _ _ Hran Hin) as Ha. rewrite elem_of_app in Ha.
  destruct Ha as [(b & Hb & Hin')%list_elem_of_fmap|(b & Hb & _)%list_elem_of_fmap]; [|discriminate Hb].
  destruct (Hd b Hin') as [Hf _]. discriminate Hf.
Defined.

Lemma changed_route_never_repaired_witness :
  fst (RouteTable_Ensure (P := unit) (Some eth0) sim_expected false
         (retries (Some eth0) sim_expected 3 (sim_world sim_routing tt)))
  = Err (Errorf "error creating route %v: %v" EEXIST).
Proof.
  refine (proj1 (changed_route_never_repaired (P := unit) (Some eth0) sim_expected
    (new_Route 2 (Some (net4 100 96 1 0 24)) (ip4 10 0 0 7) RTPROT_BOOT RT_TABLE_MAIN RTN_UNICAST)
    (sim_world sim_routing tt) 3 _ _ _ _)).
  - intros x Hx. split; [|done]. revert x Hx. apply Forall_forall. by_computation.
  - by_computation.
  - by left.
  - split.
    + exists (new_Route 2 (Some (net4 100 96 1 0 24)) (ip4 10 0 0 8) RTPROT_BOOT RT_TABLE_MAIN RTN_UNICAST).
      split; [right; by left|reflexivity].
    + intros r Hr. apply (bool_decide_unpack _). revert r Hr. apply Forall_forall. by_computation.
Defined.
End Witnesses.
