(* ===== verification/NeighFacts.v ===== *)
(** * What [NeighTable.Ensure] does: pkg/routing/netutil/neigh_table.go *)

From S2P Require Import Prelude GoNet GoNetFacts Netlink Effects Reconcile Tables Netutil.
From S2P Require Import NeighTable KernelLaws Sim.

Lemma bytes_Equal_eq a b : bytes_Equal a b = true <-> bytes_of a = bytes_of b.
Proof. apply bool_decide_eq_true. Qed.

(** An entry as it is reported has the slot it was set under. *)
Lemma neigh_held_slot e y m : neigh_held e y -> neigh_slot y m = neigh_slot e m.
Proof.
  intros (Hl & Hf & _ & Hk & Hm%bytes_Equal_eq). unfold neigh_slot. rewrite Hl, Hf, Hk.
  unfold bytes_Equal. by rewrite Hm.
Qed.

(** What the code takes for equal is the same entry. *)
Lemma neighEqual_held a e : neighEqual a e = true -> neigh_key a = neigh_key e -> neigh_held e a.
Proof.
  unfold neighEqual. intros He Hk. destruct (_ || _) eqn:Ho; [done|]. rewrite !orb_false_iff, !negb_false_iff, !Z.eqb_eq in Ho.
  destruct Ho as [[[[_ Hf] _] Hl] Hs]. destruct (IP_Equal _ _); [|done]. simpl in He.
  split_and!; [done|by unfold is_fdb; rewrite Hf|done|done|by destruct (bytes_Equal _ _)].
Qed.

(** Different entries of a table have different slots. *)
Definition slots_apart (l : list Neigh) : Prop :=
  forall i j e e', index_by neigh_key l !! i = Some e -> index_by neigh_key l !! j = Some e' -> i ≠ j -> neigh_slot e e' = false.

(** Entries that can be in the tables together: of those in [bridge fdb] no two have one hardware
    address. *)
Definition neigh_goal `{NetlinkConsts} (l : list Neigh) : Prop :=
  (forall e, e ∈ l -> neigh_regular e) /\ slots_apart l.

Section Runs.
Context {K P : Type} `{Kernel K} `{NetlinkConsts}.

Lemma NeighTable_Ensure_eq link expected (w : World K P) actual k :
  k_NeighList (link_Index (Attrs link)) FAMILY_ALL (kern w) = (inl actual, k) ->
  NeighTable_Ensure link expected w
  = let upsert := not_in_or_changed neighEqual (index_by neigh_key actual)
                    (range (sched w 0%nat) (index_by neigh_key expected)) in
    let '(log, e, k') := exec_all (NeighSet <$> upsert) k in
    (outcome_of "error doing `ip neigh replace to %s lladdr %s dev %d`: %v" e,
     after w (fun n => sched w (S n)) log k').
Proof.
  intros Hl. unfold NeighTable_Ensure. rewrite (bind_query _ _ _ _ _ _ Hl), bind_order. world.
  rewrite each_call. world. destruct (exec_all _ _) as [[log e] k']. by world.
Qed.
End Runs.

Section Laws.
Context {K : Type} `{Kernel K} `{NetlinkConsts} `{!NeighLaws K}.
Implicit Types (k : K) (l : list Neigh).

(** Replacements that were all taken, of entries with different slots. *)
Lemma set_all_success l : forall k log k',
  exec_all (NeighSet <$> l) k = (log, None, k') ->
  (forall e, e ∈ l -> neigh_regular e) -> NoDup l -> (forall e e', e ∈ l -> e' ∈ l -> e ≠ e' -> neigh_slot e e' = false) ->
  (forall e, e ∈ l -> exists y, y ∈ neighs k' /\ neigh_held e y) /\
  (forall m, m ∈ neighs k -> (forall e, e ∈ l -> neigh_slot m e = false) -> m ∈ neighs k') /\
  (forall m, m ∈ neighs k' -> m ∈ neighs k \/ exists e, e ∈ l /\ neigh_held e m).
Proof.
  induction l as [|n l IH]; intros k log k'; cbn [fmap list_fmap exec_all].
  { intros [= _ <-] _ _ _. split_and!; [by intros ? ?%not_elem_of_nil|done|by left]. }
  destruct (exec (NeighSet n) k) as [[x|] k1] eqn:Hr; [done|].
  destruct (exec_all (NeighSet <$> l) k1) as [[log1 e1] k2] eqn:Hl. intros [= _ -> <-] Hreg [Hn Hnd]%NoDup_cons Hap.
  destruct (NeighSet_success k n k1 (Hreg n ltac:(by left)) Hr) as [(y & Hy & Hyn & Hnew) Hold].
  destruct (IH k1 log1 k2 Hl) as (Hin & Hkeep & Hfrom); [intros e He; apply Hreg; by right|done| |].
  { intros e e' He He'. apply Hap; by right. }
  split_and!.
  - intros e [->|He]%elem_of_cons; [|by apply Hin]. exists y. split; [|done]. apply Hkeep; [done|].
    intros e He. rewrite (neigh_held_slot _ _ _ Hyn). apply Hap; [by left|by right|]. by intros ->.
  - intros m Hm Hs. apply Hkeep; [|intros e He; apply Hs; by right]. apply Hold; [done|]. apply Hs. by left.
  - intros m Hm. destruct (Hfrom m Hm) as [Hm'|(e & He & Hh)].
    + destruct (Hnew m Hm') as [->|?]; [|by left]. right. exists n. split; [by left|done].
    + right. exists e. split; [by right|done].
Qed.

Lemma set_all l : forall k,
  (forall n, n ∈ l -> neigh_accepts n) ->
  exists k', exec_all (NeighSet <$> l) k = ((fun a => (a, None)) <$> (NeighSet <$> l), None, k').
Proof.
  induction l as [|n l IH]; intros k Hacc; cbn [fmap list_fmap exec_all]; [by exists k|].
  destruct (NeighSet_accepted k n (Hacc n ltac:(by left))) as (k1 & Hr).
  destruct (IH k1) as (k' & Hr'); [intros m Hm; apply Hacc; by right|]. exists k'. by rewrite Hr, Hr'.
Qed.
End Laws.

Section Theorems.
Context {K P : Type} `{Kernel K} `{NetlinkConsts} `{!NeighLaws K}.

Lemma upserts_keys o actualMap expected :
  NoDup (neigh_key <$> not_in_or_changed neighEqual actualMap (range o (index_by neigh_key expected))).
Proof.
  assert (neigh_key <$> not_in_or_changed neighEqual actualMap (range o (index_by neigh_key expected))
          = Some <$> ((default EmptyString ∘ neigh_key)
                      <$> not_in_or_changed neighEqual actualMap (range o (index_by neigh_key expected)))) as ->.
  { rewrite <- list_fmap_compose. apply list_fmap_ext. intros i n Hn%list_elem_of_lookup_2.
    apply elem_of_not_in_or_changed in Hn as (k & Hk & _). apply index_by_Some in Hk as [_ Hk].
    simpl. by rewrite Hk. }
  apply NoDup_fmap_2; [apply _|]. apply NoDup_omap_fst; [apply NoDup_range_keys|].
  intros [k a] c Hin%elem_of_range Hc. apply index_by_Some in Hin as [_ Hk]. simpl in *.
  destruct (actualMap !! k) as [b|]; [destruct (neighEqual b a)|]; [done| |]; injection Hc as <-;
    by rewrite Hk.
Qed.

(** The entries a run writes. *)
Definition neigh_upserts o (actual expected : list Neigh) : list Neigh :=
  not_in_or_changed neighEqual (index_by neigh_key actual) (range o (index_by neigh_key expected)).

Lemma elem_of_upserts o actual expected e :
  e ∈ neigh_upserts o actual expected
  <-> exists i, index_by neigh_key expected !! i = Some e /\
        forall a, index_by neigh_key actual !! i = Some a -> neighEqual a e = false.
Proof. apply elem_of_not_in_or_changed. Qed.

Lemma upserts_expected o actual expected e : e ∈ neigh_upserts o actual expected -> e ∈ expected.
Proof. intros (i & Hi & _)%elem_of_upserts. by apply index_by_Some in Hi as [Hi _]. Qed.

Lemma upserts_apart o actual expected :
  slots_apart expected -> forall e e', e ∈ neigh_upserts o actual expected -> e' ∈ neigh_upserts o actual expected ->
  e ≠ e' -> neigh_slot e e' = false.
Proof.
  intros Hap e e' (i & Hi & _)%elem_of_upserts (j & Hj & _)%elem_of_upserts Hne. apply (Hap i j); [done..|]. naive_solver.
Qed.

(** What is there once the entries a run writes are written. *)
Lemma upserts_settle o link (actual expected : list Neigh) (k k' : K) log :
  neigh_goal expected -> actual ≡ₚ filter (neigh_listed (link_Index (Attrs link))) (neighs k) ->
  exec_all (NeighSet <$> neigh_upserts o actual expected) k = (log, None, k') ->
  (forall i e, index_by neigh_key expected !! i = Some e -> exists y, y ∈ neighs k' /\ neigh_held e y) /\
  (forall m, m ∈ neighs k -> (forall e, e ∈ expected -> neigh_slot m e = false) -> m ∈ neighs k') /\
  (forall m, m ∈ neighs k' -> m ∈ neighs k \/ exists e, e ∈ expected /\ neigh_held e m).
Proof.
  intros [Hreg Hap] Hp Hx. pose proof (upserts_expected o actual expected) as Hexp.
  destruct (set_all_success _ _ _ _ Hx) as (Hin & Hkeep & Hfrom).
  { intros e He. by apply Hreg, Hexp. } { eapply NoDup_fmap_1, upserts_keys. } { by apply upserts_apart. }
  split_and!.
  - intros i e Hi. apply index_by_Some in Hi as Hik. destruct Hik as [_ Hik].
    destruct (decide (e ∈ neigh_upserts o actual expected)) as [He|He]; [by apply Hin|].
    assert (exists a, index_by neigh_key actual !! i = Some a /\ neighEqual a e = true) as (a & Ha & Heq).
    { destruct (index_by neigh_key actual !! i) as [a|] eqn:Ha.
      - exists a. split; [done|]. apply not_false_iff_true. intros Hq. apply He, elem_of_upserts. exists i.
        split; [done|]. intros b Hb. congruence.
      - exfalso. apply He, elem_of_upserts. exists i. split; [done|]. intros b Hb. congruence. }
    apply index_by_Some in Ha as [Ha Hka]. assert (neigh_held e a) as Hh by (apply neighEqual_held; congruence).
    exists a. split; [|done]. apply Hkeep.
    + rewrite Hp in Ha. by apply list_elem_of_filter in Ha as [_ Ha].
    + intros e' He'. rewrite (neigh_held_slot _ _ _ Hh). apply elem_of_upserts in He' as Hi'.
      destruct Hi' as (j & Hj & _). apply (Hap i j); [done..|]. intros ->. apply He. congruence.
  - intros m Hm Hs. apply Hkeep; [done|]. intros e He. by apply Hs, Hexp.
  - intros m Hm. destruct (Hfrom m Hm) as [?|(e & He & Hh)]; [by left|]. right. eauto.
Qed.

(** What a run leaves, with the calls it made. *)
Lemma neighbours_run link expected (w : World K P) :
  neigh_goal expected -> (forall n, n ∈ expected -> neigh_accepts n) ->
  exists actual log s k',
    k_NeighList (link_Index (Attrs link)) FAMILY_ALL (kern w) = (inl actual, kern w) /\
    NeighTable_Ensure link expected w = (Ret tt, after w s log k') /\
    (forall i e, index_by neigh_key expected !! i = Some e ->
       exists y, y ∈ neighs k' /\ neigh_held e y) /\
    (forall m, m ∈ neighs (kern w) -> (forall e, e ∈ expected -> neigh_slot m e = false) -> m ∈ neighs k') /\
    (forall m, m ∈ neighs k' -> m ∈ neighs (kern w) \/ exists e, e ∈ expected /\ neigh_held e m) /\
    (forall a x, (a, x) ∈ log -> x = None /\ exists e, a = NeighSet e /\ e ∈ expected /\
       wanted neigh_key neighEqual (index_by neigh_key actual) e = true).
Proof.
  intros Hg Hacc. destruct (NeighList_lists (link_Index (Attrs link)) (kern w)) as (actual & Hl & Hp).
  pose proof (upserts_expected (sched w 0%nat) actual expected) as Hexp.
  destruct (set_all (neigh_upserts (sched w 0%nat) actual expected) (kern w)) as (k' & Hr).
  { intros n Hn. by apply Hacc, Hexp. }
  destruct (upserts_settle _ link actual expected _ _ _ Hg Hp Hr) as (Hin & Hkeep & Hfrom).
  eexists actual, _, _, k'. split; [done|]. rewrite (NeighTable_Ensure_eq _ _ _ _ _ Hl). cbv zeta.
  fold (neigh_upserts (sched w 0%nat) actual expected). rewrite Hr.
  split_and!; [reflexivity|done|done|done|].
  intros a x Hax. apply list_elem_of_fmap in Hax as (b & [= -> ->] & Hb).
  apply list_elem_of_fmap in Hb as (e & -> & He). split; [done|]. exists e.
  split_and!; [done|by apply Hexp|]. apply elem_of_upserts in He as (i & Hi & Hw).
  apply index_by_Some in Hi as [_ Hi]. unfold wanted. rewrite Hi.
  destruct (index_by neigh_key actual !! i) as [b|]; [by rewrite Hw|done].
Qed.

(** Whatever else the kernel may refuse: a run that returns nil leaves every expected neighbour,
    the last of its IP. *)
Lemma NeighTable_Ensure_success link expected (w w' : World K P) :
  neigh_goal expected -> NeighTable_Ensure link expected w = (Ret tt, w') ->
  prov w' = prov w /\ forall i e, index_by neigh_key expected !! i = Some e ->
    exists y, y ∈ neighs (kern w') /\ neigh_held e y.
Proof.
  intros Hg Hr. destruct (NeighList_lists (link_Index (Attrs link)) (kern w)) as (actual & Hl & Hp).
  rewrite (NeighTable_Ensure_eq _ _ _ _ _ Hl) in Hr. cbv zeta in Hr.
  fold (neigh_upserts (sched w 0%nat) actual expected) in Hr.
  destruct (exec_all _ (kern w)) as [[log [e|]] k'] eqn:Hx; [done|]. injection Hr as <-.
  split; [done|]. by eapply upserts_settle.
Qed.

Lemma neighbours_settle link expected (w : World K P) :
  neigh_goal expected -> (forall n, n ∈ expected -> neigh_accepts n) ->
  exists log s k', NeighTable_Ensure link expected w = (Ret tt, after w s log k') /\
    (forall i e, index_by neigh_key expected !! i = Some e ->
       exists y, y ∈ neighs k' /\ neigh_held e y).
Proof.
  intros Hg Hacc. destruct (neighbours_run link expected w Hg Hacc) as (actual & log & s & k' & _ & Hr & Hin & _).
  by exists log, s, k'.
Qed.

(** C28: on a kernel that keeps the contract of its two tables of neighbours - [ip neigh], where an entry is
    identified by its address, and [bridge fdb], where it is by its hardware address -
    [NeighTable.Ensure] succeeds, provided that the kernel takes the expected entries, that each has an
    address and a hardware address, and that no two of the entries for [bridge fdb] share a hardware
    address: afterwards every expected entry (the last of its IP) is in its table; an entry that was
    there stays unless an expected one took its place; nothing else appears; and only expected entries
    that are missing or differ are written. *)
Theorem neighbours_converge link expected (w : World K P) :
  neigh_goal expected -> (forall n, n ∈ expected -> neigh_accepts n) ->
  exists actual log s k',
    k_NeighList (link_Index (Attrs link)) FAMILY_ALL (kern w) = (inl actual, kern w) /\
    NeighTable_Ensure link expected w = (Ret tt, after w s log k') /\
    (forall i e, index_by neigh_key expected !! i = Some e ->
       exists y, y ∈ neighs k' /\ neigh_held e y) /\
    (forall m, m ∈ neighs (kern w) -> (forall e, e ∈ expected -> neigh_slot m e = false) -> m ∈ neighs k') /\
    (forall m, m ∈ neighs k' -> m ∈ neighs (kern w) \/ exists e, e ∈ expected /\ neigh_held e m) /\
    (forall a x, (a, x) ∈ log -> x = None /\ exists e, a = NeighSet e /\ e ∈ expected /\
       wanted neigh_key neighEqual (index_by neigh_key actual) e = true).
Proof. exact (neighbours_run link expected w). Qed.
End Theorems.

Section Witnesses.
#[local] Existing Instance netlink_v1_1_0.

Lemma neighbours_converge_witness :
  let n := MkNeigh 2 AF_INET NUD_PERMANENT 0 0 (ip4 100 96 1 0) (Some [x0a; x0a; x64; x60; x01; x00]) in
  exists log s k',
    NeighTable_Ensure (P := unit) eth0 [n] (sim_world sim_empty tt)
    = (Ret tt, after (sim_world sim_empty tt) s log k') /\
    exists y, y ∈ neighs k' /\ neigh_held n y.
Proof.
  intros n. destruct (neighbours_converge (P := unit) eth0 [n] (sim_world sim_empty tt))
    as (actual & log & s & k' & _ & Hr & Hin & _); [|intros ? _; exact I|].
  { split.
    - intros e ->%list_elem_of_singleton. split; [by eexists|]. split; [by left|]. by eexists.
    - intros i j e e' [->%list_elem_of_singleton Hi]%index_by_Some [->%list_elem_of_singleton Hj]%index_by_Some Hne. congruence. }
  exists log, s, k'. split; [exact Hr|]. exact (Hin "100.96.1.0"%string n eq_refl).
Defined.
End Witnesses.
