(* ===== verification/Faults.v ===== *)
(** * A kernel that fails now and then

    Calls into the kernel can fail for reasons that have nothing to do with the agent: lack of
    memory, an interrupted system call, a socket that cannot be opened. The controller's answer is to
    try again. [Flaky] is a kernel that refuses calls by a list of such faults, without any effect
    of the refused call; on it an interrupted [RouteTable.Ensure] leaves a state from which the
    following runs get to the end. *)

From S2P Require Import Prelude GoNet Netlink Effects Tables Reconcile KernelLaws Sim RouteTable RouteFacts.

(** The kernel, and what becomes of the next calls: [Some e] refuses one. *)
Record Flaky (K : Type) := MkFlaky { fl_kernel : K; fl_faults : list (option error) }.
Arguments MkFlaky {K}.
Arguments fl_kernel {K}.
Arguments fl_faults {K}.

(** The faults that are still to come. *)
Definition faults {K} (f : Flaky K) : nat := length (omap id (fl_faults f)).

Section Flaky.
Context {K : Type} `{Kernel K}.

Definition refusing {A} (refused : error -> A) (run : K -> A * K) (f : Flaky K) : A * Flaky K :=
  match fl_faults f with
  | Some e :: rest => (refused e, MkFlaky (fl_kernel f) rest)
  | None :: rest => let '(a, k) := run (fl_kernel f) in (a, MkFlaky k rest)
  | [] => let '(a, k) := run (fl_kernel f) in (a, MkFlaky k [])
  end.

#[export] Instance flaky_kernel : Kernel (Flaky K) := {|
  exec a := refusing Some (exec a);
  k_LinkAdd l := refusing inr (k_LinkAdd l);
  k_LinkByName name := refusing inr (k_LinkByName name);
  k_LinkList := refusing inr k_LinkList;
  k_AddrList l family := refusing inr (k_AddrList l family);
  k_NeighList i family := refusing inr (k_NeighList i family);
  k_RouteList l family := refusing inr (k_RouteList l family);
  k_XfrmStateList family := refusing inr (k_XfrmStateList family);
  k_XfrmPolicyList family := refusing inr (k_XfrmPolicyList family);
  k_ReadFile path := refusing inr (k_ReadFile path);
  k_Socket a b c := refusing inr (k_Socket a b c)
|}.

(** A call is carried out, or refused at the price of a fault. *)
Lemma refusing_cases {A} (refused : error -> A) (run : K -> A * K) f :
  (exists rest, refusing refused run f = ((run (fl_kernel f)).1, MkFlaky (run (fl_kernel f)).2 rest) /\
     length (omap id rest) = faults f) \/
  exists e rest, refusing refused run f = (refused e, MkFlaky (fl_kernel f) rest) /\ S (length (omap id rest)) = faults f.
Proof.
  destruct f as [k [|[e|] rest]]; unfold refusing, faults; simpl.
  - left. exists []. by destruct (run k).
  - right. by exists e, rest.
  - left. exists rest. by destruct (run k).
Qed.

(** Calls the kernel itself takes are made up to the first refusal. *)
Lemma flaky_exec_all acts : forall (f : Flaky K) log k',
  exec_all acts (fl_kernel f) = (log, None, k') ->
  (exists log' rest, exec_all acts f = (log', None, MkFlaky k' rest) /\ length (omap id rest) = faults f) \/
  exists n log' log1 e k1 rest, exec_all acts f = (log', Some e, MkFlaky k1 rest) /\
    exec_all (take n acts) (fl_kernel f) = (log1, None, k1) /\ (length (omap id rest) < faults f)%nat.
Proof.
  induction acts as [|a acts IH]; intros f log k'; cbn [exec_all].
  { intros [= _ <-]. left. eexists [], (fl_faults f). by destruct f. }
  destruct (exec a (fl_kernel f)) as [[e|] k1] eqn:Ha; [done|].
  destruct (exec_all acts k1) as [[log1 e1] k2] eqn:Hr. intros [= _ -> <-].
  destruct (refusing_cases Some (exec a) f) as [(rest & Hx & Hn)|(e & rest & Hx & Hn)].
  - rewrite Ha in Hx. simpl in Hx. destruct (IH (MkFlaky k1 rest) log1 k2 Hr) as [(log' & rest' & Hl & Hn')|(n & log' & logn & e & kn & rest' & Hl & Ht & Hn')].
    + left. change (exec a f) with (refusing Some (exec a) f). rewrite Hx, Hl. eexists _, rest'. split; [done|]. unfold faults in *. simpl in *. congruence.
    + right. change (exec a f) with (refusing Some (exec a) f). rewrite Hx, Hl. eexists (S n), _, _, e, kn, rest'.
      split; [done|]. cbn [take exec_all]. rewrite Ha. simpl in Ht. rewrite Ht. split; [done|]. unfold faults in *. simpl in *. lia.
  - right. change (exec a f) with (refusing Some (exec a) f). rewrite Hx. eexists 0%nat, _, _, e, _, rest. split; [done|].
    split; [done|]. lia.
Qed.
End Flaky.

Section Routes.
Context {K P : Type} `{Kernel K} `{NetlinkConsts} `{!RouteLaws K}.
Implicit Types (w : World (Flaky K) P) (link : option Link) (expected : list Route) (k : K).

(** ** The state after an interruption *)

(** Some routes fewer. *)
Lemma route_goal_shrinks link expected k gone k1 :
  route_goal link expected k -> entries route_table k ≡ₚ gone ++ entries route_table k1 -> route_goal link expected k1.
Proof.
  intros [Hd He Ha Hl Hacc Hf] Hp. split; try done.
  - unfold listed_routes in Ha. rewrite (omap_perm route_key _ (filter (route_listed link) (gone ++ entries route_table k1))) in Ha
      by (by rewrite Hp).
    rewrite filter_app, omap_app in Ha. by apply NoDup_app in Ha as (_ & _ & ?).
  - intros e r Hin Hr. apply Hf; [done|]. unfold other_routes in *. rewrite Hp, filter_app. apply elem_of_app. by right.
Qed.

(** The stale routes are gone and some of the missing ones are there. *)
Lemma route_goal_grows link expected k (l : list Route) k1 n log kn :
  route_goal link expected k -> l ≡ₚ listed_routes link k ->
  entries route_table k1 ≡ₚ kept_routes expected l ++ other_routes link k ->
  exec_all (RouteAdd <$> take n (created_routes expected l)) k1 = (log, None, kn) ->
  route_goal link expected kn /\ other_routes link kn ≡ₚ other_routes link k.
Proof.
  intros [Hd He Ha Hl Hacc Hf] Hlk Hk1 Hx. pose proof (omap_perm route_key _ _ Hlk) as Hkeys.
  assert (NoDup (omap route_key l)) as Hla by (by rewrite Hkeys).
  assert (forall e, e ∈ take n (created_routes expected l) -> e ∈ created_routes expected l) as Htake.
  { intros e Hi. rewrite <- (take_drop n (created_routes expected l)). apply elem_of_app. by left. }
  destruct (add_all_success route_table _ _ _ _ Hx) as (ys & Hs & Hp & _).
  destruct (stored_routes link _ _ Hs) as [Hheld Hly%filter_Forall_true].
  { apply Forall_forall. intros e Hi. eapply Hl, created_expected. by apply Htake. }
  assert (Forall (fun r => route_listed link r = true) (kept_routes expected l)) as Hkl%filter_Forall_true.
  { apply Forall_forall. intros r [_ Hr]%list_elem_of_filter. rewrite Hlk in Hr. revert r Hr. apply Forall_forall, listed_Forall. }
  pose proof (filter_Forall_false _ _ (other_Forall link k)) as Hol.
  assert (other_routes link kn ≡ₚ other_routes link k) as Ho.
  { unfold other_routes at 1. rewrite Hp, Hk1, !filter_app. by rewrite (proj2 Hly), (proj2 Hkl), (proj2 Hol). }
  split; [|done]. split; try done; [|intros e r Hin Hr; rewrite Ho in Hr; by apply Hf].
  assert (listed_routes link kn ≡ₚ ys ++ kept_routes expected l) as Hlist.
  { unfold listed_routes. rewrite Hp, Hk1, !filter_app. by rewrite (proj1 Hly), (proj1 Hkl), (proj1 Hol), app_nil_r. }
  rewrite (omap_perm route_key _ _ Hlist), omap_app, (Forall2_held_keys _ _ _ _ Hheld). apply NoDup_app. split_and!.
  - pose proof (NoDup_omap_filter route_key (wanted route_key routeEqual (index_by route_key l)) expected He) as Hnd.
    fold (created_routes expected l) in Hnd. rewrite <- (take_drop n (created_routes expected l)), omap_app in Hnd.
    by apply NoDup_app in Hnd as (? & _ & _).
  - intros key (e & Hin & Hke)%elem_of_omap_key (a & Hina & Hka)%elem_of_omap_key.
    apply (kept_created_keys expected l e a); [done..|apply Hd; by eapply created_expected, Htake|by apply Htake|done|congruence].
  - by apply NoDup_omap_filter.
Qed.

(** ** Runs *)

(** A run gets to the end, or a fault has been spent and the next run has what it needs. *)
Definition settled link expected w0 w : Prop :=
  routes_in_sync link expected (fl_kernel (kern w)) /\ (faults (kern w) <= faults (kern w0))%nat /\
  other_routes link (fl_kernel (kern w)) ≡ₚ other_routes link (fl_kernel (kern w0)) /\
  others route_table (fl_kernel (kern w0)) (fl_kernel (kern w)).

Definition interrupted link expected w0 w : Prop :=
  route_goal link expected (fl_kernel (kern w)) /\ (faults (kern w) < faults (kern w0))%nat /\
  other_routes link (fl_kernel (kern w)) ≡ₚ other_routes link (fl_kernel (kern w0)).

(** The deletions of a run, up to some point. *)
Lemma deletes_some link expected o k (l : list Route) n :
  route_goal link expected k -> l ≡ₚ listed_routes link k ->
  exists k1, exec_all (RouteDel <$> take n (RouteTable_removed o l expected)) k
             = ((fun a => (a, None)) <$> (RouteDel <$> take n (RouteTable_removed o l expected)), None, k1) /\
    entries route_table k1 ≡ₚ drop n (RouteTable_removed o l expected) ++ kept_routes expected l ++ other_routes link k /\
    others route_table k k1 /\ route_goal link expected k1 /\ other_routes link k1 ≡ₚ other_routes link k.
Proof.
  intros Hg Hp. set (removed := RouteTable_removed o l expected).
  assert (NoDup (omap route_key l)) as Hla by (rewrite (omap_perm route_key _ _ Hp); apply Hg).
  assert (entries route_table k ≡ₚ take n removed ++ drop n removed ++ kept_routes expected l ++ other_routes link k) as Hk.
  { rewrite app_assoc, take_drop. unfold removed. rewrite (removed_perm _ _ _ Hla (goal_expected _ _ _ Hg)).
    rewrite (routes_split link), <- Hp, app_assoc. f_equiv. apply filter_split. }
  destruct (delete_all route_table (take n removed) k _ Hk) as (k1 & Hx & Hk1 & Hoth).
  rewrite <- Hk1 in Hk. exists k1. split_and!; [done|done|done|by eapply route_goal_shrinks|].
  unfold other_routes. rewrite Hk, filter_app.
  assert (Forall (fun r => route_listed link r = true) (take n removed)) as [_ ->]%filter_Forall_true; [|done].
  apply Forall_forall. intros r Hr. assert (r ∈ removed) as Hr' by (rewrite <- (take_drop n removed); apply elem_of_app; by left).
  apply removed_stale in Hr' as [Hr' _]; [|apply Hg]. rewrite Hp in Hr'. revert r Hr' Hr. intros r Hr _. revert r Hr.
  apply Forall_forall, listed_Forall.
Qed.

Lemma flaky_run link expected w :
  route_goal link expected (fl_kernel (kern w)) ->
  (exists w', RouteTable_Ensure link expected true w = (Ret tt, w') /\ settled link expected w w') \/
  (exists e w', RouteTable_Ensure link expected true w = (Err e, w') /\ interrupted link expected w w').
Proof.
  intros Hg. destruct (RouteList_lists link (fl_kernel (kern w))) as (l & Hl & Hp).
  fold (listed_routes link (fl_kernel (kern w))) in Hp.
  destruct (refusing_cases inr (k_RouteList link FAMILY_ALL) (kern w)) as [(rest & Hx & Hn)|(e & rest & Hx & Hn)]; cycle 1.
  { right. eexists _, _. split; [by apply RouteTable_Ensure_list_error|]. split_and!; [done| |done].
    unfold faults in *. simpl in *. lia. }
  rewrite Hl in Hx. simpl in Hx. set (f0 := MkFlaky (fl_kernel (kern w)) rest) in Hx.
  change (k_RouteList link FAMILY_ALL (kern w) = (inl l, f0)) in Hx.
  rewrite (RouteTable_Ensure_delete _ _ _ _ _ Hx) by apply Hg. cbv zeta.
  set (removed := RouteTable_removed (sched w 0%nat) l expected).
  destruct (deletes_some link expected (sched w 0%nat) _ l (length removed) Hg Hp) as (k1 & Hd & Hk1 & Hoth & Hg1 & Ho1).
  fold removed in Hd, Hk1. rewrite take_ge in Hd by done. rewrite drop_ge in Hk1 by done.
  destruct (flaky_exec_all _ f0 _ _ Hd) as [(log & rest1 & -> & Hn1)|(n & log & logn & e & kn & rest1 & -> & Ht & Hn1)]; cycle 1.
  { right. eexists _, _. split; [reflexivity|]. rewrite <- fmap_take in Ht.
    destruct (deletes_some link expected (sched w 0%nat) _ l n Hg Hp) as (kn' & Hd' & _ & _ & Hgn & Hon).
    fold removed in Hd'. simpl in Ht. rewrite Hd' in Ht. injection Ht as _ <-.
    split_and!; [done| |done]. unfold faults in *. simpl in *. lia. }
  destruct (create_routes link expected _ l k1 Hg Hp Hk1) as (k2 & Hc & Hs & Ho2 & Ho3).
  fold (created_routes expected l).
  destruct (flaky_exec_all _ (MkFlaky k1 rest1) _ _ Hc) as [(log2 & rest2 & -> & Hn2)|(n & log2 & logn & e & kn & rest2 & -> & Ht & Hn2)].
  - left. eexists. split; [reflexivity|]. split_and!; [done| |done|by transitivity k1].
    unfold faults in *. simpl in *. lia.
  - right. eexists _, _. split; [reflexivity|]. rewrite <- fmap_take in Ht. simpl in Ht.
    destruct (route_goal_grows link expected _ l k1 n _ kn Hg Hp Hk1 Ht) as [Hgn Hon].
    split_and!; [done| |done]. unfold faults in *. simpl in *. lia.
Qed.

(** One run after the other, each on what the one before has left. *)
Definition attempts link expected (n : nat) w : World (Flaky K) P :=
  Nat.iter n (fun w => (RouteTable_Ensure link expected true w).2) w.

Lemma attempts_S link expected n w :
  attempts link expected (S n) w = attempts link expected n (RouteTable_Ensure link expected true w).2.
Proof. apply Nat.iter_succ_r. Qed.

(** C15: Transient failures of the kernel do not keep the routes from converging, where
    [RouteTable.Ensure] is called with [deleteExtraRoutes] - as the two vxlan providers call it, and the
    layer2 and gre providers do not: without it a changed route is refused for ever
    ([changed_route_never_repaired]) - and the kernel takes the expected routes when it does not
    fail ([route_goal]). However the calls of a run are refused, between any two of its deletions
    and additions, the run returns an error and leaves the table in a state from which the next run can go
    on; there are no more failing runs than faults, and the run after them leaves exactly the
    expected routes, and the routes outside of the listing as they were. *)
Theorem routes_converge_despite_faults link expected w :
  route_goal link expected (fl_kernel (kern w)) ->
  exists n, (n <= faults (kern w))%nat /\
    (forall i, (i < n)%nat -> exists e, (RouteTable_Ensure link expected true (attempts link expected i w)).1 = Err e) /\
    exists w', RouteTable_Ensure link expected true (attempts link expected n w) = (Ret tt, w') /\
      routes_in_sync link expected (fl_kernel (kern w')) /\
      other_routes link (fl_kernel (kern w')) ≡ₚ other_routes link (fl_kernel (kern w)).
Proof.
  remember (faults (kern w)) as c eqn:Hc. revert w Hc. induction (lt_wf c) as [c _ IH]. intros w -> Hg.
  destruct (flaky_run link expected w Hg) as [(w' & Hr & Hs & _ & Ho & _)|(e & w' & Hr & Hg' & Hlt & Ho)].
  { exists 0%nat. split; [lia|]. split; [intros i Hi; lia|]. by exists w'. }
  destruct (IH _ Hlt w' eq_refl Hg') as (n & Hn & Hfail & w2 & Hr2 & Hs2 & Ho2).
  assert (forall i, attempts link expected (S i) w = attempts link expected i w') as Hatt.
  { intros i. by rewrite attempts_S, Hr. }
  exists (S n). split; [lia|]. split.
  - intros [|i] Hi; [by exists e; simpl; rewrite Hr|]. rewrite Hatt. apply Hfail. lia.
  - exists w2. rewrite Hatt. split_and!; [done|done|by rewrite Ho2].
Qed.
End Routes.

Section Witnesses.
#[local] Existing Instance netlink_v1_1_0.

(** The listing works, the first deletion too, the second one is refused; later an addition is. *)
Definition sim_flaky : World (Flaky Sim) unit :=
  MkWorld (MkFlaky sim_routing [None; None; Some (Errno 12); None; None; None; Some (Errno 4)]) [] (fun _ => in_order) tt.

(** Both faults are met: it is the third run that gets to the end. *)
Example sim_flaky_runs :
  map (fun n => (RouteTable_Ensure (Some eth0) sim_expected true (attempts (Some eth0) sim_expected n sim_flaky)).1) [0; 1; 2]%nat
  = [Err (Errorf "error removing route: %v" (Errno 12)); Err (Errorf "error creating route %v: %v" (Errno 4)); Ret tt].
Proof. vm_compute. reflexivity. Qed.

Lemma routes_converge_despite_faults_witness :
  exists n w', (n <= 2)%nat /\
    RouteTable_Ensure (Some eth0) sim_expected true (attempts (Some eth0) sim_expected n sim_flaky) = (Ret tt, w') /\
    routes_in_sync (Some eth0) sim_expected (fl_kernel (kern w')).
Proof.
  destruct (routes_converge_despite_faults (Some eth0) sim_expected sim_flaky sim_goal) as (n & Hn & _ & w' & Hr & Hs & _).
  exists n, w'. split; [exact Hn|]. split; [exact Hr|exact Hs].
Defined.
End Witnesses.
