(* ===== verification/AddrFacts.v ===== *)
(** * What [EnsureLinkAddresses] does: pkg/routing/netutil/link_addresses.go *)

From S2P Require Import Prelude GoNet GoNetFacts Netlink Effects Reconcile Tables Netutil.
From S2P Require Import LinkAddresses KernelLaws Sim.

Section Runs.
Context {K P : Type} `{Kernel K} `{NetlinkConsts}.

(** The addresses a run adds and those it removes, from what is listed and expected. *)
Definition addr_created (o : Order) (actual expected : list Addr) : list Addr :=
  not_in_or_changed addrEqual (index_by addr_actual_key actual) (range o (index_by addr_expected_key expected)).

Definition addr_removed (o1 o2 : Order) (actual expected : list Addr) : list Addr :=
  (fst <$> changed addrEqual (index_by addr_actual_key actual) (range o1 (index_by addr_expected_key expected)))
  ++ not_in (index_by addr_expected_key expected) (range o2 (index_by addr_actual_key actual)).

Lemma EnsureLinkAddresses_eq link expected (w : World K P) actual k :
  k_AddrList link FAMILY_ALL (kern w) = (inl actual, k) ->
  EnsureLinkAddresses link expected w
  = let s := fun n => sched w (S (S n)) in
    let '(log, e, k1) := exec_all (AddrAdd link <$> addr_created (sched w 0%nat) actual expected) k in
    match e with
    | Some e => (Err (Errorf "error doing `ip addr add %s dev link %s`: %v" e), after w s log k1)
    | None =>
        let '(log2, e2, k2) :=
          exec_all (AddrDel link <$> addr_removed (sched w 0%nat) (sched w 1%nat) actual expected) k1 in
        (outcome_of "error doing `ip addr del %s dev link %s address: %v" e2, after w s (log ++ log2) k2)
    end.
Proof.
  intros Hl. unfold EnsureLinkAddresses. rewrite (bind_query _ _ _ _ _ _ Hl), bind_order. world.
  rewrite bind_order. world. rewrite bind_run, each_call. world.
  unfold addr_created. destruct (exec_all _ k) as [[log [e|]] k1]; unfold outcome_of at 1; world; [done|].
  rewrite each_call. world. unfold addr_removed. destruct (exec_all _ k1) as [[log2 e2] k2]. by world.
Qed.

(** On any kernel, a run that finds the expected addresses makes no call. *)
Lemma EnsureLinkAddresses_settled link expected (w : World K P) actual k :
  k_AddrList link FAMILY_ALL (kern w) = (inl actual, k) ->
  in_sync addrEqual (index_by addr_actual_key actual) (index_by addr_expected_key expected) ->
  EnsureLinkAddresses link expected w = (Ret tt, after w (fun n => sched w (S (S n))) [] k).
Proof.
  intros Hl Hs. rewrite (EnsureLinkAddresses_eq _ _ _ _ _ Hl). cbv zeta.
  assert (forall o, addr_created o actual expected = []) as ->.
  { intros o. destruct (addr_created o actual expected) as [|e l] eqn:Hc; [done|exfalso].
    assert (e ∈ addr_created o actual expected) as He by (rewrite Hc; by left).
    apply elem_of_not_in_or_changed in He as (i & Hi & Hw). specialize (Hs i). rewrite Hi in Hs.
    destruct (index_by addr_actual_key actual !! i) as [a|]; [|done]. by rewrite Hw in Hs. }
  assert (forall o1 o2, addr_removed o1 o2 actual expected = []) as ->; [|done].
  intros o1 o2. destruct (addr_removed o1 o2 actual expected) as [|a l] eqn:Hc; [done|exfalso].
  assert (a ∈ addr_removed o1 o2 actual expected) as Ha by (rewrite Hc; by left).
  unfold addr_removed in Ha. rewrite elem_of_app, elem_of_not_in in Ha.
  destruct Ha as [((b & e) & -> & (i & Hi & Hb & Hq)%elem_of_changed)%list_elem_of_fmap|(i & Ha & Hn)];
    specialize (Hs i).
  - rewrite Hb, Hi in Hs. congruence.
  - by rewrite Ha, Hn in Hs.
Qed.
End Runs.

Section Laws.
Context {K P : Type} `{Kernel K} `{NetlinkConsts} `{!AddrLaws K}.
Implicit Types (w : World K P) (link : Link) (expected : list Addr) (k : K).

(** The expected addresses are taken by the kernel, have a network and are not link-local. *)
Definition addr_usable link expected : Prop :=
  forall e, e ∈ expected -> accepts (addr_table link) e /\ is_Some (addr_actual_key e).

Lemma usable_key e : is_Some (addr_actual_key e) -> addr_expected_key e = addr_actual_key e.
Proof.
  unfold addr_expected_key, addr_actual_key. destruct (addr_IPNet e) as [n|]; [|by intros []].
  simpl. by destruct (IsLinkLocalUnicast _); [intros []|].
Qed.

Lemma addrEqual_key a e :
  addrEqual a e = true -> addr_expected_key a = addr_expected_key e ->
  addr_actual_key a = addr_actual_key e.
Proof.
  unfold addrEqual, addr_actual_key, addr_expected_key.
  destruct (_ || _); [done|]. destruct (ipnetEqual _ _) eqn:Hn; [|done]. intros _.
  destruct (addr_IPNet a) as [na|], (addr_IPNet e) as [ne|]; try done. simpl. intros [= Hs].
  apply ipnetEqual_iff in Hn as [_ Hip]. apply ipEqual_iff in Hip as [_ Hip%IP_Equal_iff].
  by rewrite (IsLinkLocalUnicast_Equal _ _ Hip), Hs.
Qed.

Lemma addr_created_expected o actual expected e : e ∈ addr_created o actual expected -> e ∈ expected.
Proof. intros (i & Hi & _)%elem_of_not_in_or_changed. by apply index_by_Some in Hi as [Hi _]. Qed.

Lemma addr_apart link (l : list Addr) :
  (forall e, e ∈ l -> is_Some (addr_expected_key e)) ->
  NoDup (addr_expected_key <$> l) -> apart (addr_table link) l.
Proof.
  induction l as [|x l IH]; [done|]. intros Hk Hnd. cbn in *. apply NoDup_cons in Hnd as [Hn Hnd].
  split; [|apply IH; [intros e He; apply Hk; by right|done]].
  intros y Hy. rewrite addr_occupies. apply not_true_iff_false. unfold addr_conflict.
  intros Hc%bool_decide_eq_true. apply Hn. rewrite Hc. by apply list_elem_of_fmap_2.
Qed.

Lemma created_keys_NoDup o actual expected :
  NoDup (addr_expected_key <$> addr_created o actual expected).
Proof.
  assert (forall e, e ∈ addr_created o actual expected -> is_Some (addr_expected_key e)) as Hsome.
  { intros e (i & Hi & _)%elem_of_not_in_or_changed. apply index_by_Some in Hi as [_ ->]. eauto. }
  assert (addr_expected_key <$> addr_created o actual expected
          = Some <$> ((default EmptyString ∘ addr_expected_key) <$> addr_created o actual expected)) as ->.
  { rewrite <- list_fmap_compose. apply list_fmap_ext. intros i e He%list_elem_of_lookup_2.
    simpl. by destruct (Hsome e He) as [? ->]. }
  apply NoDup_fmap_2; [apply _|]. apply NoDup_omap_fst; [apply NoDup_range_keys|].
  intros [i a] c Hin%elem_of_range Hc. apply index_by_Some in Hin as [_ Hk]. simpl in *.
  destruct (index_by addr_actual_key actual !! i) as [b|]; [destruct (addrEqual b a)|]; [done| |];
    injection Hc as <-; by rewrite Hk.
Qed.

(** No address of the link has the network of an expected one and differs from it. *)
Definition addrs_agree link expected k : Prop :=
  forall a e, a ∈ entries (addr_table link) k -> e ∈ expected ->
    addr_expected_key a = addr_expected_key e -> addrEqual a e = true.

Lemma created_free link expected k actual o e a :
  addr_usable link expected -> actual ≡ₚ entries (addr_table link) k ->
  NoDup (omap addr_actual_key actual) -> addrs_agree link expected k ->
  e ∈ addr_created o actual expected -> a ∈ actual -> addr_conflict a e = false.
Proof.
  intros Hu Hp Hnd Hsame (i & Hi & Hw)%elem_of_not_in_or_changed Ha. apply not_true_iff_false.
  unfold addr_conflict. intros Hc%bool_decide_eq_true. apply index_by_Some in Hi as [He Hi].
  pose proof (Hsame a e ltac:(by rewrite <- Hp) He Hc) as Heq.
  assert (addr_actual_key a = Some i) as Hai.
  { by rewrite (addrEqual_key _ _ Heq Hc), <- usable_key by (by apply Hu). }
  specialize (Hw a). rewrite Heq in Hw. discriminate Hw. by apply index_by_unique.
Qed.

(** What is removed, when nothing has changed: the addresses that are not expected. *)
Lemma removed_iff o1 o2 link expected k actual a :
  actual ≡ₚ entries (addr_table link) k -> NoDup (omap addr_actual_key actual) -> addrs_agree link expected k ->
  a ∈ addr_removed o1 o2 actual expected
  <-> a ∈ actual /\ exists i, addr_actual_key a = Some i /\ index_by addr_expected_key expected !! i = None.
Proof.
  intros Hp Hnd Hsame. unfold addr_removed. rewrite elem_of_app, elem_of_not_in. split.
  - intros [((b & e) & -> & (i & Hi & Ha & Hq)%elem_of_changed)%list_elem_of_fmap|(i & Ha & Hn)].
    + apply index_by_Some in Hi as [He Hi], Ha as [Ha Hai]. simpl in *.
      rewrite (Hsame b e) in Hq; [done|by rewrite <- Hp|done|].
      rewrite Hi. unfold addr_actual_key, addr_expected_key in *. destruct (addr_IPNet b); [|done].
      by destruct (IsLinkLocalUnicast _).
    + apply index_by_Some in Ha as [Ha Hai]. eauto.
  - intros (Ha & i & Hi & Hn). right. exists i. split; [|done]. by apply index_by_unique.
Qed.

Lemma removed_NoDup o1 o2 link expected k actual :
  actual ≡ₚ entries (addr_table link) k -> NoDup (omap addr_actual_key actual) -> addrs_agree link expected k ->
  NoDup (addr_removed o1 o2 actual expected).
Proof.
  intros Hp Hnd Hsame. unfold addr_removed.
  assert (changed addrEqual (index_by addr_actual_key actual) (range o1 (index_by addr_expected_key expected)) = []) as ->.
  { destruct (changed _ _ _) as [|[a e] l] eqn:Hc; [done|exfalso].
    assert (a ∈ addr_removed o1 o2 actual expected) as Ha.
    { unfold addr_removed. rewrite Hc. by left. }
    apply (removed_iff o1 o2 link expected k actual a Hp Hnd Hsame) in Ha as (_ & i & Hi & Hn).
    assert ((a, e) ∈ (a, e) :: l) as Hin by (by left). rewrite <- Hc in Hin.
    apply elem_of_changed in Hin as (j & He & Ha & _). apply index_by_Some in Ha as [_ Ha]. congruence. }
  apply NoDup_not_in.
Qed.

(** The addresses that are left alone. *)
Definition addr_kept o1 o2 (actual expected : list Addr) : list Addr :=
  filter (fun a => negb (bool_decide (a ∈ addr_removed o1 o2 actual expected))) actual.

Lemma kept_split o1 o2 link expected k actual :
  actual ≡ₚ entries (addr_table link) k -> NoDup (omap addr_actual_key actual) -> addrs_agree link expected k ->
  actual ≡ₚ addr_removed o1 o2 actual expected ++ addr_kept o1 o2 actual expected.
Proof.
  intros Hp Hnd Hsame. pose proof (fun a => removed_iff o1 o2 link expected k actual a Hp Hnd Hsame) as Hiff.
  rewrite (filter_split (fun a => bool_decide (a ∈ addr_removed o1 o2 actual expected)) actual) at 1.
  unfold addr_kept. f_equiv. apply NoDup_Permutation.
  - apply (NoDup_filter_keyed addr_actual_key); [|done].
    intros a Ha%bool_decide_eq_true. apply Hiff in Ha as (_ & i & -> & _). eauto.
  - by eapply removed_NoDup.
  - intros a. rewrite list_elem_of_filter, bool_decide_spec, Hiff. naive_solver.
Qed.

Lemma addrs_final link expected k actual o1 o2 ys i :
  addr_usable link expected -> actual ≡ₚ entries (addr_table link) k ->
  NoDup (omap addr_actual_key actual) -> addrs_agree link expected k ->
  Forall2 (stored (addr_table link)) (addr_created o1 actual expected) ys ->
  i ∈ omap addr_actual_key (ys ++ addr_kept o1 o2 actual expected) <-> i ∈ omap addr_actual_key expected.
Proof.
  intros Hu Hp Hnd Hsame Hs. rewrite !list_elem_of_omap. split.
  - intros (a & [Ha|Ha]%elem_of_app & Hi).
    + apply list_elem_of_lookup in Ha as [n Hn].
      destruct (Forall2_lookup_r _ _ _ _ _ Hs Hn) as (e & He%list_elem_of_lookup_2 & Hse).
      exists e. apply addr_stored in Hse as [_ Hse]. split; [by eapply addr_created_expected|congruence].
    + apply list_elem_of_filter in Ha as [Hn Ha].
      destruct (index_by addr_expected_key expected !! i) as [e|] eqn:He.
      * apply index_by_Some in He as [He Hke]. exists e. split; [done|].
        by rewrite <- usable_key by (by apply Hu).
      * exfalso. rewrite bool_decide_eq_true_2 in Hn; [done|].
        apply (removed_iff o1 o2 link expected k actual a Hp Hnd Hsame). eauto.
  - intros (e & He & Hi). assert (addr_expected_key e = Some i) as Hke by (by rewrite usable_key by (by apply Hu)).
    destruct (index_by_is_Some _ _ _ _ He Hke) as [e' He'].
    destruct (index_by addr_actual_key actual !! i) as [a|] eqn:Ha.
    + apply index_by_Some in Ha as [Ha Hka]. exists a. split; [|done]. apply elem_of_app. right.
      apply list_elem_of_filter. split; [|done]. rewrite bool_decide_eq_false_2; [done|].
      intros Hr. apply (removed_iff o1 o2 link expected k actual a Hp Hnd Hsame) in Hr as (_ & j & Hj & Hn).
      congruence.
    + assert (e' ∈ addr_created o1 actual expected) as Hc.
      { apply elem_of_not_in_or_changed. exists i. split; [done|]. intros b Hb. congruence. }
      apply list_elem_of_lookup in Hc as [n Hn].
      destruct (Forall2_lookup_l _ _ _ _ _ Hs Hn) as (y & Hy%list_elem_of_lookup_2 & Hse).
      exists y. split; [apply elem_of_app; by left|]. apply addr_stored in Hse as [_ ->].
      apply index_by_Some in He' as [He' Hke']. by rewrite <- usable_key by (by apply Hu).
Qed.

(** C29: on a kernel that keeps the contract of a link's addresses, when no address of the link
    differs from an expected one with the same network, [EnsureLinkAddresses] succeeds:
    afterwards the link has an address for a network, link-local ones aside, exactly if it is
    expected, and its other addresses are as they were. *)
Theorem link_addresses_converge link expected w :
  addr_usable link expected ->
  NoDup (omap addr_actual_key (entries (addr_table link) (kern w))) ->
  addrs_agree link expected (kern w) ->
  exists log s k',
    EnsureLinkAddresses link expected w = (Ret tt, after w s log k') /\
    (forall i, i ∈ omap addr_actual_key (entries (addr_table link) k') <-> i ∈ omap addr_actual_key expected) /\
    (forall a, addr_actual_key a = None -> a ∈ entries (addr_table link) (kern w) ->
       a ∈ entries (addr_table link) k').
Proof.
  intros Hu Hnd Hsame. destruct (AddrList_lists link (kern w)) as (actual & Hl & Hp).
  assert (NoDup (omap addr_actual_key actual)) as Hnda by (by rewrite Hp).
  rewrite (EnsureLinkAddresses_eq _ _ _ _ _ Hl). cbv zeta.
  set (o1 := sched w 0%nat). set (o2 := sched w 1%nat).
  destruct (add_all (addr_table link) (addr_created o1 actual expected) (kern w)) as (ys & k1 & Hr1 & Hs & Hk1 & _).
  { intros e He. by eapply Hu, addr_created_expected. }
  { apply addr_apart; [|apply created_keys_NoDup]. intros e He.
    rewrite usable_key; by eapply Hu, addr_created_expected. }
  { intros e a He Ha. rewrite addr_occupies. eapply created_free; [done..|by rewrite Hp]. }
  destruct (delete_all (addr_table link) (addr_removed o1 o2 actual expected) k1
              (ys ++ addr_kept o1 o2 actual expected)) as (k2 & Hr2 & Hk2 & _).
  { rewrite Hk1, <- Hp, (kept_split o1 o2 _ _ _ _ Hp Hnda Hsame) at 1.
    by rewrite !app_assoc, (Permutation_app_comm ys). }
  rewrite Hr1, Hr2. eexists _, _, k2. split; [reflexivity|]. split.
  - intros i. rewrite Hk2. by eapply addrs_final.
  - intros a Hn Ha. rewrite Hk2. apply elem_of_app. right. apply list_elem_of_filter.
    split; [|by rewrite Hp]. rewrite bool_decide_eq_false_2; [done|].
    intros Hr. eapply removed_iff in Hr as (_ & i & Hi & _); [congruence|done..].
Qed.

(** New addresses are added before old ones are removed, so an expected address whose
    network the link already has with another label, scope or flags is refused by the kernel:
    the run ends with EEXIST and nothing is removed. *)
Theorem changed_address_refused link expected w a e :
  addr_usable link expected ->
  NoDup (omap addr_actual_key (entries (addr_table link) (kern w))) ->
  index_by addr_expected_key expected !! IPNet_String a = Some e ->
  forall x, x ∈ entries (addr_table link) (kern w) -> addr_actual_key x = Some (IPNet_String a) ->
  addrEqual x e = false ->
  exists log s k',
    EnsureLinkAddresses link expected w
    = (Err (Errorf "error doing `ip addr add %s dev link %s`: %v" EEXIST), after w s log k') /\
    (forall y, y ∈ entries (addr_table link) (kern w) -> y ∈ entries (addr_table link) k').
Proof.
  intros Hu Hnd He x Hx Hkx Hq. destruct (AddrList_lists link (kern w)) as (actual & Hl & Hp).
  assert (NoDup (omap addr_actual_key actual)) as Hnda by (by rewrite Hp).
  rewrite (EnsureLinkAddresses_eq _ _ _ _ _ Hl). cbv zeta. set (o1 := sched w 0%nat).
  assert (index_by addr_actual_key actual !! IPNet_String a = Some x) as Hix.
  { apply index_by_unique; [done|]. by rewrite Hp. }
  destruct (add_all_blocked (addr_table link) (addr_created o1 actual expected) e (kern w) x)
    as (log & ys & k' & Hr & Hp' & _); [|  |done| |].
  - intros z Hz. by eapply Hu, addr_created_expected.
  - apply elem_of_not_in_or_changed. exists (IPNet_String a). split; [done|]. intros b Hb. congruence.
  - rewrite addr_occupies. apply bool_decide_eq_true. apply index_by_Some in He as [_ ->].
    rewrite <- Hkx. apply usable_key. by rewrite Hkx.
  - rewrite Hr. eexists _, _, k'. split; [reflexivity|]. intros y Hy. rewrite Hp'. apply elem_of_app. by right.
Qed.
End Laws.

Section Witnesses.
#[local] Existing Instance netlink_v1_1_0.

Definition sim_addressed : Sim := set_addrs
  [(eth0, MkAddr (Some (net4 169 254 1 1 16)) EmptyString 0 0); (eth0, MkAddr (Some (net4 10 9 0 1 24)) EmptyString 0 0)] sim_empty.

Definition sim_address : Addr := MkAddr (Some (net4 100 96 1 0 32)) EmptyString 0 0.

Lemma sim_usable e : e ∈ [sim_address] -> accepts (addr_table eth0) e /\ is_Some (addr_actual_key e).
Proof. intros ->%list_elem_of_singleton. split; [exact I|by_computation]. Qed.

Lemma link_addresses_converge_witness :
  exists log s k',
    EnsureLinkAddresses (P := unit) eth0 [sim_address] (sim_world sim_addressed tt)
    = (Ret tt, after (sim_world sim_addressed tt) s log k').
Proof.
  destruct (link_addresses_converge (P := unit) eth0 [sim_address] (sim_world sim_addressed tt) sim_usable)
    as (log & s & k' & Hr & _).
  - by_computation.
  - intros a e Ha He. apply (bool_decide_unpack _). revert e He. apply Forall_forall.
    revert a Ha. apply Forall_forall. by_computation.
  - exists log, s, k'. exact Hr.
Defined.

Lemma changed_address_refused_witness :
  let old := MkAddr (Some (net4 100 96 1 0 32)) "eth0" 128 0 in
  exists log s k',
    EnsureLinkAddresses (P := unit) eth0 [sim_address] (sim_world (set_addrs [(eth0, old)] sim_empty) tt)
    = (Err (Errorf "error doing `ip addr add %s dev link %s`: %v" EEXIST),
       after (sim_world (set_addrs [(eth0, old)] sim_empty) tt) s log k').
Proof.
  intros old.
  destruct (changed_address_refused (P := unit) eth0 [sim_address]
              (sim_world (set_addrs [(eth0, old)] sim_empty) tt) (net4 100 96 1 0 32) sim_address sim_usable)
    with (x := old) as (log & s & k' & Hr & _).
  - by_computation.
  - reflexivity.
  - by left.
  - reflexivity.
  - reflexivity.
  - exists log, s, k'. exact Hr.
Defined.
End Witnesses.
