(* ===== verification/XfrmFacts.v ===== *)
(** * What [XfrmStateTable.Ensure] does: pkg/routing/netutil/xfrm_state_table.go *)

From S2P Require Import Prelude GoNet GoNetFacts Netlink Effects Reconcile Tables Netutil.
From S2P Require Import XfrmTables KernelLaws Sim.

Definition state_key (s : XfrmState) : option Z := Some (xs_Spi s).

Lemma omap_state_key (l : list XfrmState) : omap state_key l = xs_Spi <$> l.
Proof. induction l as [|s l IH]; [done|]. cbn. by f_equal. Qed.

Lemma xfrmStateEqual_Spi a e : xfrmStateEqual a e = true -> xs_Spi a = xs_Spi e.
Proof.
  unfold xfrmStateEqual. repeat (case_match; [done|]). intros _.
  by repeat match goal with H : negb (xs_Spi _ =? _) = false |- _ => apply negb_false_iff, Z.eqb_eq in H end.
Qed.

Lemma state_conflict_Spi a e : state_conflict a e = true -> xs_Spi a = xs_Spi e.
Proof. unfold state_conflict. rewrite !andb_true_iff. by intros [_ ->%Z.eqb_eq]. Qed.

Lemma xfrmStateEqual_conflict a e : xfrmStateEqual a e = true -> state_conflict a e = true.
Proof.
  unfold xfrmStateEqual, state_conflict. repeat (case_match; [done|]). intros _.
  repeat match goal with H : negb _ = false |- _ => apply negb_false_iff in H end.
  by rewrite !andb_true_iff.
Qed.

(** ** The duplicate check *)

Lemma states_by_spi_Some (l : list XfrmState) : forall m,
  NoDup (xs_Spi <$> l) -> (forall s, s ∈ l -> m !! xs_Spi s = None) ->
  states_by_spi l m = Some (foldl (fun m s => <[xs_Spi s := s]> m) m l).
Proof.
  induction l as [|s l IH]; intros m Hnd Hn; [done|]. cbn in *. apply NoDup_cons in Hnd as [Hni Hnd].
  rewrite (Hn s) by (by left). apply IH; [done|]. intros s' Hin.
  rewrite lookup_insert_ne; [apply Hn; by right|]. intros He. apply Hni. rewrite He.
  by apply list_elem_of_fmap_2.
Qed.

Lemma states_by_spi_None (l : list XfrmState) : forall m,
  ~ NoDup (xs_Spi <$> l) -> states_by_spi l m = None.
Proof.
  assert (forall l m s, s ∈ l -> is_Some (m !! xs_Spi s) -> states_by_spi l m = None) as Hin.
  { clear l. intros l. induction l as [|x l IH]; intros m s Hs Hm; [by apply not_elem_of_nil in Hs|].
    simpl. destruct (m !! xs_Spi x) eqn:Hx; [done|]. apply elem_of_cons in Hs as [->|Hs].
    - rewrite Hx in Hm. by destruct Hm.
    - apply (IH _ s Hs). destruct (decide (xs_Spi x = xs_Spi s)) as [He|He].
      + rewrite He, lookup_insert_eq. eauto.
      + by rewrite lookup_insert_ne. }
  induction l as [|s l IH]; intros m Hnd; [destruct Hnd; apply NoDup_nil_2|]. simpl.
  destruct (m !! xs_Spi s); [done|].
  destruct (decide (xs_Spi s ∈ xs_Spi <$> l)) as [(s' & He & Hs')%list_elem_of_fmap|Hn].
  - apply (Hin _ _ s' Hs'). rewrite <- He, lookup_insert_eq. eauto.
  - apply IH. intros Hl. apply Hnd. cbn. by apply NoDup_cons.
Qed.

Lemma states_by_spi_spec (l : list XfrmState) :
  states_by_spi l ∅ = if decide (NoDup (xs_Spi <$> l)) then Some (index_by state_key l) else None.
Proof.
  case_decide; [|by apply states_by_spi_None]. apply states_by_spi_Some; [done|].
  intros s _. apply lookup_empty.
Qed.

Section Runs.
Context {K P : Type} `{Kernel K} `{NetlinkConsts}.
Implicit Types (w : World K P) (actual expected : list XfrmState).

(** The states a run creates, updates and removes. *)
Definition states_created o actual expected : list XfrmState :=
  not_in (index_by state_key actual) (range o (index_by state_key expected)).
Definition states_updated o actual expected : list (XfrmState * XfrmState) :=
  changed xfrmStateEqual (index_by state_key actual) (range o (index_by state_key expected)).
Definition states_removed o actual expected : list XfrmState :=
  not_in (index_by state_key expected) (range o (index_by state_key actual)).

Lemma XfrmStateTable_Ensure_dup expected w actual k :
  k_XfrmStateList FAMILY_ALL (kern w) = (inl actual, k) -> ~ NoDup (xs_Spi <$> expected) ->
  XfrmStateTable_Ensure expected w = (Exit, after w (sched w) [] k).
Proof.
  intros Hl Hd. unfold XfrmStateTable_Ensure. rewrite (bind_query _ _ _ _ _ _ Hl), states_by_spi_spec.
  by rewrite decide_False.
Qed.

Lemma XfrmStateTable_Ensure_eq expected w actual k :
  k_XfrmStateList FAMILY_ALL (kern w) = (inl actual, k) -> NoDup (xs_Spi <$> expected) ->
  XfrmStateTable_Ensure expected w
  = let s := fun n => sched w (S (S n)) in
    let '(log, e, k1) := exec_all (XfrmStateAdd <$> states_created (sched w 0%nat) actual expected) k in
    match e with
    | Some e => (Err (Errorf "error creating state %v: %v" e), after w s log k1)
    | None =>
        let '(log2, e2, k2) := exec_all (XfrmStateUpdate <$> (snd <$> states_updated (sched w 0%nat) actual expected)) k1 in
        match e2 with
        | Some e2 => (Err (Errorf "error updating state %v: %v" e2), after w s (log ++ log2) k2)
        | None =>
            let '(log3, e3, k3) := exec_all (XfrmStateDel <$> states_removed (sched w 1%nat) actual expected) k2 in
            (outcome_of "error removing state: %v" e3, after w s (log ++ log2 ++ log3) k3)
        end
    end.
Proof.
  intros Hl Hd. unfold XfrmStateTable_Ensure. rewrite (bind_query _ _ _ _ _ _ Hl), states_by_spi_spec.
  rewrite decide_True by done. fold state_key. rewrite bind_order. world. rewrite bind_order. world.
  rewrite bind_run, each_call. world. unfold states_created.
  destruct (exec_all _ k) as [[log [e|]] k1]; unfold outcome_of at 1; world; [done|].
  rewrite bind_run, each_call. world. unfold states_updated.
  destruct (exec_all _ k1) as [[log2 [e2|]] k2]; unfold outcome_of at 1; world; [done|].
  rewrite each_call. world. unfold states_removed. destruct (exec_all _ k2) as [[log3 e3] k3]. world.
  by rewrite <- app_assoc.
Qed.
End Runs.

Section Laws.
Context {K P : Type} `{Kernel K} `{NetlinkConsts} `{!StateLaws K}.
Implicit Types (w : World K P) (expected actual l : list XfrmState) (k : K).

(** What [Ensure] needs to succeed: one expected state per SPI, and the states the kernel holds
    have distinct SPIs and the destination and protocol of the expected state of their SPI. *)
Record states_goal expected k : Prop := {
  sg_expected : NoDup (xs_Spi <$> expected);
  sg_accepts : forall e, e ∈ expected -> accepts state_table e;
  sg_actual : NoDup (xs_Spi <$> entries state_table k);
  sg_agree : forall a e, a ∈ entries state_table k -> e ∈ expected -> xs_Spi a = xs_Spi e ->
    state_conflict a e = true
}.

Lemma Spi_inj l x y : NoDup (xs_Spi <$> l) -> x ∈ l -> y ∈ l -> xs_Spi x = xs_Spi y -> x = y.
Proof. apply (key_inj xs_Spi). Qed.

Lemma state_index l i s : NoDup (xs_Spi <$> l) -> index_by state_key l !! i = Some s <-> s ∈ l /\ xs_Spi s = i.
Proof.
  intros Hnd. rewrite index_by_unique by (by rewrite omap_state_key). unfold state_key. naive_solver.
Qed.

Lemma state_index_None l i : index_by state_key l !! i = None <-> forall s, s ∈ l -> xs_Spi s ≠ i.
Proof. rewrite index_by_None. unfold state_key. naive_solver. Qed.

Lemma apart_states l : NoDup (xs_Spi <$> l) -> apart state_table l.
Proof.
  induction l as [|x l IH]; [done|]. cbn. intros [Hn Hnd]%NoDup_cons. split; [|by apply IH].
  intros y Hy. rewrite state_occupies. apply not_true_iff_false. intros Hc%state_conflict_Spi.
  apply Hn. rewrite Hc. by apply list_elem_of_fmap_2.
Qed.

Lemma stored_Spi e y : stored state_table e y -> xs_Spi y = xs_Spi e.
Proof. intros Hs. by apply xfrmStateEqual_Spi, state_stored. Qed.

(** Updating states the table holds. *)
Lemma update_all l : forall k olds rest,
  entries state_table k ≡ₚ olds ++ rest -> NoDup (xs_Spi <$> entries state_table k) ->
  Forall2 (fun y x => state_conflict y x = true) olds l -> (forall x, x ∈ l -> accepts state_table x) ->
  exists ys k', exec_all (XfrmStateUpdate <$> l) k = ((fun a => (a, None)) <$> (XfrmStateUpdate <$> l), None, k') /\
    Forall2 (stored state_table) l ys /\ entries state_table k' ≡ₚ ys ++ rest.
Proof.
  apply (update_entries state_table XfrmStateUpdate xs_Spi state_conflict state_conflict_Spi stored_Spi).
  intros k x y. apply XfrmStateUpdate_replaces.
Qed.

Lemma states_created_iff o actual expected e :
  NoDup (xs_Spi <$> expected) ->
  e ∈ states_created o actual expected <-> e ∈ expected /\ forall a, a ∈ actual -> xs_Spi a ≠ xs_Spi e.
Proof.
  intros He. unfold states_created. rewrite elem_of_not_in. split.
  - intros (i & [Hin <-]%(state_index _ _ _ He) & Hn). by rewrite state_index_None in Hn.
  - intros [Hin Hn]. exists (xs_Spi e). rewrite (state_index _ _ _ He), state_index_None. done.
Qed.

Lemma states_removed_iff o actual expected a :
  NoDup (xs_Spi <$> actual) ->
  a ∈ states_removed o actual expected <-> a ∈ actual /\ forall e, e ∈ expected -> xs_Spi e ≠ xs_Spi a.
Proof.
  intros Ha. unfold states_removed. rewrite elem_of_not_in. split.
  - intros (i & [Hin <-]%(state_index _ _ _ Ha) & Hn). by rewrite state_index_None in Hn.
  - intros [Hin Hn]. exists (xs_Spi a). rewrite (state_index _ _ _ Ha), state_index_None. done.
Qed.

Lemma states_updated_iff o actual expected a e :
  NoDup (xs_Spi <$> actual) -> NoDup (xs_Spi <$> expected) ->
  (a, e) ∈ states_updated o actual expected
  <-> a ∈ actual /\ e ∈ expected /\ xs_Spi a = xs_Spi e /\ xfrmStateEqual a e = false.
Proof.
  intros Ha He. unfold states_updated. rewrite elem_of_changed. split.
  - intros (i & [Hin <-]%(state_index _ _ _ He) & [Hin' Hi]%(state_index _ _ _ Ha) & Hq). done.
  - intros (Hin & Hin' & Hi & Hq). exists (xs_Spi e). by rewrite (state_index _ _ _ He), (state_index _ _ _ Ha).
Qed.

Lemma states_updated_olds o actual expected :
  NoDup (xs_Spi <$> actual) -> NoDup (xs_Spi <$> expected) ->
  exists rest, actual ≡ₚ (fst <$> states_updated o actual expected) ++ rest.
Proof.
  intros Ha He. apply submseteq_Permutation, NoDup_submseteq.
  - unfold states_updated, changed. apply (NoDup_fmap_1 xs_Spi). rewrite <- list_fmap_compose.
    apply NoDup_omap_fst; [apply NoDup_range_keys|].
    intros [i e] [a e'] Hin%elem_of_range Hc. simpl in *.
    destruct (index_by state_key actual !! i) as [b|] eqn:Hb; [|done].
    destruct (xfrmStateEqual b e); [done|]. injection Hc as <- <-.
    by apply (state_index _ _ _ Ha) in Hb as [_ ->].
  - intros a ([a' e] & -> & Hin)%list_elem_of_fmap. by apply states_updated_iff in Hin as [? _].
Qed.
Lemma NoDup_created o actual expected :
  NoDup (xs_Spi <$> expected) -> NoDup (xs_Spi <$> states_created o actual expected).
Proof.
  intros He. unfold states_created, not_in. apply NoDup_omap_fst; [apply NoDup_range_keys|].
  intros [i e] e' Hin%elem_of_range Hc. simpl in *.
  destruct (index_by state_key actual !! i); [done|]. injection Hc as <-.
  by apply (state_index _ _ _ He) in Hin as [_ ->].
Qed.

Lemma NoDup_states_removed o actual expected : NoDup (states_removed o actual expected).
Proof. apply NoDup_not_in. Qed.

(** What the three loops leave behind is what was expected. *)
Lemma states_final o1 o2 actual expected rest kept ys zs :
  NoDup (xs_Spi <$> actual) -> NoDup (xs_Spi <$> expected) ->
  actual ≡ₚ (fst <$> states_updated o1 actual expected) ++ rest ->
  rest ≡ₚ states_removed o2 actual expected ++ kept ->
  Forall2 (stored state_table) (states_created o1 actual expected) ys ->
  Forall2 (stored state_table) (snd <$> states_updated o1 actual expected) zs ->
  (forall e, e ∈ expected -> exists y, y ∈ zs ++ ys ++ kept /\ xfrmStateEqual y e = true) /\
  (forall y, y ∈ zs ++ ys ++ kept -> exists e, e ∈ expected /\ xfrmStateEqual y e = true).
Proof.
  intros Ha He Hrest Hkept Hys Hzs. set (upd := states_updated o1 actual expected) in *.
  set (rem := states_removed o2 actual expected) in *.
  assert (NoDup actual) as Hnda by (by eapply NoDup_fmap_1).
  assert (forall a, a ∈ kept <-> a ∈ actual /\ (a ∉ upd.*1) /\ (a ∉ rem)) as Hk.
  { rewrite Hkept in Hrest. rewrite Hrest in Hnda. rewrite !NoDup_app in Hnda.
    destruct Hnda as (_ & Hd1 & _ & Hd2 & _). intros a. rewrite Hrest, !elem_of_app. split.
    - intros Hin. split_and!; [auto| |].
      + intros Hf. apply (Hd1 a Hf). apply elem_of_app. by right.
      + intros Hf. by apply (Hd2 a Hf).
    - intros ([?|[?|?]] & ? & ?); tauto. }
  split.
  - intros e Hin. destruct (decide (e ∈ states_created o1 actual expected)) as [Hc|Hc].
    { apply list_elem_of_lookup in Hc as [n Hn].
      destruct (Forall2_lookup_l _ _ _ _ _ Hys Hn) as (y & Hy%list_elem_of_lookup_2 & Hs).
      exists y. rewrite !elem_of_app. split; [auto|by apply state_stored]. }
    assert (exists a, a ∈ actual /\ xs_Spi a = xs_Spi e) as (a & Hina & Hae).
    { destruct (index_by state_key actual !! xs_Spi e) as [a|] eqn:Hi.
      - apply (state_index _ _ _ Ha) in Hi. eauto.
      - rewrite state_index_None in Hi. destruct Hc. by apply states_created_iff. }
    destruct (xfrmStateEqual a e) eqn:Hq.
    + exists a. split; [|done]. rewrite !elem_of_app. do 2 right. apply Hk. split_and!; [done| |].
      * intros ([a' e'] & -> & (Hin1 & Hin2 & Hs & Hq')%states_updated_iff)%list_elem_of_fmap; [|done..].
        simpl in *. assert (e' = e) as -> by (apply (Spi_inj expected); congruence). congruence.
      * intros (_ & Hn)%states_removed_iff; [|done]. by destruct (Hn e Hin).
    + assert (e ∈ (snd <$> upd)) as Hu.
      { apply list_elem_of_fmap. exists (a, e). split; [done|]. by apply states_updated_iff. }
      apply list_elem_of_lookup in Hu as [n Hn].
      destruct (Forall2_lookup_l _ _ _ _ _ Hzs Hn) as (y & Hy%list_elem_of_lookup_2 & Hs).
      exists y. rewrite !elem_of_app. split; [auto|by apply state_stored].
  - intros y. rewrite !elem_of_app. intros [Hy|[Hy|Hy]].
    + apply list_elem_of_lookup in Hy as [n Hn].
      destruct (Forall2_lookup_r _ _ _ _ _ Hzs Hn) as (e & Hu%list_elem_of_lookup_2 & Hs).
      apply list_elem_of_fmap in Hu as ([a e'] & -> & Hu). exists e'. split; [|by apply state_stored].
      by apply states_updated_iff in Hu as (_ & ? & _).
    + apply list_elem_of_lookup in Hy as [n Hn].
      destruct (Forall2_lookup_r _ _ _ _ _ Hys Hn) as (e & Hc%list_elem_of_lookup_2 & Hs).
      exists e. split; [|by apply state_stored]. by apply states_created_iff in Hc as [? _].
    + apply Hk in Hy as (Hin & Hu & Hr).
      destruct (index_by state_key expected !! xs_Spi y) as [e|] eqn:Hi.
      * apply (state_index _ _ _ He) in Hi as [Hie Hs]. exists e. split; [done|].
        apply not_false_iff_true. intros Hq. apply Hu, list_elem_of_fmap. exists (y, e).
        split; [done|]. by apply states_updated_iff.
      * rewrite state_index_None in Hi. destruct Hr. by apply states_removed_iff.
Qed.

Lemma XfrmStateTable_Ensure_converges expected w :
  states_goal expected (kern w) ->
  exists log s k',
    XfrmStateTable_Ensure expected w = (Ret tt, after w s log k') /\
    (forall e, e ∈ expected -> exists y, y ∈ entries state_table k' /\ xfrmStateEqual y e = true) /\
    (forall y, y ∈ entries state_table k' -> exists e, e ∈ expected /\ xfrmStateEqual y e = true).
Proof.
  intros [He Hacc Hk Hag]. destruct (XfrmStateList_lists (kern w)) as (actual & Hl & Hp).
  assert (NoDup (xs_Spi <$> actual)) as Ha by (by rewrite Hp).
  rewrite (XfrmStateTable_Ensure_eq _ _ _ _ Hl He). cbv zeta.
  set (o1 := sched w 0%nat). set (o2 := sched w 1%nat).
  destruct (add_all state_table (states_created o1 actual expected) (kern w)) as (ys & k1 & Hr1 & Hys & Hk1 & _).
  { intros e Hin. apply Hacc. by apply states_created_iff in Hin as [? _]. }
  { apply apart_states. by apply NoDup_created. }
  { intros e a Hin Hina. rewrite state_occupies. apply not_true_iff_false. intros Hc%state_conflict_Spi.
    apply states_created_iff in Hin as [_ Hn]; [|done]. apply (Hn a); [by rewrite Hp|done]. }
  destruct (states_updated_olds o1 actual expected Ha He) as [rest Hrest].
  destruct (update_all (snd <$> states_updated o1 actual expected) k1
              (fst <$> states_updated o1 actual expected) (ys ++ rest)) as (zs & k2 & Hr2 & Hzs & Hk2).
  { rewrite Hk1, <- Hp, Hrest at 1. by rewrite !app_assoc, (Permutation_app_comm ys). }
  { rewrite Hk1, fmap_app, <- Hp.
    assert (xs_Spi <$> ys = xs_Spi <$> states_created o1 actual expected) as ->.
    { clear -Hys. induction Hys as [|e y l ys Hs _ IH]; [done|]. cbn. by rewrite (stored_Spi _ _ Hs), IH. }
    apply NoDup_app. split_and!; [by apply NoDup_created| |done].
    intros i (e & -> & Hin)%list_elem_of_fmap (a & Hae & Hina)%list_elem_of_fmap.
    apply states_created_iff in Hin as [_ Hn]; [|done]. by apply (Hn a Hina). }
  { rewrite Forall2_fmap, Forall2_same_length_lookup. split; [done|]. intros i [a e] [a' e'] Hi Hi'.
    assert ((a', e') = (a, e)) as [= -> ->] by congruence. simpl.
    apply list_elem_of_lookup_2, states_updated_iff in Hi as (Hina & Hin & Hs & _); [|done..].
    apply Hag; [by rewrite <- Hp|done|done]. }
  { intros e ([a e'] & -> & Hin)%list_elem_of_fmap. apply Hacc.
    by apply states_updated_iff in Hin as (_ & ? & _). }
  destruct (submseteq_Permutation (states_removed o2 actual expected) rest) as [kept Hkept].
  { apply NoDup_submseteq; [apply NoDup_states_removed|]. intros a Hr. apply states_removed_iff in Hr as [Hin Hn]; [|done].
    rewrite Hrest in Hin. apply elem_of_app in Hin as [Hin|Hin]; [|done]. exfalso.
    apply list_elem_of_fmap in Hin as ([a' e] & -> & Hin). apply states_updated_iff in Hin as (_ & Hin & Hs & _); [|done..].
    by apply (Hn e Hin). }
  destruct (delete_all state_table (states_removed o2 actual expected) k2 (zs ++ ys ++ kept)) as (k3 & Hr3 & Hk3 & _).
  { rewrite Hk2, Hkept. by rewrite !app_assoc, (Permutation_app_comm (zs ++ ys)), <- !app_assoc. }
  rewrite Hr1, Hr2, Hr3. eexists _, _, k3. split; [reflexivity|].
  destruct (states_final o1 o2 actual expected rest kept ys zs) as [Hf1 Hf2]; [done..|].
  split.
  - intros e Hin. destruct (Hf1 e Hin) as (y & Hy & Hq). exists y. by rewrite Hk3.
  - intros y Hy. apply Hf2. by rewrite <- Hk3.
Qed.

(** Whatever states the kernel held, after a run that succeeded every expected one is there. *)
Lemma state_occupies_Spi y x : occupies state_table y x = true -> xs_Spi y = xs_Spi x.
Proof. rewrite state_occupies. apply state_conflict_Spi. Qed.

Lemma index_state_key l i s : index_by state_key l !! i = Some s -> s ∈ l /\ xs_Spi s = i.
Proof. intros [Hin Hk]%index_by_Some. by injection Hk. Qed.

Lemma states_updated_index o actual expected e :
  NoDup (xs_Spi <$> expected) ->
  e ∈ (snd <$> states_updated o actual expected)
  <-> e ∈ expected /\ exists a, index_by state_key actual !! xs_Spi e = Some a /\ xfrmStateEqual a e = false.
Proof.
  intros He. unfold states_updated. rewrite list_elem_of_fmap. split.
  - intros ([a x] & -> & (i & [Hin <-]%(state_index _ _ _ He) & Ha & Hq)%elem_of_changed). eauto.
  - intros (Hin & a & Ha & Hq). exists (a, e). split; [done|]. apply elem_of_changed.
    exists (xs_Spi e). by rewrite (state_index _ _ _ He).
Qed.

Lemma NoDup_updated o actual expected :
  NoDup (xs_Spi <$> expected) -> NoDup (xs_Spi <$> (snd <$> states_updated o actual expected)).
Proof.
  intros He. unfold states_updated, changed. rewrite <- list_fmap_compose. apply NoDup_omap_fst; [apply NoDup_range_keys|].
  intros [i e] [a e'] Hin%elem_of_range Hc. simpl in *. destruct (index_by state_key actual !! i); [|done].
  destruct (xfrmStateEqual _ e); [done|]. injection Hc as <- <-. by apply (state_index _ _ _ He) in Hin as [_ ->].
Qed.

Lemma XfrmStateTable_Ensure_success expected w w' :
  XfrmStateTable_Ensure expected w = (Ret tt, w') ->
  NoDup (xs_Spi <$> expected) /\
  forall e, e ∈ expected -> exists y, y ∈ entries state_table (kern w') /\ xfrmStateEqual y e = true.
Proof.
  destruct (XfrmStateList_lists (kern w)) as (actual & Hl & Hp).
  destruct (decide (NoDup (xs_Spi <$> expected))) as [He|He]; [|by rewrite (XfrmStateTable_Ensure_dup _ _ _ _ Hl He)].
  rewrite (XfrmStateTable_Ensure_eq _ _ _ _ Hl He). cbv zeta. set (o := sched w 0%nat).
  destruct (exec_all _ (kern w)) as [[log1 [e1|]] k1] eqn:H1; [done|].
  destruct (exec_all _ k1) as [[log2 [e2|]] k2] eqn:H2; [done|].
  destruct (exec_all _ k2) as [[log3 [e3|]] k3] eqn:H3; [done|]. intros [= <-]. split; [done|]. rewrite kern_after.
  assert (forall e, e ∈ expected -> xs_Spi e ∉ xs_Spi <$> states_removed (sched w 1%nat) actual expected) as Hrem.
  { intros e Hin (a & Ha & (i & [_ <-]%index_state_key & Hn)%elem_of_not_in)%list_elem_of_fmap.
    rewrite state_index_None in Hn. by destruct (Hn e). }
  destruct (reconcile_success state_table XfrmStateUpdate xs_Spi state_conflict state_conflict_Spi state_occupies_Spi stored_Spi
    XfrmStateUpdate_success _ _ _ _ _ _ _ _ _ _ H1 H2 H3) as [Hthere Hkept].
  { by apply NoDup_updated. }
  { intros i (x & -> & [_ Hn]%(states_created_iff _ _ _ _ He))%list_elem_of_fmap
      (y & Hy & (_ & a & [Ha Has]%index_state_key & _)%(states_updated_index _ _ _ _ He))%list_elem_of_fmap.
    destruct (Hn a Ha). congruence. }
  { intros x [[Hx _]%(states_created_iff _ _ _ _ He)|[Hx _]%(states_updated_index _ _ _ _ He)]; by apply Hrem. }
  intros e Hin. destruct (index_by state_key actual !! xs_Spi e) as [a|] eqn:Ha; cycle 1.
  { destruct (Hthere e) as (y & Hs & Hy).
    - left. apply states_created_iff; [done|]. by rewrite state_index_None in Ha.
    - exists y. split; [done|by apply state_stored]. }
  destruct (xfrmStateEqual a e) eqn:Hq; cycle 1.
  { destruct (Hthere e) as (y & Hs & Hy); [right; apply states_updated_index; eauto|].
    exists y. split; [done|by apply state_stored]. }
  pose proof (index_state_key _ _ _ Ha) as [Hina Has]. exists a. split; [|done]. rewrite Hp in Hina. apply Hkept; [done|..]; rewrite Has; [|by apply Hrem].
  intros (x & Hx & (Hinx & a' & Ha' & Hq')%(states_updated_index _ _ _ _ He))%list_elem_of_fmap.
  assert (x = e) as -> by (by apply (Spi_inj expected)). congruence.
Qed.

(** C19: on a kernel that keeps the contract of the state table, [XfrmStateTable.Ensure] succeeds
    and leaves exactly the expected states, up to the program's own comparison, when the SPIs
    are distinct and the states the kernel has agree with the expected ones of the same SPI on
    destination and protocol. *)
Theorem xfrm_states_converge expected w :
  states_goal expected (kern w) ->
  exists log s k',
    XfrmStateTable_Ensure expected w = (Ret tt, after w s log k') /\
    (forall e, e ∈ expected -> exists y, y ∈ entries state_table k' /\ xfrmStateEqual y e = true) /\
    (forall y, y ∈ entries state_table k' -> exists e, e ∈ expected /\ xfrmStateEqual y e = true).
Proof. apply XfrmStateTable_Ensure_converges. Qed.
End Laws.

(** ** States that are never repaired, and duplicate SPIs *)

Section Stuck.
Context {K P : Type} `{Kernel K} `{NetlinkConsts} `{!StateLaws K}.
Implicit Types (w : World K P) (expected actual l : list XfrmState) (k : K).

(** Updating a state the kernel does not know fails; a state of its SPI that the kernel holds
    stays. *)
Lemma update_all_missing l e a : forall k,
  (forall x, x ∈ l -> accepts state_table x) -> NoDup (xs_Spi <$> l) -> e ∈ l ->
  a ∈ entries state_table k -> xs_Spi a = xs_Spi e ->
  (forall y, y ∈ entries state_table k -> state_conflict y e = false) ->
  exists log err k', exec_all (XfrmStateUpdate <$> l) k = (log, Some err, k') /\ a ∈ entries state_table k'.
Proof.
  induction l as [|x l IH]; intros k Hacc Hnd He Ha Has Hno; [by apply not_elem_of_nil in He|].
  cbn [fmap list_fmap exec_all]. cbn in Hnd. apply NoDup_cons in Hnd as [Hni Hnd].
  destruct (decide (Exists (fun y => state_conflict y x = true) (entries state_table k))) as [Hx|Hx]; cycle 1.
  { destruct (XfrmStateUpdate_missing k x) as (k1 & Hr & Hp).
    { intros y Hy. apply not_true_iff_false. intros Hc. apply Hx, Exists_exists. eauto. }
    rewrite Hr. eexists _, _, k1. split; [done|by rewrite Hp]. }
  apply Exists_exists in Hx as (y & Hy & Hc).
  apply elem_of_cons in He as [->|He]; [by rewrite Hno in Hc|].
  destruct (XfrmStateUpdate_replaces k x y (Hacc x ltac:(by left)) Hy Hc) as (y' & rest & x' & k1 & Hr & Hs & Hp & Hc' & Hp1).
  assert (xs_Spi x ≠ xs_Spi e) as Hne by (intros Heq; apply Hni; rewrite Heq; by apply list_elem_of_fmap_2).
  destruct (IH k1) as (log & err & k' & Hr' & Hin); [|done|done| |done| |].
  - intros z Hz. apply Hacc. by right.
  - rewrite Hp1. right. rewrite Hp in Ha. apply elem_of_cons in Ha as [->|Ha]; [|done].
    apply state_conflict_Spi in Hc'. congruence.
  - intros z Hz. rewrite Hp1 in Hz. apply elem_of_cons in Hz as [->|Hz].
    + apply not_true_iff_false. intros Hz%state_conflict_Spi. rewrite (stored_Spi _ _ Hs) in Hz. done.
    + apply Hno. rewrite Hp. by right.
  - rewrite Hr, Hr'. by eexists _, _, k'.
Qed.

(** The table is indexed by the SPI alone, but the kernel finds a state to update by its
    destination too: when a node's address changes and its SPI does not, the update of its state
    is refused, the run fails, and the state for the old address stays, so the next run fails
    the same way. *)
Theorem readdressed_state_stuck expected w a e :
  NoDup (xs_Spi <$> expected) -> (forall x, x ∈ expected -> accepts state_table x) ->
  NoDup (xs_Spi <$> entries state_table (kern w)) ->
  e ∈ expected -> a ∈ entries state_table (kern w) -> xs_Spi a = xs_Spi e ->
  IP_Equal (xs_Dst a) (xs_Dst e) = false ->
  exists err log s k', XfrmStateTable_Ensure expected w = (Err err, after w s log k') /\
    a ∈ entries state_table k'.
Proof.
  intros He Hacc Hk Hin Hina Has Hdst. destruct (XfrmStateList_lists (kern w)) as (actual & Hl & Hp).
  assert (NoDup (xs_Spi <$> actual)) as Ha by (by rewrite Hp).
  rewrite (XfrmStateTable_Ensure_eq _ _ _ _ Hl He). cbv zeta. set (o1 := sched w 0%nat).
  assert (state_conflict a e = false) as Hae by (unfold state_conflict; by rewrite Hdst).
  destruct (add_all state_table (states_created o1 actual expected) (kern w)) as (ys & k1 & Hr1 & Hys & Hk1 & _).
  { intros x Hx. apply Hacc. by apply states_created_iff in Hx as [? _]. }
  { apply apart_states. by apply NoDup_created. }
  { intros x y Hx Hy. rewrite state_occupies. apply not_true_iff_false. intros Hc%state_conflict_Spi.
    apply states_created_iff in Hx as [_ Hn]; [|done]. apply (Hn y); [by rewrite Hp|done]. }
  destruct (update_all_missing (snd <$> states_updated o1 actual expected) e a k1)
    as (log & err & k2 & Hr2 & Hin2).
  - intros x ([b x'] & -> & Hx)%list_elem_of_fmap. apply Hacc. by apply states_updated_iff in Hx as (_ & ? & _).
  - rewrite <- list_fmap_compose. apply NoDup_omap_fst; [apply NoDup_range_keys|].
    intros [i x] [b x'] Hx%elem_of_range Hc. simpl in *.
    destruct (index_by state_key actual !! i); [|done]. destruct (xfrmStateEqual _ _); [done|].
    injection Hc as _ <-. by apply (state_index _ _ _ He) in Hx as [_ ->].
  - apply list_elem_of_fmap. exists (a, e). split; [done|]. apply states_updated_iff; [done..|].
    split_and!; [by rewrite Hp|done|done|]. apply not_true_iff_false. intros Hq%xfrmStateEqual_conflict. congruence.
  - rewrite Hk1. apply elem_of_app. by right.
  - done.
  - intros y Hy. rewrite Hk1 in Hy. apply elem_of_app in Hy as [Hy|Hy]; apply not_true_iff_false;
      intros Hc; pose proof (state_conflict_Spi _ _ Hc) as Hcs.
    + apply list_elem_of_lookup in Hy as [n Hn].
      destruct (Forall2_lookup_r _ _ _ _ _ Hys Hn) as (x & Hx%list_elem_of_lookup_2 & Hs).
      apply states_created_iff in Hx as [_ Hx]; [|done]. apply (Hx a); [by rewrite Hp|].
      rewrite <- (stored_Spi _ _ Hs). congruence.
    + assert (y = a) as -> by (apply (Spi_inj (entries state_table (kern w))); congruence). congruence.
  - rewrite Hr1, Hr2. by eexists _, _, _, k2.
Qed.
End Stuck.

Section Duplicates.
Context {K P : Type} `{Kernel K} `{NetlinkConsts}.

(** With two expected states of one SPI the process ends ([klog.Fatalf]), before any call;
    with distinct SPIs it never does. *)
Theorem duplicate_spi_exits expected (w : World K P) actual k :
  k_XfrmStateList FAMILY_ALL (kern w) = (inl actual, k) ->
  (NoDup (xs_Spi <$> expected) -> fst (XfrmStateTable_Ensure expected w) ≠ Exit) /\
  (~ NoDup (xs_Spi <$> expected) -> XfrmStateTable_Ensure expected w = (Exit, after w (sched w) [] k)).
Proof.
  intros Hl. split; intros He; [|by eapply XfrmStateTable_Ensure_dup].
  rewrite (XfrmStateTable_Ensure_eq _ _ _ _ Hl He). cbv zeta.
  destruct (exec_all _ k) as [[log1 [e1|]] k1]; [done|].
  destruct (exec_all _ k1) as [[log2 [e2|]] k2]; [done|].
  by destruct (exec_all _ k2) as [[log3 [e3|]] k3].
Qed.
End Duplicates.

Section Witnesses.
#[local] Existing Instance netlink_v1_1_0.

Definition sim_state (dst : IP) (spi : Z) : XfrmState :=
  MkXfrmState dst (ip4 10 0 0 1) XFRM_PROTO_ESP XFRM_MODE_TUNNEL spi 0 0 zero_Limits None None None None None.

Lemma xfrm_states_converge_witness :
  let w := sim_world (set_states [sim_state (ip4 10 0 0 9) 77; sim_state (ip4 10 0 0 7) 70] sim_empty) tt in
  exists log s k',
    XfrmStateTable_Ensure [sim_state (ip4 10 0 0 7) 70; sim_state (ip4 10 0 0 8) 71] w = (Ret tt, after w s log k').
Proof.
  intros w.
  destruct (xfrm_states_converge [sim_state (ip4 10 0 0 7) 70; sim_state (ip4 10 0 0 8) 71] w)
    as (log & s & k' & Hr & _).
  - split; [by_computation|intros e _; exact I|by_computation|].
    intros a e Ha He. apply (bool_decide_unpack _). revert e He. apply Forall_forall.
    revert a Ha. apply Forall_forall. by_computation.
  - exists log, s, k'. exact Hr.
Defined.

Lemma readdressed_state_stuck_witness :
  let w := sim_world (set_states [sim_state (ip4 10 0 0 9) 70] sim_empty) tt in
  exists err log s k', XfrmStateTable_Ensure [sim_state (ip4 10 0 0 7) 70] w = (Err err, after w s log k').
Proof.
  intros w.
  destruct (readdressed_state_stuck [sim_state (ip4 10 0 0 7) 70] w (sim_state (ip4 10 0 0 9) 70)
              (sim_state (ip4 10 0 0 7) 70)) as (err & log & s & k' & Hr & _);
    [by_computation|intros x _; exact I|by_computation|by left|by left|reflexivity|reflexivity|].
  exists err, log, s, k'. exact Hr.
Defined.

Lemma duplicate_spi_exits_witness :
  fst (XfrmStateTable_Ensure [sim_state (ip4 10 0 0 7) 70; sim_state (ip4 10 0 0 8) 70] (sim_world sim_empty tt)) = Exit.
Proof.
  assert (k_XfrmStateList FAMILY_ALL (kern (sim_world sim_empty tt)) = (inl [], sim_empty)) as Hl by reflexivity.
  rewrite (proj2 (duplicate_spi_exits [sim_state (ip4 10 0 0 7) 70; sim_state (ip4 10 0 0 8) 70] _ _ _ Hl));
    [reflexivity|by_computation].
Defined.
End Witnesses.
