(* ===== verification/PolicyFacts.v ===== *)
(** * What [XfrmPolicyTable.Ensure] does: pkg/routing/netutil/xfrm_policy_table.go

    The calls of a run on any kernel, and, on one that keeps the contract of the policy table, that
    the policies it leaves are the expected ones and that a further run has nothing to do. *)

From S2P Require Import Prelude GoNet GoNetFacts Netlink Effects Tables Reconcile Netutil XfrmTables KernelLaws Sim.

(** ** The calls of a run *)

Section Policies.
Context {K P : Type} `{Kernel K} `{NetlinkConsts}.
Implicit Types (w : World K P) (actual expected : list XfrmPolicy).

Lemma policy_match_snoc actual p e :
  policy_match (actual ++ [p]) e = if xfrmPolicyMatches p e then Some p else policy_match actual e.
Proof. unfold policy_match. by rewrite foldl_app. Qed.

Lemma policy_match_Some actual e a :
  policy_match actual e = Some a -> a ∈ actual /\ xfrmPolicyMatches a e = true.
Proof.
  induction actual as [|p actual IH] using rev_ind; [done|].
  rewrite policy_match_snoc, elem_of_app, list_elem_of_singleton.
  destruct (xfrmPolicyMatches p e) eqn:Hp; [intros [= ->]; auto|]. intros [? ?]%IH. auto.
Qed.

Lemma policy_match_None actual e :
  policy_match actual e = None <-> forall a, a ∈ actual -> xfrmPolicyMatches a e = false.
Proof.
  induction actual as [|p actual IH] using rev_ind.
  - split; [by intros _ ? ?%not_elem_of_nil|done].
  - rewrite policy_match_snoc. split.
    + destruct (xfrmPolicyMatches p e) eqn:Hp; [done|]. rewrite IH. intros Ha a.
      rewrite elem_of_app, list_elem_of_singleton. intros [?| ->]; auto.
    + intros Ha. rewrite (Ha p) by (apply elem_of_app; right; by left). apply IH.
      intros a Hin. apply Ha, elem_of_app. by left.
Qed.

Lemma policies_missing_iff actual expected e :
  e ∈ policies_missing actual expected
  <-> e ∈ expected /\ forall a, a ∈ actual -> xfrmPolicyMatches a e = false.
Proof.
  unfold policies_missing. rewrite list_elem_of_omap. split.
  - intros (x & Hx & Hm). destruct (policy_match actual x) eqn:Hp; [done|]. injection Hm as ->.
    split; [done|by apply policy_match_None].
  - intros [Hin Hn%policy_match_None]. exists e. by rewrite Hn.
Qed.

Lemma policies_changed_iff actual expected p :
  p ∈ policies_changed actual expected
  <-> exists e a, e ∈ expected /\ policy_match actual e = Some a /\ p = set_Index (xp_Index a) e /\
        xfrmPolicyEqual a p = false.
Proof.
  unfold policies_changed. rewrite list_elem_of_omap. split.
  - intros (e & He & Hm). destruct (policy_match actual e) as [a|] eqn:Hp; [|done].
    destruct (xfrmPolicyEqual a _) eqn:Hq; [done|]. injection Hm as <-. eauto 10.
  - intros (e & a & He & Hm & -> & Hq). exists e. rewrite Hm. cbv zeta. by rewrite Hq.
Qed.

Lemma policies_extra_iff actual expected p :
  p ∈ policies_extra actual expected
  <-> p ∈ actual /\ forall e, e ∈ expected -> xfrmPolicyMatches p e = false.
Proof.
  unfold policies_extra. rewrite list_elem_of_filter. split.
  - intros [Hn Hin]. split; [done|]. intros e He. apply not_true_iff_false. intros Hm.
    assert (existsb (xfrmPolicyMatches p) expected = true) as Hx; [|by rewrite Hx in Hn].
    apply existsb_exists. exists e. by rewrite <- list_elem_of_In.
  - intros [Hin Hn]. split; [|done].
    destruct (existsb (xfrmPolicyMatches p) expected) eqn:Hx; [|done].
    apply existsb_exists in Hx as (e & He%list_elem_of_In & Hm). by rewrite Hn in Hm.
Qed.

Lemma XfrmPolicyTable_Ensure_eq expected w actual k :
  k_XfrmPolicyList FAMILY_ALL (kern w) = (inl actual, k) ->
  XfrmPolicyTable_Ensure expected w
  = let '(log, e, k1) := exec_all (XfrmPolicyAdd <$> policies_missing actual expected) k in
    match e with
    | Some e => (Err (Errorf "error creating policy: %v" e), after w (sched w) log k1)
    | None =>
        let '(log2, e2, k2) := exec_all (XfrmPolicyUpdate <$> policies_changed actual expected) k1 in
        match e2 with
        | Some e2 => (Err (Errorf "error updating policy: %v" e2), after w (sched w) (log ++ log2) k2)
        | None =>
            let '(log3, e3, k3) := exec_all (XfrmPolicyDel <$> policies_extra actual expected) k2 in
            (outcome_of "error removing policy: %v" e3, after w (sched w) (log ++ log2 ++ log3) k3)
        end
    end.
Proof.
  intros Hl. unfold XfrmPolicyTable_Ensure. rewrite (bind_query _ _ _ _ _ _ Hl).
  rewrite bind_run, each_call. world.
  destruct (exec_all _ k) as [[log [e|]] k1]; unfold outcome_of at 1; world; [done|].
  rewrite bind_run, each_call. world.
  destruct (exec_all _ k1) as [[log2 [e2|]] k2]; unfold outcome_of at 1; world; [done|].
  rewrite each_call. world. destruct (exec_all _ k2) as [[log3 e3] k3]. world.
  by rewrite <- app_assoc.
Qed.

Lemma policy_runs expected w actual k :
  k_XfrmPolicyList FAMILY_ALL (kern w) = (inl actual, k) ->
  exists log e s k' r,
    XfrmPolicyTable_Ensure expected w = (r, after w s log k') /\
    ran ((XfrmPolicyAdd <$> policies_missing actual expected)
         ++ (XfrmPolicyUpdate <$> policies_changed actual expected)
         ++ (XfrmPolicyDel <$> policies_extra actual expected)) log e /\
    match r with Ret _ => e = None | Err _ => is_Some e | Exit => False end.
Proof.
  intros Hl. rewrite (XfrmPolicyTable_Ensure_eq _ _ _ _ Hl).
  set (adds := XfrmPolicyAdd <$> _). set (upds := XfrmPolicyUpdate <$> _). set (dels := XfrmPolicyDel <$> _).
  pose proof (exec_all_app adds (upds ++ dels) k) as Happ.
  destruct (exec_all adds k) as [[log1 [e1|]] k1].
  { eexists _, _, _, _, _. split_and!; [reflexivity|exact (exec_all_ran _ _ _ _ _ Happ)|by eexists]. }
  rewrite (exec_all_app upds dels) in Happ. destruct (exec_all upds k1) as [[log2 [e2|]] k2].
  { eexists _, _, _, _, _. split_and!; [reflexivity|exact (exec_all_ran _ _ _ _ _ Happ)|by eexists]. }
  destruct (exec_all dels k2) as [[log3 e3] k3].
  eexists _, _, _, _, _. split_and!; [reflexivity|exact (exec_all_ran _ _ _ _ _ Happ)|by destruct e3; [eexists|]].
Qed.

(** On any kernel, [XfrmPolicyTable.Ensure] partitions its work: it adds the expected
    policies no installed one matches, then updates those whose (last) match differs, under the
    match's own index, then deletes the installed policies that match no expected one; it stops
    at the first call that fails and returns an error exactly then. *)
Theorem policy_calls expected w actual k :
  k_XfrmPolicyList FAMILY_ALL (kern w) = (inl actual, k) ->
  exists adds upds dels log e s k' r,
    XfrmPolicyTable_Ensure expected w = (r, after w s log k') /\
    ran ((XfrmPolicyAdd <$> adds) ++ (XfrmPolicyUpdate <$> upds) ++ (XfrmPolicyDel <$> dels)) log e /\
    match r with Ret _ => e = None | Err _ => is_Some e | Exit => False end /\
    (forall p, p ∈ adds <-> p ∈ expected /\ forall a, a ∈ actual -> xfrmPolicyMatches a p = false) /\
    (forall p, p ∈ upds <-> exists e a, e ∈ expected /\ policy_match actual e = Some a /\
       p = set_Index (xp_Index a) e /\ xfrmPolicyEqual a p = false) /\
    (forall p, p ∈ dels <-> p ∈ actual /\ forall e, e ∈ expected -> xfrmPolicyMatches p e = false).
Proof.
  intros Hl. destruct (policy_runs expected w actual k Hl) as (log & e & s & k' & r & Hr & Hran & Ho).
  exists (policies_missing actual expected), (policies_changed actual expected), (policies_extra actual expected).
  exists log, e, s, k', r. split_and!; [done..| | |]; intros p.
  - apply policies_missing_iff.
  - apply policies_changed_iff.
  - apply policies_extra_iff.
Qed.
End Policies.


(** ** Convergence *)

(** The selector of a policy with its direction: two policies match when they have the same. *)
Definition ipnet_key (n : option IPNet) : option (list byte * bool * list byte) :=
  (fun n => (bytes_of (net_Mask n), bool_decide (net_IP n = None), As16 (bytes_of (net_IP n)))) <$> n.

Definition policy_key (p : XfrmPolicy) :=
  (xp_Dir p, xp_SrcPort p, xp_DstPort p, xp_Proto p, ipnet_key (xp_Dst p), ipnet_key (xp_Src p)).

Lemma ipnet_key_iff a e : ipnetEqual a e = true <-> ipnet_key a = ipnet_key e.
Proof.
  destruct a as [[ia ma]|], e as [[ie me]|]; [|done..]. rewrite ipnetEqual_iff, ipEqual_iff. unfold ipnet_key. cbn.
  destruct ia, ie; cbn; (split; [intros (Hm & Hn & Hi)|intros Hk; injection Hk as Hk; split_and!]); intuition congruence.
Qed.

Lemma xfrmPolicyMatches_iff a e : xfrmPolicyMatches a e = true <-> policy_key a = policy_key e.
Proof.
  unfold xfrmPolicyMatches, policy_key. rewrite !pair_equal_spec, <- !ipnet_key_iff, <- !Z.eqb_eq.
  destruct (_ =? _), (_ =? _), (_ =? _), (_ =? _), (ipnetEqual _ _), (ipnetEqual _ _); cbn; intuition congruence.
Qed.

Lemma policy_conflict_key a b : policy_conflict a b = true -> policy_key a = policy_key b.
Proof. unfold policy_conflict. intros [Hm _]%andb_true_iff. by apply xfrmPolicyMatches_iff. Qed.

Lemma xfrmPolicyEqual_key a e : xfrmPolicyEqual a e = true -> policy_key a = policy_key e.
Proof.
  intros He. apply xfrmPolicyMatches_iff. unfold xfrmPolicyEqual in He. unfold xfrmPolicyMatches.
  destruct (xp_Dir a =? xp_Dir e); [|done]. destruct (xp_Priority a =? xp_Priority e); [|done].
  destruct (xp_Index a =? xp_Index e); [|done]. destruct (xp_SrcPort a =? xp_SrcPort e); [|done].
  destruct (xp_DstPort a =? xp_DstPort e); [|done]. destruct (xp_Proto a =? xp_Proto e); [|done].
  destruct (ipnetEqual (xp_Dst a) (xp_Dst e)); [|done]. by destruct (ipnetEqual (xp_Src a) (xp_Src e)).
Qed.

Lemma policy_held_key e y : policy_held e y -> policy_key y = policy_key e.
Proof. by intros Hk%xfrmPolicyEqual_key. Qed.

Lemma policy_held_set_Index i e y : policy_held (set_Index i e) y <-> policy_held e y.
Proof. done. Qed.

Section Converge.
Context {K P : Type} `{Kernel K} `{NetlinkConsts} `{!PolicyLaws K}.
Implicit Types (w : World K P) (actual expected l : list XfrmPolicy) (k : K).

(** What [Ensure] needs to succeed: the expected policies have distinct selectors, and so have the
    ones the kernel holds; where they meet, the marks agree; and the kernel accepts those it does
    not hold yet. *)
Record policies_goal expected k : Prop := {
  pg_expected : NoDup (policy_key <$> expected);
  pg_actual : NoDup (policy_key <$> entries policy_table k);
  pg_agree : forall a e, a ∈ entries policy_table k -> e ∈ expected -> policy_key a = policy_key e ->
    policy_conflict a e = true;
  pg_accepts : forall e, e ∈ expected ->
    (exists a, a ∈ entries policy_table k /\ policy_held e a) \/ forall i, accepts policy_table (set_Index i e)
}.

Definition policies_in_step expected k : Prop :=
  NoDup (policy_key <$> entries policy_table k) /\
  (forall e, e ∈ expected -> exists y, y ∈ entries policy_table k /\ policy_held e y) /\
  (forall y, y ∈ entries policy_table k -> exists e, e ∈ expected /\ policy_held e y).

Lemma stored_policy_key e y : stored policy_table e y -> policy_key y = policy_key e.
Proof. intros Hs. by apply policy_held_key, policy_stored. Qed.

Lemma policy_match_key actual e a :
  NoDup (policy_key <$> actual) ->
  policy_match actual e = Some a <-> a ∈ actual /\ policy_key a = policy_key e.
Proof.
  intros Hnd. split; [intros [? ?%xfrmPolicyMatches_iff]%policy_match_Some; done|]. intros [Hin Hk].
  destruct (policy_match actual e) as [b|] eqn:Hb.
  - apply policy_match_Some in Hb as [Hbin Hbk%xfrmPolicyMatches_iff]. f_equal.
    apply (key_inj policy_key actual); congruence || done.
  - rewrite policy_match_None in Hb. apply xfrmPolicyMatches_iff in Hk. by rewrite Hb in Hk.
Qed.

(** The policies that are updated, each with the one it replaces. *)
Definition policies_replaced actual expected : list (XfrmPolicy * XfrmPolicy) :=
  omap (fun e => match policy_match actual e with
                 | None => None
                 | Some a => let e := set_Index (xp_Index a) e in if negb (xfrmPolicyEqual a e) then Some (a, e) else None
                 end) expected.

Lemma policies_changed_replaced actual expected :
  policies_changed actual expected = snd <$> policies_replaced actual expected.
Proof.
  unfold policies_changed, policies_replaced. induction expected as [|e l IH]; [done|]. cbn.
  destruct (policy_match actual e) as [a|]; [|done]. cbn. destruct (xfrmPolicyEqual _ _); cbn; by rewrite ?IH.
Qed.

Lemma policies_replaced_iff actual expected a x :
  (a, x) ∈ policies_replaced actual expected
  <-> exists e, e ∈ expected /\ policy_match actual e = Some a /\ x = set_Index (xp_Index a) e /\
        xfrmPolicyEqual a x = false.
Proof.
  unfold policies_replaced. rewrite list_elem_of_omap. split.
  - intros (e & He & Hm). destruct (policy_match actual e) as [b|] eqn:Hb; [|done]. cbv zeta in Hm.
    destruct (xfrmPolicyEqual b _) eqn:Hq; [done|]. injection Hm as <- <-. eauto 10.
  - intros (e & He & Hm & -> & Hq). exists e. rewrite Hm. cbv zeta. by rewrite Hq.
Qed.

(** A sublist of the expected policies, each with the selector of its own. *)
Lemma NoDup_policy_sublist {B} (f : XfrmPolicy -> option B) (keyB : B -> _) expected :
  NoDup (policy_key <$> expected) ->
  (forall e b, f e = Some b -> keyB b = policy_key e) -> NoDup (keyB <$> omap f expected).
Proof.
  intros Hnd Hf. induction expected as [|e l IH]; [by apply NoDup_nil|]. cbn in *.
  apply NoDup_cons in Hnd as [Hn Hnd]. destruct (f e) as [b|] eqn:Hb; [|by apply IH]. cbn.
  apply NoDup_cons. split; [|by apply IH]. intros (c & Hc & Hin)%list_elem_of_fmap.
  apply list_elem_of_omap in Hin as (e' & Hin & He'). apply Hn.
  rewrite <- (Hf e b Hb), Hc, (Hf e' c He'). by apply list_elem_of_fmap_2.
Qed.

Lemma NoDup_missing actual expected :
  NoDup (policy_key <$> expected) -> NoDup (policy_key <$> policies_missing actual expected).
Proof.
  intros Hnd. apply NoDup_policy_sublist; [done|]. intros e b. by destruct (policy_match actual e); [|intros [= <-]].
Qed.

Lemma NoDup_replaced actual expected :
  NoDup (policy_key <$> actual) -> NoDup (policy_key <$> expected) ->
  NoDup (policy_key <$> (fst <$> policies_replaced actual expected)).
Proof.
  intros Ha Hnd. rewrite <- list_fmap_compose. apply NoDup_policy_sublist; [done|]. intros e [a x].
  destruct (policy_match actual e) as [b|] eqn:Hb; [|done]. cbv zeta.
  destruct (xfrmPolicyEqual _ _); [done|]. intros [= <- <-]. by apply policy_match_key in Hb as [_ ?].
Qed.

Lemma apart_policies l : NoDup (policy_key <$> l) -> apart policy_table l.
Proof.
  induction l as [|x l IH]; [done|]. cbn. intros [Hn Hnd]%NoDup_cons. split; [|by apply IH].
  intros y Hy. rewrite policy_occupies. apply not_true_iff_false. intros Hc%policy_conflict_key.
  apply Hn. rewrite Hc. by apply list_elem_of_fmap_2.
Qed.

(** What the table held: what is replaced, what is removed, and the rest, which is held as expected. *)
Lemma policies_split actual expected :
  NoDup (policy_key <$> actual) -> NoDup (policy_key <$> expected) ->
  exists kept, actual ≡ₚ (fst <$> policies_replaced actual expected) ++ policies_extra actual expected ++ kept /\
    (forall a, a ∈ kept -> exists e, e ∈ expected /\ policy_held e a) /\
    (forall e a, e ∈ expected -> a ∈ actual -> policy_held e a -> a ∈ kept).
Proof.
  intros Ha He. pose proof (NoDup_fmap_1 _ _ Ha) as Hnda. set (olds := fst <$> policies_replaced actual expected).
  assert (forall a, a ∈ olds <-> a ∈ actual /\ exists e, e ∈ expected /\ policy_key a = policy_key e /\
            xfrmPolicyEqual a (set_Index (xp_Index a) e) = false) as Holds.
  { intros a. unfold olds. rewrite list_elem_of_fmap. split.
    - intros ([a' x] & -> & (e & Hin & [Hina Hk]%policy_match_key & -> & Hq)%policies_replaced_iff); [|done]. eauto.
    - intros (Hin & e & Hine & Hk & Hq). exists (a, set_Index (xp_Index a) e). split; [done|].
      apply policies_replaced_iff. exists e. by rewrite policy_match_key. }
  destruct (submseteq_Permutation (olds ++ policies_extra actual expected) actual) as [kept Hkept].
  { apply NoDup_submseteq.
    - apply NoDup_app. split_and!; [by apply (NoDup_fmap_1 policy_key), NoDup_replaced| |by apply NoDup_filter].
      intros a (_ & e & Hine & Hk & _)%Holds [_ Hx]%policies_extra_iff.
      apply xfrmPolicyMatches_iff in Hk. by rewrite Hx in Hk.
    - intros a [[? _]%Holds|[? _]%policies_extra_iff]%elem_of_app; done. }
  rewrite <- app_assoc in Hkept. exists kept. split; [done|].
  assert (forall a, a ∈ kept <-> a ∈ actual /\ (a ∉ olds) /\ (a ∉ policies_extra actual expected)) as Hk.
  { rewrite Hkept in Hnda. rewrite !NoDup_app in Hnda. destruct Hnda as (_ & Hd1 & _ & Hd2 & _).
    intros a. rewrite Hkept at 1. rewrite !elem_of_app. split.
    - intros Hin. split_and!; [auto| |]; intros Hf; [by apply (Hd1 a Hf), elem_of_app; right|by apply (Hd2 a Hf)].
    - tauto. }
  split.
  - intros a (Hin & Hno & Hnx)%Hk. destruct (policy_match actual a) eqn:Hm; cycle 1.
    { rewrite policy_match_None in Hm. specialize (Hm a Hin). by rewrite (proj2 (xfrmPolicyMatches_iff a a) eq_refl) in Hm. }
    destruct (existsb (xfrmPolicyMatches a) expected) eqn:Hx; cycle 1.
    { destruct Hnx. apply policies_extra_iff. split; [done|]. intros e Hine. apply not_true_iff_false. intros Hc.
      apply not_true_iff_false in Hx. apply Hx, existsb_exists. exists e. by rewrite <- list_elem_of_In. }
    apply existsb_exists in Hx as (e & Hine%list_elem_of_In & Hme%xfrmPolicyMatches_iff). exists e. split; [done|].
    apply not_false_iff_true. intros Hq. apply Hno, Holds. eauto.
  - intros e a Hine Hin Hh. pose proof (policy_held_key _ _ Hh) as Hkey. apply Hk. split_and!; [done| |].
    + intros (_ & e' & Hine' & Hk' & Hq)%Holds. assert (e' = e) as -> by (apply (key_inj policy_key expected); congruence || done).
      unfold policy_held in Hh. congruence.
    + intros [_ Hx]%policies_extra_iff. apply xfrmPolicyMatches_iff in Hkey. by rewrite Hx in Hkey.
Qed.
Lemma set_Index_own e : set_Index (xp_Index e) e = e.
Proof. by destruct e. Qed.

Lemma Forall2_stored_keys l ys : Forall2 (stored policy_table) l ys -> policy_key <$> ys = policy_key <$> l.
Proof. induction 1 as [|e y l ys Hs _ IH]; [done|]. cbn. by rewrite (stored_policy_key _ _ Hs), IH. Qed.

Lemma missing_fresh actual expected e a :
  e ∈ policies_missing actual expected -> a ∈ actual -> policy_key a ≠ policy_key e.
Proof. intros [_ Hn]%policies_missing_iff Ha Hk%xfrmPolicyMatches_iff. by rewrite Hn in Hk. Qed.

(** What the three loops leave is in step with what was expected. *)
Lemma policies_final actual expected kept ys zs final :
  NoDup (policy_key <$> actual) -> NoDup (policy_key <$> expected) ->
  actual ≡ₚ (fst <$> policies_replaced actual expected) ++ policies_extra actual expected ++ kept ->
  (forall a, a ∈ kept -> exists e, e ∈ expected /\ policy_held e a) ->
  (forall e a, e ∈ expected -> a ∈ actual -> policy_held e a -> a ∈ kept) ->
  Forall2 (stored policy_table) (policies_missing actual expected) ys ->
  Forall2 (stored policy_table) (snd <$> policies_replaced actual expected) zs ->
  final ≡ₚ zs ++ ys ++ kept ->
  NoDup (policy_key <$> final) /\
  (forall e, e ∈ expected -> exists y, y ∈ final /\ policy_held e y) /\
  (forall y, y ∈ final -> exists e, e ∈ expected /\ policy_held e y).
Proof.
  intros Ha He Hsplit Hk1 Hk2 Hys Hzs Hfinal. split_and!.
  - assert (policy_key <$> (snd <$> policies_replaced actual expected)
            = policy_key <$> (fst <$> policies_replaced actual expected)) as Hkeys.
    { rewrite <- !list_fmap_compose. apply list_fmap_ext. intros i [a x] Hi%list_elem_of_lookup_2. cbn.
      apply policies_replaced_iff in Hi as (e & _ & [_ Hk]%policy_match_key & -> & _); [|done]. done. }
    rewrite Hfinal, !fmap_app, (Forall2_stored_keys _ _ Hys), (Forall2_stored_keys _ _ Hzs), Hkeys.
    rewrite app_assoc, (Permutation_app_comm (policy_key <$> (fst <$> _))), <- app_assoc.
    assert (NoDup (policy_key <$> ((fst <$> policies_replaced actual expected) ++ kept))) as Hnd.
    { rewrite Hsplit, !fmap_app, !NoDup_app in Ha. rewrite fmap_app, NoDup_app. destruct Ha as (? & Hd & _ & _ & ?).
      split_and!; [done| |done]. intros i Hi Hi'. apply (Hd i Hi), elem_of_app. by right. }
    rewrite <- fmap_app. apply NoDup_app. split_and!; [by apply NoDup_missing| |done].
    intros i (e & -> & Hm)%list_elem_of_fmap (a & Hae & Hin)%list_elem_of_fmap.
    apply (missing_fresh _ _ _ a Hm); [|done]. rewrite Hsplit, !elem_of_app. apply elem_of_app in Hin. tauto.
  - intros e Hin. setoid_rewrite Hfinal. setoid_rewrite elem_of_app. setoid_rewrite elem_of_app.
    destruct (policy_match actual e) as [a|] eqn:Hm.
    + pose proof Hm as [Hina Hk]%policy_match_key; [|done].
      destruct (xfrmPolicyEqual a (set_Index (xp_Index a) e)) eqn:Hq; [exists a; split; [|done]; right; right; by apply (Hk2 e)|].
      assert (set_Index (xp_Index a) e ∈ (snd <$> policies_replaced actual expected)) as Hx.
      { apply list_elem_of_fmap. exists (a, set_Index (xp_Index a) e). split; [done|]. apply policies_replaced_iff. eauto. }
      apply list_elem_of_lookup in Hx as [n Hn]. destruct (Forall2_lookup_l _ _ _ _ _ Hzs Hn) as (z & Hz & Hs).
      exists z. split; [left; by eapply list_elem_of_lookup_2|]. apply policy_stored in Hs. exact Hs.
    + assert (e ∈ policies_missing actual expected) as Hx.
      { apply policies_missing_iff. split; [done|by apply policy_match_None]. }
      apply list_elem_of_lookup in Hx as [n Hn]. destruct (Forall2_lookup_l _ _ _ _ _ Hys Hn) as (y & Hy & Hs).
      exists y. split; [right; left; by eapply list_elem_of_lookup_2|by apply policy_stored].
  - intros y Hy. rewrite Hfinal, !elem_of_app in Hy. destruct Hy as [Hy|[Hy|Hy]]; [..|by apply Hk1].
    + apply list_elem_of_lookup in Hy as [n Hn]. destruct (Forall2_lookup_r _ _ _ _ _ Hzs Hn) as (x & Hx & Hs).
      apply list_elem_of_lookup_2, list_elem_of_fmap in Hx as ([a x'] & -> & (e & Hin & _ & -> & _)%policies_replaced_iff).
      exists e. split; [done|]. apply policy_stored in Hs. exact Hs.
    + apply list_elem_of_lookup in Hy as [n Hn]. destruct (Forall2_lookup_r _ _ _ _ _ Hys Hn) as (e & Hx & Hs).
      apply list_elem_of_lookup_2, policies_missing_iff in Hx as [Hin _]. exists e. split; [done|by apply policy_stored].
Qed.

Lemma XfrmPolicyTable_Ensure_converges expected w :
  policies_goal expected (kern w) ->
  exists log s k', XfrmPolicyTable_Ensure expected w = (Ret tt, after w s log k') /\ policies_in_step expected k'.
Proof.
  intros [He Hk Hag Hacc]. destruct (XfrmPolicyList_lists (kern w)) as (actual & Hl & Hp).
  assert (NoDup (policy_key <$> actual)) as Ha by (by rewrite Hp).
  rewrite (XfrmPolicyTable_Ensure_eq _ _ _ _ Hl), policies_changed_replaced.
  destruct (policies_split actual expected Ha He) as (kept & Hsplit & Hk1 & Hk2).
  destruct (add_all policy_table (policies_missing actual expected) (kern w)) as (ys & k1 & Hr1 & Hys & Hp1 & _).
  { intros e Hm. pose proof Hm as [Hin _]%policies_missing_iff. destruct (Hacc e Hin) as [(a & Hina & Hh)|Hi].
    - apply policy_held_key in Hh. rewrite <- Hp in Hina. by destruct (missing_fresh _ _ _ _ Hm Hina).
    - specialize (Hi (xp_Index e)). by rewrite set_Index_own in Hi. }
  { by apply apart_policies, NoDup_missing. }
  { intros e a Hm Hina. rewrite policy_occupies. apply not_true_iff_false. intros Hc%policy_conflict_key.
    rewrite <- Hp in Hina. by destruct (missing_fresh _ _ _ _ Hm Hina). }
  destruct (update_entries policy_table XfrmPolicyUpdate policy_key policy_conflict policy_conflict_key stored_policy_key
    XfrmPolicyUpdate_replaces (snd <$> policies_replaced actual expected) k1
    (fst <$> policies_replaced actual expected) (policies_extra actual expected ++ ys ++ kept)) as (zs & k2 & Hr2 & Hzs & Hp2).
  { rewrite Hp1, <- Hp, Hsplit at 1. by rewrite (Permutation_app_comm ys), <- !app_assoc, (Permutation_app_comm kept). }
  { rewrite Hp1, fmap_app, (Forall2_stored_keys _ _ Hys), <- Hp. apply NoDup_app.
    split_and!; [by apply NoDup_missing| |done].
    intros i (e & -> & Hm)%list_elem_of_fmap (a & Hae & Hin)%list_elem_of_fmap. by apply (missing_fresh _ _ _ _ Hm Hin). }
  { rewrite Forall2_fmap, Forall2_same_length_lookup. split; [done|]. intros i [a e] [a' e'] Hi Hi'.
    assert ((a', e') = (a, e)) as [= -> ->] by congruence. simpl.
    apply list_elem_of_lookup_2, policies_replaced_iff in Hi as (e' & Hin & [Hina Hke]%policy_match_key & -> & _); [|done].
    rewrite Hp in Hina. exact (Hag a e' Hina Hin Hke). }
  { intros x ([a x'] & -> & Hin)%list_elem_of_fmap. apply policies_replaced_iff in Hin as (e & Hin & [Hina Hke]%policy_match_key & -> & Hq); [|done].
    destruct (Hacc e Hin) as [(b & Hb & Hh)|Hi]; [|apply Hi]. exfalso.
    assert (b = a) as ->; [|unfold policy_held in Hh; congruence]. rewrite <- Hp in Hb.
    apply (key_inj policy_key actual); [done..|]. rewrite (policy_held_key _ _ Hh). done. }
  destruct (delete_all policy_table (policies_extra actual expected) k2 (zs ++ ys ++ kept)) as (k3 & Hr3 & Hp3 & _).
  { rewrite Hp2. by rewrite !app_assoc, (Permutation_app_comm zs), <- !app_assoc. }
  rewrite Hr1, Hr2, Hr3. eexists _, _, k3. split; [reflexivity|]. by eapply policies_final.
Qed.
(** Whatever policies the kernel held, after a run that succeeded every expected one is there. *)
Lemma policy_occupies_key y x : occupies policy_table y x = true -> policy_key y = policy_key x.
Proof. rewrite policy_occupies. apply policy_conflict_key. Qed.

Lemma NoDup_policies_changed actual expected :
  NoDup (policy_key <$> expected) -> NoDup (policy_key <$> policies_changed actual expected).
Proof.
  intros Hnd. apply NoDup_policy_sublist; [done|]. intros e b. destruct (policy_match actual e) as [a|]; [|done].
  cbv zeta. destruct (xfrmPolicyEqual _ _); [done|]. by intros [= <-].
Qed.

Lemma XfrmPolicyTable_Ensure_success expected w w' :
  NoDup (policy_key <$> expected) -> XfrmPolicyTable_Ensure expected w = (Ret tt, w') ->
  forall e, e ∈ expected -> exists y, y ∈ entries policy_table (kern w') /\ policy_held e y.
Proof.
  intros He. destruct (XfrmPolicyList_lists (kern w)) as (actual & Hl & Hp).
  rewrite (XfrmPolicyTable_Ensure_eq _ _ _ _ Hl).
  destruct (exec_all _ (kern w)) as [[log1 [e1|]] k1] eqn:H1; [done|].
  destruct (exec_all _ k1) as [[log2 [e2|]] k2] eqn:H2; [done|].
  destruct (exec_all _ k2) as [[log3 [e3|]] k3] eqn:H3; [done|]. intros [= <-]. rewrite kern_after.
  assert (forall e, e ∈ expected -> policy_key e ∉ policy_key <$> policies_extra actual expected) as Hrem.
  { intros e Hin (a & Ha & [_ Hn]%policies_extra_iff)%list_elem_of_fmap. symmetry in Ha.
    apply xfrmPolicyMatches_iff in Ha. by rewrite Hn in Ha. }
  destruct (reconcile_success policy_table XfrmPolicyUpdate policy_key policy_conflict policy_conflict_key policy_occupies_key
    stored_policy_key XfrmPolicyUpdate_success _ _ _ _ _ _ _ _ _ _ H1 H2 H3) as [Hthere Hkept].
  { by apply NoDup_policies_changed. }
  { intros i (x & -> & [_ Hn]%policies_missing_iff)%list_elem_of_fmap
      (y & Hy & (e & a & _ & [Ha Hm]%policy_match_Some & -> & _)%policies_changed_iff)%list_elem_of_fmap.
    apply xfrmPolicyMatches_iff in Hm. change (policy_key (set_Index _ e)) with (policy_key e) in Hy.
    rewrite <- Hy in Hm. apply xfrmPolicyMatches_iff in Hm. by rewrite Hn in Hm. }
  { intros x [[Hx _]%policies_missing_iff|(e & a & Hin & _ & -> & _)%policies_changed_iff]; [by apply Hrem|].
    by apply (Hrem e). }
  intros e Hin. destruct (policy_match actual e) as [a|] eqn:Ha; cycle 1.
  { destruct (Hthere e) as (y & Hs & Hy).
    - left. apply policies_missing_iff. by rewrite <- policy_match_None.
    - exists y. split; [done|by apply policy_stored]. }
  destruct (xfrmPolicyEqual a (set_Index (xp_Index a) e)) eqn:Hq; cycle 1.
  { destruct (Hthere (set_Index (xp_Index a) e)) as (y & Hs & Hy); [right; apply policies_changed_iff; eauto 10|].
    exists y. split; [done|]. apply policy_stored in Hs. exact Hs. }
  pose proof (policy_match_Some _ _ _ Ha) as [Hina Hk%xfrmPolicyMatches_iff]. exists a. split; [|done].
  rewrite Hp in Hina. apply Hkept; [done|..]; rewrite Hk; [|by apply Hrem].
  intros (x & Hx & (e' & a' & Hin' & Ha' & -> & Hq')%policies_changed_iff)%list_elem_of_fmap.
  change (policy_key (set_Index _ e')) with (policy_key e') in Hx.
  assert (e' = e) as -> by (by apply (key_inj policy_key expected)). congruence.
Qed.
End Converge.

(** On any kernel: with the policies in step there is nothing to do. *)
Lemma XfrmPolicyTable_Ensure_settled {K P} `{Kernel K} `{NetlinkConsts} expected (w : World K P) actual k :
  k_XfrmPolicyList FAMILY_ALL (kern w) = (inl actual, k) ->
  NoDup (policy_key <$> actual) -> NoDup (policy_key <$> expected) ->
  (forall e, e ∈ expected -> exists y, y ∈ actual /\ policy_held e y) ->
  (forall y, y ∈ actual -> exists e, e ∈ expected /\ policy_held e y) ->
  XfrmPolicyTable_Ensure expected w = (Ret tt, after w (sched w) [] k).
Proof.
  intros Hl Ha He Hin Hout. rewrite (XfrmPolicyTable_Ensure_eq _ _ _ _ Hl).
  assert (policies_missing actual expected = []) as ->.
  { apply elem_of_nil_inv. intros e [Hine Hn]%policies_missing_iff. destruct (Hin e Hine) as (y & Hy & Hh%policy_held_key).
    apply xfrmPolicyMatches_iff in Hh. by rewrite Hn in Hh. }
  assert (policies_changed actual expected = []) as ->.
  { apply elem_of_nil_inv. intros p (e & a & Hine & [Hina Hk]%policy_match_key & -> & Hq)%policies_changed_iff; [|done].
    destruct (Hin e Hine) as (y & Hy & Hh). assert (y = a) as ->; [|unfold policy_held in Hh; congruence].
    apply (key_inj policy_key actual); [done..|]. by rewrite (policy_held_key _ _ Hh). }
  assert (policies_extra actual expected = []) as ->; [|done].
  apply elem_of_nil_inv. intros p [Hinp Hn]%policies_extra_iff. destruct (Hout p Hinp) as (e & Hine & Hh%policy_held_key).
  apply xfrmPolicyMatches_iff in Hh. by rewrite Hn in Hh.
Qed.

Section Theorems.
Context {K P : Type} `{Kernel K} `{NetlinkConsts} `{!PolicyLaws K}.
Implicit Types (w : World K P).

(** C20: on a kernel that keeps the contract of the policy table, [XfrmPolicyTable.Ensure] succeeds
    when the selectors are distinct and the marks agree: afterwards there is, for every expected
    policy, one that equals it up to the index the kernel gave it, and no other policy; and a
    further run makes no call. *)
Theorem xfrm_policies_converge expected w :
  policies_goal expected (kern w) ->
  exists log s k', XfrmPolicyTable_Ensure expected w = (Ret tt, after w s log k') /\
    (forall e, e ∈ expected -> exists y, y ∈ entries policy_table k' /\ policy_held e y) /\
    (forall y, y ∈ entries policy_table k' -> exists e, e ∈ expected /\ policy_held e y) /\
    forall w2 : World K P, kern w2 = k' ->
      XfrmPolicyTable_Ensure expected w2 = (Ret tt, after w2 (sched w2) [] k').
Proof.
  intros Hg. destruct (XfrmPolicyTable_Ensure_converges expected w Hg) as (log & s & k' & Hr & Hnd & Hin & Hout).
  exists log, s, k'. split_and!; [done..|]. intros w2 <-.
  destruct (XfrmPolicyList_lists (kern w2)) as (actual & Hl & Hp).
  apply (XfrmPolicyTable_Ensure_settled expected w2 actual); [done|by rewrite Hp|apply Hg|..].
  - intros e He. destruct (Hin e He) as (y & Hy & Hh). exists y. by rewrite Hp.
  - intros y Hy. rewrite Hp in Hy. by apply Hout.
Qed.
End Theorems.

Section Witnesses.
#[local] Existing Instance netlink_v1_1_0.

Lemma policy_calls_witness :
  let p := MkXfrmPolicy (Some (net4 100 96 1 0 24)) None 0 0 0 XFRM_DIR_OUT 0 0 None [] in
  exists log s k' r, XfrmPolicyTable_Ensure [p] (sim_world sim_empty tt)
                     = (r, after (sim_world sim_empty tt) s log k').
Proof.
  intros p.
  assert (k_XfrmPolicyList FAMILY_ALL (kern (sim_world sim_empty tt)) = (inl [], sim_empty)) as Hl by reflexivity.
  destruct (policy_calls [p] (sim_world sim_empty tt) _ _ Hl)
    as (adds & upds & dels & log & e & s & k' & r & Hr & _).
  exists log, s, k', r. exact Hr.
Defined.

(** One policy is missing, one has the wrong priority, one is not expected. *)
Definition sim_policy (c p i : Z) : XfrmPolicy :=
  MkXfrmPolicy (Some (net4 100 96 c 0 24)) None 0 0 0 XFRM_DIR_OUT p i None [].

Lemma xfrm_policies_converge_witness :
  let k := set_policies [sim_policy 1 100 8; sim_policy 2 7 16; sim_policy 9 100 24] sim_empty in
  let expected := [sim_policy 1 100 0; sim_policy 2 100 0; sim_policy 3 100 0] in
  exists log s k', XfrmPolicyTable_Ensure (P := unit) expected (sim_world k tt) = (Ret tt, after (sim_world k tt) s log k') /\
    exists y, y ∈ entries policy_table k' /\ policy_held (sim_policy 2 100 0) y.
Proof.
  intros k expected.
  destruct (xfrm_policies_converge (P := unit) expected (sim_world k tt)) as (log & s & k' & Hr & Hin & _).
  - split; [by_computation|by_computation| |].
    + intros a e Ha He Hk. apply xfrmPolicyMatches_iff in Hk. unfold policy_conflict. rewrite Hk.
      assert (xp_Mark a = None) as ->; [clear Hk; revert a Ha; apply Forall_forall; by_computation|].
      assert (xp_Mark e = None) as ->; [clear Hk; revert e He; apply Forall_forall; by_computation|]. reflexivity.
    + intros e _. right. intros i. exact I.
  - exists log, s, k'. split; [exact Hr|]. apply Hin. right. by left.
Defined.
End Witnesses.
