(* ===== verification/LinkFacts.v ===== *)
(** * What [Links.Ensure] does: pkg/routing/netutil/links.go *)

From S2P Require Import Prelude GoNet GoNetFacts Netlink Effects Reconcile Tables Netutil.
From S2P Require Import Links KernelLaws Sim.

Definition expected_links (expected : list Link) : gmap string Link :=
  index_by (fun e => Some (link_name e)) expected.

Lemma expected_links_iff expected n e :
  NoDup (link_name <$> expected) -> expected_links expected !! n = Some e <-> e ∈ expected /\ link_name e = n.
Proof.
  intros Hnd. unfold expected_links. rewrite index_by_unique; [naive_solver|].
  clear -Hnd. assert (omap (fun e => Some (link_name e)) expected = link_name <$> expected) as ->; [|done].
  clear. induction expected as [|e l IH]; [done|]. cbn. by f_equal.
Qed.

Lemma actual_key_name prefix l n : link_actual_key prefix l = Some n -> link_name l = n /\ HasPrefix n prefix = true.
Proof. unfold link_actual_key. destruct (HasPrefix _ _) eqn:Hp; [|done]. by intros [= <-]. Qed.

Lemma links_present_lookup actualMap entries n a :
  links_present actualMap entries !! n = Some a <-> n ∈ entries.*1 /\ actualMap !! n = Some a.
Proof.
  unfold links_present. induction entries as [|[k e] l IH] using rev_ind.
  { simpl. rewrite lookup_empty. split; [done|]. by intros [?%not_elem_of_nil _]. }
  rewrite foldl_app, fmap_app. cbn. rewrite elem_of_app, list_elem_of_singleton.
  destruct (actualMap !! k) as [b|] eqn:Hb.
  - destruct (decide (k = n)) as [->|Hne].
    + rewrite lookup_insert_eq. naive_solver.
    + rewrite lookup_insert_ne, IH by done. naive_solver.
  - rewrite IH. naive_solver.
Qed.

Section Runs.
Context {K P : Type} `{Kernel K}.
Implicit Types (w : World K P).

Definition links_to_create (o : Order) prefix (actual expected : list Link) : list Link :=
  not_in (index_by (link_actual_key prefix) actual) (range o (expected_links expected)).

Definition links_to_remove (o : Order) prefix (actual expected : list Link) : list Link :=
  not_in (expected_links expected) (range o (index_by (link_actual_key prefix) actual)).

Lemma Links_Ensure_eq expected prefix w actual k :
  k_LinkList (kern w) = (inl actual, k) ->
  Links_Ensure expected prefix w
  = let s := fun n => sched w (S (S n)) in
    let '(log, e, k1) := exec_all (LinkDel <$> links_to_remove (sched w 1%nat) prefix actual expected) k in
    match e with
    | Some e => (Err (Errorf "error removing link: %v" e), after w s log k1)
    | None =>
        links_create (links_to_create (sched w 0%nat) prefix actual expected)
          (links_present (index_by (link_actual_key prefix) actual) (range (sched w 0%nat) (expected_links expected)))
          (after w s log k1)
    end.
Proof.
  intros Hl. unfold Links_Ensure. rewrite (bind_query _ _ _ _ _ _ Hl), bind_order. world.
  rewrite bind_order. world. rewrite bind_run, each_call. world.
  unfold links_to_remove, expected_links. destruct (exec_all _ k) as [[log [e|]] k1];
    unfold outcome_of at 1; by world.
Qed.
End Runs.

Section Laws.
Context {K P : Type} `{Kernel K} `{!LinkLaws K}.
Implicit Types (w : World K P) (expected actual l : list Link).

(** The link the kernel made for the one it was given. *)
Definition made (e l : Link) : Prop := link_name l = link_name e /\ Kind l = Kind e.

Lemma create_links l : forall w m,
  (forall x, x ∈ l -> link_accepts x) -> NoDup (link_name <$> l) ->
  (forall x y, x ∈ l -> y ∈ links (kern w) -> link_name y ≠ link_name x) ->
  exists ls log k', links_create l m w
    = (Ret (foldl (fun m y => <[link_name y := y]> m) m ls), after w (sched w) log k') /\
    Forall2 made l ls /\ links k' ≡ₚ ls ++ links (kern w).
Proof.
  induction l as [|x l IH]; intros w m Hacc Hnd Hfree.
  { exists [], [], (kern w). split_and!; [|constructor|done]. unfold after. rewrite app_nil_r. by destruct w. }
  cbn in Hnd. apply NoDup_cons in Hnd as [Hn Hnd]. cbn [links_create]. rewrite bind_run.
  destruct (LinkAdd_free (kern w) x) as (x' & k1 & Hr & Hname & Hkind & Hp).
  { apply Hacc. by left. } { intros y Hy. apply Hfree; [by left|done]. }
  unfold wrap, netlink_LinkAdd. rewrite Hr.
  destruct (IH (after w (sched w) [(LinkAdd x, None)] k1) (<[link_name x' := x']> m)) as (ls & log & k' & Hr' & Hm & Hp').
  - intros y Hy. apply Hacc. by right.
  - done.
  - intros y z Hy. rewrite kern_after, Hp, elem_of_cons. intros [->|Hz].
    + rewrite Hname. intros He. apply Hn. rewrite He. by apply list_elem_of_fmap_2.
    + apply Hfree; [by right|done].
  - exists (x' :: ls), ((LinkAdd x, None) :: log), k'. split_and!.
    + unfold after in Hr' at 1. rewrite Hr'. by world.
    + by constructor.
    + rewrite Hp', kern_after, Hp. by rewrite <- Permutation_middle.
Qed.

Lemma made_insert l ls : forall (m : gmap string Link) n y,
  NoDup (link_name <$> l) -> Forall2 made l ls -> (forall x, x ∈ l -> m !! link_name x = None) ->
  foldl (fun m y => <[link_name y := y]> m) m ls !! n = Some y
  <-> m !! n = Some y \/ y ∈ ls /\ link_name y = n.
Proof.
  intros m n y Hnd Hm. revert m Hnd. induction Hm as [|x x' l ls [Hx _] _ IH]; intros m Hnd Hno; cbn.
  { split; [by left|]. intros [?|[?%not_elem_of_nil _]]; done. }
  cbn in Hnd. apply NoDup_cons in Hnd as [Hn Hnd]. rewrite IH; [|done|].
  - rewrite elem_of_cons, Hx. destruct (decide (link_name x = n)) as [He|He].
    + rewrite He, lookup_insert_eq. rewrite <- He, (Hno x) by (by left). naive_solver congruence.
    + rewrite lookup_insert_ne by done. naive_solver congruence.
  - intros z Hz. rewrite Hx, lookup_insert_ne; [apply Hno; by right|]. intros He. apply Hn. rewrite He.
    by apply list_elem_of_fmap_2.
Qed.

(** The expected links have distinct names with the prefix and are taken by the kernel, whose
    own links have distinct names. *)
Record links_goal expected prefix (k : K) : Prop := {
  lg_expected : NoDup (link_name <$> expected);
  lg_prefix : forall e, e ∈ expected -> HasPrefix (link_name e) prefix = true;
  lg_accepts : forall e, e ∈ expected -> link_accepts e;
  lg_actual : NoDup (link_name <$> links k)
}.

Lemma actual_index prefix actual n a :
  NoDup (link_name <$> actual) ->
  index_by (link_actual_key prefix) actual !! n = Some a
  <-> a ∈ actual /\ link_name a = n /\ HasPrefix n prefix = true.
Proof.
  intros Hnd. rewrite index_by_unique.
  - unfold link_actual_key. split.
    + intros [Ha Hk]. by apply actual_key_name in Hk.
    + intros (Ha & <- & ->). done.
  - induction actual as [|x l IH]; [by apply NoDup_nil|]. cbn in *. apply NoDup_cons in Hnd as [Hn Hnd].
    destruct (link_actual_key prefix x) as [n'|] eqn:Hx; [|by apply IH].
    apply NoDup_cons. split; [|by apply IH]. intros (y & Hy & Hk)%list_elem_of_omap. apply Hn.
    apply actual_key_name in Hx as [-> _], Hk as [<- _]. by apply list_elem_of_fmap_2.
Qed.

Lemma to_create_iff o prefix actual expected e :
  NoDup (link_name <$> expected) -> NoDup (link_name <$> actual) ->
  (forall e, e ∈ expected -> HasPrefix (link_name e) prefix = true) ->
  e ∈ links_to_create o prefix actual expected
  <-> e ∈ expected /\ forall a, a ∈ actual -> link_name a ≠ link_name e.
Proof.
  intros He Ha Hp. unfold links_to_create. rewrite elem_of_not_in. split.
  - intros (n & Hn & Hno). apply expected_links_iff in Hn as [Hin <-]; [|done]. split; [done|].
    intros a Hina Heq. assert (index_by (link_actual_key prefix) actual !! link_name e = Some a); [|congruence].
    apply actual_index; [done|]. split_and!; [done|done|by apply Hp].
  - intros [Hin Hno]. exists (link_name e). split; [by apply expected_links_iff|].
    destruct (index_by _ actual !! _) as [a|] eqn:Hi; [|done].
    apply actual_index in Hi as (Hina & Heq & _); [|done]. by destruct (Hno a Hina).
Qed.

Lemma to_remove_iff o prefix actual expected a :
  NoDup (link_name <$> expected) -> NoDup (link_name <$> actual) ->
  a ∈ links_to_remove o prefix actual expected
  <-> a ∈ actual /\ HasPrefix (link_name a) prefix = true /\ forall e, e ∈ expected -> link_name e ≠ link_name a.
Proof.
  intros He Ha. unfold links_to_remove. rewrite elem_of_not_in. split.
  - intros (n & (Hin & <- & Hp)%actual_index & Hno); [|done]. split_and!; [done|done|].
    intros e Hine Heq. assert (expected_links expected !! link_name a = Some e); [|congruence].
    by apply expected_links_iff.
  - intros (Hin & Hp & Hno). exists (link_name a). split; [by apply actual_index|].
    destruct (expected_links expected !! _) as [e|] eqn:Hi; [|done].
    apply expected_links_iff in Hi as [Hine Heq]; [|done]. by destruct (Hno e Hine).
Qed.
Lemma to_create_names o prefix actual expected :
  NoDup (link_name <$> expected) -> NoDup (link_name <$> links_to_create o prefix actual expected).
Proof.
  intros He. unfold links_to_create, not_in. apply NoDup_omap_fst; [apply NoDup_range_keys|].
  intros [n e] e' Hin%elem_of_range Hc. simpl in *. apply expected_links_iff in Hin as [_ Hn]; [|done].
  destruct (index_by _ actual !! n); [done|]. by injection Hc as <-.
Qed.

(** The map [Ensure] returns, before the new links are added: the expected links that exist. *)
Lemma present_iff o prefix actual expected n a :
  NoDup (link_name <$> expected) -> NoDup (link_name <$> actual) ->
  links_present (index_by (link_actual_key prefix) actual) (range o (expected_links expected)) !! n = Some a
  <-> a ∈ actual /\ link_name a = n /\ HasPrefix n prefix = true /\ n ∈ (link_name <$> expected).
Proof.
  intros He Ha. rewrite links_present_lookup, actual_index by done.
  assert (n ∈ (range o (expected_links expected)).*1 <-> n ∈ (link_name <$> expected)) as ->; [|naive_solver].
  rewrite !list_elem_of_fmap. split.
  - intros ([n' e] & -> & [Hin Hn]%elem_of_range%expected_links_iff); [|done]. exists e. by rewrite Hn.
  - intros (e & -> & Hin). exists (link_name e, e). split; [done|]. by apply elem_of_range, expected_links_iff.
Qed.

Lemma delete_links rem kept : forall k,
  links k ≡ₚ rem ++ kept ->
  exists k', exec_all (LinkDel <$> rem) k = ((fun a => (a, None)) <$> (LinkDel <$> rem), None, k') /\ links k' ≡ₚ kept.
Proof.
  induction rem as [|x rem IH]; intros k Hk; cbn [fmap list_fmap exec_all]; [by exists k|].
  destruct (LinkDel_present k x) as (k1 & Hr & Hp); [rewrite Hk; by left|].
  destruct (IH k1) as (k' & Hr' & Hp').
  { apply (Permutation.Permutation_cons_inv (a := x)). by rewrite <- Hp, Hk. }
  exists k'. by rewrite Hr, Hr'.
Qed.

(** The run: the links that are removed and kept, those that are made, and the map. *)
Lemma links_run expected prefix w :
  links_goal expected prefix (kern w) ->
  exists (rem kept cre ls : list Link) m log s k',
    Links_Ensure expected prefix w = (Ret m, after w s log k') /\
    links (kern w) ≡ₚ rem ++ kept /\ links k' ≡ₚ ls ++ kept /\ Forall2 made cre ls /\
    (forall a, a ∈ rem <-> a ∈ links (kern w) /\ HasPrefix (link_name a) prefix = true /\
       link_name a ∉ (link_name <$> expected)) /\
    (forall e, e ∈ cre <-> e ∈ expected /\ link_name e ∉ (link_name <$> links (kern w))) /\
    (forall n a, m !! n = Some a <-> a ∈ ls /\ link_name a = n \/
       a ∈ links (kern w) /\ link_name a = n /\ HasPrefix n prefix = true /\ n ∈ (link_name <$> expected)).
Proof.
  intros [He Hpre Hacc Hk]. destruct (LinkList_lists (kern w)) as (actual & Hl & Hp).
  assert (NoDup (link_name <$> actual)) as Ha by (by rewrite Hp).
  rewrite (Links_Ensure_eq _ _ _ _ _ Hl). cbv zeta. set (o1 := sched w 0%nat). set (o2 := sched w 1%nat).
  set (rem := links_to_remove o2 prefix actual expected). set (cre := links_to_create o1 prefix actual expected).
  pose proof (fun a => to_remove_iff o2 prefix actual expected a He Ha) as Hrem. fold rem in Hrem.
  pose proof (fun e => to_create_iff o1 prefix actual expected e He Ha Hpre) as Hcre. fold cre in Hcre.
  destruct (submseteq_Permutation rem actual) as [kept Hkept].
  { apply NoDup_submseteq; [apply NoDup_not_in|]. by intros a [? _]%Hrem. }
  destruct (delete_links rem kept (kern w)) as (k1 & Hr1 & Hk1); [by rewrite <- Hp|].
  rewrite Hr1. set (m0 := links_present _ _).
  destruct (create_links cre (after w (fun n => sched w (S (S n))) ((fun a => (a, None)) <$> (LinkDel <$> rem)) k1) m0)
    as (ls & log & k' & Hr2 & Hm & Hk').
  { intros e [Hin _]%Hcre. by apply Hacc. }
  { by apply to_create_names. }
  { intros e a [_ Hno]%Hcre. rewrite kern_after, Hk1. intros Hin. apply Hno. rewrite Hkept. apply elem_of_app. by right. }
  rewrite kern_after, Hk1 in Hk'. rewrite Hr2. eexists rem, kept, cre, ls, _, _, _, k'.
  split_and!; [by world|by rewrite <- Hp|done|done| | |].
  - intros a. rewrite Hrem, Hp, list_elem_of_fmap. naive_solver.
  - intros e. rewrite Hcre, <- Hp, list_elem_of_fmap. naive_solver.
  - intros n a. rewrite (made_insert cre ls m0), <- Hp; [|by apply to_create_names|done|].
    + unfold m0. rewrite present_iff by done. tauto.
    + intros x [Hin Hno]%Hcre. destruct (m0 !! link_name x) as [b|] eqn:Hb; [|done].
      apply present_iff in Hb as (Hinb & Heq & _); [|done..]. by destruct (Hno b Hinb).
Qed.

(** The map has a link of the kernel for every expected name. *)
Lemma links_result expected prefix k k' rem kept cre ls (m : gmap string Link) :
  links_goal expected prefix k ->
  links k ≡ₚ rem ++ kept -> links k' ≡ₚ ls ++ kept -> Forall2 made cre ls ->
  (forall a, a ∈ rem <-> a ∈ links k /\ HasPrefix (link_name a) prefix = true /\
     link_name a ∉ (link_name <$> expected)) ->
  (forall e, e ∈ cre <-> e ∈ expected /\ link_name e ∉ (link_name <$> links k)) ->
  (forall n a, m !! n = Some a <-> a ∈ ls /\ link_name a = n \/
     a ∈ links k /\ link_name a = n /\ HasPrefix n prefix = true /\ n ∈ (link_name <$> expected)) ->
  forall n, n ∈ (link_name <$> expected) -> exists x, m !! n = Some x /\ x ∈ links k' /\ link_name x = n.
Proof.
  intros [He Hpre _ Hnd] Hk Hk' Hm Hrem Hcre Hmap n Hn.
  destruct (decide (n ∈ (link_name <$> links k))) as [Hin|Hno].
  - apply list_elem_of_fmap in Hin as (x & -> & Hin). exists x. split_and!; [|  |done].
    + apply Hmap. right. split_and!; [done|done| |done].
      apply list_elem_of_fmap in Hn as (e & -> & Hine). by apply Hpre.
    + rewrite Hk', elem_of_app. right. apply (remainder_iff _ _ _ x (NoDup_fmap_1 _ _ Hnd) Hk).
      split; [done|]. by intros (_ & _ & [])%Hrem.
  - apply list_elem_of_fmap in Hn as (e & -> & Hin).
    assert (e ∈ cre) as [i Hi]%list_elem_of_lookup by (by apply Hcre).
    destruct (Forall2_lookup_l _ _ _ _ _ Hm Hi) as (x & Hx%list_elem_of_lookup_2 & Hname & _).
    exists x. split_and!; [apply Hmap; by left| |done]. rewrite Hk', elem_of_app. by left.
Qed.

(** C30: on a kernel that keeps the contract of the links, [Links.Ensure] succeeds, never touches a
    link without the prefix, leaves exactly the expected names among those with it, and returns
    the link the kernel holds for each of them; a link that existed under an expected name is
    returned as it is, whatever its parameters: a difference is never repaired. *)
Theorem links_converge expected prefix w :
  links_goal expected prefix (kern w) ->
  exists m log s k',
    Links_Ensure expected prefix w = (Ret m, after w s log k') /\
    (forall x, HasPrefix (link_name x) prefix = false -> x ∈ links k' <-> x ∈ links (kern w)) /\
    (forall n x, m !! n = Some x <-> x ∈ links k' /\ link_name x = n /\ HasPrefix n prefix = true) /\
    (forall n, is_Some (m !! n) <-> n ∈ (link_name <$> expected)) /\
    (forall x, x ∈ links (kern w) -> link_name x ∈ (link_name <$> expected) -> m !! link_name x = Some x).
Proof.
  intros Hg. destruct (links_run expected prefix w Hg)
    as (rem & kept & cre & ls & m & log & s & k' & Hr & Hk & Hk' & Hm & Hrem & Hcre & Hmap).
  pose proof Hg as [He Hpre _ Hnd]. exists m, log, s, k'. split; [done|].
  pose proof (fun a => remainder_iff _ _ _ a (NoDup_fmap_1 _ _ Hnd) Hk) as Hkept.
  assert (forall n, n ∈ (link_name <$> expected) -> HasPrefix n prefix = true) as Hexp.
  { intros n (e & -> & Hin)%list_elem_of_fmap. by apply Hpre. }
  assert (forall x, x ∈ ls -> link_name x ∈ (link_name <$> expected)) as Hls.
  { intros x [i Hi]%list_elem_of_lookup.
    destruct (Forall2_lookup_r _ _ _ _ _ Hm Hi) as (e & [Hin _]%list_elem_of_lookup_2%Hcre & -> & _).
    by apply list_elem_of_fmap_2. }
  split_and!.
  - intros x Hx. rewrite Hk', elem_of_app, Hkept, Hrem. split; [intros [Hin|[? _]]; [|done]|].
    + apply Hls, Hexp in Hin. congruence.
    + intros Hin. right. split; [done|]. intros (_ & Hpx & _). congruence.
  - intros n x. rewrite Hmap, Hk', elem_of_app, Hkept, Hrem. split.
    + intros [[Hin <-]|(Hin & <- & Hpx & Hn)]; split_and!; try done; [by left|by apply Hexp, Hls|].
      right. split; [done|]. by intros (_ & _ & []).
    + intros ([Hin|[Hin Hno]] & <- & Hpx); [by left|right]. split_and!; [done..|].
      apply dec_stable. tauto.
  - intros n. split.
    + intros [x [[Hin <-]|(_ & _ & _ & Hn)]%Hmap]; [by apply Hls|done].
    + intros Hn. destruct (links_result expected prefix (kern w) k' rem kept cre ls m) with (n := n)
        as (x & Hx & _); [done..|eauto].
  - intros x Hin Hn. apply Hmap. right. auto.
Qed.
(** ** What a successful run returns

    Whatever the kernel held before and whatever it may refuse: when [Ensure] returns nil, its map has
    a link for every expected name, and these are links the kernel holds. *)

Definition holds_map (m : gmap string Link) (k : K) : Prop :=
  forall n x, m !! n = Some x -> x ∈ links k /\ link_name x = n.

Lemma links_create_success l : forall w m m' w',
  links_create l m w = (Ret m', w') -> holds_map m (kern w) ->
  holds_map m' (kern w') /\ (forall n, is_Some (m !! n) \/ n ∈ (link_name <$> l) -> is_Some (m' !! n)).
Proof.
  induction l as [|x l IH]; intros w m m' w'; cbn [links_create].
  { intros [= <- <-] Hm. split; [done|]. intros n [?|?%not_elem_of_nil]; done. }
  rewrite bind_run. unfold wrap, netlink_LinkAdd. destruct (k_LinkAdd x (kern w)) as [[x'|e] k1] eqn:Hr; [|done].
  intros Hl Hm. destruct (LinkAdd_success _ _ _ _ Hr) as (Hname & _ & Hp).
  destruct (IH _ _ _ _ Hl) as [Hm' Hin].
  - intros n y. simpl. rewrite Hp, elem_of_cons. intros [[<- <-]|[_ Hy]]%lookup_insert_Some; [by split; [left|]|].
    destruct (Hm n y Hy). by split; [right|].
  - split; [done|]. intros n Hn. apply Hin. cbn in Hn. rewrite elem_of_cons in Hn.
    destruct (decide (link_name x' = n)) as [He|He]; [left; rewrite He, lookup_insert_eq; eauto|].
    rewrite lookup_insert_ne by done. rewrite Hname in He. naive_solver.
Qed.

(** The two halves of a run that returned nil: what was removed, and what was left to be made. *)
Lemma Links_Ensure_parts expected prefix w m w' :
  Links_Ensure expected prefix w = (Ret m, w') ->
  exists (actual kept : list Link) (log : list (action * option error)) (k1 : K),
    let o := sched w 0%nat in
    actual ≡ₚ links (kern w) /\ actual ≡ₚ (links_to_remove (sched w 1%nat) prefix actual expected ++ kept : list Link) /\ links k1 ≡ₚ kept /\
    links_create (links_to_create o prefix actual expected)
      (links_present (index_by (link_actual_key prefix) actual) (range o (expected_links expected)))
      (after w (fun n => sched w (S (S n))) log k1) = (Ret m, w').
Proof.
  intros Hr. destruct (LinkList_lists (kern w)) as (actual & Hl & Hp).
  rewrite (Links_Ensure_eq _ _ _ _ _ Hl) in Hr. cbv zeta in Hr.
  set (rem := links_to_remove (sched w 1%nat) prefix actual expected) in Hr.
  destruct (submseteq_Permutation rem actual) as [kept Hkept].
  { apply NoDup_submseteq; [apply NoDup_not_in|]. intros a (n & Hn & _)%elem_of_not_in. by apply index_by_Some in Hn as [? _]. }
  destruct (delete_links rem kept (kern w)) as (k1 & Hr1 & Hk1); [by rewrite <- Hp|]. rewrite Hr1 in Hr.
  by eexists actual, kept, _, k1.
Qed.

Lemma Links_Ensure_success expected prefix w m w' :
  Links_Ensure expected prefix w = (Ret m, w') ->
  holds_map m (kern w') /\ forall n, n ∈ (link_name <$> expected) -> is_Some (m !! n).
Proof.
  intros (actual & kept & log & k1 & Hp & Hkept & Hk1 & Hr)%Links_Ensure_parts.
  destruct (links_create_success _ _ _ _ _ Hr) as [Hm Hin].
  - intros n x. rewrite links_present_lookup, kern_after, Hk1. intros [Hn Hx].
    apply index_by_Some in Hx as Hx'. destruct Hx' as [Hina [<- _]%actual_key_name]. split; [|done].
    rewrite Hkept in Hina. apply elem_of_app in Hina as [Hxr|?]; [|done]. exfalso.
    apply elem_of_not_in in Hxr as (n' & Hn' & Hno). apply index_by_Some in Hn' as [_ [<- _]%actual_key_name].
    apply list_elem_of_fmap in Hn as ([n'' e] & Hne & He%elem_of_range). simpl in *. congruence.
  - split; [done|]. intros n Hn. apply Hin.
    assert (is_Some (expected_links expected !! n)) as [e He].
    { apply list_elem_of_fmap in Hn as (e & -> & Hin'). by eapply index_by_is_Some. }
    assert (link_name e = n) as Hen by (apply index_by_Some in He as [_ [= <-]]; done).
    destruct (index_by (link_actual_key prefix) actual !! n) as [a|] eqn:Ha.
    + left. exists a. apply links_present_lookup. split; [|done].
      apply list_elem_of_fmap. exists (n, e). split; [done|by apply elem_of_range].
    + right. apply list_elem_of_fmap. exists e. split; [done|]. apply elem_of_not_in. eauto.
Qed.

(** A link that is there afterwards was there before, or was made for an expected one. *)
Lemma links_create_from l : forall w m m' w' t,
  links_create l m w = (Ret m', w') -> t ∈ links (kern w') ->
  t ∈ links (kern w) \/ exists e, e ∈ l /\ made e t.
Proof.
  induction l as [|x l IH]; intros w m m' w' t; cbn [links_create]; [intros [= _ <-]; by left|].
  rewrite bind_run. unfold wrap, netlink_LinkAdd. destruct (k_LinkAdd x (kern w)) as [[x'|e] k1] eqn:Hr; [|done].
  destruct (LinkAdd_success _ _ _ _ Hr) as (Hname & Hkind & Hp). intros Hl Ht.
  destruct (IH _ _ _ _ t Hl Ht) as [Hin|(e & He & Hm)].
  - simpl in Hin. rewrite Hp, elem_of_cons in Hin. destruct Hin as [->|?]; [|by left]. right. exists x. split; [by left|by split].
  - right. exists e. split; [by right|done].
Qed.

Lemma Links_Ensure_from expected prefix w m w' t :
  Links_Ensure expected prefix w = (Ret m, w') -> t ∈ links (kern w') ->
  t ∈ links (kern w) \/ exists e, e ∈ expected /\ made e t.
Proof.
  intros (actual & kept & log & k1 & Hp & Hkept & Hk1 & Hr)%Links_Ensure_parts Ht.
  destruct (links_create_from _ _ _ _ _ t Hr Ht) as [Hin|(e & (n & Hn & _)%elem_of_not_in & Hm)].
  - left. rewrite kern_after, Hk1 in Hin. rewrite <- Hp, Hkept. apply elem_of_app. by right.
  - right. exists e. split; [|done]. by apply index_by_Some in Hn as [? _].
Qed.
End Laws.

Section Witnesses.

Definition sim_tunnel (name : string) (remote : IP) : Link :=
  MkLink (MkLinkAttrs name 0 0 None 0) (Gretun (ip4 10 0 0 1) remote 0).

Lemma links_converge_witness :
  let w := sim_world (set_links [eth0; sim_tunnel "k8s-old" (ip4 10 0 0 9); sim_tunnel "k8s-a" (ip4 10 0 0 9)] sim_empty) tt in
  exists m log s k',
    Links_Ensure [sim_tunnel "k8s-a" (ip4 10 0 0 7); sim_tunnel "k8s-b" (ip4 10 0 0 8)] "k8s-" w
    = (Ret m, after w s log k') /\ m !! "k8s-a"%string = Some (sim_tunnel "k8s-a" (ip4 10 0 0 9)).
Proof.
  intros w.
  destruct (links_converge [sim_tunnel "k8s-a" (ip4 10 0 0 7); sim_tunnel "k8s-b" (ip4 10 0 0 8)] "k8s-" w)
    as (m & log & s & k' & Hr & _ & _ & _ & Hkeep).
  - split; [by_computation|apply Forall_forall; by_computation|intros e _; exact I|by_computation].
  - exists m, log, s, k'. split; [exact Hr|].
    apply (Hkeep (sim_tunnel "k8s-a" (ip4 10 0 0 9))); [right; right; by left|by left].
Defined.
End Witnesses.
