(* ===== verification/Provider.v ===== *)
(** * The provider interface: pkg/routing/provider.go

    [Provider] is the Go interface with the contract its five implementations share and the
    controller relies on. Every implementation starts and ends its [EnsureCIDRs] the same way;
    [ensure_version] is that frame, with the work in between as an argument, and the instances
    discharge the contract through [ensure_version_provider]. *)

From S2P Require Import Prelude GoNet K8s Nodes Netlink Effects.
From S2P Require Import RouteTable LinkAddresses NeighTable Links XfrmTables.

(** ** Runs that keep a part of the provider's state

    They do not tell the API server about the network either: that is left to the controller. *)

Definition announcement (a : action) : bool :=
  match a with PatchNodeCondition _ _ _ _ _ => true | _ => false end.

Definition silent (log : list (action * option error)) : Prop :=
  Forall (fun e => announcement e.1 = false) log.

Section Keeps.
Context {K P : Type} `{Kernel K} {V : Type} (f : P -> V).

(** From one world to a later one: the part is the same, and the calls in between are silent. *)
Definition kept (w w' : World K P) : Prop :=
  f (prov w') = f (prov w) /\ exists log, trace w' = trace w ++ log /\ silent log.

#[export] Instance kept_preorder : PreOrder kept.
Proof.
  split.
  - intros w. split; [done|]. exists []. split; [by rewrite app_nil_r|by constructor].
  - intros w1 w2 w3 [Hf1 (l1 & Ht1 & Hs1)] [Hf2 (l2 & Ht2 & Hs2)]. split; [congruence|].
    exists (l1 ++ l2). split; [by rewrite Ht2, Ht1, app_assoc|by apply Forall_app].
Qed.

Definition keeps {A} (x : M K P A) : Prop := forall w, kept w (x w).2.

Lemma kept_silent w k s p : f p = f (prov w) -> kept w (MkWorld k (trace w) s p).
Proof. intros Hp. split; [done|]. exists []. split; [by rewrite app_nil_r|by constructor]. Qed.

Lemma kept_call w k s a e : announcement a = false -> kept w (MkWorld k (trace w ++ [(a, e)]) s (prov w)).
Proof. intros Ha. split; [done|]. exists [(a, e)]. split; [done|by repeat constructor]. Qed.

Lemma keeps_ret {A} (a : A) : keeps (mret a).
Proof. intros w. reflexivity. Qed.

Lemma keeps_fail {A} e : keeps (@fail K P A e).
Proof. intros w. reflexivity. Qed.

Lemma keeps_exit {A} : keeps (@exit K P A).
Proof. intros w. reflexivity. Qed.

Lemma keeps_bind {A B} (x : M K P A) (g : A -> M K P B) :
  keeps x -> (forall a, keeps (g a)) -> keeps (x ≫= g).
Proof.
  intros Hx Hg w. rewrite bind_run. specialize (Hx w).
  destruct (x w) as [[a|e|] w1]; simpl in *; [|done..]. etransitivity; [exact Hx|apply Hg].
Qed.

Lemma keeps_wrap {A} fmt (x : M K P A) : keeps x -> keeps (wrap fmt x).
Proof. intros Hx w. rewrite wrap_world. apply Hx. Qed.

Lemma keeps_try {A} (x : M K P A) : keeps x -> keeps (try x).
Proof. intros Hx w. specialize (Hx w). unfold try. by destruct (x w) as [[] ?]. Qed.

Lemma keeps_query {A} (q : K -> (A + error) * K) : keeps (query q).
Proof. intros w. unfold query. destruct (q (kern w)) as [[] ?]; by apply kept_silent. Qed.

Lemma keeps_call a : announcement a = false -> keeps (call a).
Proof. intros Ha w. unfold call. destruct (exec a (kern w)) as [[] ?]; by apply kept_call. Qed.

Lemma keeps_LinkAdd l : keeps (netlink_LinkAdd l).
Proof. intros w. unfold netlink_LinkAdd. destruct (k_LinkAdd l (kern w)) as [[] ?]; by apply kept_call. Qed.

Lemma keeps_next_order : keeps next_order.
Proof. intros w. by apply kept_silent. Qed.

Lemma keeps_get_prov : keeps get_prov.
Proof. intros w. reflexivity. Qed.

Lemma keeps_modify (g : P -> P) : (forall p, f (g p) = f p) -> keeps (modify_prov g).
Proof. intros Hg w. apply kept_silent, Hg. Qed.

Lemma keeps_each {A} (g : A -> M K P unit) l : (forall a, keeps (g a)) -> keeps (each g l).
Proof.
  intros Hg. induction l as [|a l IH]; [apply keeps_ret|]. simpl. by apply keeps_bind.
Qed.
End Keeps.

#[export] Hint Resolve keeps_ret keeps_fail keeps_exit keeps_query keeps_call keeps_LinkAdd
  keeps_next_order keeps_get_prov : net.

(** [keeps_steps] walks through a run, statement by statement. *)
Ltac keeps_steps :=
  repeat first
    [ solve [auto with net]
    | simple apply keeps_bind; [|intros ?]
    | simple apply keeps_modify; done | simple apply keeps_wrap | simple apply keeps_try | simple apply keeps_each; intros ?
    | case_match ].

(** The functions of netutil do not touch the state of the provider that calls them. *)
Section Netutil.
Context {K P V : Type} `{Kernel K} `{NetlinkConsts} (f : P -> V).

Lemma RouteTable_Ensure_keeps link expected del : keeps f (RouteTable_Ensure link expected del).
Proof. unfold RouteTable_Ensure. keeps_steps. Qed.

Lemma links_create_keeps l : forall m, keeps f (links_create l m).
Proof. induction l as [|x l IH]; intros m; simpl; keeps_steps. Qed.

Lemma Links_Ensure_keeps expected prefix : keeps f (Links_Ensure expected prefix).
Proof. unfold Links_Ensure. keeps_steps. apply links_create_keeps. Qed.

Lemma NeighTable_Ensure_keeps link expected : keeps f (NeighTable_Ensure link expected).
Proof. unfold NeighTable_Ensure. keeps_steps. Qed.

Lemma EnsureLinkAddresses_keeps link expected : keeps f (EnsureLinkAddresses link expected).
Proof. unfold EnsureLinkAddresses. keeps_steps. Qed.

Lemma XfrmStateTable_Ensure_keeps expected : keeps f (XfrmStateTable_Ensure expected).
Proof. unfold XfrmStateTable_Ensure. keeps_steps. Qed.

Lemma XfrmPolicyTable_Ensure_keeps expected : keeps f (XfrmPolicyTable_Ensure expected).
Proof. unfold XfrmPolicyTable_Ensure. keeps_steps. Qed.
End Netutil.

#[export] Hint Resolve RouteTable_Ensure_keeps Links_Ensure_keeps NeighTable_Ensure_keeps
  EnsureLinkAddresses_keeps XfrmStateTable_Ensure_keeps XfrmPolicyTable_Ensure_keeps : net.

(** ** The interface *)

Class Provider (K P : Type) := {
  EnsureCIDRs : NodeMap -> NodeMap -> M K P unit;
  lastVersionApplied : P -> Z;
  (** Nothing is done when the version applied last is still the current one. *)
  EnsureCIDRs_current : forall nm0 nm w,
    lastVersionApplied (prov w) ≠ 0 -> IsVersion nm0 (lastVersionApplied (prov w)) = true ->
    EnsureCIDRs nm0 nm w = (Ret tt, w);
  (** A run that had work to do and succeeded has applied the version of its snapshot. *)
  EnsureCIDRs_applied : forall nm0 nm w w',
    EnsureCIDRs nm0 nm w = (Ret tt, w') ->
    (lastVersionApplied (prov w) = 0 \/ IsVersion nm0 (lastVersionApplied (prov w)) = false) ->
    IsReady nm = true /\ lastVersionApplied (prov w') = version nm;
  (** A run that fails is not recorded as applied. *)
  EnsureCIDRs_failed : forall nm0 nm w e w',
    EnsureCIDRs nm0 nm w = (Err e, w') -> lastVersionApplied (prov w') = lastVersionApplied (prov w);
  (** It leaves the word to the controller. *)
  EnsureCIDRs_silent : forall nm0 nm w, exists log,
    trace (EnsureCIDRs nm0 nm w).2 = trace w ++ log /\ silent log
}.

(** ** The frame of every [EnsureCIDRs]

    [nm0] is the node map at the call of [IsVersion] and [nm] at the call of [Snapshot]: the
    watcher may change it in between.
<<
	if p.lastVersionApplied != 0 && nodeMap.IsVersion(p.lastVersionApplied) { return nil }
	me, allNodes, version := nodeMap.Snapshot()
	if me == nil { return fmt.Errorf("Cannot find local node") }
	...
	p.lastVersionApplied = version
	return nil
>> *)
(** The tests at the head of the loops over the nodes, each with a [continue]: the local node,
    and nodes without an address or a pod CIDR, are passed over. *)
Definition usable_remote (me remote : NodeInfo) : option (IP * IPNet) :=
  if String.eqb (Name remote) (Name me) then None
  else match Address remote with
       | None => None
       | Some _ => match PodCIDR remote with
                   | None => None
                   | Some cidr => Some (Address remote, cidr)
                   end
       end.

Lemma usable_remote_Some me remote a cidr :
  usable_remote me remote = Some (a, cidr)
  <-> Name remote ≠ Name me /\ is_Some a /\ Address remote = a /\ PodCIDR remote = Some cidr.
Proof.
  unfold usable_remote. destruct (String.eqb_spec (Name remote) (Name me)); [naive_solver|].
  destruct (Address remote) as [x|], (PodCIDR remote); naive_solver.
Qed.

Section Frame.
Context {K P : Type} `{Kernel K}.
Context (last : P -> Z) (set_last : Z -> P -> P).

Definition ensure_version (body : NodeInfo -> list NodeInfo -> M K P unit) (nm0 nm : NodeMap)
    : M K P unit :=
  p ← get_prov;
  if negb (last p =? 0) && IsVersion nm0 (last p) then mret tt
  else
    o ← next_order;
    let '(me, allNodes, version) := Snapshot o nm in
    match me with
    | None => fail (ErrorMsg "Cannot find local node")
    | Some me =>
        body me allNodes;;
        modify_prov (set_last version)
    end.

Context (body : NodeInfo -> list NodeInfo -> M K P unit).
Context (last_set : forall v p, last (set_last v p) = v).

Lemma ensure_version_current nm0 nm (w : World K P) :
  last (prov w) ≠ 0 -> IsVersion nm0 (last (prov w)) = true -> ensure_version body nm0 nm w = (Ret tt, w).
Proof.
  intros Hl Hv. unfold ensure_version. rewrite bind_run. unfold get_prov at 1. cbv beta iota.
  rewrite (proj2 (Z.eqb_neq _ _) Hl), Hv. by destruct w.
Qed.

(** The work of a run that is not skipped, on a ready map. *)
Lemma ensure_version_work nm0 nm (w : World K P) :
  (last (prov w) = 0 \/ IsVersion nm0 (last (prov w)) = false) -> IsReady nm = true ->
  ensure_version body nm0 nm w
  = let o := sched w 0%nat in
    let me := match me nm with Some l => deref (heap nm) l | None => zero_NodeInfo end in
    let allNodes := (fun e => deref (heap nm) e.2) <$> range o (nodes nm) in
    match body me allNodes (after w (fun n => sched w (S n)) [] (kern w)) with
    | (Ret _, w') => (Ret tt, MkWorld (kern w') (trace w') (sched w') (set_last (version nm) (prov w')))
    | (Err e, w') => (Err e, w')
    | (Exit, w') => (Exit, w')
    end.
Proof.
  intros Hl Hr. unfold ensure_version. rewrite bind_run. unfold get_prov at 1. cbv beta iota.
  assert (negb (last (prov w) =? 0) && IsVersion nm0 (last (prov w)) = false) as ->.
  { destruct Hl as [->| ->]; [done|apply andb_false_r]. }
  rewrite bind_order. unfold Snapshot. unfold IsReady in Hr. rewrite Hr. cbn [negb]. cbv beta iota zeta.
  rewrite bind_run. destruct (body _ _ _) as [[[]|e|] w']; [|done..]. by destruct w'.
Qed.

Lemma ensure_version_unready nm0 nm (w : World K P) :
  (last (prov w) = 0 \/ IsVersion nm0 (last (prov w)) = false) -> IsReady nm = false ->
  ensure_version body nm0 nm w
  = (Err (ErrorMsg "Cannot find local node"), after w (fun n => sched w (S n)) [] (kern w)).
Proof.
  intros Hl Hr. unfold ensure_version. rewrite bind_run. unfold get_prov at 1. cbv beta iota.
  assert (negb (last (prov w) =? 0) && IsVersion nm0 (last (prov w)) = false) as ->.
  { destruct Hl as [->| ->]; [done|apply andb_false_r]. }
  rewrite bind_order. unfold Snapshot. unfold IsReady in Hr. by rewrite Hr.
Qed.

Lemma frame_cases nm0 (w : World K P) :
  (last (prov w) ≠ 0 /\ IsVersion nm0 (last (prov w)) = true) \/
  (last (prov w) = 0 \/ IsVersion nm0 (last (prov w)) = false).
Proof. destruct (decide (last (prov w) = 0)), (IsVersion nm0 (last (prov w))); auto. Qed.

Context (body_keeps : forall me allNodes, keeps last (body me allNodes)).

Definition ensure_version_provider : Provider K P.
Proof using body last_set body_keeps.
  refine {| EnsureCIDRs := ensure_version body; lastVersionApplied := last |}.
  - intros nm0 nm w. apply ensure_version_current.
  - intros nm0 nm w w' He Hl. destruct (IsReady nm) eqn:Hr.
    + rewrite ensure_version_work in He by done. cbv zeta in He. split; [done|].
      destruct (body _ _ _) as [[[]|e|] w1]; [|done..]. injection He as <-. apply last_set.
    + by rewrite ensure_version_unready in He.
  - intros nm0 nm w e w' He. destruct (frame_cases nm0 w) as [[Hl Hv]|Hl].
    + by rewrite ensure_version_current in He.
    + destruct (IsReady nm) eqn:Hr.
      * rewrite ensure_version_work in He by done. cbv zeta in He.
        set (me' := match me nm with Some l => _ | None => _ end) in He. set (all := _ <$> _) in He.
        destruct (body_keeps me' all (after w (fun n => sched w (S n)) [] (kern w))) as [Hk _].
        destruct (body me' all _) as [[[]|e'|] w1]; [done| |done]. by injection He as <- <-.
      * rewrite ensure_version_unready in He by done. by injection He as <- <-.
  - intros nm0 nm w.
    assert (keeps (fun _ => tt) (ensure_version body nm0 nm)) as Hk; [|by destruct (Hk w) as [_ Hs]].
    unfold ensure_version. keeps_steps. intros w1. split; [done|]. apply body_keeps.
Defined.
End Frame.
