(* ===== verification/Layer2.v ===== *)
(** * The layer2 provider: pkg/routing/layer2/provider.go

    Nodes that share a layer 2 network reach each other's pods through a route per node with
    the node's address as its gateway. *)

From S2P Require Import Prelude GoNet K8s Nodes NodesFacts NodeMapSpec Netlink Effects Tables Reconcile.
From S2P Require Import RouteTable KernelLaws Sim RouteFacts Provider.

(** [type Layer2RoutingProvider struct]; its [routeTable] has no state. *)
Record Layer2RoutingProvider := MkLayer2 {
  l2_lastVersionApplied : Z;
  l2_underlyingLink : Link
}.

Definition l2_set_last (v : Z) (p : Layer2RoutingProvider) : Layer2RoutingProvider :=
  MkLayer2 v (l2_underlyingLink p).

Section Layer2.
Context {K : Type} `{Kernel K} `{NetlinkConsts}.

(** [func NewLayer2RoutingProvider(deviceName string) ( *Layer2RoutingProvider, error)] *)
Definition NewLayer2RoutingProvider {P} (deviceName : string) : M K P Layer2RoutingProvider :=
  underlyingLink ← wrap "error fetching target link %q: %v" (query (k_LinkByName deviceName));
  match underlyingLink with
  | None => fail (ErrorMsg "target link not found %q")
  | Some l => mret (MkLayer2 0 l)
  end.

(** The loop over the nodes. *)
Definition layer2_routes (underlyingLinkIndex : Z) (me : NodeInfo) (allNodes : list NodeInfo) : list Route :=
  omap (fun remote =>
    '(address, cidr) ← usable_remote me remote;
    Some (new_Route underlyingLinkIndex (Some cidr) address RTPROT_BOOT RT_TABLE_MAIN RTN_UNICAST)) allNodes.

(** What [EnsureCIDRs] does between [Snapshot] and the record of the version. *)
Definition layer2_apply (me : NodeInfo) (allNodes : list NodeInfo) : M K Layer2RoutingProvider unit :=
  p ← get_prov;
  wrap "error applying route table: %v"
    (RouteTable_Ensure None (layer2_routes (link_Index (Attrs (l2_underlyingLink p))) me allNodes) false).

(** [func (p *Layer2RoutingProvider) EnsureCIDRs(nodeMap *routing.NodeMap) error] *)
Definition Layer2_EnsureCIDRs : NodeMap -> NodeMap -> M K Layer2RoutingProvider unit :=
  ensure_version l2_lastVersionApplied l2_set_last layer2_apply.

#[export] Instance Layer2_Provider : Provider K Layer2RoutingProvider.
Proof.
  apply (ensure_version_provider l2_lastVersionApplied l2_set_last layer2_apply); [done|].
  intros me allNodes. unfold layer2_apply. keeps_steps.
Defined.

Lemma elem_of_layer2_routes idx me allNodes r :
  r ∈ layer2_routes idx me allNodes
  <-> exists n a cidr, n ∈ allNodes /\ Name n ≠ Name me /\ Address n = Some a /\ PodCIDR n = Some cidr /\
        r = new_Route idx (Some cidr) (Some a) RTPROT_BOOT RT_TABLE_MAIN RTN_UNICAST.
Proof.
  unfold layer2_routes. rewrite list_elem_of_omap. split.
  - intros (n & Hin & Hr). destruct (usable_remote me n) as [[a cidr]|] eqn:Hu; [|done].
    apply usable_remote_Some in Hu as (Hne & [x ->] & Ha & Hc). simpl in Hr. injection Hr as <-.
    exists n, x, cidr. done.
  - intros (n & a & cidr & Hin & Hne & Ha & Hc & ->). exists n. split; [done|].
    assert (usable_remote me n = Some (Some a, cidr)) as -> by (apply usable_remote_Some; eauto).
    done.
Qed.
End Layer2.

Section Theorems.
Context {K : Type} `{Kernel K} `{NetlinkConsts} `{!RouteLaws K} `{CoreV1}.
Implicit Types (w : World K Layer2RoutingProvider).

(** The routes the provider wants for a node map. *)
Definition layer2_expected (o : Order) (nm : NodeMap) (p : Layer2RoutingProvider) : list Route :=
  layer2_routes (link_Index (Attrs (l2_underlyingLink p))) (default zero_NodeInfo (me_info nm)) (snapshot_list o nm).

(** C16: end to end for the layer2 provider, on a reachable, ready node map whose version is not
    the applied one. Conditions on the kernel: no route that is there has the destination of one of the
    pod CIDRs without being the route that is wanted - such a route would have to change, which this
    provider never manages ([changed_route_never_repaired]) -, the nodes' pod CIDRs are distinct, no two
    of the listed routes have one destination, and the kernel takes the new routes ([route_goal]).
    Then [EnsureCIDRs] succeeds, records the version of the map, and leaves for every other node with
    an address and a pod CIDR a route to that CIDR through that address; no route is lost. *)
Theorem layer2_reaches_every_node p0 c nm0 nm w :
  nm_run (NewNodeMap p0) c nm -> IsReady nm = true ->
  (l2_lastVersionApplied (prov w) = 0 \/ IsVersion nm0 (l2_lastVersionApplied (prov w)) = false) ->
  route_goal None (layer2_expected (sched w 0%nat) nm (prov w)) (kern w) ->
  (forall r e, r ∈ listed_routes None (kern w) -> e ∈ layer2_expected (sched w 0%nat) nm (prov w) ->
     route_key r = route_key e -> routeEqual r e = true) ->
  exists w', Layer2_EnsureCIDRs nm0 nm w = (Ret tt, w') /\
    l2_lastVersionApplied (prov w') = version nm /\
    (forall name n a cidr, view nm !! name = Some n -> Name n ≠ Name (default zero_NodeInfo (me_info nm)) ->
       Address n = Some a -> PodCIDR n = Some cidr ->
       exists y, y ∈ entries route_table (kern w') /\
         held route_key routeEqual
           (new_Route (link_Index (Attrs (l2_underlyingLink (prov w)))) (Some cidr) (Some a)
              RTPROT_BOOT RT_TABLE_MAIN RTN_UNICAST) y) /\
    (forall r, r ∈ entries route_table (kern w) -> r ∈ entries route_table (kern w')).
Proof.
  intros Hrun Hready Hv Hg Hsame. pose proof (run_wf _ _ _ (NewNodeMap_wf p0) Hrun) as Hwf.
  unfold Layer2_EnsureCIDRs. rewrite ensure_version_work by done. cbv zeta.
  assert (match me nm with Some l => deref (heap nm) l | None => zero_NodeInfo end
          = default zero_NodeInfo (me_info nm)) as -> by (unfold me_info; by destruct (me nm)).
  fold (snapshot_list (sched w 0%nat) nm). unfold layer2_apply. rewrite bind_run. unfold get_prov. cbv beta iota.
  rewrite prov_after. fold (layer2_expected (sched w 0%nat) nm (prov w)).
  destruct (RouteTable_Ensure_adds None (layer2_expected (sched w 0%nat) nm (prov w))
              (after w (fun n => sched w (S n)) [] (kern w))) as (log & k2 & Hr & Hin & Hkeep & _).
  { by rewrite kern_after. } { by rewrite kern_after. }
  unfold wrap. rewrite Hr. eexists. split; [reflexivity|]. split_and!; [done| |].
  - intros name n a cidr Hview Hne Ha Hc. simpl. apply Hin, elem_of_layer2_routes.
    exists n, a, cidr. split; [|done]. apply (snapshot_nodes nm (sched w 0%nat) Hwf).
    assert (Name n = name) as ->; [|done]. unfold view in Hview. rewrite lookup_fmap in Hview.
    apply fmap_Some in Hview as (l & Hl & ->). destruct (wf_node _ Hwf _ _ Hl) as (n' & Hn' & Hnm).
    unfold deref. by rewrite Hn'.
  - simpl. intros r. rewrite kern_after in Hkeep. apply Hkeep.
Qed.
End Theorems.

Section Witnesses.
#[local] Existing Instance netlink_v1_1_0.
#[local] Existing Instance sample_corev1.

Lemma layer2_reaches_every_node_witness :
  let w := sim_world sim_empty (MkLayer2 0 eth0) in
  exists w', Layer2_EnsureCIDRs map_ab map_ab w = (Ret tt, w') /\
    l2_lastVersionApplied (prov w') = version map_ab /\
    exists y, y ∈ entries route_table (kern w') /\ route_key y = Some "100.96.2.0/24"%string.
Proof.
  intros w.
  destruct (layer2_reaches_every_node is_a _ map_ab map_ab w map_ab_run eq_refl (or_introl eq_refl))
    as (w' & Hr & Hv & Hin & _).
  - route_goal_by_computation.
  - intros r e Hr. exfalso. revert Hr. apply not_elem_of_nil.
  - exists w'. split; [exact Hr|]. split; [exact Hv|].
    destruct (Hin "b"%string (summarize "b" node_b) (bytes_of (ParseIP "172.20.0.2")) (net4 100 96 2 0 24))
      as (y & Hy & Hk & _); [by_computation|by_computation|by_computation|by_computation|].
    exists y. split; [exact Hy|]. rewrite Hk. vm_compute. reflexivity.
Defined.
End Witnesses.
