(* ===== verification/Gre.v ===== *)
(** * The gre provider: pkg/routing/gre/provider.go

    A GRE tunnel per node, named after the node's pod CIDR, and a route to the CIDR through
    the tunnel. *)

From S2P Require Import Prelude GoNet GoNetFacts K8s Nodes NodesFacts NodeMapSpec Netlink Effects.
From S2P Require Import Tables Reconcile Links RouteTable KernelLaws Sim LinkFacts RouteFacts Provider Layer2.

Definition tunnelTTL : Z := 255.
Definition greLinkNamePrefix : string := "k8s-".
Definition greLinkNameMaxLength : nat := 15.

(** [fmt.Sprintf(greLinkNameFormat, ...)] *)
Definition greLinkName (a b c d : byte) : string :=
  "k8s-" +:+ hex02 a +:+ "-" +:+ hex02 b +:+ "-" +:+ hex02 c +:+ "-" +:+ hex02 d.

(** [func buildTunnelName(ip net.IP) string] *)
Definition buildTunnelName (ip : IP) : string :=
  match To4 ip with
  | Some [a; b; c; d] =>
      let name := greLinkName a b c d in
      if (greLinkNameMaxLength <? String.length name)%nat then EmptyString else name
  | _ => EmptyString
  end.

(** [type GreRoutingProvider struct]; [routeTable] and [links] have no state. *)
Record GreRoutingProvider := MkGre { gre_lastVersionApplied : Z }.

Definition NewGreRoutingProvider : GreRoutingProvider := MkGre 0.

Definition gre_set_last (v : Z) (_ : GreRoutingProvider) : GreRoutingProvider := MkGre v.

(** The nodes the two loops do not pass over, with the name of their tunnel. *)
Definition gre_remote (me remote : NodeInfo) : option (IP * IPNet * string) :=
  '(address, cidr) ← usable_remote me remote;
  let tunnelName := buildTunnelName (net_IP cidr) in
  if String.eqb tunnelName EmptyString then None else Some (address, cidr, tunnelName).

(** The first loop: the tunnels. *)
Definition gre_tunnels (me : NodeInfo) (allNodes : list NodeInfo) : list Link :=
  omap (fun remote =>
    '(address, _, tunnelName) ← gre_remote me remote;
    Some (MkLink (MkLinkAttrs tunnelName 0 0 None 0) (Gretun (Address me) address tunnelTTL))) allNodes.

(** The last loop: the routes; [None] is the error for a tunnel that is not in the map. *)
Fixpoint gre_routes (tunnelMap : gmap string Link) (me : NodeInfo) (allNodes : list NodeInfo) : option (list Route) :=
  match allNodes with
  | [] => Some []
  | remote :: rest =>
      match gre_remote me remote with
      | None => gre_routes tunnelMap me rest
      | Some (_, cidr, tunnelName) =>
          match tunnelMap !! tunnelName with
          | None => None
          | Some tunnel =>
              routes ← gre_routes tunnelMap me rest;
              Some (new_Route (link_Index (Attrs tunnel)) (Some cidr) None RTPROT_BOOT RT_TABLE_MAIN RTN_UNICAST
                    :: routes)
          end
      end
  end.

Section Gre.
Context {K : Type} `{Kernel K} `{NetlinkConsts}.

(** The loop that makes sure all links are up. *)
Definition gre_links_up {P} (tunnels : list (string * Link)) : M K P unit :=
  each (fun e =>
    if negb (Z.land (link_Flags (Attrs e.2)) FlagUp =? 0) then mret tt
    else wrap "error from `ip link set %s up`: %v" (call (LinkSetUp e.2))) tunnels.

(** What [EnsureCIDRs] does between [Snapshot] and the record of the version. *)
Definition gre_apply (me : NodeInfo) (allNodes : list NodeInfo) : M K GreRoutingProvider unit :=
  tunnelMap ← wrap "error configuring tunnels: %v" (Links_Ensure (gre_tunnels me allNodes) greLinkNamePrefix);
  o ← next_order;
  gre_links_up (range o tunnelMap);;
  match gre_routes tunnelMap me allNodes with
  | None => fail (ErrorMsg "tunnel not found after being created: %q")
  | Some routes => wrap "error applying route table: %v" (RouteTable_Ensure None routes false)
  end.

(** [func (p *GreRoutingProvider) EnsureCIDRs(nodeMap *routing.NodeMap) error] *)
Definition Gre_EnsureCIDRs : NodeMap -> NodeMap -> M K GreRoutingProvider unit :=
  ensure_version gre_lastVersionApplied gre_set_last gre_apply.

#[export] Instance Gre_Provider : Provider K GreRoutingProvider.
Proof.
  apply (ensure_version_provider gre_lastVersionApplied gre_set_last gre_apply); [done|].
  intros me allNodes. unfold gre_apply, gre_links_up. keeps_steps.
Defined.
End Gre.

(** ** Tunnel names *)

Lemma hex_digit_inj x y : 0 <= x < 16 -> 0 <= y < 16 -> hex_digit x = hex_digit y -> x = y.
Proof.
  intros Hx Hy He. apply (f_equal Ascii.N_of_ascii) in He. unfold hex_digit in He.
  assert (forall z, 0 <= z < 16 -> (Z.to_N (if (z <? 10)%Z then (48 + z)%Z else (87 + z)%Z) < 256)%N) as Hb.
  { intros z Hz. destruct (z <? 10); lia. }
  rewrite !Ascii.N_ascii_embedding in He by auto.
  destruct (x <? 10) eqn:Hx1; destruct (y <? 10) eqn:Hy1; cbv iota in He; lia.
Qed.

Lemma hex02_inj a b : hex02 a = hex02 b -> a = b.
Proof.
  unfold hex02. pose proof (zb_range a). pose proof (zb_range b). intros [= H1 H2].
  apply hex_digit_inj in H1; [|Z.div_mod_to_equations; lia..].
  apply hex_digit_inj in H2; [|Z.div_mod_to_equations; lia..].
  apply zb_inj. rewrite (Z.div_mod (zb a) 16), (Z.div_mod (zb b) 16) by lia. congruence.
Qed.

Lemma greLinkName_length a b c d : String.length (greLinkName a b c d) = 15%nat.
Proof. reflexivity. Qed.

Lemma greLinkName_inj a b c d a' b' c' d' :
  greLinkName a b c d = greLinkName a' b' c' d' -> [a; b; c; d] = [a'; b'; c'; d'].
Proof.
  unfold greLinkName, hex02. cbn. intros [= Ha1 Ha2 Hb1 Hb2 Hc1 Hc2 Hd1 Hd2].
  assert (a = a') as -> by (apply hex02_inj; unfold hex02; congruence).
  assert (b = b') as -> by (apply hex02_inj; unfold hex02; congruence).
  assert (c = c') as -> by (apply hex02_inj; unfold hex02; congruence).
  assert (d = d') as -> by (apply hex02_inj; unfold hex02; congruence). done.
Qed.

Lemma To4_Some ip p : To4 ip = Some p -> length p = 4%nat.
Proof.
  unfold To4. case_bool_decide as H4; [by intros [= <-]|].
  case_bool_decide as H16; [|done]. case_bool_decide; [|done]. intros [= <-].
  rewrite length_drop. lia.
Qed.

Lemma buildTunnelName_eq ip :
  buildTunnelName ip = match To4 ip with Some [a; b; c; d] => greLinkName a b c d | _ => EmptyString end.
Proof. unfold buildTunnelName. by destruct (To4 ip) as [[|a [|b [|c [|d [|? ?]]]]]|]. Qed.

(** C32: the tunnel name of an IPv4 address has exactly the 15 characters the kernel allows, starts
    with the prefix by which tunnels are recognised and removed, and identifies the address;
    another address gets no name, which drops its node. *)
Theorem tunnel_names ip :
  match To4 ip with
  | Some p =>
      String.length (buildTunnelName ip) = greLinkNameMaxLength /\
      HasPrefix (buildTunnelName ip) greLinkNamePrefix = true /\
      forall ip', buildTunnelName ip' = buildTunnelName ip <-> To4 ip' = Some p
  | None => buildTunnelName ip = EmptyString
  end.
Proof.
  rewrite buildTunnelName_eq. destruct (To4 ip) as [p|] eqn:Hp; [|done]. pose proof (To4_Some _ _ Hp) as Hl.
  destruct p as [|a [|b [|c [|d [|? ?]]]]]; try done. split_and!; [done|done|].
  intros ip'. rewrite buildTunnelName_eq. destruct (To4 ip') as [q|] eqn:Hq; [|done].
  pose proof (To4_Some _ _ Hq) as Hl'. destruct q as [|a' [|b' [|c' [|d' [|? ?]]]]]; try done.
  split; [intros He; by rewrite (greLinkName_inj _ _ _ _ _ _ _ _ He)|by intros [= -> -> -> ->]].
Qed.

(** ** The tunnels and the routes *)

Lemma gre_remote_Some me n a cidr name :
  gre_remote me n = Some (a, cidr, name)
  <-> usable_remote me n = Some (a, cidr) /\ name = buildTunnelName (net_IP cidr) /\ name ≠ EmptyString.
Proof.
  unfold gre_remote. destruct (usable_remote me n) as [[a' cidr']|]; simpl; [|naive_solver].
  destruct (String.eqb_spec (buildTunnelName (net_IP cidr')) EmptyString); naive_solver.
Qed.

Lemma gre_tunnel_names me allNodes name :
  name ∈ (link_name <$> gre_tunnels me allNodes)
  <-> exists n a cidr, n ∈ allNodes /\ gre_remote me n = Some (a, cidr, name).
Proof.
  unfold gre_tunnels. rewrite list_elem_of_fmap. split.
  - intros (l & -> & (n & Hin & Hl)%list_elem_of_omap).
    destruct (gre_remote me n) as [[[a cidr] name']|] eqn:Hg; [|done]. injection Hl as <-. eauto.
  - intros (n & a & cidr & Hin & Hg).
    exists (MkLink (MkLinkAttrs name 0 0 None 0) (Gretun (Address me) a tunnelTTL)). split; [done|].
    apply list_elem_of_omap. exists n. by rewrite Hg.
Qed.

(** The routes, when the map has a tunnel for every node. *)
Lemma gre_routes_Some m me allNodes :
  (forall name, name ∈ (link_name <$> gre_tunnels me allNodes) -> is_Some (m !! name)) ->
  exists routes, gre_routes m me allNodes = Some routes /\
    forall r, r ∈ routes <-> exists n a cidr name tunnel, n ∈ allNodes /\ gre_remote me n = Some (a, cidr, name) /\
      m !! name = Some tunnel /\
      r = new_Route (link_Index (Attrs tunnel)) (Some cidr) None RTPROT_BOOT RT_TABLE_MAIN RTN_UNICAST.
Proof.
  setoid_rewrite gre_tunnel_names. induction allNodes as [|n l IH]; intros Hm.
  { exists []. split; [done|]. intros r. split; [by intros ?%not_elem_of_nil|].
    intros (n & a & cidr & name & tunnel & ?%not_elem_of_nil & _). done. }
  destruct IH as (routes & Hr & Hin).
  { intros name (n' & a & cidr & Hin & Hg). apply Hm. exists n', a, cidr. split; [by right|done]. }
  simpl. destruct (gre_remote me n) as [[[a cidr] name]|] eqn:Hg.
  - destruct (Hm name) as [tunnel Ht]; [exists n, a, cidr; split; [by left|done]|]. rewrite Ht, Hr. simpl.
    eexists. split; [done|]. intros r. rewrite elem_of_cons, Hin. split.
    + intros [->|(n' & a' & c' & nm & t & Hn & ?)]; [exists n, a, cidr, name, tunnel|exists n', a', c', nm, t];
        (split; [by (left + right)|done]).
    + intros (n' & a' & c' & nm & t & [->|Hn]%elem_of_cons & Hg' & Ht' & ->); [left|right; by eauto 10].
      congruence.
  - exists routes. split; [done|]. intros r. rewrite Hin. split.
    + intros (n' & a' & c' & nm & t & Hn & ?). exists n', a', c', nm, t. split; [by right|done].
    + intros (n' & a' & c' & nm & t & [->|Hn]%elem_of_cons & Hg' & ?); [congruence|]. by exists n', a', c', nm, t.
Qed.

Section Theorems.
Context {K P : Type} `{Kernel K} `{!LinkLaws K}.

(** On a kernel that keeps the contract of the links, the tunnels of the gre provider are
    made, the error for a tunnel that is not found cannot occur, and every other node with an
    address and an IPv4 pod CIDR gets a route to the CIDR through the link the kernel holds
    under the tunnel name of that CIDR; no other route is asked for. *)
Theorem gre_routes_use_their_tunnels me allNodes (w : World K P) :
  links_goal (gre_tunnels me allNodes) greLinkNamePrefix (kern w) ->
  exists m log s k' routes,
    Links_Ensure (gre_tunnels me allNodes) greLinkNamePrefix w = (Ret m, after w s log k') /\
    gre_routes m me allNodes = Some routes /\
    (forall n a cidr, n ∈ allNodes -> Name n ≠ Name me -> Address n = Some a -> PodCIDR n = Some cidr ->
       To4 (net_IP cidr) ≠ None ->
       exists tunnel, tunnel ∈ links k' /\ link_name tunnel = buildTunnelName (net_IP cidr) /\
         new_Route (link_Index (Attrs tunnel)) (Some cidr) None RTPROT_BOOT RT_TABLE_MAIN RTN_UNICAST ∈ routes) /\
    (forall r, r ∈ routes -> exists n, n ∈ allNodes /\ Name n ≠ Name me /\ rt_Dst r = PodCIDR n).
Proof.
  intros Hg. destruct (links_run _ _ w Hg)
    as (rem & kept & cre & ls & m & log & s & k' & Hr & Hk & Hk' & Hm & Hrem & Hcre & Hmap).
  assert (forall name, name ∈ (link_name <$> gre_tunnels me allNodes) ->
            exists t, m !! name = Some t /\ t ∈ links k' /\ link_name t = name) as Htunnel.
  { intros name Hin. destruct (links_result _ _ _ _ _ _ _ _ _ Hg Hk Hk' Hm Hrem Hcre Hmap name Hin) as (t & Ht & ? & ?).
    by exists t. }
  destruct (gre_routes_Some m me allNodes) as (routes & Hro & Hin).
  { intros name Hn. destruct (Htunnel name Hn) as (t & Ht & _). eauto. }
  exists m, log, s, k', routes. split_and!; [done|done| |].
  - intros n a cidr Hn Hne Ha Hc H4.
    assert (gre_remote me n = Some (Some a, cidr, buildTunnelName (net_IP cidr))) as Hgr.
    { apply gre_remote_Some. split_and!; [apply usable_remote_Some; eauto|done|].
      rewrite buildTunnelName_eq. destruct (To4 (net_IP cidr)) as [p|] eqn:Hp; [|done].
      pose proof (To4_Some _ _ Hp) as Hl. by destruct p as [|x [|y [|z [|t [|? ?]]]]]. }
    destruct (Htunnel (buildTunnelName (net_IP cidr))) as (t & Ht & Htk & Htn).
    { apply gre_tunnel_names. eauto 10. }
    exists t. split_and!; [done|done|]. apply Hin. eauto 10.
  - intros r (n & a & cidr & name & t & Hn & (Hu & _)%gre_remote_Some & _ & ->)%Hin.
    apply usable_remote_Some in Hu as (Hne & _ & _ & Hc). exists n. split_and!; [done..|]. by rewrite Hc.
Qed.
End Theorems.

Section Witnesses.

Definition info_me : NodeInfo := MkNodeInfo "a" (ip4 172 20 0 1) (Some (net4 100 96 1 0 24)) true.
Definition info_other : NodeInfo := MkNodeInfo "b" (ip4 172 20 0 2) (Some (net4 100 96 2 0 24)) true.

Lemma gre_routes_use_their_tunnels_witness :
  exists m log s k' routes,
    Links_Ensure (gre_tunnels info_me [info_me; info_other]) greLinkNamePrefix (sim_world (set_links [eth0] sim_empty) tt)
    = (Ret m, after (sim_world (set_links [eth0] sim_empty) tt) s log k') /\
    gre_routes m info_me [info_me; info_other] = Some routes /\
    exists tunnel, tunnel ∈ links k' /\ link_name tunnel = "k8s-64-60-02-00"%string.
Proof.
  destruct (gre_routes_use_their_tunnels info_me [info_me; info_other] (sim_world (set_links [eth0] sim_empty) tt))
    as (m & log & s & k' & routes & Hr & Hro & Hin & _).
  - split; [by_computation|apply Forall_forall; by_computation|intros e _; exact I|by_computation].
  - exists m, log, s, k', routes. split; [exact Hr|]. split; [exact Hro|].
    destruct (Hin info_other (bytes_of (ip4 172 20 0 2)) (net4 100 96 2 0 24)) as (t & Ht & Hn & _);
      [right; by left|by_computation|reflexivity|reflexivity|by_computation|].
    exists t. split; [exact Ht|]. rewrite Hn. vm_compute. reflexivity.
Defined.
End Witnesses.
