(* ===== verification/Vxlan2.v ===== *)
(** * The vxlan2 provider: pkg/routing/vxlan2/vxlan2routing.go

    One VXLAN device for the overlay, with the forwarding entries, the permanent neighbours
    and the on-link routes of the other nodes. *)

From S2P Require Import Prelude GoNet GoNetFacts K8s Nodes NodesFacts NodeMapSpec Netlink Effects.
From S2P Require Import Tables Reconcile Netutil RouteTable LinkAddresses NeighTable KernelLaws Sim.
From S2P Require Import RouteFacts NeighFacts AddrFacts Provider Layer2 Gre.

(** [func mapToMAC(ip net.IP) net.HardwareAddr], the same function in vxlan and vxlan2; [None]
    is the [klog.Fatalf] on an address that is not IPv4. *)
Definition mapToMAC (ip : IP) : option HardwareAddr :=
  match To4 ip with
  | Some [a; b; c; d] => Some (Some [x00; x53; a; b; c; d])
  | _ => None
  end.

(** [fmt.Sprintf("vxlan%d", p.vxlanID)]: the decimal digits of an ID that is not negative. *)
Definition vxlan_name (vxlanID : Z) : string := "vxlan" +:+ appendDecimal vxlanID.

(** [type VxlanRoutingProvider struct]; [routeTable] and [neighTable] have no state. *)
Record Vxlan2RoutingProvider := MkVxlan2 {
  v2_overlayCIDR : option IPNet;
  v2_vxlanID : Z;
  v2_vtepIndex : Z;
  v2_vxlanPort : Z;
  v2_mtu : Z;
  v2_link : option Link;
  v2_lastVersionApplied : Z
}.

Definition v2_set_last (v : Z) (p : Vxlan2RoutingProvider) : Vxlan2RoutingProvider :=
  MkVxlan2 (v2_overlayCIDR p) (v2_vxlanID p) (v2_vtepIndex p) (v2_vxlanPort p) (v2_mtu p) (v2_link p) v.

Definition v2_set_link (l : Link) (p : Vxlan2RoutingProvider) : Vxlan2RoutingProvider :=
  MkVxlan2 (v2_overlayCIDR p) (v2_vxlanID p) (v2_vtepIndex p) (v2_vxlanPort p) (v2_mtu p) (Some l)
    (v2_lastVersionApplied p).

(** The neighbours and the route of a remote node. *)
Definition vxlan2_arp `{NetlinkConsts} (linkIndex : Z) (cidr : IPNet) (remoteMAC : HardwareAddr) : Neigh :=
  MkNeigh linkIndex FAMILY_V4 NUD_PERMANENT RTN_UNICAST 0 (net_IP cidr) remoteMAC.

Definition vxlan_fdb `{NetlinkConsts} (linkIndex : Z) (address : IP) (remoteMAC : HardwareAddr) : Neigh :=
  MkNeigh linkIndex AF_BRIDGE NUD_PERMANENT 0 NTF_SELF address remoteMAC.

(** [route.SetFlag(f)] sets a bit of the flags, which are zero in the literal. *)
Definition vxlan2_route `{NetlinkConsts} (linkIndex : Z) (cidr : IPNet) : Route :=
  MkRoute linkIndex 0 SCOPE_UNIVERSE (Some cidr) None (net_IP cidr) [] RTPROT_BOOT 0 RT_TABLE_MAIN
    RTN_UNICAST 0 (Z.lor 0 RTNH_F_ONLINK).

(** The loop over the nodes; [None] is the [klog.Fatalf] of [mapToMAC]. *)
Fixpoint vxlan2_remotes `{NetlinkConsts} (linkIndex : Z) (me : NodeInfo) (allNodes : list NodeInfo)
    : option (list Neigh * list Route) :=
  match allNodes with
  | [] => Some ([], [])
  | remote :: rest =>
      match usable_remote me remote with
      | None => vxlan2_remotes linkIndex me rest
      | Some (address, cidr) =>
          remoteMAC ← mapToMAC (net_IP cidr);
          '(neighs, routes) ← vxlan2_remotes linkIndex me rest;
          Some (vxlan2_arp linkIndex cidr remoteMAC :: vxlan_fdb linkIndex address remoteMAC :: neighs,
                vxlan2_route linkIndex cidr :: routes)
      end
  end.

(** A value that is missing ends the process. *)
Definition must {K P A} (x : option A) : M K P A := match x with Some a => mret a | None => exit end.

Lemma bind_must {K P A B} (a : A) (f : A -> M K P B) w : (must (Some a) ≫= f) w = f a w.
Proof. reflexivity. Qed.

Section Vxlan2.
Context {K : Type} `{Kernel K} `{NetlinkConsts}.

(** The loop of the constructor: the least MTU of the devices, zero without one. *)
Fixpoint minMTU_loop {P} (deviceNames : list string) (minMTU : Z) : M K P Z :=
  match deviceNames with
  | [] => mret minMTU
  | deviceName :: rest =>
      underlyingLink ← wrap "error fetching target link %q: %v" (query (k_LinkByName deviceName));
      match underlyingLink with
      | None => fail (ErrorMsg "target link not found %q")
      | Some l =>
          let mtu := link_MTU (Attrs l) in
          minMTU_loop rest (if (minMTU =? 0) || (mtu <? minMTU) then mtu else minMTU)
      end
  end.

(** [func NewVxlanRoutingProvider(overlayCIDR *net.IPNet, deviceNames []string)] *)
Definition NewVxlan2RoutingProvider {P} (overlayCIDR : option IPNet) (deviceNames : list string)
    : M K P Vxlan2RoutingProvider :=
  minMTU ← minMTU_loop deviceNames 0;
  mret (MkVxlan2 overlayCIDR 1 0 4789 (minMTU - 100) None 0).

(** [func (p *VxlanRoutingProvider) EnsureLink(me net.IP, cidr *net.IPNet) (netlink.Link, error)] *)
Definition Vxlan2_EnsureLink (me : IP) (cidr : IPNet) : M K Vxlan2RoutingProvider Link :=
  p ← get_prov;
  let name := vxlan_name (v2_vxlanID p) in
  macAddress ← must (mapToMAC (net_IP cidr));
  let expected := MkLink (MkLinkAttrs name 0 (v2_mtu p) macAddress 0)
                    (Vxlan false (v2_vxlanID p) (v2_vtepIndex p) me (v2_vxlanPort p)) in
  r ← try (query (k_LinkByName name));
  actual ← match r with
           | inl actual => mret actual
           | inr LinkNotFoundError => mret None
           | inr e => fail (Errorf "error fetching link %q: %w" e)
           end;
  actual ← match actual with
           | None =>
               wrap "unable to create link %q: %w" (netlink_LinkAdd expected);;
               wrap "error retrieving link %q after creation: %w" (query (k_LinkByName name))
           | Some l => mret (Some l)
           end;
  (* a nil link has no [Attrs] *)
  actual ← must actual;
  (if negb (bytes_Equal (link_HardwareAddr (Attrs actual)) macAddress)
   then wrap "failed to `ip link set %s address %s`: %w" (call (LinkSetHardwareAddr actual macAddress))
   else mret tt);;
  (if negb (link_MTU (Attrs actual) =? v2_mtu p)
   then wrap "failed to `ip link set %s mtu %d`: %w" (call (LinkSetMTU actual (v2_mtu p)))
   else mret tt);;
  let linkCIDR := MkIPNet (net_IP cidr) (CIDRMask 32 32) in
  wrap "failed to set address %s on link %s`: %w"
    (EnsureLinkAddresses actual [MkAddr (Some linkCIDR) name 128 0]);;
  (if Z.land (link_Flags (Attrs actual)) FlagUp =? 0
   then wrap "failed to `ip link set %s up`: %w" (call (LinkSetUp actual))
   else mret tt);;
  mret actual.

(** The block [if p.link == nil]; a link that is not a VXLAN device fails the type assertion,
    which panics. *)
Definition vxlan2_link (me : IP) (cidr : IPNet) : M K Vxlan2RoutingProvider Link :=
  p ← get_prov;
  match v2_link p with
  | Some l => mret l
  | None =>
      link ← Vxlan2_EnsureLink me cidr;
      match Kind link with
      | Vxlan _ _ _ _ _ =>
          modify_prov (v2_set_link link);;
          mret link
      | _ => exit
      end
  end.

(** What [EnsureCIDRs] does between [Snapshot] and the record of the version. *)
Definition vxlan2_apply (me : NodeInfo) (allNodes : list NodeInfo) : M K Vxlan2RoutingProvider unit :=
  match PodCIDR me with
  | None => fail (ErrorMsg "No CIDR assigned to local node; cannot configure tunnels")
  | Some cidr =>
      match Address me with
      | None => fail (ErrorMsg "No Address assigned to local node; cannot configure tunnels")
      | Some _ =>
          link ← vxlan2_link (Address me) cidr;
          '(neighs, routes) ← must (vxlan2_remotes (link_Index (Attrs link)) me allNodes);
          wrap "error applying neigh table: %v" (NeighTable_Ensure link neighs);;
          wrap "error applying route table: %v" (RouteTable_Ensure (Some link) routes true)
      end
  end.

(** [func (p *VxlanRoutingProvider) EnsureCIDRs(nodeMap *routing.NodeMap) error] *)
Definition Vxlan2_EnsureCIDRs : NodeMap -> NodeMap -> M K Vxlan2RoutingProvider unit :=
  ensure_version v2_lastVersionApplied v2_set_last vxlan2_apply.

Lemma must_keeps {P V A} (f : P -> V) (x : option A) : keeps f (must (K := K) x).
Proof. intros w. by destruct x. Qed.

Lemma Vxlan2_EnsureLink_keeps me cidr : keeps v2_lastVersionApplied (Vxlan2_EnsureLink me cidr).
Proof.
  unfold Vxlan2_EnsureLink. repeat (keeps_steps; try simple apply must_keeps).
Qed.
End Vxlan2.

#[export] Hint Resolve must_keeps Vxlan2_EnsureLink_keeps : net.

#[export] Instance Vxlan2_Provider `{Kernel K} `{NetlinkConsts} : Provider K Vxlan2RoutingProvider.
Proof.
  apply (ensure_version_provider v2_lastVersionApplied v2_set_last vxlan2_apply); [done|].
  intros me allNodes. unfold vxlan2_apply, vxlan2_link. keeps_steps.
Defined.

(** ** Hardware addresses *)

(** The hardware address of a node is a function of the IPv4 form of its pod CIDR's address:
    six bytes that start with 00:53 and identify the address; an address that is not IPv4 has
    none, which ends the process. *)
Theorem mac_identifies_address ip :
  match To4 ip with
  | Some p =>
      exists hw, mapToMAC ip = Some (Some hw) /\ length hw = 6%nat /\ take 2 hw = [x00; x53] /\
        forall ip', mapToMAC ip' = Some (Some hw) <-> To4 ip' = Some p
  | None => mapToMAC ip = None
  end.
Proof.
  unfold mapToMAC. destruct (To4 ip) as [p|] eqn:Hp; [|done]. pose proof (To4_Some _ _ Hp) as Hl.
  destruct p as [|a [|b [|c [|d [|? ?]]]]]; try done. exists [x00; x53; a; b; c; d]. split_and!; [done..|].
  intros ip'. destruct (To4 ip') as [q|] eqn:Hq; [|done]. pose proof (To4_Some _ _ Hq) as Hl'.
  destruct q as [|a' [|b' [|c' [|d' [|? ?]]]]]; try done. naive_solver.
Qed.

(** ** The work of a run *)

Section Remotes.
Context `{NetlinkConsts}.
Implicit Types (allNodes : list NodeInfo).

Lemma mapToMAC_None ip : mapToMAC ip = None <-> To4 ip = None.
Proof.
  unfold mapToMAC. destruct (To4 ip) as [p|] eqn:Hp; [|done]. pose proof (To4_Some _ _ Hp).
  by destruct p as [|a [|b [|c [|d [|? ?]]]]].
Qed.

Lemma vxlan2_remotes_None i me allNodes n a cidr :
  n ∈ allNodes -> usable_remote me n = Some (a, cidr) -> To4 (net_IP cidr) = None ->
  vxlan2_remotes i me allNodes = None.
Proof.
  intros Hin Hu H4. induction allNodes as [|x l IH]; [by apply not_elem_of_nil in Hin|].
  simpl. apply elem_of_cons in Hin as [<-|Hin].
  - by rewrite Hu, (proj2 (mapToMAC_None _) H4).
  - rewrite (IH Hin). destruct (usable_remote me x) as [[a' c']|]; [|done]. by destruct (mapToMAC (net_IP c')).
Qed.

Lemma vxlan2_remotes_Some i me allNodes :
  (forall n a cidr, n ∈ allNodes -> usable_remote me n = Some (a, cidr) -> To4 (net_IP cidr) ≠ None) ->
  exists ns rs, vxlan2_remotes i me allNodes = Some (ns, rs) /\
    (forall n a cidr, n ∈ allNodes -> usable_remote me n = Some (a, cidr) ->
       exists mac, mapToMAC (net_IP cidr) = Some mac /\
         vxlan2_arp i cidr mac ∈ ns /\ vxlan_fdb i a mac ∈ ns /\ vxlan2_route i cidr ∈ rs) /\
    (forall r, r ∈ rs -> exists n a cidr, n ∈ allNodes /\ usable_remote me n = Some (a, cidr) /\ r = vxlan2_route i cidr).
Proof.
  intros H4. induction allNodes as [|x l IH].
  { exists [], []. split_and!; [done|by intros ? ? ? ?%not_elem_of_nil|by intros ? ?%not_elem_of_nil]. }
  destruct IH as (ns & rs & Hr & Hin & Hfrom). { intros n a cidr Hn. apply H4. by right. }
  simpl. destruct (usable_remote me x) as [[a cidr]|] eqn:Hu.
  - destruct (mapToMAC (net_IP cidr)) as [mac|] eqn:Hm.
    2: { apply mapToMAC_None in Hm. by destruct (H4 x a cidr ltac:(by left) Hu). }
    simpl. rewrite Hr. simpl. eexists _, _. split_and!; [done| |].
    + intros n a' c' [->|Hn]%elem_of_cons Hu'.
      * assert (a' = a /\ c' = cidr) as [-> ->] by (split; congruence). exists mac.
        rewrite !elem_of_cons. split_and!; auto.
      * destruct (Hin n a' c' Hn Hu') as (mac' & ? & ? & ? & ?). exists mac'.
        rewrite !elem_of_cons. split_and!; auto.
    + intros r [->|Hri]%elem_of_cons; [exists x, a, cidr; split; [by left|done]|].
      destruct (Hfrom r Hri) as (n & a' & c' & ? & ?). exists n, a', c'. split; [by right|done].
  - rewrite Hr. exists ns, rs. split_and!; [done| |].
    + intros n a' c' [->|Hn]%elem_of_cons Hu'; [congruence|]. exact (Hin n a' c' Hn Hu').
    + intros r Hri. destruct (Hfrom r Hri) as (n & a' & c' & ? & ?). exists n, a', c'. split; [by right|done].
Qed.
(** *** The entries can be in the tables together *)

Lemma IP_String_To4 ip a b c d : To4 ip = Some [a; b; c; d] -> IP_String ip = dotted a b c d.
Proof.
  intros Hp. unfold IP_String. rewrite Hp. unfold To4 in Hp.
  destruct (bool_decide (length (bytes_of ip) = 4%nat)) eqn:H4; [apply bool_decide_eq_true in H4; by rewrite H4|].
  destruct (bool_decide (length (bytes_of ip) = 16%nat)) eqn:H16; [apply bool_decide_eq_true in H16; by rewrite H16|].
  done.
Qed.

Lemma mapToMAC_Some ip mac :
  mapToMAC ip = Some mac -> exists hw, mac = Some hw /\ length hw = 6%nat /\ is_Some ip /\
    forall ip', mapToMAC ip' = Some mac -> IP_String ip' = IP_String ip.
Proof.
  unfold mapToMAC. destruct (To4 ip) as [[|a [|b [|c [|d [|? ?]]]]]|] eqn:Hp; try done. intros [= <-].
  eexists. split; [done|]. split; [done|]. split; [destruct ip; [by eexists|done]|]. intros ip'.
  destruct (To4 ip') as [[|a' [|b' [|c' [|d' [|? ?]]]]]|] eqn:Hp'; try done. intros [= -> -> -> ->].
  by rewrite (IP_String_To4 _ _ _ _ _ Hp), (IP_String_To4 _ _ _ _ _ Hp').
Qed.

Lemma is_fdb_vxlan_fdb i a mac : is_fdb (vxlan_fdb i a mac) = true.
Proof. reflexivity. Qed.

Lemma is_fdb_vxlan2_arp i cidr mac : is_fdb (vxlan2_arp i cidr mac) = false.
Proof. apply Z.eqb_neq, FAMILY_V4_not_bridge. Qed.

Lemma vxlan2_remotes_from i me allNodes : forall ns rs,
  vxlan2_remotes i me allNodes = Some (ns, rs) ->
  forall n, n ∈ ns -> exists x a cidr mac, x ∈ allNodes /\ usable_remote me x = Some (a, cidr) /\
    mapToMAC (net_IP cidr) = Some mac /\ vxlan2_arp i cidr mac ∈ ns /\
    (n = vxlan2_arp i cidr mac \/ n = vxlan_fdb i a mac).
Proof.
  induction allNodes as [|x allNodes IH]; intros ns rs; cbn [vxlan2_remotes].
  { intros [= <- _] n []%not_elem_of_nil. }
  destruct (usable_remote me x) as [[a cidr]|] eqn:Hu; cycle 1.
  { intros Hr n Hn. destruct (IH _ _ Hr n Hn) as (y & a & c & mac & Hy & Hrest). exists y, a, c, mac.
    split; [by right|done]. }
  destruct (mapToMAC (net_IP cidr)) as [mac|] eqn:Hm; [|done]. simpl.
  destruct (vxlan2_remotes i me allNodes) as [[ns' rs']|]; [|done]. simpl. intros [= <- _] n.
  rewrite !elem_of_cons. intros [->|[->|Hn]]; [exists x, a, cidr, mac; rewrite !elem_of_cons; by auto 10..|].
  destruct (IH _ _ eq_refl n Hn) as (y & a' & c & mac' & Hy & ? & ? & ? & ?). exists y, a', c, mac'.
  rewrite !elem_of_cons. by auto 10.
Qed.

(** A hardware address leads to one node. *)
Lemma vxlan2_fdbs_apart i me allNodes : forall ns rs,
  vxlan2_remotes i me allNodes = Some (ns, rs) -> NoDup (omap neigh_key ns) ->
  forall e e', e ∈ ns -> e' ∈ ns -> is_fdb e = true -> is_fdb e' = true ->
    bytes_Equal (neigh_HardwareAddr e) (neigh_HardwareAddr e') = true -> e = e'.
Proof.
  induction allNodes as [|x allNodes IH]; intros ns rs; cbn [vxlan2_remotes].
  { intros [= <- _] _ e e' []%not_elem_of_nil. }
  destruct (usable_remote me x) as [[a cidr]|]; [|apply IH].
  destruct (mapToMAC (net_IP cidr)) as [mac|] eqn:Hm; [|done]. simpl.
  destruct (vxlan2_remotes i me allNodes) as [[ns' rs']|] eqn:Hr; [|done]. simpl. intros [= <- _] Hnd.
  destruct (mapToMAC_Some _ _ Hm) as (hw & -> & _ & [z Hz] & Huniq).
  assert (neigh_key (vxlan2_arp i cidr (Some hw)) = Some (IP_String (net_IP cidr))) as Hk by (unfold neigh_key; simpl; by rewrite Hz).
  set (arp := vxlan2_arp i cidr (Some hw)) in *. set (fdb := vxlan_fdb i a (Some hw)) in *.
  change (arp :: fdb :: ns') with ([arp] ++ [fdb] ++ ns') in Hnd. rewrite !omap_app in Hnd.
  assert (omap neigh_key [arp] = [IP_String (net_IP cidr)]) as Hka by (cbn; by rewrite Hk). rewrite Hka in Hnd.
  apply NoDup_app in Hnd as (_ & Hk1 & (_ & _ & Hnd)%NoDup_app).
  assert (forall e, e ∈ ns' -> is_fdb e = true -> bytes_Equal (neigh_HardwareAddr e) (neigh_HardwareAddr fdb) = false) as Hother.
  { intros e He Hf. apply not_true_iff_false. intros Heq%bytes_Equal_eq.
    destruct (vxlan2_remotes_from _ _ _ _ _ Hr e He) as (y & a' & c & mac' & _ & _ & Hm' & Harp & [-> | ->]).
    { by rewrite is_fdb_vxlan2_arp in Hf. }
    destruct (mapToMAC_Some _ _ Hm') as (hw' & -> & _ & [z' Hz'] & _). simpl in Heq. subst hw'.
    apply (Hk1 (IP_String (net_IP cidr))); [by left|]. apply elem_of_app. right. apply list_elem_of_omap.
    exists (vxlan2_arp i c (Some hw)). split; [done|]. unfold neigh_key. simpl. rewrite Hz', <- Hz'. f_equal. by apply Huniq. }
  assert (is_fdb arp = false) as Harp by apply is_fdb_vxlan2_arp.
  intros e e' He He' Hf Hf' Heq. apply elem_of_cons in He as [->|He]; [congruence|].
  apply elem_of_cons in He' as [->|He']; [congruence|].
  apply elem_of_cons in He as [->|He], He' as [->|He']; [done| | |by eapply IH].
  - apply bytes_Equal_eq in Heq. symmetry in Heq. apply bytes_Equal_eq in Heq. by rewrite (Hother e' He' Hf') in Heq.
  - by rewrite (Hother e He Hf) in Heq.
Qed.

Lemma vxlan_fdb_regular i x hw : length hw = 6%nat -> neigh_regular (vxlan_fdb i (Some x) (Some hw)).
Proof. intros Hl. split; [by eexists|]. split; [by left|]. by eexists. Qed.

Lemma vxlan2_neigh_goal i me allNodes ns rs :
  vxlan2_remotes i me allNodes = Some (ns, rs) -> NoDup (omap neigh_key ns) -> neigh_goal ns.
Proof.
  intros Hr Hnd. split.
  - intros n Hn. destruct (vxlan2_remotes_from _ _ _ _ _ Hr n Hn) as (x & a & c & mac & _ & Hu & Hm & _ & Hcase).
    destruct (mapToMAC_Some _ _ Hm) as (hw & -> & Hlen & [z Hz] & _).
    apply usable_remote_Some in Hu as (_ & [b ->] & _). destruct Hcase as [-> | ->]; [|by apply vxlan_fdb_regular].
    split; [unfold neigh_key; simpl; rewrite Hz; by eexists|]. split; [by left|]. by eexists.
  - intros j j' e e' [He Hj]%index_by_Some [He' Hj']%index_by_Some Hne. apply not_true_iff_false. unfold neigh_slot.
    intros [[_ Hf%Bool.eqb_prop]%andb_true_iff Hs]%andb_true_iff. destruct (is_fdb e') eqn:Hf'.
    + assert (e = e') as -> by (by eapply vxlan2_fdbs_apart). congruence.
    + apply bool_decide_eq_true in Hs. congruence.
Qed.
End Remotes.

Section Theorems.
Context {K : Type} `{Kernel K} `{NetlinkConsts}.
Implicit Types (w : World K Vxlan2RoutingProvider).

(** The state of the provider is read and the link is there. *)
Lemma vxlan2_apply_linked me allNodes w l cidr a :
  PodCIDR me = Some cidr -> Address me = Some a -> v2_link (prov w) = Some l ->
  vxlan2_apply me allNodes w
  = ('(neighs, routes) ← must (vxlan2_remotes (link_Index (Attrs l)) me allNodes);
     wrap "error applying neigh table: %v" (NeighTable_Ensure l neighs);;
     wrap "error applying route table: %v" (RouteTable_Ensure (Some l) routes true)) w.
Proof.
  intros Hc Ha Hl. unfold vxlan2_apply. rewrite Hc, Ha, bind_run.
  unfold vxlan2_link. rewrite bind_run. unfold get_prov. cbv beta iota. by rewrite Hl.
Qed.

(** One node with an address and a pod CIDR that is not IPv4 ends the process of every other
    node that runs the vxlan2 provider, before a neighbour or a route is touched. *)
Theorem ipv6_node_exits me allNodes w l cidr a n a' cidr' :
  PodCIDR me = Some cidr -> Address me = Some a -> v2_link (prov w) = Some l ->
  n ∈ allNodes -> usable_remote me n = Some (a', cidr') -> To4 (net_IP cidr') = None ->
  vxlan2_apply me allNodes w = (Exit, w).
Proof.
  intros Hc Ha Hl Hn Hu H4. rewrite (vxlan2_apply_linked _ _ _ _ _ _ Hc Ha Hl), bind_run.
  by rewrite (vxlan2_remotes_None _ _ _ _ _ _ Hn Hu H4).
Qed.

Context `{!RouteLaws K} `{!NeighLaws K} `{!NeighRouteFrame K} `{CoreV1}.

Lemma NeighTable_Ensure_routes link expected w :
  entries route_table (kern (NeighTable_Ensure link expected w).2) ≡ₚ entries route_table (kern w).
Proof.
  assert (quiet (P := Vxlan2RoutingProvider) (fun k => entries route_table k ≡ₚ entries route_table (kern w)) (NeighTable_Ensure link expected)) as Hq;
    [|by apply Hq].
  unfold NeighTable_Ensure. quiet_steps; intros k Hk.
  - destruct (NeighList_lists (link_Index (Attrs link)) k) as (l & -> & _). exact Hk.
  - by rewrite NeighSet_routes.
Qed.

Lemma route_goal_perm link expected k k' :
  entries route_table k' ≡ₚ entries route_table k -> route_goal link expected k -> route_goal link expected k'.
Proof.
  intros Hp [? ? Ha ? ? Hf]. split; try done.
  - unfold listed_routes in *. by rewrite Hp.
  - intros e r He Hr. apply Hf; [done|]. unfold other_routes in *. by rewrite <- Hp.
Qed.

(** C17: the work of the vxlan2 provider, end to end on a kernel that keeps the contracts of its
    tables, once it has its device. Conditions: every other node with an address and a pod CIDR is an
    IPv4 node - one that is not would end the process (ipv6_node_exits) -, no address is used twice
    among the nodes' addresses and those of their pod CIDRs, the kernel takes the entries and the routes,
    and no foreign route is in their way. Then the run succeeds; every such node has its permanent
    neighbour entry, its forwarding entry to the node's address under one and the same hardware
    address, and its on-link route, and the routes of the device are in step with these: none is left
    over. *)
Theorem vxlan2_reaches_every_node me allNodes w l cidr a ns rs :
  PodCIDR me = Some cidr -> Address me = Some a -> v2_link (prov w) = Some l ->
  vxlan2_remotes (link_Index (Attrs l)) me allNodes = Some (ns, rs) ->
  NoDup (omap neigh_key ns) -> (forall n, n ∈ ns -> neigh_accepts n) ->
  route_goal (Some l) rs (kern w) ->
  exists w', vxlan2_apply me allNodes w = (Ret tt, w') /\
    (forall n a' cidr', n ∈ allNodes -> usable_remote me n = Some (a', cidr') ->
       exists mac arp fdb, mapToMAC (net_IP cidr') = Some mac /\ arp ∈ neighs (kern w') /\ fdb ∈ neighs (kern w') /\
         neigh_held (vxlan2_arp (link_Index (Attrs l)) cidr' mac) arp /\
         neigh_held (vxlan_fdb (link_Index (Attrs l)) a' mac) fdb /\
         vxlan2_route (link_Index (Attrs l)) cidr' ∈ rs) /\
    routes_in_sync (Some l) rs (kern w').
Proof.
  intros Hc Ha Hl Hrem Hnd Hacc Hg.
  rewrite (vxlan2_apply_linked _ _ _ _ _ _ Hc Ha Hl), Hrem. unfold must. rewrite bind_ret, bind_run.
  destruct (neighbours_settle l ns w (vxlan2_neigh_goal _ _ _ _ _ Hrem Hnd) Hacc) as (log & s & k1 & Hr1 & Hin).
  pose proof (NeighTable_Ensure_routes l ns w) as Hroutes. rewrite Hr1 in Hroutes. simpl in Hroutes.
  unfold wrap at 1. rewrite Hr1.
  destruct (RouteTable_Ensure_converges (Some l) rs (after w s log k1)) as (log2 & k2 & Hr2 & Hs & _ & Ho).
  { rewrite kern_after. by eapply route_goal_perm. }
  unfold wrap. rewrite Hr2. eexists. split; [reflexivity|]. split; [|exact Hs].
  intros n a' cidr' Hn Hu. rewrite kern_after in Ho. pose proof (routes_neighs _ _ Ho) as Hneighs. simpl.
  destruct (vxlan2_remotes_Some (link_Index (Attrs l)) me allNodes) as (ns' & rs' & Hrem' & Hall & _).
  { intros x ax cx Hx Hux Hn4. by rewrite (vxlan2_remotes_None _ _ _ _ _ _ Hx Hux Hn4) in Hrem. }
  assert (ns' = ns /\ rs' = rs) as [-> ->] by (split; congruence).
  destruct (Hall n a' cidr' Hn Hu) as (mac & Hm & Harp & Hfdb & Hroute).
  assert (forall e i, e ∈ ns -> neigh_key e = Some i -> exists y, y ∈ neighs k2 /\ neigh_held e y) as Hheld.
  { intros e i He Hi. destruct (Hin i e) as (y & Hy & Hh); [by apply index_by_unique|]. exists y. by rewrite Hneighs. }
  apply usable_remote_Some in Hu as Hu'. destruct Hu' as (_ & [x ->] & _).
  assert (is_Some (net_IP cidr')) as [z Hz].
  { apply not_eq_None_Some. intros Hz. rewrite Hz in Hm. discriminate Hm. }
  destruct (Hheld (vxlan2_arp (link_Index (Attrs l)) cidr' mac) (IP_String (net_IP cidr')) Harp) as (arp & ? & ?).
  { unfold neigh_key. simpl. by rewrite Hz. }
  destruct (Hheld (vxlan_fdb (link_Index (Attrs l)) (Some x) mac) (IP_String (Some x)) Hfdb) as (fdb & ? & ?).
  { done. }
  by exists mac, arp, fdb.
Qed.
End Theorems.

(** ** The device *)

Section EnsureLink.
Context {K : Type} `{Kernel K} `{NetlinkConsts}.
Implicit Types (w : World K Vxlan2RoutingProvider).

(** The address of the device. *)
Definition vxlan2_addr (p : Vxlan2RoutingProvider) (cidr : IPNet) : Addr :=
  MkAddr (Some (MkIPNet (net_IP cidr) (CIDRMask 32 32))) (vxlan_name (v2_vxlanID p)) 128 0.

(** On any kernel, [EnsureLink] leaves a device alone that is as it should be: when the device
    exists with the hardware address and MTU of the provider, is up and has exactly its address,
    link-local ones aside, [EnsureLink] returns it and makes no call that changes something. *)
Theorem vxlan2_EnsureLink_settled me cidr w l mac k1 actual k2 :
  mapToMAC (net_IP cidr) = Some mac ->
  k_LinkByName (vxlan_name (v2_vxlanID (prov w))) (kern w) = (inl (Some l), k1) ->
  bytes_Equal (link_HardwareAddr (Attrs l)) mac = true ->
  link_MTU (Attrs l) = v2_mtu (prov w) -> Z.land (link_Flags (Attrs l)) FlagUp ≠ 0 ->
  k_AddrList l FAMILY_ALL k1 = (inl actual, k2) ->
  in_sync addrEqual (index_by addr_actual_key actual) (index_by addr_expected_key [vxlan2_addr (prov w) cidr]) ->
  Vxlan2_EnsureLink me cidr w = (Ret l, after w (fun n => sched w (S (S n))) [] k2).
Proof.
  intros Hm Hl Hmac Hmtu Hup Ha Hs. unfold Vxlan2_EnsureLink. rewrite bind_run. unfold get_prov. cbv beta iota.
  rewrite Hm, bind_must, bind_run.
  assert (try (query (k_LinkByName (vxlan_name (v2_vxlanID (prov w))))) w
          = (Ret (inl (Some l)), after w (sched w) [] k1)) as ->.
  { unfold try, query, after. by rewrite Hl, app_nil_r. }
  cbv beta iota. rewrite !bind_ret, bind_must.
  rewrite Hmac, Hmtu, Z.eqb_refl. cbn [negb]. rewrite !bind_ret, bind_run.
  assert (EnsureLinkAddresses l [vxlan2_addr (prov w) cidr] (after w (sched w) [] k1)
          = (Ret tt, after w (fun n => sched w (S (S n))) [] k2)) as Hr.
  { rewrite (EnsureLinkAddresses_settled _ _ (after w (sched w) [] k1) actual k2 Ha Hs). by world. }
  unfold vxlan2_addr in Hr. unfold wrap at 1. rewrite Hr. rewrite (proj2 (Z.eqb_neq _ _) Hup). by rewrite bind_ret.
Qed.
End EnsureLink.

Section Witnesses.
#[local] Existing Instance netlink_v1_1_0.

Definition vxlan1 : Link :=
  MkLink (MkLinkAttrs "vxlan1" 5 1400 (Some [x00; x53; x64; x60; x01; x00]) FlagUp) (Vxlan false 1 0 (ip4 172 20 0 1) 4789).

Definition sim_vxlan2 : Vxlan2RoutingProvider := MkVxlan2 None 1 0 4789 1400 (Some vxlan1) 0.

Lemma ipv6_node_exits_witness :
  let six := MkNodeInfo "c" (ip4 172 20 0 3) (Some (MkIPNet (Some (repeat x20 16)) (CIDRMask 64 128))) true in
  vxlan2_apply info_me [info_me; six] (sim_world sim_empty sim_vxlan2) = (Exit, sim_world sim_empty sim_vxlan2).
Proof.
  intros six.
  apply (ipv6_node_exits info_me [info_me; six] (sim_world sim_empty sim_vxlan2) vxlan1 (net4 100 96 1 0 24)
           (bytes_of (ip4 172 20 0 1)) six (ip4 172 20 0 3) (MkIPNet (Some (repeat x20 16)) (CIDRMask 64 128)));
    [reflexivity|reflexivity|reflexivity|right; by left|vm_compute; reflexivity|vm_compute; reflexivity].
Defined.

Lemma vxlan2_reaches_every_node_witness :
  exists w', vxlan2_apply info_me [info_me; info_other] (sim_world sim_empty sim_vxlan2) = (Ret tt, w') /\
    exists arp, arp ∈ neighs (kern w') /\ neigh_key arp = Some "100.96.2.0"%string.
Proof.
  destruct (vxlan2_remotes (link_Index (Attrs vxlan1)) info_me [info_me; info_other]) as [[ns rs]|] eqn:Hrem;
    [|vm_compute in Hrem; discriminate].
  destruct (vxlan2_reaches_every_node info_me [info_me; info_other] (sim_world sim_empty sim_vxlan2) vxlan1
              (net4 100 96 1 0 24) (bytes_of (ip4 172 20 0 1)) ns rs) as (w' & Hr & Hall & _).
  - reflexivity.
  - reflexivity.
  - reflexivity.
  - exact Hrem.
  - vm_compute in Hrem. injection Hrem as <- <-. by_computation.
  - intros n _. exact I.
  - vm_compute in Hrem. injection Hrem as <- <-. route_goal_by_computation.
  - exists w'. split; [exact Hr|].
    destruct (Hall info_other (ip4 172 20 0 2) (net4 100 96 2 0 24)) as (mac & arp & fdb & _ & Harp & _ & Hk & _);
      [right; by left|vm_compute; reflexivity|].
    exists arp. split; [exact Harp|]. destruct Hk as (_ & _ & _ & Hk & _). rewrite Hk. vm_compute. reflexivity.
Defined.

Lemma vxlan2_EnsureLink_settled_witness :
  let k := set_links [vxlan1] (set_addrs [(vxlan1, MkAddr (Some (net4 100 96 1 0 32)) "vxlan1" 128 0)] sim_empty) in
  exists s, Vxlan2_EnsureLink (ip4 172 20 0 1) (net4 100 96 1 0 24) (sim_world k sim_vxlan2)
            = (Ret vxlan1, after (sim_world k sim_vxlan2) s [] k).
Proof.
  intros k. eexists.
  apply (vxlan2_EnsureLink_settled (ip4 172 20 0 1) (net4 100 96 1 0 24) (sim_world k sim_vxlan2) vxlan1
           (Some [x00; x53; x64; x60; x01; x00]) k [MkAddr (Some (net4 100 96 1 0 32)) "vxlan1" 128 0] k);
    [vm_compute; reflexivity|vm_compute; reflexivity|vm_compute; reflexivity|reflexivity|discriminate|vm_compute; reflexivity|].
  intros i.
  assert (index_by addr_actual_key [MkAddr (Some (net4 100 96 1 0 32)) "vxlan1" 128 0]
          = index_by addr_expected_key [vxlan2_addr sim_vxlan2 (net4 100 96 1 0 24)]) as -> by (vm_compute; reflexivity).
  destruct (index_by _ _ !! i); [apply addrEqual_refl|exact I].
Defined.
End Witnesses.
