(* ===== verification/VxlanLegacy.v ===== *)
(** * The vxlan provider: pkg/routing/vxlan/vxlanrouting.go, netlink_monitor.go

    One VXLAN device with a route for the whole overlay. A node's hardware address is derived
    from its pod CIDR; the neighbour entries of pods are injected by a monitor that answers the
    kernel's requests for unresolved addresses. *)

From S2P Require Import Prelude GoNet GoNetFacts K8s Nodes NodesFacts NodeMapSpec Netlink Effects.
From S2P Require Import Tables Reconcile Netutil RouteTable LinkAddresses NeighTable KernelLaws Sim.
From S2P Require Import RouteFacts NeighFacts AddrFacts Provider Layer2 Gre Vxlan2.

(** [type VxlanRoutingProvider struct]; [monitor] is the link index of the running monitor. *)
Record VxlanRoutingProvider := MkVxlanLegacy {
  vx_overlayCIDR : option IPNet;
  vx_monitor : option Z;
  vx_vxlanID : Z;
  vx_vtepIndex : Z;
  vx_vxlanPort : Z;
  vx_mtu : Z;
  vx_link : option Link;
  vx_lastVersionApplied : Z
}.

Definition vx_set_last (v : Z) (p : VxlanRoutingProvider) : VxlanRoutingProvider :=
  MkVxlanLegacy (vx_overlayCIDR p) (vx_monitor p) (vx_vxlanID p) (vx_vtepIndex p) (vx_vxlanPort p)
    (vx_mtu p) (vx_link p) v.

Definition vx_set_link (l : Link) (p : VxlanRoutingProvider) : VxlanRoutingProvider :=
  MkVxlanLegacy (vx_overlayCIDR p) (vx_monitor p) (vx_vxlanID p) (vx_vtepIndex p) (vx_vxlanPort p)
    (vx_mtu p) (Some l) (vx_lastVersionApplied p).

Definition vx_set_monitor (i : Z) (p : VxlanRoutingProvider) : VxlanRoutingProvider :=
  MkVxlanLegacy (vx_overlayCIDR p) (Some i) (vx_vxlanID p) (vx_vtepIndex p) (vx_vxlanPort p)
    (vx_mtu p) (vx_link p) (vx_lastVersionApplied p).

(** The route of the whole overlay. *)
Definition overlay_route (linkIndex : Z) (overlayCIDR : option IPNet) : Route :=
  new_Route linkIndex overlayCIDR None RTPROT_BOOT RT_TABLE_MAIN RTN_UNICAST.

(** The loop over the nodes: their forwarding entries; [None] is the [klog.Fatalf] of
    [mapToMAC]. *)
Fixpoint vxlan_fdbs `{NetlinkConsts} (linkIndex : Z) (me : NodeInfo) (allNodes : list NodeInfo)
    : option (list Neigh) :=
  match allNodes with
  | [] => Some []
  | remote :: rest =>
      match usable_remote me remote with
      | None => vxlan_fdbs linkIndex me rest
      | Some (address, cidr) =>
          remoteMAC ← mapToMAC (net_IP cidr);
          neighs ← vxlan_fdbs linkIndex me rest;
          Some (vxlan_fdb linkIndex address remoteMAC :: neighs)
      end
  end.

Section Vxlan.
Context {K : Type} `{Kernel K} `{NetlinkConsts}.

(** [func NewVxlanRoutingProvider(overlayCIDR *net.IPNet, deviceName string)] *)
Definition NewVxlanRoutingProvider {P} (overlayCIDR : option IPNet) (deviceName : string)
    : M K P VxlanRoutingProvider :=
  underlyingLink ← wrap "error fetching target link %q: %v" (query (k_LinkByName deviceName));
  match underlyingLink with
  | None => fail (ErrorMsg "target link not found %q")
  | Some l => mret (MkVxlanLegacy overlayCIDR None 1 0 4789 (link_MTU (Attrs l) - 100) None 0)
  end.

(** [func listenArp(link netlink.Link) error] *)
Definition listenArp {P} (link : Link) : M K P unit :=
  let sysctlPath := "/proc/sys/net/ipv4/neigh/" +:+ link_Name (Attrs link) +:+ "/app_solicit" in
  (* 0666 *)
  wrap "error writing setting sysctl for ARP events: %v" (call (WriteFile sysctlPath "3" 438)).

(** [func (m *NetlinkMonitor) Start() error]: the subscription; [watch] is [monitor_message] for
    every message that arrives. *)
Definition NetlinkMonitor_Start {P} (linkIndex : Z) : M K P unit :=
  wrap "Failed to subscribe to (NETLINK_ROUTE,RTNLGRP_NEIGH): %v" (call (MonitorSubscribe linkIndex)).

(** [func (p *VxlanRoutingProvider) EnsureLink(me net.IP, cidr *net.IPNet) (netlink.Link, error)] *)
Definition Vxlan_EnsureLink (me : IP) (cidr : IPNet) : M K VxlanRoutingProvider Link :=
  p ← get_prov;
  let name := vxlan_name (vx_vxlanID p) in
  macAddress ← must (mapToMAC (net_IP cidr));
  let link := MkLink (MkLinkAttrs name 0 (vx_mtu p) macAddress 0)
                (Vxlan false (vx_vxlanID p) (vx_vtepIndex p) me (vx_vxlanPort p)) in
  r ← try (netlink_LinkAdd link);
  link ← match r with
         | inr _ => mret link
         | inl link =>
             wrap "failed to `ip link set %s address %s`: %v" (call (LinkSetHardwareAddr link macAddress));;
             mret link
         end;
  found ← wrap "error retrieving link %q: %v" (query (k_LinkByName name));
  found ← must found;
  (if negb (link_MTU (Attrs found) =? vx_mtu p)
   then wrap "failed to `ip link set %s mtu %d`: %v" (call (LinkSetMTU link (vx_mtu p)))
   else mret tt);;
  overlay ← must (vx_overlayCIDR p);
  let linkCIDR := MkIPNet (net_IP cidr) (net_Mask overlay) in
  wrap "failed to `ip addr add %s dev link %s`: %v"
    (EnsureLinkAddresses link [MkAddr (Some linkCIDR) name 128 0]);;
  wrap "failed to `ip link set %s up`: %s" (call (LinkSetUp link));;
  mret found.

(** The block [if p.link == nil]. *)
Definition vxlan_link (me : IP) (cidr : IPNet) : M K VxlanRoutingProvider Link :=
  p ← get_prov;
  match vx_link p with
  | Some l => mret l
  | None =>
      link ← Vxlan_EnsureLink me cidr;
      match Kind link with
      | Vxlan _ _ _ _ _ =>
          modify_prov (vx_set_link link);;
          listenArp link;;
          NetlinkMonitor_Start (link_Index (Attrs link));;
          modify_prov (vx_set_monitor (link_Index (Attrs link)));;
          mret link
      | _ => exit
      end
  end.

(** The entries and the route, once there is a device. *)
Definition vxlan_tables (link : Link) (me : NodeInfo) (allNodes : list NodeInfo) : M K VxlanRoutingProvider unit :=
  p ← get_prov;
  let linkIndex := link_Index (Attrs link) in
  let routes := [overlay_route linkIndex (vx_overlayCIDR p)] in
  neighs ← must (vxlan_fdbs linkIndex me allNodes);
  wrap "error applying neigh table: %v" (NeighTable_Ensure link neighs);;
  wrap "error applying route table: %v" (RouteTable_Ensure (Some link) routes true).

(** What [EnsureCIDRs] does between [Snapshot] and the record of the version. *)
Definition vxlan_apply (me : NodeInfo) (allNodes : list NodeInfo) : M K VxlanRoutingProvider unit :=
  match PodCIDR me with
  | None => fail (ErrorMsg "No CIDR assigned to local node; cannot configure tunnels")
  | Some cidr =>
      match Address me with
      | None => fail (ErrorMsg "No Address assigned to local node; cannot configure tunnels")
      | Some _ =>
          link ← vxlan_link (Address me) cidr;
          vxlan_tables link me allNodes
      end
  end.

(** [func (p *VxlanRoutingProvider) EnsureCIDRs(nodeMap *routing.NodeMap) error] *)
Definition Vxlan_EnsureCIDRs : NodeMap -> NodeMap -> M K VxlanRoutingProvider unit :=
  ensure_version vx_lastVersionApplied vx_set_last vxlan_apply.

(** A message of the subscription: its header's type, and what [netlink.NeighDeserialize] makes
    of its data. *)
Record NetlinkMessage := MkNetlinkMessage { msg_Type : Z; msg_Neigh : Neigh + error }.

(** The body of the loop over the messages of one [Receive], in [watch]. *)
Definition monitor_message {P} (linkIndex : Z) (message : NetlinkMessage) : M K P unit :=
  match msg_Neigh message with
  | inr _ => mret tt
  | inl neigh =>
      if negb (neigh_LinkIndex neigh =? linkIndex) then mret tt
      else if negb ((msg_Type message =? RTM_GETNEIGH) || (msg_Type message =? RTM_NEWNEIGH)) then mret tt
      else if negb (Z.land (neigh_State neigh) NUD_REACHABLE =? 0) then mret tt
      else if bool_decide (neigh_HardwareAddr neigh ≠ None) || bool_decide (neigh_IP neigh = None) then mret tt
      else match To4 (neigh_IP neigh) with
           | Some [a; b; c; d] =>
               let cidrIP := IPv4 a b c x00 in
               mac ← must (mapToMAC cidrIP);
               try (call (NeighSet (MkNeigh linkIndex 0 NUD_REACHABLE RTN_UNICAST 0 (Some [a; b; c; d]) mac)));;
               mret tt
           | _ => mret tt
           end
  end.

(** One round of [watch]: the messages of a [Receive] that succeeded, or the pause after one that
    failed. *)
Definition watch_round {P} (linkIndex : Z) (received : list NetlinkMessage + error) : M K P unit :=
  match received with
  | inr _ => try (call (Sleep 1));; mret tt
  | inl messages => each (monitor_message linkIndex) messages
  end.

Lemma Vxlan_EnsureLink_keeps {V} (f : VxlanRoutingProvider -> V) me cidr : keeps f (Vxlan_EnsureLink me cidr).
Proof. unfold Vxlan_EnsureLink. keeps_steps. Qed.

#[local] Hint Resolve Vxlan_EnsureLink_keeps : net.

#[export] Instance Vxlan_Provider : Provider K VxlanRoutingProvider.
Proof.
  apply (ensure_version_provider vx_lastVersionApplied vx_set_last vxlan_apply); [done|].
  intros me allNodes. unfold vxlan_apply, vxlan_link, vxlan_tables, listenArp, NetlinkMonitor_Start. keeps_steps.
Defined.
End Vxlan.

(** ** The monitor *)

Section Monitor.
Context {K P : Type} `{Kernel K} `{NetlinkConsts}.
Implicit Types (w : World K P).

(** The messages the monitor answers, with the IPv4 address they ask about. *)
Definition answers (linkIndex : Z) (message : NetlinkMessage) : option (list byte) :=
  match msg_Neigh message with
  | inl n =>
      if bool_decide (neigh_LinkIndex n = linkIndex /\ (msg_Type message = RTM_GETNEIGH \/ msg_Type message = RTM_NEWNEIGH)
           /\ Z.land (neigh_State n) NUD_REACHABLE = 0 /\ neigh_HardwareAddr n = None)
      then To4 (neigh_IP n) else None
  | inr _ => None
  end.

Lemma monitor_message_eq linkIndex message w :
  monitor_message linkIndex message w
  = match answers linkIndex message with
    | Some ip4 =>
        let n := MkNeigh linkIndex 0 NUD_REACHABLE RTN_UNICAST 0 (Some ip4)
                   (Some (x00 :: x53 :: take 3 ip4 ++ [x00])) in
        let '(e, k) := exec (NeighSet n) (kern w) in
        (Ret tt, after w (sched w) [(NeighSet n, e)] k)
    | None => (Ret tt, w)
    end.
Proof.
  unfold monitor_message, answers. destruct (msg_Neigh message) as [n|e]; [|done].
  destruct (Z.eqb_spec (neigh_LinkIndex n) linkIndex) as [Hi|Hi]; cbn [negb];
    [|rewrite bool_decide_eq_false_2; [done|tauto]].
  destruct (_ || _) eqn:Ht; cbn [negb]; cycle 1.
  { apply orb_false_iff in Ht as [?%Z.eqb_neq ?%Z.eqb_neq]. rewrite bool_decide_eq_false_2; [done|tauto]. }
  destruct (Z.eqb_spec (Z.land (neigh_State n) NUD_REACHABLE) 0) as [Hs|Hs]; cbn [negb];
    [|rewrite bool_decide_eq_false_2; [done|tauto]].
  destruct (neigh_HardwareAddr n) as [hw|] eqn:Hhw.
  { rewrite (bool_decide_eq_true_2 (_ ≠ _)) by done.
    rewrite (bool_decide_eq_false_2 (_ /\ _)) by (by intros (_ & _ & _ & ?)). done. }
  rewrite (bool_decide_eq_false_2 (_ ≠ _)) by (intros Hn; by destruct Hn). cbn [orb].
  rewrite (bool_decide_eq_true_2 (_ /\ _)).
  2: { split_and!; [done| |done|done]. apply orb_true_iff in Ht as [?%Z.eqb_eq|?%Z.eqb_eq]; auto. }
  case_bool_decide as Hip; [by rewrite Hip|].
  destruct (To4 (neigh_IP n)) as [p|] eqn:Hp; [|done]. pose proof (To4_Some _ _ Hp).
  destruct p as [|a [|b [|c [|d [|? ?]]]]]; try done.
  assert (mapToMAC (IPv4 a b c x00) = Some (Some [x00; x53; a; b; c; x00])) as -> by reflexivity.
  rewrite bind_must, bind_run. unfold try, call, after. cbn [take app].
  by destruct (exec _ (kern w)) as [[x|] k].
Qed.

(** The monitor never stops and never fails on a message: it answers exactly the requests for
    an IPv4 neighbour of its own link that has no hardware address yet, with one [NeighSet] for
    that address, and leaves every other message alone. *)
Theorem monitor_answers_requests linkIndex messages w :
  exists log k, each (monitor_message linkIndex) messages w = (Ret tt, after w (sched w) log k) /\
    log.*1 = omap (fun m => ip4 ← answers linkIndex m;
                     Some (NeighSet (MkNeigh linkIndex 0 NUD_REACHABLE RTN_UNICAST 0 (Some ip4)
                                       (Some (x00 :: x53 :: take 3 ip4 ++ [x00]))))) messages.
Proof.
  revert w. induction messages as [|m l IH]; intros w.
  { exists [], (kern w). unfold after. rewrite app_nil_r. by destruct w. }
  cbn [each]. rewrite bind_run, monitor_message_eq. cbn.
  destruct (answers linkIndex m) as [ip4|]; simpl; [|apply IH].
  set (n := MkNeigh _ _ _ _ _ _ _). destruct (exec (NeighSet n) (kern w)) as [e k].
  destruct (IH (after w (sched w) [(NeighSet n, e)] k)) as (log & k' & Hr & Hlog).
  rewrite Hr. exists ((NeighSet n, e) :: log), k'. split; [by world|]. cbn. by rewrite Hlog.
Qed.
End Monitor.

Lemma mapToMAC_of_24 cidr ip4 :
  length ip4 = 4%nat -> IP_Mask (Some ip4) (CIDRMask 24 32) = net_IP cidr ->
  mapToMAC (net_IP cidr) = Some (Some (x00 :: x53 :: take 3 ip4 ++ [x00])).
Proof.
  intros Hl <-. destruct ip4 as [|a [|b [|c [|d [|? ?]]]]]; try done. cbn [take app].
  assert (IP_Mask (Some [a; b; c; d]) (CIDRMask 24 32) = Some [a; b; c; x00]) as ->; [|done].
  change (CIDRMask 24 32) with (Some [xff; xff; xff; x00] : IPMask).
  assert (forall x, byte_and x xff = x) as Hff by (intros x; by destruct x).
  assert (byte_and d x00 = x00) as H0 by (by destruct d).
  change (Some [byte_and a xff; byte_and b xff; byte_and c xff; byte_and d x00] = Some [a; b; c; x00]).
  by rewrite !Hff, H0.
Qed.

(** The address the monitor answers with is the hardware address under which the provider
    enters the node of the pod into the forwarding table, for every pod of a node whose pod CIDR
    is an IPv4 /24; for a longer mask the two differ. *)
Theorem monitor_agrees_with_fdb cidr ip4 :
  length ip4 = 4%nat -> IP_Mask (Some ip4) (CIDRMask 24 32) = net_IP cidr ->
  mapToMAC (net_IP cidr) = Some (Some (x00 :: x53 :: take 3 ip4 ++ [x00])).
Proof. apply mapToMAC_of_24. Qed.

(** The node of a pod on a /25: the hardware address of its pod CIDR is not what the monitor
    answers with. *)
Lemma monitor_disagrees_on_25 :
  let ip := [x64; x60; x01; x81] in
  exists cidr, IP_Mask (Some ip) (CIDRMask 25 32) = net_IP cidr /\
    mapToMAC (net_IP cidr) ≠ Some (Some (x00 :: x53 :: take 3 ip ++ [x00])).
Proof. exists (net4 100 96 1 128 25). split; [vm_compute; reflexivity|vm_compute; discriminate]. Qed.

(** ** A monitor that is lost *)

Section Lost.
Context {K : Type} `{Kernel K} `{NetlinkConsts}.
Implicit Types (w : World K VxlanRoutingProvider).

(** Runs of the work of [EnsureCIDRs] on any snapshots, one after the other. *)
Fixpoint vxlan_runs (snapshots : list (NodeInfo * list NodeInfo)) w : World K VxlanRoutingProvider :=
  match snapshots with
  | [] => w
  | (me, allNodes) :: rest => vxlan_runs rest (vxlan_apply me allNodes w).2
  end.

Lemma vxlan_apply_linked me allNodes w l :
  vx_link (prov w) = Some l ->
  vx_link (prov (vxlan_apply me allNodes w).2) = Some l /\
  vx_monitor (prov (vxlan_apply me allNodes w).2) = vx_monitor (prov w).
Proof.
  intros Hl.
  assert (keeps (fun p : VxlanRoutingProvider => p) (vxlan_tables l me allNodes)) as Hk
    by (unfold vxlan_tables; keeps_steps).
  unfold vxlan_apply. destruct (PodCIDR me); [|done]. destruct (Address me); [|done].
  rewrite bind_run. unfold vxlan_link. rewrite bind_run. unfold get_prov. cbv beta iota. rewrite Hl.
  unfold mret, M_ret. cbv beta iota. by destruct (Hk w) as [-> _].
Qed.

(** The provider notes the device before the monitor runs, and only starts a monitor when it
    has no device: when writing the sysctl fails after the device was made, the run ends with an
    error, and no later run, even one that succeeds, starts the monitor. *)
Theorem monitor_lost_after_failed_start me cidr w link w1 e k snapshots :
  vx_link (prov w) = None -> vx_monitor (prov w) = None ->
  Vxlan_EnsureLink me cidr w = (Ret link, w1) ->
  (exists a b c d f, Kind link = Vxlan a b c d f) ->
  exec (WriteFile ("/proc/sys/net/ipv4/neigh/" +:+ link_Name (Attrs link) +:+ "/app_solicit") "3" 438) (kern w1)
  = (Some e, k) ->
  exists w2, vxlan_link me cidr w
             = (Err (Errorf "error writing setting sysctl for ARP events: %v" e), w2) /\
    vx_monitor (prov (vxlan_runs snapshots w2)) = None.
Proof.
  intros Hl Hm He (a & b & c & d & f & Hkind) Hx. unfold vxlan_link. rewrite bind_run. unfold get_prov. cbv beta iota.
  rewrite Hl, bind_run, He, Hkind, bind_run. unfold modify_prov at 1. cbv beta iota. rewrite bind_run.
  unfold listenArp, wrap at 1, call at 1. cbn [kern]. rewrite Hx. eexists. split; [reflexivity|].
  assert (vx_monitor (prov w1) = None) as Hm1.
  { pose proof (Vxlan_EnsureLink_keeps vx_monitor me cidr w) as Hk. rewrite He in Hk. destruct Hk as [Hk _]. exact (eq_trans Hk Hm). }
  set (w2 := MkWorld k _ _ _).
  assert (vx_link (prov w2) = Some link /\ vx_monitor (prov w2) = None) as Hw2 by done.
  revert Hw2. generalize w2. clear - H H0. induction snapshots as [|[me' all] l IH]; intros w [Hl Hm]; [done|].
  simpl. apply IH. destruct (vxlan_apply_linked me' all w link Hl) as [-> ->]. done.
Qed.
End Lost.

Section Witnesses.
#[local] Existing Instance netlink_v1_1_0.

Lemma monitor_agrees_with_fdb_witness :
  mapToMAC (ip4 100 96 2 0) = Some (Some [x00; x53; x64; x60; x02; x00]).
Proof.
  exact (monitor_agrees_with_fdb (net4 100 96 2 0 24) [x64; x60; x02; x07] eq_refl ltac:(vm_compute; reflexivity)).
Defined.

(** A kernel in which files cannot be written. *)
Definition read_only : Kernel Sim := {|
  exec a k := match a with WriteFile _ _ _ => (Some (Errno 30), k) | _ => sim_exec a k end;
  k_LinkAdd := k_LinkAdd; k_LinkByName := k_LinkByName; k_LinkList := k_LinkList; k_AddrList := k_AddrList;
  k_NeighList := k_NeighList; k_RouteList := k_RouteList; k_XfrmStateList := k_XfrmStateList;
  k_XfrmPolicyList := k_XfrmPolicyList; k_ReadFile := k_ReadFile; k_Socket := k_Socket
|}.

Lemma monitor_lost_after_failed_start_witness :
  let w := sim_world sim_empty (MkVxlanLegacy (Some (net4 100 96 0 0 11)) None 1 0 4789 1400 None 0) in
  exists e w2, vxlan_link (H := read_only) (ip4 172 20 0 1) (net4 100 96 1 0 24) w = (Err e, w2) /\
    vx_monitor (prov (vxlan_runs (H := read_only) [(info_me, [info_me; info_other])] w2)) = None.
Proof.
  intros w.
  destruct (Vxlan_EnsureLink (H := read_only) (ip4 172 20 0 1) (net4 100 96 1 0 24) w) as [[link|e|] w1] eqn:He;
    [|vm_compute in He; discriminate He|vm_compute in He; discriminate He].
  destruct (monitor_lost_after_failed_start (H := read_only) (ip4 172 20 0 1) (net4 100 96 1 0 24) w link w1
              (Errno 30) (kern w1) [(info_me, [info_me; info_other])]) as (w2 & Hr & Hm).
  - reflexivity.
  - reflexivity.
  - exact He.
  - vm_compute in He. injection He as <- <-. eexists _, _, _, _, _. reflexivity.
  - reflexivity.
  - exists (Errorf "error writing setting sysctl for ARP events: %v" (Errno 30)), w2. split; [exact Hr|exact Hm].
Defined.
End Witnesses.
