(* ===== verification/Delivery.v ===== *)
(** * What a provider delivers

    [Provider] says when an implementation has applied a version of the node map; [Delivery] adds
    what that is worth: after a run that returned nil the pods of every other node are reached the
    way of that provider. It does not say when a run succeeds: whatever the kernel refuses, a nil
    error means that everything is there - within the conditions each provider puts on the nodes
    and on what it found, which the class keeps apart as [deliverable]. The layer2, gre and the
    two vxlan providers are instances. *)

From S2P Require Import Prelude GoNet GoNetFacts K8s Nodes NodesFacts NodeMapSpec Netlink Effects.
From S2P Require Import Tables Reconcile Netutil RouteTable NeighTable Links KernelLaws Sim.
From S2P Require Import RouteFacts NeighFacts LinkFacts Provider Layer2 Gre Vxlan2 VxlanLegacy.

(** ** Calls that leave the network alone

    The controller also writes the CNI configuration, tells the API server and sleeps. *)

Definition aside (a : action) : bool :=
  match a with
  | WriteFile _ _ _ | PatchNodeCondition _ _ _ _ _ | Sleep _ => true
  | _ => false
  end.

Class Untouched {K A : Type} `{Kernel K} (part : K -> list A) := {
  aside_part : forall a k, aside a = true -> part (exec a k).2 ≡ₚ part k;
  ReadFile_part : forall path k, part (k_ReadFile path k).2 ≡ₚ part k
}.

Section Undisturbed.
Context {K : Type} `{Kernel K}.

Definition undisturbed (Q : K -> Prop) : Prop :=
  (forall a k, aside a = true -> Q k -> Q (exec a k).2) /\ (forall path k, Q k -> Q (k_ReadFile path k).2).

Lemma untouched_member {A} (part : K -> list A) `{!Untouched part} (R : A -> Prop) :
  undisturbed (fun k => exists y, y ∈ part k /\ R y).
Proof.
  split.
  - intros a k Ha (y & Hy & HR). exists y. by rewrite aside_part.
  - intros path k (y & Hy & HR). exists y. by rewrite ReadFile_part.
Qed.

Lemma untouched_empty {A} (part : K -> list A) `{!Untouched part} : undisturbed (fun k => part k = []).
Proof.
  split; [intros a k Ha Hk|intros path k Hk]; apply Permutation.Permutation_nil; symmetry.
  - by rewrite aside_part, Hk.
  - by rewrite ReadFile_part, Hk.
Qed.

Lemma undisturbed_and (Q1 Q2 : K -> Prop) :
  undisturbed Q1 -> undisturbed Q2 -> undisturbed (fun k => Q1 k /\ Q2 k).
Proof. intros [Ha1 Hr1] [Ha2 Hr2]. split; intros ??; naive_solver. Qed.

Lemma undisturbed_const (Q : Prop) : undisturbed (fun _ => Q).
Proof. by split. Qed.

(** What does not depend on the rest of the kernel either way. *)
Definition unaffected (Q : K -> Prop) : Prop :=
  (forall a k, aside a = true -> Q (exec a k).2 <-> Q k) /\ (forall path k, Q (k_ReadFile path k).2 <-> Q k).

Lemma unaffected_undisturbed (Q : K -> Prop) : unaffected Q -> undisturbed Q.
Proof. intros [Ha Hr]. split; intros; [by apply Ha|by apply Hr]. Qed.

Lemma unaffected_const (Q : Prop) : unaffected (fun _ => Q).
Proof. by split. Qed.

Lemma unaffected_and (Q1 Q2 : K -> Prop) : unaffected Q1 -> unaffected Q2 -> unaffected (fun k => Q1 k /\ Q2 k).
Proof. intros [Ha1 Hr1] [Ha2 Hr2]. split; [intros a k Ha; by rewrite Ha1, Ha2|intros path k; by rewrite Hr1, Hr2]. Qed.

Lemma untouched_all {A} (part : K -> list A) `{!Untouched part} (R : A -> Prop) :
  unaffected (fun k => forall y, y ∈ part k -> R y).
Proof.
  split.
  - intros a k Ha. setoid_rewrite (aside_part a k Ha). done.
  - intros path k. by setoid_rewrite (ReadFile_part path k).
Qed.

Lemma undisturbed_ex {X} (Q : X -> K -> Prop) :
  (forall x, undisturbed (Q x)) -> undisturbed (fun k => exists x, Q x k).
Proof.
  intros Hx. split.
  - intros a k Ha [x HQ]. exists x. by apply (Hx x).
  - intros path k [x HQ]. exists x. by apply (Hx x).
Qed.
End Undisturbed.

#[export] Hint Resolve undisturbed_and undisturbed_const untouched_member : net.

(** ** The class *)

(** What the providers take for the local node. *)
Definition local_node (nm : NodeMap) : NodeInfo := default zero_NodeInfo (me_info nm).

Class Delivery (K P : Type) `{Kernel K} `{!Provider K P} := {
  (** The pods of [cidr] are reached from the local node through the node at [address]. *)
  delivered : P -> K -> NodeInfo -> IP -> IPNet -> Prop;
  (** What the provider needs of the local node, the nodes of the map, its own state and the kernel:
      the nodes it cannot tell apart or serve at all, and what it never repairs. *)
  deliverable : P -> K -> NodeInfo -> gmap string NodeInfo -> Prop;
  EnsureCIDRs_delivers : forall nm0 nm w w',
    EnsureCIDRs nm0 nm w = (Ret tt, w') ->
    (lastVersionApplied (prov w) = 0 \/ IsVersion nm0 (lastVersionApplied (prov w)) = false) ->
    NodeMap_wf nm -> deliverable (prov w') (kern w') (local_node nm) (view nm) ->
    forall name n address cidr, view nm !! name = Some n ->
      usable_remote (local_node nm) n = Some (address, cidr) ->
      delivered (prov w') (kern w') (local_node nm) address cidr;
  delivered_undisturbed : forall p me address cidr, undisturbed (fun k => delivered p k me address cidr);
  deliverable_unaffected : forall p me v, unaffected (fun k => deliverable p k me v)
}.

Section Frame.
Context {K P : Type} `{Kernel K} (last : P -> Z) (set_last : Z -> P -> P).
Context (body : NodeInfo -> list NodeInfo -> M K P unit).

(** The run of the body behind a run of [EnsureCIDRs] that succeeded. *)
Lemma ensure_version_success nm0 nm (w w' : World K P) :
  ensure_version last set_last body nm0 nm w = (Ret tt, w') ->
  (last (prov w) = 0 \/ IsVersion nm0 (last (prov w)) = false) ->
  IsReady nm = true /\
  exists w0 w1, prov w0 = prov w /\
    body (local_node nm) (snapshot_list (sched w 0%nat) nm) w0 = (Ret tt, w1) /\
    kern w' = kern w1 /\ prov w' = set_last (version nm) (prov w1).
Proof.
  intros Hr Hl. destruct (IsReady nm) eqn:Hready; cycle 1.
  { by rewrite (ensure_version_unready last set_last body nm0 nm w Hl Hready) in Hr. }
  split; [done|]. rewrite (ensure_version_work last set_last body nm0 nm w Hl Hready) in Hr. cbv zeta in Hr.
  assert (match me nm with Some l => deref (heap nm) l | None => zero_NodeInfo end = local_node nm) as Hme
    by (unfold local_node, me_info; by destruct (me nm)).
  rewrite Hme in Hr. fold (snapshot_list (sched w 0%nat) nm) in Hr.
  set (w0 := after _ _ _ _) in Hr.
  destruct (body _ _ w0) as [[[]|e|] w1] eqn:Hb; [|done..]. injection Hr as <-. by exists w0, w1.
Qed.
End Frame.

Lemma snapshot_member nm o name n : NodeMap_wf nm -> view nm !! name = Some n -> n ∈ snapshot_list o nm.
Proof.
  intros Hwf Hview. apply (snapshot_nodes nm o Hwf). assert (Name n = name) as ->; [|done].
  unfold view in Hview. rewrite lookup_fmap in Hview.
  apply fmap_Some in Hview as (l & Hl & ->). destruct (wf_node _ Hwf _ _ Hl) as (n' & Hn' & Hnm).
  unfold deref. by rewrite Hn'.
Qed.

(** Texts of the nodes of a snapshot that no two of them share. *)
Lemma snapshot_NoDup_texts nm o (f : NodeInfo -> list string) :
  NodeMap_wf nm ->
  (forall x y n m, view nm !! x = Some n -> view nm !! y = Some m -> n ≠ m -> f n ## f m) ->
  (forall x, (exists y, view nm !! y = Some x) -> NoDup (f x)) -> NoDup (snapshot_list o nm ≫= f).
Proof.
  intros Hwf Hf Hone. destruct (snapshot_nodes nm o Hwf) as [Hin Hnd].
  assert (forall n, n ∈ snapshot_list o nm -> exists x, view nm !! x = Some n) as Hview by (intros n; rewrite Hin; eauto).
  apply NoDup_bind; [| |by eapply NoDup_fmap_1].
  - intros n m s [x Hx]%Hview [y Hy]%Hview Hsn Hsm. destruct (decide (n = m)) as [|Hne]; [done|].
    by destruct (Hf x y n m Hx Hy Hne s Hsn Hsm).
  - intros n Hn%Hview. by apply Hone.
Qed.

Lemma NoDup_single_route r : NoDup (omap route_key [r]).
Proof. cbn. destruct (route_key r); [apply NoDup_singleton|by apply NoDup_nil]. Qed.

(** ** The layer2 provider *)

Section Layer2.
Context {K : Type} `{Kernel K} `{NetlinkConsts} `{!RouteLaws K} `{!Untouched (entries route_table)}.

(** A route to the pods through the node. *)
Definition layer2_delivered (p : Layer2RoutingProvider) (k : K) (_ : NodeInfo) (address : IP) (cidr : IPNet) : Prop :=
  exists y, y ∈ entries route_table k /\
    held route_key routeEqual
      (new_Route (link_Index (Attrs (l2_underlyingLink p))) (Some cidr) address RTPROT_BOOT RT_TABLE_MAIN RTN_UNICAST) y.

Lemma layer2_apply_success me allNodes (w w' : World K Layer2RoutingProvider) :
  layer2_apply me allNodes w = (Ret tt, w') ->
  prov w' = prov w /\
  routes_held (layer2_routes (link_Index (Attrs (l2_underlyingLink (prov w)))) me allNodes) (kern w').
Proof.
  unfold layer2_apply. rewrite bind_run. unfold get_prov. cbv beta iota. intros Hr%wrap_Ret_inv.
  by destruct (RouteTable_Ensure_adds_success _ _ _ _ Hr) as (? & _ & ? & _).
Qed.

#[export] Instance Layer2_Delivery : Delivery K Layer2RoutingProvider.
Proof.
  refine {| delivered := layer2_delivered; deliverable := fun _ _ _ _ => True |}.
  - intros nm0 nm w w' Hr Hl Hwf _ name n a cidr Hn Hu.
    destruct (ensure_version_success _ _ _ _ _ _ _ Hr Hl) as (_ & w0 & w1 & Hp0 & Hb & -> & ->).
    destruct (layer2_apply_success _ _ _ _ Hb) as [Hp1 Hheld]. rewrite Hp0 in Hp1, Hheld.
    unfold layer2_delivered. rewrite Hp1. cbn [l2_underlyingLink l2_set_last]. apply Hheld.
    apply usable_remote_Some in Hu as (Hne & [x ->] & Ha & Hc). apply elem_of_layer2_routes.
    exists n, x, cidr. split_and!; try done. by eapply snapshot_member.
  - intros p me a cidr. unfold layer2_delivered. auto with net.
  - intros p me v. apply unaffected_const.
Defined.
End Layer2.

(** ** The gre provider *)

Section Gre.
Context {K : Type} `{Kernel K} `{NetlinkConsts} `{!RouteLaws K} `{!LinkLaws K} `{!LinkRouteFrame K}.
Context `{!Untouched (entries route_table)} `{!Untouched links}.

(** The link is the tunnel from the local node to the node at the address. *)
Definition gre_endpoints (me : NodeInfo) (address : IP) (t : Link) : Prop :=
  match Kind t with
  | Gretun local remote ttl => IP_Equal local (Address me) = true /\ IP_Equal remote address = true /\ ttl = tunnelTTL
  | _ => False
  end.

(** A tunnel to the node, and a route to the pods through it. *)
Definition gre_delivered (_ : GreRoutingProvider) (k : K) (me : NodeInfo) (address : IP) (cidr : IPNet) : Prop :=
  exists i,
    (exists t, t ∈ links k /\
       (link_name t = buildTunnelName (net_IP cidr) /\ link_Index (Attrs t) = i /\ gre_endpoints me address t)) /\
    (exists y, y ∈ entries route_table k /\
       held route_key routeEqual (new_Route i (Some cidr) None RTPROT_BOOT RT_TABLE_MAIN RTN_UNICAST) y).

(** Other nodes get no tunnel. *)
Definition remotes_ipv4 (me : NodeInfo) (v : gmap string NodeInfo) : Prop :=
  forall name n a cidr, v !! name = Some n -> usable_remote me n = Some (a, cidr) -> To4 (net_IP cidr) ≠ None.

(** No link has the name of a node's tunnel and other endpoints, as one from before the node
    changed its address would: the provider keeps a link that has the name, whatever its endpoints. *)
Definition tunnels_current (k : K) (me : NodeInfo) (v : gmap string NodeInfo) : Prop :=
  forall t, t ∈ links k -> forall name n a cidr, v !! name = Some n -> usable_remote me n = Some (a, cidr) ->
    link_name t = buildTunnelName (net_IP cidr) -> gre_endpoints me a t.

Lemma gre_links_up_identities tunnels (w : World K GreRoutingProvider) :
  link_identity <$> links (kern (gre_links_up tunnels w).2) ≡ₚ link_identity <$> links (kern w).
Proof.
  assert (quiet (P := GreRoutingProvider) (fun k => link_identity <$> links k ≡ₚ link_identity <$> links (kern w))
            (gre_links_up tunnels)) as Hq; [|by apply Hq].
  unfold gre_links_up. quiet_steps. intros k Hk. by rewrite LinkSetUp_links.
Qed.

Lemma gre_apply_success me allNodes (w w' : World K GreRoutingProvider) :
  gre_apply me allNodes w = (Ret tt, w') ->
  exists m routes, gre_routes m me allNodes = Some routes /\ routes_held routes (kern w') /\
    (forall n, n ∈ (link_name <$> gre_tunnels me allNodes) -> is_Some (m !! n)) /\
    (forall n x, m !! n = Some x -> exists t, t ∈ links (kern w') /\ link_name t = n /\
       link_Index (Attrs t) = link_Index (Attrs x)).
Proof.
  unfold gre_apply. intros (m & w1 & Hl%wrap_Ret_inv & Hr)%bind_Ret_inv.
  destruct (Links_Ensure_success _ _ _ _ _ Hl) as [Hholds Hnames].
  rewrite bind_order in Hr. apply bind_Ret_inv in Hr as ([] & w2 & Hup & Hr).
  destruct (gre_routes m me allNodes) as [routes|] eqn:Hro; [|done]. apply wrap_Ret_inv in Hr.
  destruct (RouteTable_Ensure_adds_success _ _ _ _ Hr) as (Hheld & Ho & _).
  exists m, routes. split_and!; [done..|]. intros n x Hx. destruct (Hholds n x Hx) as [Hin Hn].
  pose proof (gre_links_up_identities (range (sched w1 0%nat) m) (after w1 (fun n => sched w1 (S n)) [] (kern w1))) as Hids.
  rewrite Hup, kern_after in Hids. simpl in Hids.
  assert (link_identity x ∈ link_identity <$> links (kern w2)) as (t & Heq & Ht)%list_elem_of_fmap.
  { rewrite Hids. by apply list_elem_of_fmap_2. }
  unfold link_identity in Heq. injection Heq as Hname Hidx _. exists t.
  rewrite (routes_links _ _ Ho). split_and!; [done|congruence|done].
Qed.

(** Tunnels that were current before a run are so after it; so the condition on them fails only for
    a link that had the name, and other endpoints, when the provider looked at the map first. *)
Lemma gre_apply_tunnels me allNodes v (w w' : World K GreRoutingProvider) :
  gre_apply me allNodes w = (Ret tt, w') ->
  (forall n, n ∈ allNodes -> exists x, v !! x = Some n) ->
  (forall x y n m a b c d, v !! x = Some n -> v !! y = Some m -> usable_remote me n = Some (a, c) ->
     usable_remote me m = Some (b, d) -> buildTunnelName (net_IP c) = buildTunnelName (net_IP d) -> n = m) ->
  tunnels_current (kern w) me v -> tunnels_current (kern w') me v.
Proof.
  unfold gre_apply. intros (m & w1 & Hl%wrap_Ret_inv & Hr)%bind_Ret_inv Hview Hapart Hcur.
  rewrite bind_order in Hr. apply bind_Ret_inv in Hr as ([] & w2 & Hup & Hr).
  destruct (gre_routes m me allNodes) as [routes|] eqn:Hro; [|done]. apply wrap_Ret_inv in Hr.
  destruct (RouteTable_Ensure_adds_success _ _ _ _ Hr) as (_ & Ho & _).
  pose proof (gre_links_up_identities (range (sched w1 0%nat) m) (after w1 (fun n => sched w1 (S n)) [] (kern w1))) as Hids.
  rewrite Hup, kern_after in Hids. simpl in Hids. intros t Ht name n a cidr Hn Hu Hname.
  rewrite (routes_links _ _ Ho) in Ht.
  assert (link_identity t ∈ link_identity <$> links (kern w1)) as (t1 & Hid & Ht1)%list_elem_of_fmap.
  { rewrite <- Hids. by apply list_elem_of_fmap_2. }
  unfold link_identity in Hid. injection Hid as Hn1 _ Hk1. unfold gre_endpoints. rewrite Hk1.
  destruct (Links_Ensure_from _ _ _ _ _ t1 Hl Ht1) as [Hold|(e & He & Hmn & Hmk)].
  - apply (Hcur t1 Hold name n a cidr Hn Hu). congruence.
  - unfold gre_tunnels in He. apply list_elem_of_omap in He as (x & Hx & Hg).
    destruct (gre_remote me x) as [[[b nm] tn]|] eqn:Hgr; [|done]. injection Hg as <-.
    apply gre_remote_Some in Hgr as (Hux & -> & _). destruct (Hview x Hx) as [y Hy].
    assert (x = n) as -> by (eapply (Hapart y name x n); try done; rewrite <- Hname, Hn1, Hmn; done).
    assert (b = a) as -> by congruence. rewrite Hmk. simpl. split_and!; [apply IP_Equal_refl..|done].
Qed.

#[export] Instance Gre_Delivery : Delivery K GreRoutingProvider.
Proof.
  refine {| delivered := gre_delivered; deliverable := fun _ k me v => remotes_ipv4 me v /\ tunnels_current k me v |}.
  - intros nm0 nm w w' Hr Hl Hwf [Hv4 Hcur] name n a cidr Hn Hu.
    destruct (ensure_version_success _ _ _ _ _ _ _ Hr Hl) as (_ & w0 & w1 & _ & Hb & Hk & ->). rewrite Hk in *.
    destruct (gre_apply_success _ _ _ _ Hb) as (m & routes & Hro & Hheld & Hnames & Hholds).
    pose proof (snapshot_member nm (sched w 0%nat) name n Hwf Hn) as Hin.
    destruct (gre_routes_Some m _ _ Hnames) as (routes' & Hro' & Hmem).
    assert (routes' = routes) as -> by congruence.
    pose proof (Hv4 name n a cidr Hn Hu) as H4.
    assert (gre_remote (local_node nm) n = Some (a, cidr, buildTunnelName (net_IP cidr))) as Hg.
    { apply gre_remote_Some. split_and!; [done..|]. rewrite buildTunnelName_eq.
      destruct (To4 (net_IP cidr)) as [q|] eqn:Hq; [|done]. pose proof (Gre.To4_Some _ _ Hq) as Hlen.
      by destruct q as [|x [|y [|z [|t [|? ?]]]]]. }
    destruct (Hnames (buildTunnelName (net_IP cidr))) as [x Hx]; [apply gre_tunnel_names; eauto|].
    destruct (Hholds _ _ Hx) as (t & Ht & Hname & Hidx).
    exists (link_Index (Attrs x)). split; [exists t; split_and!; try done; by eapply Hcur|]. apply Hheld, Hmem. eauto 10.
  - intros p me a cidr. unfold gre_delivered. apply undisturbed_ex. intros i. auto with net.
  - intros p me v. apply unaffected_and; [apply unaffected_const|]. apply untouched_all, _.
Defined.
End Gre.

(** ** The vxlan provider *)

Section Vxlan2.
Context {K : Type} `{Kernel K} `{NetlinkConsts} `{!RouteLaws K} `{!NeighLaws K} `{!NeighRouteFrame K}.
Context `{!Untouched (entries route_table)} `{!Untouched neighs}.

(** The texts under which the entries of a node are filed in the two tables. *)
Definition remote_ips (me n : NodeInfo) : list string :=
  match usable_remote me n with
  | Some (address, cidr) => [IP_String (net_IP cidr); IP_String address]
  | None => []
  end.

Definition remote_nets (me n : NodeInfo) : list string :=
  match usable_remote me n with
  | Some (_, cidr) => [IPNet_String cidr]
  | None => []
  end.

(** No address or network is used twice. *)
Definition remotes_apart (me : NodeInfo) (v : gmap string NodeInfo) : Prop :=
  (forall x n, v !! x = Some n -> NoDup (remote_ips me n)) /\
  forall x y n m, v !! x = Some n -> v !! y = Some m -> n ≠ m ->
    remote_ips me n ## remote_ips me m /\ remote_nets me n ## remote_nets me m.

Lemma vxlan2_remotes_keys i me allNodes : forall ns rs,
  vxlan2_remotes i me allNodes = Some (ns, rs) ->
  omap neigh_key ns = allNodes ≫= remote_ips me /\ omap route_key rs = allNodes ≫= remote_nets me.
Proof.
  induction allNodes as [|n l IH]; intros ns rs; cbn [vxlan2_remotes mbind list_bind]; [by intros [= <- <-]|].
  unfold remote_ips at 1, remote_nets at 1. destruct (usable_remote me n) as [[a cidr]|] eqn:Hu; [|apply IH].
  destruct (mapToMAC (net_IP cidr)) as [mac|] eqn:Hm; [|done]. simpl.
  destruct (vxlan2_remotes i me l) as [[ns' rs']|]; [|done]. simpl. intros [= <- <-].
  destruct (IH ns' rs' eq_refl) as [IHn IHr]. apply usable_remote_Some in Hu as (_ & [x ->] & _ & _).
  assert (is_Some (net_IP cidr)) as [z Hz].
  { apply not_eq_None_Some. intros Hz. by rewrite Hz in Hm. }
  cbn. unfold neigh_key at 1. cbn. rewrite Hz. cbn. by rewrite IHn, IHr.
Qed.

Lemma remotes_apart_keys me nm o i ns rs :
  NodeMap_wf nm -> remotes_apart me (view nm) -> vxlan2_remotes i me (snapshot_list o nm) = Some (ns, rs) ->
  NoDup (omap neigh_key ns) /\ NoDup (omap route_key rs).
Proof.
  intros Hwf [Hone Htwo] Hrem. destruct (vxlan2_remotes_keys _ _ _ _ _ Hrem) as [-> ->].
  split; apply snapshot_NoDup_texts; try done.
  - intros x y n m Hx Hy Hne. by apply (Htwo x y).
  - intros n [x Hx]. by apply (Hone x).
  - intros x y n m Hx Hy Hne. by apply (Htwo x y).
  - intros n _. unfold remote_nets. destruct (usable_remote me n) as [[]|]; [apply NoDup_singleton|by apply NoDup_nil].
Qed.

(** The neighbour, the forwarding entry and the route of a node, on the provider's device. *)
Definition vxlan2_delivered (p : Vxlan2RoutingProvider) (k : K) (_ : NodeInfo) (address : IP) (cidr : IPNet) : Prop :=
  exists l mac, (v2_link p = Some l /\ mapToMAC (net_IP cidr) = Some mac) /\
    (exists y, y ∈ neighs k /\ neigh_held (vxlan2_arp (link_Index (Attrs l)) cidr mac) y) /\
    (exists y, y ∈ neighs k /\ neigh_held (vxlan_fdb (link_Index (Attrs l)) address mac) y) /\
    (exists y, y ∈ entries route_table k /\
       held route_key routeEqual (vxlan2_route (link_Index (Attrs l)) cidr) y).

Lemma vxlan2_link_success me cidr (w w' : World K Vxlan2RoutingProvider) l :
  vxlan2_link me cidr w = (Ret l, w') -> v2_link (prov w') = Some l.
Proof.
  unfold vxlan2_link. rewrite bind_run. unfold get_prov. cbv beta iota.
  destruct (v2_link (prov w)) as [l'|] eqn:Hl; [by intros [= <- <-]|]. rewrite bind_run.
  destruct (Vxlan2_EnsureLink me cidr w) as [[l'|e|] w1]; [|done..].
  destruct (Kind l'); try done. rewrite bind_run. by intros [= <- <-].
Qed.

Lemma vxlan2_apply_success me allNodes (w w' : World K Vxlan2RoutingProvider) :
  vxlan2_apply me allNodes w = (Ret tt, w') ->
  exists l ns rs, v2_link (prov w') = Some l /\
    vxlan2_remotes (link_Index (Attrs l)) me allNodes = Some (ns, rs) /\
    (NoDup (omap neigh_key ns) -> NoDup (omap route_key rs) -> routes_held rs (kern w') /\
     forall i e, index_by neigh_key ns !! i = Some e ->
       exists y, y ∈ neighs (kern w') /\ neigh_held e y).
Proof.
  unfold vxlan2_apply. destruct (PodCIDR me) as [cidr|]; [|done]. destruct (Address me) as [a|]; [|done].
  intros (l & w1 & Hlink & Hr)%bind_Ret_inv. apply vxlan2_link_success in Hlink.
  apply bind_Ret_inv in Hr as ([ns rs] & w2 & Hm & Hr).
  destruct (vxlan2_remotes _ me allNodes) as [[ns' rs']|] eqn:Hrem; [|done]. injection Hm as -> -> ->.
  apply bind_Ret_inv in Hr as ([] & w3 & Hn%wrap_Ret_inv & Hr%wrap_Ret_inv).
  assert (prov w3 = prov w2) as Hp3.
  { pose proof (NeighTable_Ensure_keeps (fun p => p) l ns w2) as [Hp _]. by rewrite Hn in Hp. }
  assert (prov w' = prov w3) as Hp.
  { pose proof (RouteTable_Ensure_keeps (fun p => p) (Some l) rs true w3) as [Hp _]. by rewrite Hr in Hp. }
  exists l, ns, rs. split_and!; [by rewrite Hp, Hp3|done|]. intros Hnk Hnd.
  destruct (NeighTable_Ensure_success _ _ _ _ (vxlan2_neigh_goal _ _ _ _ _ Hrem Hnk) Hn) as [_ Hneighs].
  destruct (RouteTable_Ensure_success _ _ _ _ Hnd Hr) as (Hheld & Ho & _). split; [done|].
  intros i e He. destruct (Hneighs i e He) as (y & Hy & Hh). exists y. by rewrite (routes_neighs _ _ Ho).
Qed.

(** What a run asks for is what delivers to the nodes of the map. *)
Lemma vxlan2_held_delivered p l ns rs k nm o name n a cidr :
  v2_link p = Some l -> NodeMap_wf nm ->
  vxlan2_remotes (link_Index (Attrs l)) (local_node nm) (snapshot_list o nm) = Some (ns, rs) ->
  NoDup (omap neigh_key ns) -> routes_held rs k ->
  (forall i e, index_by neigh_key ns !! i = Some e -> exists y, y ∈ neighs k /\ neigh_held e y) ->
  view nm !! name = Some n -> usable_remote (local_node nm) n = Some (a, cidr) -> vxlan2_delivered p k (local_node nm) a cidr.
Proof.
  intros Hlink Hwf Hrem Hnk Hroutes Hneighs Hn Hu. pose proof (snapshot_member nm o name n Hwf Hn) as Hin.
  destruct (vxlan2_remotes_Some (link_Index (Attrs l)) (local_node nm) (snapshot_list o nm))
    as (ns' & rs' & Hrem' & Hall & _).
  { intros x ax cx Hx Hux Hn4. by rewrite (vxlan2_remotes_None _ _ _ _ _ _ Hx Hux Hn4) in Hrem. }
  assert (ns' = ns /\ rs' = rs) as [-> ->] by (split; congruence).
  destruct (Hall n a cidr Hin Hu) as (mac & Hm & Harp & Hfdb & Hroute).
  assert (forall e i, e ∈ ns -> neigh_key e = Some i ->
    exists y, y ∈ neighs k /\ neigh_held e y) as Hkey.
  { intros e i He Hi. apply (Hneighs i e). by apply index_by_unique. }
  apply usable_remote_Some in Hu as (_ & [x ->] & _).
  assert (is_Some (net_IP cidr)) as [z Hz] by (apply not_eq_None_Some; intros Hz; by rewrite Hz in Hm).
  exists l, mac. split_and!; [done|done| | |by apply Hroutes].
  - apply (Hkey _ (IP_String (net_IP cidr)) Harp). unfold neigh_key. simpl. by rewrite Hz.
  - by apply (Hkey _ (IP_String (Some x)) Hfdb).
Qed.

#[export] Instance Vxlan2_Delivery : Delivery K Vxlan2RoutingProvider.
Proof.
  refine {| delivered := vxlan2_delivered; deliverable := fun _ _ => remotes_apart |}.
  - intros nm0 nm w w' Hr Hl Hwf Hap name n a cidr Hn Hu.
    destruct (ensure_version_success _ _ _ _ _ _ _ Hr Hl) as (_ & w0 & w1 & _ & Hb & -> & ->).
    destruct (vxlan2_apply_success _ _ _ _ Hb) as (l & ns & rs & Hlink & Hrem & Hheld).
    destruct (remotes_apart_keys _ _ _ _ _ _ Hwf Hap Hrem) as [Hnk Hrk]. destruct (Hheld Hnk Hrk) as [Hroutes Hneighs].
    by eapply vxlan2_held_delivered.
  - intros p me a cidr. unfold vxlan2_delivered. apply undisturbed_ex. intros l. apply undisturbed_ex. intros mac.
    auto 6 with net.
  - intros p me v. apply unaffected_const.
Defined.
End Vxlan2.

(** ** The older vxlan provider *)

Section VxlanLegacy.
Context {K : Type} `{Kernel K} `{NetlinkConsts} `{!RouteLaws K} `{!NeighLaws K} `{!NeighRouteFrame K}.
Context `{!Untouched (entries route_table)} `{!Untouched neighs}.

Definition remote_addresses (me n : NodeInfo) : list string :=
  match usable_remote me n with
  | Some (address, _) => [IP_String address]
  | None => []
  end.

Definition remote_bases (me n : NodeInfo) : list string :=
  match usable_remote me n with
  | Some (_, cidr) => [IP_String (net_IP cidr)]
  | None => []
  end.

(** No two nodes share an address, and no two pod CIDRs start at the same one. *)
Definition addresses_apart (me : NodeInfo) (v : gmap string NodeInfo) : Prop :=
  forall x y n m, v !! x = Some n -> v !! y = Some m -> n ≠ m ->
    remote_addresses me n ## remote_addresses me m /\ remote_bases me n ## remote_bases me m.

Lemma vxlan_fdbs_spec i me allNodes : forall ns,
  vxlan_fdbs i me allNodes = Some ns ->
  omap neigh_key ns = allNodes ≫= remote_addresses me /\
  (forall n a cidr, n ∈ allNodes -> usable_remote me n = Some (a, cidr) ->
     exists mac, mapToMAC (net_IP cidr) = Some mac /\ vxlan_fdb i a mac ∈ ns) /\
  (forall e, e ∈ ns -> exists n a cidr mac, n ∈ allNodes /\ usable_remote me n = Some (a, cidr) /\
     mapToMAC (net_IP cidr) = Some mac /\ e = vxlan_fdb i a mac).
Proof.
  induction allNodes as [|n l IH]; intros ns; cbn [vxlan_fdbs mbind list_bind].
  { intros [= <-]. split_and!; [done|by intros ? ? ? ?%not_elem_of_nil|by intros ? ?%not_elem_of_nil]. }
  unfold remote_addresses at 1. destruct (usable_remote me n) as [[a cidr]|] eqn:Hu; cycle 1.
  { intros Hl. destruct (IH ns Hl) as (Hk & Hin & Hfrom). split_and!; [done| |].
    - intros n' a' cidr' [->|Hn]%elem_of_cons Hu'; [congruence|]. by apply (Hin n').
    - intros e (x & a' & c & mac & Hx & ?)%Hfrom. exists x, a', c, mac. split; [by right|done]. }
  destruct (mapToMAC (net_IP cidr)) as [mac|] eqn:Hm; [|done]. simpl.
  destruct (vxlan_fdbs i me l) as [ns'|]; [|done]. simpl. intros [= <-]. destruct (IH ns' eq_refl) as (Hk & Hin & Hfrom).
  pose proof Hu as (_ & [x ->] & _ & _)%usable_remote_Some. split_and!; [cbn; by rewrite Hk| |].
  - intros n' a' cidr' [->|Hn]%elem_of_cons Hu'.
    + assert (a' = Some x /\ cidr' = cidr) as [-> ->] by (split; congruence). exists mac. split; [done|by left].
    + destruct (Hin n' a' cidr' Hn Hu') as (mac' & ? & ?). exists mac'. split; [done|by right].
  - intros e [->|(y & a' & c & mac' & Hy & ?)%Hfrom]%elem_of_cons; [exists n, (Some x), cidr, mac; split; [by left|done]|].
    exists y, a', c, mac'. split; [by right|done].
Qed.

(** A hardware address leads to one node. *)
Lemma vxlan_fdbs_apart i me allNodes : forall ns,
  vxlan_fdbs i me allNodes = Some ns -> NoDup (allNodes ≫= remote_bases me) ->
  forall e e', e ∈ ns -> e' ∈ ns -> bytes_Equal (neigh_HardwareAddr e) (neigh_HardwareAddr e') = true -> e = e'.
Proof.
  induction allNodes as [|n l IH]; intros ns; cbn [vxlan_fdbs mbind list_bind].
  { intros [= <-] _ e e' []%not_elem_of_nil. }
  unfold remote_bases at 1. destruct (usable_remote me n) as [[a cidr]|]; [|apply IH].
  destruct (mapToMAC (net_IP cidr)) as [mac|] eqn:Hm; [|done]. simpl.
  destruct (vxlan_fdbs i me l) as [ns'|] eqn:Hf; [|done]. simpl. intros [= <-] [Hn Hnd]%NoDup_cons.
  destruct (mapToMAC_Some _ _ Hm) as (hw & -> & _ & _ & Huniq).
  destruct (vxlan_fdbs_spec _ _ _ _ Hf) as (_ & _ & Hfrom).
  assert (forall e, e ∈ ns' -> bytes_of (neigh_HardwareAddr e) ≠ hw) as Hother.
  { intros e (x & a' & c & mac' & Hx & Hu & Hm' & ->)%Hfrom Heq.
    destruct (mapToMAC_Some _ _ Hm') as (hw' & -> & _). simpl in Heq. subst hw'.
    apply Hn, list_elem_of_bind. exists x. split; [|done]. unfold remote_bases. rewrite Hu. rewrite (Huniq _ Hm'). by left. }
  intros e e' He He' Heq%bytes_Equal_eq. apply elem_of_cons in He as [->|He], He' as [->|He']; [done| | |].
  - by destruct (Hother e' He').
  - by destruct (Hother e He).
  - apply (IH ns' eq_refl Hnd); [done..|]. by apply bytes_Equal_eq.
Qed.

Lemma apart_NoDup me nm o :
  NodeMap_wf nm -> addresses_apart me (view nm) ->
  NoDup (snapshot_list o nm ≫= remote_addresses me) /\ NoDup (snapshot_list o nm ≫= remote_bases me).
Proof.
  intros Hwf Hap. split; apply snapshot_NoDup_texts; try done.
  - intros x y n m Hx Hy Hne. by apply (Hap x y).
  - intros n _. unfold remote_addresses. destruct (usable_remote me n) as [[]|]; [apply NoDup_singleton|by apply NoDup_nil].
  - intros x y n m Hx Hy Hne. by apply (Hap x y).
  - intros n _. unfold remote_bases. destruct (usable_remote me n) as [[]|]; [apply NoDup_singleton|by apply NoDup_nil].
Qed.

Lemma vxlan_neigh_goal i me allNodes ns :
  vxlan_fdbs i me allNodes = Some ns -> NoDup (allNodes ≫= remote_bases me) -> neigh_goal ns.
Proof.
  intros Hf Hnd. destruct (vxlan_fdbs_spec _ _ _ _ Hf) as (_ & _ & Hfrom).
  assert (forall e, e ∈ ns -> neigh_regular e /\ is_fdb e = true) as Hall.
  { intros e (n & a & c & mac & _ & (_ & [b ->] & _)%usable_remote_Some & Hm & ->)%Hfrom.
    destruct (mapToMAC_Some _ _ Hm) as (hw & -> & Hlen & _). split; [by apply vxlan_fdb_regular|apply is_fdb_vxlan_fdb]. }
  split; [intros e He; by apply Hall|].
  intros j j' e e' [He Hj]%index_by_Some [He' Hj']%index_by_Some Hne. apply not_true_iff_false. unfold neigh_slot.
  destruct (Hall e' He') as [_ ->]. intros [_ Hs]%andb_true_iff.
  assert (e = e') as -> by (by eapply vxlan_fdbs_apart). congruence.
Qed.

(** The monitor answers the kernel's requests for the addresses of pods on the device. *)
Definition monitor_runs (p : VxlanRoutingProvider) : Prop :=
  forall l, vx_link p = Some l -> vx_monitor p = Some (link_Index (Attrs l)).

(** The monitor takes the pods of a node to be those of an IPv4 /24. *)
Definition remotes_24 (me : NodeInfo) (v : gmap string NodeInfo) : Prop :=
  forall name n a cidr, v !! name = Some n -> usable_remote me n = Some (a, cidr) -> net_Mask cidr = CIDRMask 24 32.

(** The forwarding entry of the node and the route of the overlay, on the provider's device; and the
    monitor is running there and its answer for the address of any of the node's pods is the hardware
    address of that forwarding entry. *)
Definition vxlan_delivered (p : VxlanRoutingProvider) (k : K) (_ : NodeInfo) (address : IP) (cidr : IPNet) : Prop :=
  exists l mac,
    (vx_link p = Some l /\ vx_monitor p = Some (link_Index (Attrs l)) /\
     forall ip4, length ip4 = 4%nat -> IP_Mask (Some ip4) (net_Mask cidr) = net_IP cidr ->
       mac = Some (x00 :: x53 :: take 3 ip4 ++ [x00])) /\
    (exists y, y ∈ neighs k /\ neigh_held (vxlan_fdb (link_Index (Attrs l)) address mac) y) /\
    (exists y, y ∈ entries route_table k /\
       held route_key routeEqual (overlay_route (link_Index (Attrs l)) (vx_overlayCIDR p)) y).

Lemma listenArp_prov l (w : World K VxlanRoutingProvider) : prov (listenArp l w).2 = prov w.
Proof. assert (keeps (fun p => p) (listenArp (P := VxlanRoutingProvider) l)) as Hk by (unfold listenArp; keeps_steps). apply Hk. Qed.

Lemma NetlinkMonitor_Start_prov i (w : World K VxlanRoutingProvider) : prov (NetlinkMonitor_Start i w).2 = prov w.
Proof.
  assert (keeps (fun p => p) (NetlinkMonitor_Start (P := VxlanRoutingProvider) i)) as Hk by (unfold NetlinkMonitor_Start; keeps_steps).
  apply Hk.
Qed.

(** A run that gets the device starts the monitor with it. *)
Lemma vxlan_link_success me cidr (w w' : World K VxlanRoutingProvider) l :
  vxlan_link me cidr w = (Ret l, w') ->
  vx_link (prov w') = Some l /\ (monitor_runs (prov w) -> monitor_runs (prov w')).
Proof.
  unfold vxlan_link. rewrite bind_run. unfold get_prov. cbv beta iota.
  destruct (vx_link (prov w)) as [l'|] eqn:Hl; [by intros [= <- <-]|]. rewrite bind_run.
  destruct (Vxlan_EnsureLink me cidr w) as [[l'|e|] w1]; [|done..]. destruct (Kind l'); try done. intros Hr.
  apply bind_Ret_inv in Hr as (u1 & w2 & Hset & Hr). injection Hset as _ <-.
  apply bind_Ret_inv in Hr as (u2 & w3 & Ha & Hr). apply bind_Ret_inv in Hr as (u3 & w4 & Hs & Hr).
  pose proof (listenArp_prov l' (MkWorld (kern w1) (trace w1) (sched w1) (vx_set_link l' (prov w1)))) as Hp3.
  rewrite Ha in Hp3. pose proof (NetlinkMonitor_Start_prov (link_Index (Attrs l')) w3) as Hp4. rewrite Hs in Hp4.
  apply bind_Ret_inv in Hr as (u4 & w5 & Hset & Hr). injection Hset as _ <-. injection Hr as <- <-.
  simpl in *. rewrite Hp4, Hp3. split; [done|]. by intros _ l [= <-].
Qed.

Lemma vxlan_tables_success link me allNodes (w w' : World K VxlanRoutingProvider) :
  vxlan_tables link me allNodes w = (Ret tt, w') -> NoDup (allNodes ≫= remote_bases me) ->
  prov w' = prov w /\
  exists ns, vxlan_fdbs (link_Index (Attrs link)) me allNodes = Some ns /\
    routes_held [overlay_route (link_Index (Attrs link)) (vx_overlayCIDR (prov w))] (kern w') /\
    forall i e, index_by neigh_key ns !! i = Some e -> exists y, y ∈ neighs (kern w') /\ neigh_held e y.
Proof.
  unfold vxlan_tables. rewrite bind_run. unfold get_prov. cbv beta iota zeta. intros Hr Hnd.
  apply bind_Ret_inv in Hr as (ns & w2 & Hm & Hr).
  destruct (vxlan_fdbs _ me allNodes) as [ns'|] eqn:Hrem; [|done]. injection Hm as -> <-.
  apply bind_Ret_inv in Hr as ([] & w3 & Hn%wrap_Ret_inv & Hr%wrap_Ret_inv).
  destruct (NeighTable_Ensure_success _ _ _ _ (vxlan_neigh_goal _ _ _ _ Hrem Hnd) Hn) as [Hp3 Hneighs].
  destruct (RouteTable_Ensure_success _ _ _ _ (NoDup_single_route _) Hr) as (Hheld & Ho & Hp).
  split; [congruence|]. exists ns. split_and!; [done..|].
  intros i e He. destruct (Hneighs i e He) as (y & Hy & Hh). exists y. by rewrite (routes_neighs _ _ Ho).
Qed.

(** What a run that returned nil leaves for a node, with the device it used. *)
Lemma vxlan_run_success nm0 nm (w w' : World K VxlanRoutingProvider) :
  EnsureCIDRs nm0 nm w = (Ret tt, w') ->
  (lastVersionApplied (prov w) = 0 \/ IsVersion nm0 (lastVersionApplied (prov w)) = false) ->
  NodeMap_wf nm -> addresses_apart (local_node nm) (view nm) ->
  (monitor_runs (prov w) -> monitor_runs (prov w')) /\
  exists l, vx_link (prov w') = Some l /\
    (exists y, y ∈ entries route_table (kern w') /\
       held route_key routeEqual (overlay_route (link_Index (Attrs l)) (vx_overlayCIDR (prov w'))) y) /\
    forall name n a cidr, view nm !! name = Some n -> usable_remote (local_node nm) n = Some (a, cidr) ->
      exists mac, mapToMAC (net_IP cidr) = Some mac /\
        exists y, y ∈ neighs (kern w') /\ neigh_held (vxlan_fdb (link_Index (Attrs l)) a mac) y.
Proof.
  intros Hr Hl Hwf Hap. destruct (ensure_version_success _ _ _ _ _ _ _ Hr Hl) as (_ & w0 & w1 & Hp0 & Hb & -> & ->).
  destruct (apart_NoDup _ _ (sched w 0%nat) Hwf Hap) as [Haddr Hbases].
  unfold vxlan_apply in Hb. destruct (PodCIDR (local_node nm)) as [mine|]; [|done].
  destruct (Address (local_node nm)) as [b|]; [|done].
  apply bind_Ret_inv in Hb as (l & w2 & [Hlink Hmon]%vxlan_link_success & Hb).
  destruct (vxlan_tables_success _ _ _ _ _ Hb Hbases) as (Hp & ns & Hfdbs & Hheld & Hneighs).
  destruct (vxlan_fdbs_spec _ _ _ _ Hfdbs) as (Hkeys & Hin & _). rewrite Hp0 in Hmon. split.
  { intros Hruns. unfold monitor_runs. simpl. rewrite Hp. by apply Hmon. }
  exists l. simpl. rewrite Hp. split; [done|]. split; [apply Hheld; by left|]. intros name n a cidr Hn Hu.
  destruct (Hin n a cidr (snapshot_member nm _ name n Hwf Hn) Hu) as (mac & Hm & Hfdb).
  exists mac. split; [done|]. pose proof Hu as (_ & [x ->] & _)%usable_remote_Some.
  apply (Hneighs (IP_String (Some x))), index_by_unique; [by rewrite Hkeys|done].
Qed.

#[export] Instance Vxlan_Delivery : Delivery K VxlanRoutingProvider.
Proof.
  refine {| delivered := vxlan_delivered;
            deliverable := fun p _ me v => monitor_runs p /\ remotes_24 me v /\ addresses_apart me v |}.
  - intros nm0 nm w w' Hr Hl Hwf (Hmon & H24 & Hap) name n a cidr Hn Hu.
    destruct (vxlan_run_success nm0 nm w w' Hr Hl Hwf Hap) as (_ & l & Hlink & Hroute & Hfdb).
    destruct (Hfdb name n a cidr Hn Hu) as (mac & Hm & Hy).
    exists l, mac. split_and!; [done|by apply Hmon| |done|done].
    intros ip4 Hlen. rewrite (H24 _ _ _ _ Hn Hu). intros Hmask. rewrite (mapToMAC_of_24 cidr ip4 Hlen Hmask) in Hm. congruence.
  - intros p me a cidr. unfold vxlan_delivered. apply undisturbed_ex. intros l. apply undisturbed_ex. intros mac.
    auto 6 with net.
  - intros p me v. apply unaffected_const.
Defined.
End VxlanLegacy.

(** ** The simulated kernel keeps the tables apart *)

#[export] Instance sim_routes_untouched `{NetlinkConsts} : Untouched (entries (K := Sim) route_table).
Proof. split; [|done]. by intros []. Qed.

#[export] Instance sim_neighs_untouched `{NetlinkConsts} : Untouched (neighs (K := Sim)).
Proof. split; [|done]. by intros []. Qed.

#[export] Instance sim_links_untouched : Untouched (links (K := Sim)).
Proof. split; [|done]. by intros []. Qed.

(** ** Providers at work

    The conditions of gre and vxlan-legacy hold on the simulated kernel, after a run on a map of two
    nodes. *)

Section Witnesses.
#[local] Existing Instance netlink_v1_1_0.
#[local] Existing Instance sample_corev1.

(** The map has the agent's own node and one other. *)
Lemma map_ab_nodes name n :
  view map_ab !! name = Some n -> n = info_a \/ n = summarize "b" node_b.
Proof.
  intros Hn%elem_of_map_to_list. assert (map_to_list (view map_ab) = [("a", info_a); ("b", summarize "b" node_b)]) as Hl
    by (vm_compute; reflexivity).
  rewrite Hl, !elem_of_cons, elem_of_nil in Hn. destruct Hn as [Hn|[Hn|[]]]; apply (f_equal snd) in Hn; auto.
Qed.

(** The other node is the only one there is something to do for. *)
Lemma map_ab_remote name n a cidr :
  view map_ab !! name = Some n -> usable_remote (local_node map_ab) n = Some (a, cidr) ->
  n = summarize "b" node_b /\ a = ParseIP "172.20.0.2" /\ cidr = net4 100 96 2 0 24.
Proof.
  intros [-> | ->]%map_ab_nodes Hu; vm_compute in Hu; [discriminate Hu|]. injection Hu as <- <-. split_and!; vm_compute; reflexivity.
Qed.

Example gre_delivers :
  let w := sim_world (set_links [eth0] sim_empty) NewGreRoutingProvider in
  exists w', EnsureCIDRs map_ab map_ab w = (Ret tt, w') /\
    deliverable (prov w') (kern w') (local_node map_ab) (view map_ab) /\
    delivered (prov w') (kern w') (local_node map_ab) (ParseIP "172.20.0.2") (net4 100 96 2 0 24).
Proof.
  intros w. destruct (EnsureCIDRs map_ab map_ab w) as [[[]|e|] w'] eqn:He; [|vm_compute in He; discriminate He..].
  exists w'. split; [done|].
  assert (deliverable (prov w') (kern w') (local_node map_ab) (view map_ab)) as Hd.
  { split.
    - intros name n a cidr Hn Hu. destruct (map_ab_remote _ _ _ _ Hn Hu) as (_ & _ & ->). discriminate.
    - assert (forallb (fun t => String.eqb (link_name t) "eth0" || match Kind t with
                | Gretun l r ttl => IP_Equal l (Address (local_node map_ab)) && IP_Equal r (ParseIP "172.20.0.2") && (ttl =? tunnelTTL)
                | _ => false
                end) (links (kern (EnsureCIDRs map_ab map_ab w).2)) = true) as Hl by (vm_compute; reflexivity).
      rewrite He, forallb_forall in Hl. intros t Ht name n a cidr Hn Hu Hname.
      destruct (map_ab_remote _ _ _ _ Hn Hu) as (_ & -> & ->). specialize (Hl t (proj1 (list_elem_of_In _ _) Ht)).
      apply orb_true_iff in Hl as [Hx%String.eqb_eq|Hx]; [rewrite Hx in Hname; vm_compute in Hname; discriminate Hname|].
      unfold gre_endpoints. destruct (Kind t); try discriminate Hx.
      apply andb_true_iff in Hx as [[Hlo Hre]%andb_true_iff Httl%Z.eqb_eq]. split_and!; [exact Hlo|exact Hre|exact Httl]. }
  split; [exact Hd|].
  apply (EnsureCIDRs_delivers map_ab map_ab w w' He (or_introl eq_refl) (run_wf _ _ _ (NewNodeMap_wf is_a) map_ab_run) Hd
           "b"%string (summarize "b" node_b)); vm_compute; reflexivity.
Qed.

Example vxlan_delivers :
  let w := sim_world sim_empty (MkVxlanLegacy (Some (net4 100 96 0 0 11)) None 1 0 4789 1400 None 0) in
  exists w', EnsureCIDRs map_ab map_ab w = (Ret tt, w') /\
    deliverable (prov w') (kern w') (local_node map_ab) (view map_ab) /\
    delivered (prov w') (kern w') (local_node map_ab) (ParseIP "172.20.0.2") (net4 100 96 2 0 24).
Proof.
  intros w. destruct (EnsureCIDRs map_ab map_ab w) as [[[]|e|] w'] eqn:He; [|vm_compute in He; discriminate He..].
  exists w'. split; [done|].
  assert (deliverable (prov w') (kern w') (local_node map_ab) (view map_ab)) as Hd.
  { split_and!.
    - assert (vx_monitor (prov (EnsureCIDRs map_ab map_ab w).2)
              = (fun l => link_Index (Attrs l)) <$> vx_link (prov (EnsureCIDRs map_ab map_ab w).2)) as Hm by (vm_compute; reflexivity).
      rewrite He in Hm. cbn [snd] in Hm. intros l Hl. by rewrite Hm, Hl.
    - intros name n a cidr Hn Hu. destruct (map_ab_remote _ _ _ _ Hn Hu) as (_ & _ & ->). reflexivity.
    - assert (remote_addresses (local_node map_ab) info_a = [] /\ remote_bases (local_node map_ab) info_a = []) as [Ha Hb]
        by (split; vm_compute; reflexivity).
      intros x y n m Hx%map_ab_nodes Hy%map_ab_nodes Hne. destruct Hx as [Hx|Hx], Hy as [Hy|Hy].
      1, 4: exfalso; apply Hne; rewrite Hx, Hy; reflexivity.
      + rewrite Hx, Ha, Hb. split; intros t Ht; exfalso; revert Ht; apply not_elem_of_nil.
      + rewrite Hy, Ha, Hb. split; intros t _; apply not_elem_of_nil. }
  split; [exact Hd|].
  apply (EnsureCIDRs_delivers map_ab map_ab w w' He (or_introl eq_refl) (run_wf _ _ _ (NewNodeMap_wf is_a) map_ab_run) Hd
           "b"%string (summarize "b" node_b)); vm_compute; reflexivity.
Qed.
End Witnesses.
