(* ===== verification/VxlanPods.v ===== *)
(** * Pods behind the vxlan-legacy provider

    The provider enters the nodes into the forwarding table; the pods' addresses are resolved later, one
    by one, by the monitor (netlink_monitor.go). Together: after a run of the provider that returned
    nil, the request for a pod's address is answered with the hardware address under which the node
    of the pod is in the forwarding table. *)

From S2P Require Import Prelude GoNet GoNetFacts K8s Nodes NodesFacts NodeMapSpec Netlink Effects.
From S2P Require Import Tables Reconcile Netutil RouteTable NeighTable KernelLaws Sim.
From S2P Require Import RouteFacts NeighFacts Provider Layer2 Gre Vxlan2 VxlanLegacy Delivery.

(** The entry the monitor sets for an IPv4 address. *)
Definition pod_neigh `{NetlinkConsts} (linkIndex : Z) (ip4 : list byte) : Neigh :=
  MkNeigh linkIndex 0 NUD_REACHABLE RTN_UNICAST 0 (Some ip4) (Some (x00 :: x53 :: take 3 ip4 ++ [x00])).

Section Pods.
Context {K : Type} `{Kernel K} `{NetlinkConsts} `{!RouteLaws K} `{!NeighLaws K} `{!NeighRouteFrame K}.
Implicit Types (k : K).

Lemma answers_4 linkIndex m ip4 : answers linkIndex m = Some ip4 -> length ip4 = 4%nat.
Proof.
  unfold answers. destruct (msg_Neigh m) as [n|]; [|done]. case_bool_decide; [|done]. apply To4_Some.
Qed.

Lemma pod_neigh_key_inj i a b :
  length a = 4%nat -> length b = 4%nat -> neigh_key (pod_neigh i a) = neigh_key (pod_neigh i b) -> a = b.
Proof.
  destruct a as [|? [|? [|? [|? [|]]]]]; try done. destruct b as [|? [|? [|? [|? [|]]]]]; try done.
  intros _ _ [= He]. by apply dotted_inj.
Qed.

Lemma pod_neigh_regular i ip4 : length ip4 = 4%nat -> neigh_regular (pod_neigh i ip4).
Proof.
  destruct ip4 as [|a [|b [|c [|d [|]]]]]; try done. intros _. split; [by eexists|]. split; [by right|]. by eexists.
Qed.

(** An answer takes the slot of an entry for the same address only, and none of [bridge fdb]. *)
Lemma answer_keeps i ip4 k :
  length ip4 = 4%nat -> neigh_accepts (pod_neigh i ip4) ->
  exists k', exec (NeighSet (pod_neigh i ip4)) k = (None, k') /\
    (exists y, y ∈ neighs k' /\ neigh_held (pod_neigh i ip4) y) /\
    (forall e, is_fdb e = true \/ (exists p, length p = 4%nat /\ e = pod_neigh i p) ->
       (exists y, y ∈ neighs k /\ neigh_held e y) -> exists y, y ∈ neighs k' /\ neigh_held e y) /\
    entries route_table k' ≡ₚ entries route_table k.
Proof.
  intros Hlen Hacc. destruct (NeighSet_accepted k _ Hacc) as (k' & Hx). exists k'.
  destruct (NeighSet_success k _ k' (pod_neigh_regular i ip4 Hlen) Hx) as [(z & Hz & Hzh & _) Hold].
  pose proof (NeighSet_routes (pod_neigh i ip4) k) as Hr. rewrite Hx in Hr.
  split_and!; [done|by exists z| |done]. intros e He (y & Hy & Hh).
  destruct (neigh_slot y (pod_neigh i ip4)) eqn:Hs; [|exists y; split; [by apply Hold|done]].
  rewrite (neigh_held_slot _ _ _ Hh) in Hs. unfold neigh_slot in Hs. destruct He as [Hf|(p & Hlp & ->)].
  - rewrite Hf, andb_false_r in Hs. done.
  - apply andb_true_iff in Hs as [_ Hk%bool_decide_eq_true]. rewrite (pod_neigh_key_inj i p ip4 Hlp Hlen Hk). by exists z.
Qed.

(** The messages of a [Receive], when the kernel takes the entries. *)
Lemma monitor_resolves {P} i messages : forall w : World K P,
  (forall m ip4, m ∈ messages -> answers i m = Some ip4 -> neigh_accepts (pod_neigh i ip4)) ->
  exists w', each (monitor_message i) messages w = (Ret tt, w') /\ prov w' = prov w /\
    (forall m ip4, m ∈ messages -> answers i m = Some ip4 ->
       exists y, y ∈ neighs (kern w') /\ neigh_held (pod_neigh i ip4) y) /\
    (forall e, is_fdb e = true \/ (exists p, length p = 4%nat /\ e = pod_neigh i p) ->
       (exists y, y ∈ neighs (kern w) /\ neigh_held e y) ->
       exists y, y ∈ neighs (kern w') /\ neigh_held e y) /\
    entries route_table (kern w') ≡ₚ entries route_table (kern w).
Proof.
  induction messages as [|m l IH]; intros w Hacc.
  { exists w. split_and!; [done|done|by intros ? ? ?%not_elem_of_nil|done|done]. }
  cbn [each]. rewrite bind_run, monitor_message_eq. destruct (answers i m) as [ip4|] eqn:Ha; cycle 1.
  { destruct (IH w) as (w' & Hr & Hp & Hthere & Hkeep & Hroutes).
    { intros m' ip' Hm'. apply Hacc. by right. }
    exists w'. split_and!; [done|done| |done|done].
    intros m' ip' [->|Hm']%elem_of_cons Ha'; [congruence|by apply (Hthere m')]. }
  pose proof (answers_4 _ _ _ Ha) as Hlen. fold (pod_neigh i ip4). cbv zeta.
  destruct (answer_keeps i ip4 (kern w) Hlen) as (k1 & Hx & Hthere1 & Hkeep1 & Hroutes1).
  { apply (Hacc m); [by left|done]. }
  rewrite Hx. destruct (IH (after w (sched w) [(NeighSet (pod_neigh i ip4), None)] k1)) as (w' & Hr & Hp & Hthere & Hkeep & Hroutes).
  { intros m' ip' Hm'. apply Hacc. by right. }
  exists w'. cbn [kern after] in *. split_and!; [done|done| | |by rewrite Hroutes].
  - intros m' ip' [->|Hm']%elem_of_cons Ha'; [|by apply (Hthere m')].
    assert (ip' = ip4) as -> by congruence. apply Hkeep; [right; by exists ip4|done].
  - intros e He Hy. apply Hkeep; [done|]. by apply Hkeep1.
Qed.

Context `{!Untouched (entries route_table)} `{!Untouched neighs}.

(** C18: End to end for the vxlan-legacy provider: after a run of [EnsureCIDRs] that returned nil,
    whatever the kernel held before, and after the monitor has received any messages, among them the
    kernel's request for the address of a pod: the neighbour table of the device maps the pod's address
    to a hardware address, the forwarding table ([bridge fdb]) sends that hardware address to the node
    of the pod, and the pod's address is on the route of the overlay. Conditions: the pod's address is
    in an IPv4 /24 that is the pod CIDR of the node, no two nodes share an address and no two pod CIDRs
    start at the same one - then no two of the hardware addresses are the same -, and the kernel takes
    the entries with which the monitor answers these messages. *)
Theorem pod_addresses_are_resolved nm0 nm (w w' : World K VxlanRoutingProvider) name n address cidr ip4 m messages :
  EnsureCIDRs nm0 nm w = (Ret tt, w') ->
  (lastVersionApplied (prov w) = 0 \/ IsVersion nm0 (lastVersionApplied (prov w)) = false) ->
  NodeMap_wf nm -> addresses_apart (local_node nm) (view nm) ->
  view nm !! name = Some n -> usable_remote (local_node nm) n = Some (address, cidr) ->
  IP_Mask (Some ip4) (CIDRMask 24 32) = net_IP cidr ->
  (forall l, vx_link (prov w') = Some l ->
     m ∈ messages /\ answers (link_Index (Attrs l)) m = Some ip4 /\
     forall m' p, m' ∈ messages -> answers (link_Index (Attrs l)) m' = Some p ->
       neigh_accepts (pod_neigh (link_Index (Attrs l)) p)) ->
  exists l mac w2, vx_link (prov w') = Some l /\
    watch_round (link_Index (Attrs l)) (inl messages) w' = (Ret tt, w2) /\
    (exists y, y ∈ neighs (kern w2) /\ neigh_held
       (MkNeigh (link_Index (Attrs l)) 0 NUD_REACHABLE RTN_UNICAST 0 (Some ip4) mac) y) /\
    (exists y, y ∈ neighs (kern w2) /\ neigh_held (vxlan_fdb (link_Index (Attrs l)) address mac) y) /\
    (exists y, y ∈ entries route_table (kern w2) /\
       held route_key routeEqual (overlay_route (link_Index (Attrs l)) (vx_overlayCIDR (prov w2))) y).
Proof.
  intros Hr Hl Hwf Hap Hn Hu Hmask Hm.
  destruct (vxlan_run_success nm0 nm w w' Hr Hl Hwf Hap) as (_ & l & Hlink & (y & Hy & Hroute) & Hfdbs).
  destruct (Hfdbs name n address cidr Hn Hu) as (mac & Hmac & Hfdb).
  destruct (Hm l Hlink) as (Hin & Ha & Hacc). pose proof (answers_4 _ _ _ Ha) as Hlen.
  destruct (monitor_resolves (link_Index (Attrs l)) messages w' Hacc) as (w2 & Hrun & Hp & Hthere & Hkeep & Hroutes).
  exists l, mac, w2. split_and!; [done|done| |apply Hkeep; [by left|done]|].
  - assert (mac = Some (x00 :: x53 :: take 3 ip4 ++ [x00])) as ->; [|by apply (Hthere m)].
    rewrite (mapToMAC_of_24 cidr ip4 Hlen Hmask) in Hmac. congruence.
  - rewrite Hp. exists y. by rewrite Hroutes.
Qed.
End Pods.

Section Witnesses.
#[local] Existing Instance netlink_v1_1_0.
#[local] Existing Instance sample_corev1.

Definition sim_vxlan : World Sim VxlanRoutingProvider :=
  sim_world sim_empty (MkVxlanLegacy (Some (net4 100 96 0 0 11)) None 1 0 4789 1400 None 0).

(** The kernel asks for the address of a pod of node [b]. *)
Definition pod_request (linkIndex : Z) : NetlinkMessage :=
  MkNetlinkMessage RTM_GETNEIGH (inl (MkNeigh linkIndex 2 0 0 0 (Some [x64; x60; x02; x07]) None)).

Lemma pod_addresses_are_resolved_witness :
  exists mac w2,
    (exists y, y ∈ neighs (K := Sim) w2 /\ neigh_held (MkNeigh 1 0 2 1 0 (Some [x64; x60; x02; x07]) mac) y) /\
    (exists z, z ∈ neighs w2 /\ neigh_held (vxlan_fdb 1 (ParseIP "172.20.0.2") mac) z).
Proof.
  destruct (EnsureCIDRs map_ab map_ab sim_vxlan) as [[[]|e|] w'] eqn:He; [|vm_compute in He; discriminate He..].
  assert (exists l, vx_link (prov w') = Some l /\ link_Index (Attrs l) = 1) as (l & Hl & Hi).
  { vm_compute in He. injection He as <-. eexists. split; [reflexivity|reflexivity]. }
  destruct (pod_addresses_are_resolved map_ab map_ab sim_vxlan w' "b" (summarize "b" node_b) (ParseIP "172.20.0.2")
    (net4 100 96 2 0 24) [x64; x60; x02; x07] (pod_request 1) [pod_request 1] He)
    as (l' & mac & w2 & Hl' & _ & Hy & Hz & _).
  - left. reflexivity.
  - exact (run_wf _ _ _ (NewNodeMap_wf is_a) map_ab_run).
  - assert (view map_ab = <["a"%string := summarize "a" node_a]> {[ "b"%string := summarize "b" node_b ]}) as -> by (vm_compute; reflexivity).
    intros x y n m [[<- <-]|[_ [<- <-]%lookup_singleton_Some]]%lookup_insert_Some
      [[<- <-]|[_ [<- <-]%lookup_singleton_Some]]%lookup_insert_Some Hne.
    1, 4: by destruct Hne.
    all: assert (remote_addresses (local_node map_ab) (summarize "a" node_a) = []) as -> by (vm_compute; reflexivity).
    all: assert (remote_bases (local_node map_ab) (summarize "a" node_a) = []) as -> by (vm_compute; reflexivity).
    + by split; intros t ?%not_elem_of_nil.
    + by split; intros t _ ?%not_elem_of_nil.
  - vm_compute. reflexivity.
  - vm_compute. reflexivity.
  - vm_compute. reflexivity.
  - intros l0 Hl0. assert (l0 = l) as -> by congruence. rewrite Hi. split; [by left|]. split; [vm_compute; reflexivity|]. intros m' p _ _. exact I.
  - assert (l' = l) as -> by congruence. rewrite Hi in Hy, Hz. exists mac, (kern w2). split; [exact Hy|exact Hz].
Defined.
End Witnesses.
