(* ===== verification/EspListener.v ===== *)
(** * The UDP socket for encapsulated ESP: pkg/routing/ipsec/esp_listener.go *)

From S2P Require Import Prelude GoNet Netlink Effects Sim.

Definition UDP_ENCAP : Z := 100.
Definition UDP_ENCAP_ESPINUDP : Z := 2.
Definition IPSEC_DIR_INBOUND : Z := 1.
Definition IPSEC_DIR_OUTBOUND : Z := 2.
Definition IPSEC_POLICY_BYPASS : Z := 4.
Definition SADB_X_EXT_POLICY : Z := 18.

(** Constants of package syscall, on Linux. *)
Definition SOCK_DGRAM : Z := 2.
Definition SOL_IP : Z := 0.
Definition IP_IPSEC_POLICY : Z := 16.

(** [type SadbXPolicy struct], without the field [len], which nothing reads. *)
Record SadbXPolicy := MkSadbXPolicy {
  ExtType : Z;
  Type_ : Z;
  Direction : Z;
  Reserved : Z;
  PolicyId : Z;
  PolicyPriority : Z
}.

(** The fields are unsigned integers of 16, 16, 8, 8, 32 and 32 bits. *)
Definition SadbXPolicy_wf (s : SadbXPolicy) : Prop :=
  0 <= ExtType s < 2 ^ 16 /\ 0 <= Type_ s < 2 ^ 16 /\ 0 <= Direction s < 2 ^ 8 /\
  0 <= Reserved s < 2 ^ 8 /\ 0 <= PolicyId s < 2 ^ 32 /\ 0 <= PolicyPriority s < 2 ^ 32.

(** [func (s *SadbXPolicy) Encode() []byte]: the ranges that are written do not overlap and leave
    the buffer's zero bytes nowhere. *)
Definition SadbXPolicy_Encode (s : SadbXPolicy) : list byte :=
  LittleEndian_PutUint16 2 ++ LittleEndian_PutUint16 (ExtType s) ++ LittleEndian_PutUint16 (Type_ s)
  ++ [u8 (Direction s); u8 (Reserved s)]
  ++ LittleEndian_PutUint32 (PolicyId s) ++ LittleEndian_PutUint32 (PolicyPriority s).

(** The file descriptor of a listener; zero once it is closed. *)
Record UDPEncapListener := MkUDPEncapListener { fd : Z }.

Section Listener.
Context {K P : Type} `{Kernel K}.

(** The policy a socket option sets for one direction. *)
Definition bypass_policy (direction : Z) : SadbXPolicy :=
  MkSadbXPolicy SADB_X_EXT_POLICY IPSEC_POLICY_BYPASS direction 0 0 0.

(** [func NewUDPEncapListener(port int) ( *UDPEncapListener, error)] *)
Definition NewUDPEncapListener (port : Z) : M K P UDPEncapListener :=
  fd ← wrap "error creating socket: %v" (query (k_Socket AF_INET SOCK_DGRAM 0));
  wrap "error setting IP_IPSEC_POLICY socket option (outbound): %v"
    (call (SetsockoptString fd SOL_IP IP_IPSEC_POLICY (SadbXPolicy_Encode (bypass_policy IPSEC_DIR_OUTBOUND))));;
  wrap "error setting IP_IPSEC_POLICY socket option (inbound): %v"
    (call (SetsockoptString fd SOL_IP IP_IPSEC_POLICY (SadbXPolicy_Encode (bypass_policy IPSEC_DIR_INBOUND))));;
  wrap "error setting UDP_ENCAP=UDP_ENCAP_ESPINUDP socket option: %v"
    (call (SetsockoptInt fd IPPROTO_UDP UDP_ENCAP UDP_ENCAP_ESPINUDP));;
  wrap "error binding socket: %v" (call (Bind fd port));;
  mret (MkUDPEncapListener fd).

(** [func (l *UDPEncapListener) Close() error]: the listener afterwards. *)
Definition UDPEncapListener_Close (l : UDPEncapListener) : M K P UDPEncapListener :=
  if fd l =? 0 then mret l
  else
    wrap "error closing socket: %v" (call (CloseFd (fd l)));;
    mret (MkUDPEncapListener 0).
End Listener.

(** ** The encoding *)

(** The number a run of little-endian bytes stands for. *)
Fixpoint le_value (l : list byte) : Z :=
  match l with [] => 0 | b :: l => zb b + 256 * le_value l end.

Lemma le_value_16 v : 0 <= v < 2 ^ 16 -> le_value (LittleEndian_PutUint16 v) = v.
Proof.
  intros Hv. unfold LittleEndian_PutUint16. cbn [le_value]. rewrite !zb_u8, Z.shiftr_div_pow2 by lia.
  change (2 ^ 8) with 256. Z.div_mod_to_equations. lia.
Qed.

Lemma le_value_32 v : 0 <= v < 2 ^ 32 -> le_value (LittleEndian_PutUint32 v) = v.
Proof.
  intros Hv. unfold LittleEndian_PutUint32. cbn [le_value]. rewrite !zb_u8, !Z.shiftr_div_pow2 by lia.
  change (2 ^ 8) with 256. change (2 ^ 16) with (256 * 256). change (2 ^ 24) with (256 * 256 * 256).
  rewrite <- !Z.div_div by lia. Z.div_mod_to_equations. lia.
Qed.

(** Reading the encoding back. *)
Definition decode_SadbXPolicy (b : list byte) : SadbXPolicy :=
  MkSadbXPolicy (le_value (take 2 (drop 2 b))) (le_value (take 2 (drop 4 b))) (le_value (take 1 (drop 6 b)))
    (le_value (take 1 (drop 7 b))) (le_value (take 4 (drop 8 b))) (le_value (take 4 (drop 12 b))).

(** C38: [Encode] writes the 16 bytes of a [struct sadb_x_policy], whose length field counts them in
    units of eight bytes, and every field can be read back from its little-endian bytes. *)
Theorem SadbXPolicy_roundtrip s :
  SadbXPolicy_wf s ->
  length (SadbXPolicy_Encode s) = 16%nat /\
  8 * le_value (take 2 (SadbXPolicy_Encode s)) = Z.of_nat (length (SadbXPolicy_Encode s)) /\
  decode_SadbXPolicy (SadbXPolicy_Encode s) = s.
Proof.
  intros (He & Ht & Hd & Hr & Hi & Hp). split_and!; [done|done|].
  destruct s as [e t d r i p]. cbn [ExtType Type_ Direction Reserved PolicyId PolicyPriority] in *.
  unfold decode_SadbXPolicy, SadbXPolicy_Encode. cbn [ExtType Type_ Direction Reserved PolicyId PolicyPriority].
  pose proof (le_value_16 e He) as He'. pose proof (le_value_16 t Ht) as Ht'.
  pose proof (le_value_32 i Hi) as Hi'. pose proof (le_value_32 p Hp) as Hp'.
  unfold LittleEndian_PutUint16, LittleEndian_PutUint32 in *. cbn [app take drop]. rewrite He', Ht', Hi', Hp'.
  cbn [le_value]. rewrite !zb_u8, !Z.mul_0_r, !Z.add_0_r. change (2 ^ 8) with 256 in *.
  by rewrite !Z.mod_small by lia.
Qed.

(** ** The socket *)

Section Socket.
Context {K P : Type} `{Kernel K}.
Implicit Types (w : World K P).

(** The calls that set the socket up. *)
Definition listener_calls (fd port : Z) : list action :=
  [SetsockoptString fd SOL_IP IP_IPSEC_POLICY (SadbXPolicy_Encode (bypass_policy IPSEC_DIR_OUTBOUND));
   SetsockoptString fd SOL_IP IP_IPSEC_POLICY (SadbXPolicy_Encode (bypass_policy IPSEC_DIR_INBOUND));
   SetsockoptInt fd IPPROTO_UDP UDP_ENCAP UDP_ENCAP_ESPINUDP; Bind fd port].

Lemma NewUDPEncapListener_runs port w fd k :
  k_Socket AF_INET SOCK_DGRAM 0 (kern w) = (inl fd, k) ->
  exists log e k' r, NewUDPEncapListener port w = (r, after w (sched w) log k') /\
    ran (listener_calls fd port) log e /\
    match r with Ret l => l = MkUDPEncapListener fd /\ e = None | Err _ => is_Some e | Exit => False end.
Proof.
  intros Hs. unfold NewUDPEncapListener. rewrite (bind_query _ _ _ _ _ _ Hs).
  unfold listener_calls. repeat (rewrite bind_run; unfold wrap at 1, call at 1; rewrite ?kern_after; cbn [kern];
    match goal with |- context [exec ?a ?k] => destruct (exec a k) as [[?|] ?] eqn:?; cbn [kern] end;
    [eexists _, _, _, _; split_and!; [unfold after; cbn [trace sched prov kern]; rewrite <- ?app_assoc; reflexivity
                                     |cbn [app]; repeat constructor|by eexists]|]).
  eexists _, None, _, _. split_and!; [unfold after; cbn [trace sched prov kern]; rewrite <- ?app_assoc; reflexivity
    |cbn [app]; repeat constructor|done].
Qed.

(** A listener that is returned has, in this order, the IPsec bypass policy for both directions,
    UDP encapsulation of ESP, and the port; an error comes from the first of these calls that
    fails, and then the descriptor is not closed: it is lost. *)
Theorem listener_setup port w fd k :
  k_Socket AF_INET SOCK_DGRAM 0 (kern w) = (inl fd, k) ->
  (forall l w', NewUDPEncapListener port w = (Ret l, w') ->
     l = MkUDPEncapListener fd /\
     trace w' = trace w ++ ((fun a => (a, None)) <$> listener_calls fd port)) /\
  (forall e w', NewUDPEncapListener port w = (Err e, w') ->
     exists log, trace w' = trace w ++ log /\ log ≠ [] /\ forall x, (CloseFd fd, x) ∉ log) /\
  fst (NewUDPEncapListener port w) ≠ Exit.
Proof.
  intros Hs. destruct (NewUDPEncapListener_runs port w fd k Hs) as (log & e & k' & r & Hr & Hran & Ho).
  rewrite Hr. split_and!; [| |by destruct r].
  - intros l w' [= -> <-]. destruct Ho as [-> ->]. split; [done|]. by rewrite (ran_success _ _ _ Hran eq_refl).
  - intros x w' [= -> <-]. exists log. split_and!; [done| |].
    + destruct Ho as [y ->]. by inversion Hran.
    + intros z Hin. apply (ran_in _ _ _ _ _ Hran) in Hin. unfold listener_calls in Hin.
      repeat (apply elem_of_cons in Hin as [Hin|Hin]; [discriminate Hin|]). by apply not_elem_of_nil in Hin.
Qed.

(** Closing is idempotent: a listener that was closed is closed again without a call, and one
    whose socket could not be closed keeps its descriptor for another try. *)
Theorem Close_idempotent l w :
  match UDPEncapListener_Close l w with
  | (Ret l', w') => UDPEncapListener_Close l' w' = (Ret l', w') /\ fd l' = 0
  | (Err _, w') => fd l ≠ 0 /\ exists e, trace w' = trace w ++ [(CloseFd (fd l), Some e)]
  | (Exit, _) => False
  end.
Proof.
  unfold UDPEncapListener_Close at 1. destruct (Z.eqb_spec (fd l) 0) as [H0|H0].
  - cbn. split; [|done]. unfold UDPEncapListener_Close. by rewrite (proj2 (Z.eqb_eq _ _) H0).
  - rewrite bind_run. unfold wrap, call. destruct (exec (CloseFd (fd l)) (kern w)) as [[e|] k]; simpl; eauto.
Qed.
End Socket.

Lemma SadbXPolicy_roundtrip_witness :
  decode_SadbXPolicy (SadbXPolicy_Encode (bypass_policy IPSEC_DIR_INBOUND)) = bypass_policy IPSEC_DIR_INBOUND.
Proof. apply (SadbXPolicy_roundtrip (bypass_policy IPSEC_DIR_INBOUND)). unfold SadbXPolicy_wf. by_computation. Defined.

Lemma listener_setup_witness :
  fst (NewUDPEncapListener 4500 (sim_world sim_empty tt)) ≠ Exit.
Proof.
  assert (k_Socket AF_INET SOCK_DGRAM 0 (kern (sim_world sim_empty tt)) = (inl 3, sim_empty)) as Hs by reflexivity.
  exact (proj2 (proj2 (listener_setup 4500 (sim_world sim_empty tt) 3 sim_empty Hs))).
Defined.
