(* ===== verification/Ipsec.v ===== *)
(** * The ipsec provider: pkg/routing/ipsec/ipsecrouting.go and its strategies

    Two security associations per direction and remote node, AH and ESP, under an SPI made of
    the numerals of the two nodes, and the policies that send the traffic between the pods and
    the addresses of two nodes through ESP. *)

From S2P Require Import Prelude GoNet GoNetFacts K8s Nodes NodesFacts NodeMapSpec Netlink Effects.
From S2P Require Import Tables Reconcile Netutil XfrmTables KernelLaws Sim XfrmFacts PolicyFacts Provider Layer2 Gre Vxlan2 EspListener.

(** ** Strategies *)

(** [AuthenticationStrategy], [EncryptionStrategy] and [EncapsulationStrategy]: [Apply] changes the
    state it is given. *)
Record AuthenticationStrategy := MkAuth {
  auth_Apply : XfrmState -> NodeInfo -> NodeInfo -> XfrmState;
  UseAH : bool
}.

Record EncryptionStrategy := MkEncr {
  encr_Apply : XfrmState -> NodeInfo -> NodeInfo -> XfrmState;
  UseESP : bool
}.

Record EncapsulationStrategy := MkEncap {
  encap_Apply : XfrmState -> NodeInfo -> NodeInfo -> XfrmState
}.

Definition set_Auth (a : XfrmStateAlgo) (s : XfrmState) : XfrmState :=
  MkXfrmState (xs_Dst s) (xs_Src s) (xs_Proto s) (xs_Mode s) (xs_Spi s) (xs_Reqid s) (xs_ReplayWindow s)
    (xs_Limits s) (xs_Mark s) (Some a) (xs_Crypt s) (xs_Aead s) (xs_Encap s).

Definition set_Crypt (a : XfrmStateAlgo) (s : XfrmState) : XfrmState :=
  MkXfrmState (xs_Dst s) (xs_Src s) (xs_Proto s) (xs_Mode s) (xs_Spi s) (xs_Reqid s) (xs_ReplayWindow s)
    (xs_Limits s) (xs_Mark s) (xs_Auth s) (Some a) (xs_Aead s) (xs_Encap s).

Definition set_Encap (e : XfrmStateEncap) (s : XfrmState) : XfrmState :=
  MkXfrmState (xs_Dst s) (xs_Src s) (xs_Proto s) (xs_Mode s) (xs_Spi s) (xs_Reqid s) (xs_ReplayWindow s)
    (xs_Limits s) (xs_Mark s) (xs_Auth s) (xs_Crypt s) (xs_Aead s) (Some e).

Definition HmacSha1AuthenticationStrategy : AuthenticationStrategy := {|
  auth_Apply s _ _ := set_Auth
    (MkXfrmStateAlgo "hmac(sha1)" (Some [x01; x02; x03; x04; x05; x06; x07; x08; x09; x0a]) 96 0) s;
  UseAH := true
|}.

Definition PlaintextAuthenticationStrategy : AuthenticationStrategy := {|
  auth_Apply s _ _ := set_Auth (MkXfrmStateAlgo "digest_null" None 0 0) s;
  UseAH := true
|}.

Definition AesEncryptionStrategy : EncryptionStrategy := {|
  encr_Apply s _ _ := set_Crypt (MkXfrmStateAlgo "rfc3686(ctr(aes))"
    (Some [x04; x05; x09; x04; x03; x06; x07; x08; x09; x0a; x04; x05; x09; x04; x03; x06; x07; x08; x09; x0a]) 0 0) s;
  UseESP := true
|}.

Definition PlaintextEncryptionStrategy : EncryptionStrategy := {|
  encr_Apply s _ _ := set_Crypt (MkXfrmStateAlgo "ecb(cipher_null)" None 0 0) s;
  UseESP := true
|}.

Definition UdpEncapsulationStrategy `{NetlinkConsts} : EncapsulationStrategy := {|
  encap_Apply s _ _ := set_Encap (MkXfrmStateEncap XFRM_ENCAP_ESPINUDP 4500 4500 (IPv4 x00 x00 x00 x00)) s
|}.

Definition EspEncapsulationStrategy : EncapsulationStrategy := {| encap_Apply s _ _ := s |}.

(** ** The provider *)

Definition ipnetAll : IPNet := MkIPNet (IPv4 x00 x00 x00 x00) (IPv4Mask x00 x00 x00 x00).

Definition NoByteCountLimit : Z := 0xffffffffffffffff.
Definition NoPacketCountLimit : Z := 0xffffffffffffffff.

Definition noLimits : XfrmStateLimits :=
  MkXfrmStateLimits NoByteCountLimit NoByteCountLimit NoPacketCountLimit NoPacketCountLimit 0 0 0 0.

(** [type IpsecRoutingProvider struct]; its two tables have no state. *)
Record IpsecRoutingProvider := MkIpsec {
  authenticationStrategy : AuthenticationStrategy;
  encryptionStrategy : EncryptionStrategy;
  encapsulationStrategy : EncapsulationStrategy;
  udpEncapListener : option UDPEncapListener;
  ip_lastVersionApplied : Z
}.

Definition ip_set_last (v : Z) (p : IpsecRoutingProvider) : IpsecRoutingProvider :=
  MkIpsec (authenticationStrategy p) (encryptionStrategy p) (encapsulationStrategy p) (udpEncapListener p) v.

Definition ip_set_listener (l : option UDPEncapListener) (p : IpsecRoutingProvider) : IpsecRoutingProvider :=
  MkIpsec (authenticationStrategy p) (encryptionStrategy p) (encapsulationStrategy p) l (ip_lastVersionApplied p).

(** [func ipToIpnet(ip net.IP) *net.IPNet] *)
Definition ipToIpnet (ip : IP) : IPNet := MkIPNet ip (IPv4Mask xff xff xff xff).

(** [func computeNodeNumeral(podCIDR *net.IPNet) (uint32, error)]; [None] is its error. *)
Definition computeNodeNumeral (podCIDR : IPNet) : option Z :=
  match To4 (net_IP podCIDR) with
  | Some [b0; b1; b2; b3] =>
      let v := BigEndian_Uint32 b0 b1 b2 b3 in
      let '(ones, bits) := Mask_Size (net_Mask podCIDR) in
      let v := Z.shiftr v (u32 (bits - ones)) in
      Some (Z.land v 0x3fff)
  | _ => None
  end.

(** The SPI of the association from one node to another: [kind] is 0 for AH and 1 for ESP. *)
Definition ipsec_spi (srcNumeral dstNumeral kind : Z) : Z :=
  let spi := 0xc0000000 in
  let spi := Z.lor spi (u32 (Z.shiftl srcNumeral 16)) in
  let spi := Z.lor spi (u32 (Z.shiftl dstNumeral 2)) in
  Z.lor spi kind.

Section Ipsec.
Context `{NetlinkConsts}.

(** A state literal with its protocol and mode, and then its limits, ends and SPI. *)
Definition ipsec_state (proto : Z) (src dst : NodeInfo) (spi : Z) : XfrmState :=
  MkXfrmState (Address dst) (Address src) proto XFRM_MODE_TUNNEL spi 0 0 noLimits None None None None None.

(** The AH state of one direction. *)
Definition ah_state (p : IpsecRoutingProvider) (me remote : NodeInfo) (meNodeNumeral remoteNodeNumeral dir : Z)
    : XfrmState :=
  if dir =? XFRM_DIR_OUT
  then auth_Apply (authenticationStrategy p)
         (ipsec_state XFRM_PROTO_AH me remote (ipsec_spi meNodeNumeral remoteNodeNumeral 0)) me remote
  else auth_Apply (authenticationStrategy p)
         (ipsec_state XFRM_PROTO_AH remote me (ipsec_spi remoteNodeNumeral meNodeNumeral 0)) remote me.

(** The ESP state of one direction. *)
Definition esp_state (p : IpsecRoutingProvider) (me remote : NodeInfo) (meNodeNumeral remoteNodeNumeral dir : Z)
    : XfrmState :=
  if dir =? XFRM_DIR_OUT
  then encap_Apply (encapsulationStrategy p)
         (encr_Apply (encryptionStrategy p)
            (ipsec_state XFRM_PROTO_ESP me remote (ipsec_spi meNodeNumeral remoteNodeNumeral 1)) me remote) me remote
  else encap_Apply (encapsulationStrategy p)
         (encr_Apply (encryptionStrategy p)
            (ipsec_state XFRM_PROTO_ESP remote me (ipsec_spi remoteNodeNumeral meNodeNumeral 1)) remote me) remote me.

(** The inner loop over the directions. *)
Definition remote_states (p : IpsecRoutingProvider) (me remote : NodeInfo) (meNodeNumeral remoteNodeNumeral : Z)
    : list XfrmState :=
  flat_map (fun dir =>
    (if UseAH (authenticationStrategy p) then [ah_state p me remote meNodeNumeral remoteNodeNumeral dir] else [])
    ++ (if UseESP (encryptionStrategy p) then [esp_state p me remote meNodeNumeral remoteNodeNumeral dir] else []))
    [XFRM_DIR_IN; XFRM_DIR_OUT].

(** The first loop over the nodes; [None] is the error of [computeNodeNumeral]. *)
Fixpoint ipsec_states (p : IpsecRoutingProvider) (me : NodeInfo) (meNodeNumeral : Z) (allNodes : list NodeInfo)
    : option (list XfrmState) :=
  match allNodes with
  | [] => Some []
  | remote :: rest =>
      match usable_remote me remote with
      | None => ipsec_states p me meNodeNumeral rest
      | Some (_, cidr) =>
          remoteNodeNumeral ← computeNodeNumeral cidr;
          expected ← ipsec_states p me meNodeNumeral rest;
          Some (remote_states p me remote meNodeNumeral remoteNodeNumeral ++ expected)
      end
  end.

(** A policy literal; [tmpls] is the template of a policy that protects its traffic. *)
Definition ipsec_policy (src dst : option IPNet) (proto dstPort dir priority : Z) (tmpls : list XfrmPolicyTmpl)
    : XfrmPolicy :=
  MkXfrmPolicy dst src proto dstPort 0 dir priority 0 None tmpls.

(** The policies without a template: the encapsulated packets themselves, and the default. *)
Definition base_policies : list XfrmPolicy :=
  ((fun dir => ipsec_policy (Some ipnetAll) (Some ipnetAll) IPPROTO_UDP 4500 dir 200 [])
     <$> [XFRM_DIR_IN; XFRM_DIR_OUT; XFRM_DIR_FWD])
  ++ ((fun dir => ipsec_policy (Some ipnetAll) (Some ipnetAll) 0 0 dir 0 [])
        <$> [XFRM_SOCKET_IN; XFRM_SOCKET_OUT]).

(** One of the three loops over the directions: [mine] and [theirs] are the networks at the local
    and the remote end. *)
Definition remote_policies (me remote : NodeInfo) (mine theirs : option IPNet) : list XfrmPolicy :=
  (fun dir =>
     if dir =? XFRM_DIR_OUT
     then ipsec_policy mine theirs 0 0 dir 100
            [MkXfrmPolicyTmpl (Address remote) (Address me) XFRM_PROTO_ESP XFRM_MODE_TUNNEL 0 0]
     else ipsec_policy theirs mine 0 0 dir 100
            [MkXfrmPolicyTmpl (Address me) (Address remote) XFRM_PROTO_ESP XFRM_MODE_TUNNEL 0 0])
    <$> [XFRM_DIR_IN; XFRM_DIR_OUT; XFRM_DIR_FWD].

(** The second loop over the nodes. *)
Definition ipsec_policies (me : NodeInfo) (allNodes : list NodeInfo) : list XfrmPolicy :=
  base_policies
  ++ flat_map (fun remote =>
       match usable_remote me remote with
       | None => []
       | Some (address, cidr) =>
           remote_policies me remote (PodCIDR me) (Some cidr)
           ++ remote_policies me remote (PodCIDR me) (Some (ipToIpnet address))
           ++ remote_policies me remote (Some (ipToIpnet (Address me))) (Some cidr)
       end) allNodes.

Context {K : Type} `{Kernel K}.

(** [func doModprobe() error] *)
Definition doModprobe {P} : M K P unit :=
  each (fun module => wrap "modprobe for module %q failed (%v): %s" (call (Modprobe module)))
    ["af_key"; "ah4"; "ipcomp"; "xfrm4_tunnel"].

(** [func NewIpsecRoutingProvider(...) ( *IpsecRoutingProvider, error)] *)
Definition NewIpsecRoutingProvider {P} (auth : AuthenticationStrategy) (encr : EncryptionStrategy)
    (encap : EncapsulationStrategy) : M K P IpsecRoutingProvider :=
  doModprobe;;
  l ← wrap "error creating UDP encapsulation listener on port %d: %v" (NewUDPEncapListener 4500);
  mret (MkIpsec auth encr encap (Some l) 0).

(** [func (p *IpsecRoutingProvider) Flush() error]; its errors do not mention the cause. *)
Definition Ipsec_Flush {P} : M K P unit :=
  r ← try XfrmPolicyTable_Flush;
  match r with
  | inr _ => fail (ErrorMsg "error flushing xfrm policy table")
  | inl _ =>
      r ← try XfrmStateTable_Flush;
      match r with
      | inr _ => fail (ErrorMsg "error flushing xfrm policy table")
      | inl _ => mret tt
      end
  end.

(** [func (p *IpsecRoutingProvider) Close() error] *)
Definition Ipsec_Close : M K IpsecRoutingProvider unit :=
  p ← get_prov;
  match udpEncapListener p with
  | None => mret tt
  | Some l =>
      UDPEncapListener_Close l;;
      modify_prov (ip_set_listener None)
  end.

(** What [EnsureCIDRs] does between [Snapshot] and the record of the version. *)
Definition ipsec_apply (me : NodeInfo) (allNodes : list NodeInfo) : M K IpsecRoutingProvider unit :=
  match PodCIDR me with
  | None => fail (ErrorMsg "No CIDR assigned to local node; cannot configure tunnels")
  | Some cidr =>
      match Address me with
      | None => fail (ErrorMsg "No Address assigned to local node; cannot configure tunnels")
      | Some _ =>
          match computeNodeNumeral cidr with
          | None => fail (ErrorMsg "expected IPv4 PodCidr %q")
          | Some meNodeNumeral =>
              p ← get_prov;
              match ipsec_states p me meNodeNumeral allNodes with
              | None => fail (ErrorMsg "expected IPv4 PodCidr %q")
              | Some expected =>
                  wrap "error applying xfrm state: %v" (XfrmStateTable_Ensure expected);;
                  wrap "error applying xfrm policy: %v" (XfrmPolicyTable_Ensure (ipsec_policies me allNodes))
              end
          end
      end
  end.

(** [func (p *IpsecRoutingProvider) EnsureCIDRs(nodeMap *routing.NodeMap) error] *)
Definition Ipsec_EnsureCIDRs : NodeMap -> NodeMap -> M K IpsecRoutingProvider unit :=
  ensure_version ip_lastVersionApplied ip_set_last ipsec_apply.

#[export] Instance Ipsec_Provider : Provider K IpsecRoutingProvider.
Proof.
  apply (ensure_version_provider ip_lastVersionApplied ip_set_last ipsec_apply); [done|].
  intros me allNodes. unfold ipsec_apply. keeps_steps.
Defined.
End Ipsec.
