(* ===== verification/IpsecFacts.v ===== *)
(** * What the ipsec provider installs: pkg/routing/ipsec *)

From S2P Require Import Prelude GoNet GoNetFacts K8s Nodes NodesFacts NodeMapSpec Netlink Effects.
From S2P Require Import Tables Reconcile Netutil XfrmTables KernelLaws Sim XfrmFacts PolicyFacts Provider Layer2 Gre Vxlan2.
From S2P Require Import EspListener Ipsec.

(** ** Numerals and SPIs *)

(** Bits that do not overlap: or is addition. *)
Lemma lor_shift a b n : 0 <= n -> 0 <= b < 2 ^ n -> Z.lor (a * 2 ^ n) b = a * 2 ^ n + b.
Proof.
  intros Hn Hb. rewrite <- Z.lxor_lor, <- Z.add_nocarry_lxor; try done;
    (apply Z.bits_inj'; intros i Hi; rewrite Z.land_spec, Z.bits_0; destruct (Z.lt_ge_cases i n) as [Hlt|Hge];
     [by rewrite Z.mul_pow2_bits_low by lia
     |rewrite (Z.testbit_eqb b) by lia; rewrite Z.div_small; [by rewrite andb_false_r|];
      pose proof (Z.pow_le_mono_r 2 n i); lia]).
Qed.

Lemma ipsec_spi_value s d k :
  0 <= s < 2 ^ 14 -> 0 <= d < 2 ^ 14 -> 0 <= k < 4 ->
  ipsec_spi s d k = 3 * 2 ^ 30 + s * 2 ^ 16 + d * 2 ^ 2 + k.
Proof.
  intros Hs Hd Hk. unfold ipsec_spi. rewrite !Z.shiftl_mul_pow2 by lia. unfold u32.
  rewrite !Z.mod_small by lia. change 0xc0000000 with (3 * 2 ^ 30).
  rewrite (lor_shift 3 _ 30) by lia.
  replace (3 * 2 ^ 30 + s * 2 ^ 16) with ((3 * 2 ^ 14 + s) * 2 ^ 16) by lia.
  rewrite (lor_shift _ (d * 2 ^ 2) 16) by lia.
  replace ((3 * 2 ^ 14 + s) * 2 ^ 16 + d * 2 ^ 2) with (((3 * 2 ^ 14 + s) * 2 ^ 14 + d) * 2 ^ 2) by lia.
  rewrite (lor_shift _ k 2) by lia. lia.
Qed.

Lemma ipsec_spi_inj s d k s' d' k' :
  0 <= s < 2 ^ 14 -> 0 <= d < 2 ^ 14 -> 0 <= k < 4 -> 0 <= s' < 2 ^ 14 -> 0 <= d' < 2 ^ 14 -> 0 <= k' < 4 ->
  ipsec_spi s d k = ipsec_spi s' d' k' -> s = s' /\ d = d' /\ k = k'.
Proof. intros ? ? ? ? ? ?. rewrite !ipsec_spi_value by done. lia. Qed.

Lemma land_14 v : Z.land v 0x3fff = v mod 2 ^ 14.
Proof. change 0x3fff with (Z.ones 14). by rewrite Z.land_ones. Qed.

Lemma land_2 v : Z.land v 3 = v mod 2 ^ 2.
Proof. change 3 with (Z.ones 2). by rewrite Z.land_ones. Qed.

Lemma numeral_range cidr v : computeNodeNumeral cidr = Some v -> 0 <= v < 2 ^ 14.
Proof.
  unfold computeNodeNumeral. destruct (To4 (net_IP cidr)) as [[|b0 [|b1 [|b2 [|b3 [|? ?]]]]]|]; try done.
  destruct (Mask_Size (net_Mask cidr)) as [ones bits]. intros [= <-]. rewrite land_14. apply Z.mod_pos_bound. lia.
Qed.

Lemma BigEndian_Uint32_value b0 b1 b2 b3 :
  BigEndian_Uint32 b0 b1 b2 b3 = zb b0 * 2 ^ 24 + zb b1 * 2 ^ 16 + zb b2 * 2 ^ 8 + zb b3.
Proof.
  pose proof (zb_range b0). pose proof (zb_range b1). pose proof (zb_range b2). pose proof (zb_range b3).
  unfold BigEndian_Uint32. rewrite !Z.shiftl_mul_pow2 by lia.
  rewrite (Z.lor_comm (zb b1 * _)), (lor_shift _ (zb b1 * 2 ^ 16) 24) by lia.
  replace (zb b0 * 2 ^ 24 + zb b1 * 2 ^ 16) with ((zb b0 * 2 ^ 8 + zb b1) * 2 ^ 16) by lia.
  rewrite (Z.lor_comm (zb b2 * _)), (lor_shift _ (zb b2 * 2 ^ 8) 16) by lia.
  replace ((zb b0 * 2 ^ 8 + zb b1) * 2 ^ 16 + zb b2 * 2 ^ 8) with (((zb b0 * 2 ^ 8 + zb b1) * 2 ^ 8 + zb b2) * 2 ^ 8) by lia.
  rewrite (Z.lor_comm (zb b3)), (lor_shift _ (zb b3) 8) by lia. lia.
Qed.

(** The numeral of an IPv4 pod CIDR with an [ones]-bit mask is the number of its network among
    the networks of that size, modulo 2^14: two nodes of one cluster CIDR get distinct numerals
    exactly if their networks are not a multiple of 16384 networks apart. *)
Theorem node_numeral_is_network_number b0 b1 b2 b3 ones :
  0 <= ones <= 32 ->
  computeNodeNumeral (MkIPNet (Some [b0; b1; b2; b3]) (CIDRMask ones 32))
  = Some ((zb b0 * 2 ^ 24 + zb b1 * 2 ^ 16 + zb b2 * 2 ^ 8 + zb b3) / 2 ^ (32 - ones) mod 2 ^ 14).
Proof.
  intros Ho. unfold computeNodeNumeral. cbn [net_IP net_Mask]. rewrite To4_4.
  assert (Mask_Size (CIDRMask ones 32) = (ones, 32)) as ->.
  { change 32 with (Z.of_nat 4 * 8) at 1. rewrite CIDRMask_Some by (auto || lia). unfold Mask_Size.
    change (bytes_of (Some (CIDRMask_bytes 4 ones))) with (CIDRMask_bytes 4 ones).
    rewrite simpleMaskLength_CIDRMask, CIDRMask_bytes_length by done.
    by rewrite (proj2 (Z.eqb_neq ones (-1))) by lia. }
  unfold u32. rewrite Z.mod_small by lia. rewrite land_14, Z.shiftr_div_pow2, BigEndian_Uint32_value by lia. done.
Qed.

(** C31: an SPI is a 32-bit number from the range of user-assigned values that spells out its two
    nodes and its protocol: from numerals of 14 bits they can be read back, so associations of
    different nodes, directions or protocols never share an SPI. *)
Theorem spi_identifies_association s d k :
  0 <= s < 2 ^ 14 -> 0 <= d < 2 ^ 14 -> 0 <= k < 4 ->
  0xc0000000 <= ipsec_spi s d k < 2 ^ 32 /\
  Z.land (Z.shiftr (ipsec_spi s d k) 16) 0x3fff = s /\ Z.land (Z.shiftr (ipsec_spi s d k) 2) 0x3fff = d /\
  Z.land (ipsec_spi s d k) 3 = k.
Proof.
  intros Hs Hd Hk. rewrite ipsec_spi_value by done. rewrite !land_14, land_2.
  rewrite !Z.shiftr_div_pow2 by lia. split_and!; try lia; Z.div_mod_to_equations; lia.
Qed.

(** ** The states of two nodes *)

Section States.
Context `{NetlinkConsts}.
Implicit Types (p : IpsecRoutingProvider) (me remote : NodeInfo) (allNodes : list NodeInfo).

Lemma dir_in_out : (XFRM_DIR_IN =? XFRM_DIR_OUT) = false.
Proof.
  pose proof XFRM_dirs_distinct as Hd. rewrite !NoDup_cons in Hd. destruct Hd as [Hn _].
  apply Z.eqb_neq. intros He. apply Hn. rewrite He. by left.
Qed.

(** The four states of a remote node: out and in, AH and ESP. *)
Definition ah_association p (src dst : NodeInfo) (s d : Z) : XfrmState :=
  auth_Apply (authenticationStrategy p) (ipsec_state XFRM_PROTO_AH src dst (ipsec_spi s d 0)) src dst.

Definition esp_association p (src dst : NodeInfo) (s d : Z) : XfrmState :=
  encap_Apply (encapsulationStrategy p)
    (encr_Apply (encryptionStrategy p) (ipsec_state XFRM_PROTO_ESP src dst (ipsec_spi s d 1)) src dst) src dst.

Definition associations p (src dst : NodeInfo) (s d : Z) : list XfrmState :=
  (if UseAH (authenticationStrategy p) then [ah_association p src dst s d] else [])
  ++ (if UseESP (encryptionStrategy p) then [esp_association p src dst s d] else []).

Lemma remote_states_eq p me remote m r :
  remote_states p me remote m r = associations p remote me r m ++ associations p me remote m r.
Proof.
  unfold remote_states, associations, ah_state, esp_state. cbn [flat_map].
  rewrite dir_in_out, Z.eqb_refl, app_nil_r. done.
Qed.

(** C23: the two ends of a tunnel agree: what a node installs for the traffic to another one is, SPI,
    addresses, keys and all, what the other node installs for the traffic from it, for every choice
    of strategies the two share. *)
Theorem both_ends_agree p me remote m r s :
  s ∈ remote_states p me remote m r <-> s ∈ remote_states p remote me r m.
Proof. rewrite !remote_states_eq, !elem_of_app. tauto. Qed.

(** What a strategy leaves alone: what makes a state the association of two nodes. *)
Definition xs_header (s : XfrmState) : IP * IP * Z * Z * Z :=
  (xs_Dst s, xs_Src s, xs_Proto s, xs_Mode s, xs_Spi s).

Definition strategies_ok p : Prop :=
  (forall s a b, xs_header (auth_Apply (authenticationStrategy p) s a b) = xs_header s) /\
  (forall s a b, xs_header (encr_Apply (encryptionStrategy p) s a b) = xs_header s) /\
  (forall s a b, xs_header (encap_Apply (encapsulationStrategy p) s a b) = xs_header s).

Lemma strategies_Spi p :
  strategies_ok p ->
  (forall s a b, xs_Spi (auth_Apply (authenticationStrategy p) s a b) = xs_Spi s) /\
  (forall s a b, xs_Spi (encr_Apply (encryptionStrategy p) s a b) = xs_Spi s) /\
  (forall s a b, xs_Spi (encap_Apply (encapsulationStrategy p) s a b) = xs_Spi s).
Proof.
  intros (Ha & He & Hc).
  split_and!; intros s a b; [specialize (Ha s a b)|specialize (He s a b)|specialize (Hc s a b)];
    unfold xs_header in *; congruence.
Qed.

Lemma associations_spis p src dst s d x :
  strategies_ok p -> x ∈ associations p src dst s d ->
  xs_Spi x = ipsec_spi s d 0 \/ xs_Spi x = ipsec_spi s d 1.
Proof.
  intros (Ha & He & Hc)%strategies_Spi. unfold associations. rewrite elem_of_app. intros [Hx|Hx].
  - destruct (UseAH _); [|by apply not_elem_of_nil in Hx]. apply list_elem_of_singleton in Hx as ->.
    left. unfold ah_association. by rewrite Ha.
  - destruct (UseESP _); [|by apply not_elem_of_nil in Hx]. apply list_elem_of_singleton in Hx as ->.
    right. unfold esp_association. by rewrite Hc, He.
Qed.

Lemma associations_NoDup p src dst s d :
  strategies_ok p -> 0 <= s < 2 ^ 14 -> 0 <= d < 2 ^ 14 -> NoDup (xs_Spi <$> associations p src dst s d).
Proof.
  intros (Ha & He & Hc)%strategies_Spi Hs Hd. unfold associations.
  assert (xs_Spi (ah_association p src dst s d) = ipsec_spi s d 0) as H1 by (unfold ah_association; by rewrite Ha).
  assert (xs_Spi (esp_association p src dst s d) = ipsec_spi s d 1) as H2 by (unfold esp_association; by rewrite Hc, He).
  destruct (UseAH _), (UseESP _); cbn; rewrite ?H1, ?H2; repeat constructor;
    rewrite ?list_elem_of_singleton; try by intros ?%not_elem_of_nil.
  intros Heq. apply ipsec_spi_inj in Heq as (_ & _ & ?); lia.
Qed.

(** The numerals of the nodes that get states. *)
Definition remote_numerals me allNodes : list (option Z) :=
  omap (fun n => '(_, cidr) ← usable_remote me n; Some (computeNodeNumeral cidr)) allNodes.

Lemma ipsec_states_elem p me m allNodes l x :
  ipsec_states p me m allNodes = Some l -> x ∈ l ->
  exists n a cidr r, n ∈ allNodes /\ usable_remote me n = Some (a, cidr) /\ computeNodeNumeral cidr = Some r /\
    x ∈ remote_states p me n m r.
Proof.
  revert l. induction allNodes as [|n allNodes IH]; intros l; simpl; [intros [= <-] ?%not_elem_of_nil; done|].
  destruct (usable_remote me n) as [[a cidr]|] eqn:Hu; simpl.
  - destruct (computeNodeNumeral cidr) as [r|] eqn:Hr; simpl; [|done].
    destruct (ipsec_states p me m allNodes) as [l'|] eqn:Hl; simpl; [|done]. intros [= <-].
    rewrite elem_of_app. intros [Hx|Hx].
    + exists n, a, cidr, r. split; [by left|done].
    + destruct (IH l' eq_refl Hx) as (n' & a' & c' & r' & Hn & ?). exists n', a', c', r'. split; [by right|done].
  - intros Hl Hx. destruct (IH l Hl Hx) as (n' & a' & c' & r' & Hn & ?). exists n', a', c', r'. split; [by right|done].
Qed.

Lemma remote_states_spis p me remote m r x :
  strategies_ok p -> x ∈ remote_states p me remote m r ->
  exists k, (k = 0 \/ k = 1) /\ (xs_Spi x = ipsec_spi r m k \/ xs_Spi x = ipsec_spi m r k).
Proof.
  intros Hok. rewrite remote_states_eq, elem_of_app. intros [Hx|Hx];
    destruct (associations_spis _ _ _ _ _ _ Hok Hx); eauto.
Qed.

Lemma remote_states_NoDup p me remote m r :
  strategies_ok p -> 0 <= m < 2 ^ 14 -> 0 <= r < 2 ^ 14 -> m ≠ r -> NoDup (xs_Spi <$> remote_states p me remote m r).
Proof.
  intros Hok Hm Hr Hne. rewrite remote_states_eq, fmap_app. apply NoDup_app.
  split_and!; [by apply associations_NoDup| |by apply associations_NoDup].
  intros i (x & -> & Hx)%list_elem_of_fmap (y & Hxy & Hy)%list_elem_of_fmap.
  apply (associations_spis _ _ _ _ _ _ Hok) in Hx, Hy.
  assert (exists k k', (k = 0 \/ k = 1) /\ (k' = 0 \/ k' = 1) /\ ipsec_spi r m k = ipsec_spi m r k') as (k & k' & Hk & Hk' & He).
  { destruct Hx as [Hx|Hx], Hy as [Hy|Hy]; rewrite Hx, Hy in Hxy; eauto 10. }
  apply ipsec_spi_inj in He as (? & _ & _); lia.
Qed.

(** When the numerals of the nodes are distinct, so are the SPIs. *)
Lemma ipsec_states_NoDup p me m allNodes l :
  strategies_ok p -> 0 <= m < 2 ^ 14 -> NoDup (Some m :: remote_numerals me allNodes) ->
  ipsec_states p me m allNodes = Some l -> NoDup (xs_Spi <$> l).
Proof.
  intros Hok Hm. revert l. induction allNodes as [|n allNodes IH]; intros l Hnd; simpl; [intros [= <-]; apply NoDup_nil_2|].
  unfold remote_numerals in Hnd. cbn in Hnd. destruct (usable_remote me n) as [[a cidr]|] eqn:Hu; simpl; [|by apply IH].
  simpl in Hnd. fold (remote_numerals me allNodes) in Hnd. rewrite !NoDup_cons, !elem_of_cons in Hnd. destruct Hnd as (Hm1 & Hr1 & Hnd).
  destruct (computeNodeNumeral cidr) as [r|] eqn:Hr; simpl; [|done].
  destruct (ipsec_states p me m allNodes) as [l'|] eqn:Hl; simpl; [|done]. intros [= <-].
  pose proof (numeral_range _ _ Hr) as Hrr. assert (m ≠ r) as Hmr by (intros ->; apply Hm1; by left).
  rewrite fmap_app. apply NoDup_app. split_and!.
  - by apply remote_states_NoDup.
  - intros i (x & -> & Hx)%list_elem_of_fmap (y & Hxy & Hy)%list_elem_of_fmap.
    destruct (ipsec_states_elem _ _ _ _ _ _ Hl Hy) as (n' & a' & c' & r' & Hn' & Hu' & Hr' & Hy').
    pose proof (numeral_range _ _ Hr') as Hrr'.
    assert (r ≠ r') as Hne.
    { intros ->. apply Hr1. apply list_elem_of_omap. exists n'. rewrite Hu'. simpl. by rewrite Hr'. }
    assert (m ≠ r') as Hne'.
    { intros ->. apply Hm1. right. apply list_elem_of_omap. exists n'. rewrite Hu'. simpl. by rewrite Hr'. }
    destruct (remote_states_spis _ _ _ _ _ _ Hok Hx) as (k & Hk & Hsx).
    destruct (remote_states_spis _ _ _ _ _ _ Hok Hy') as (k' & Hk' & Hsy).
    destruct Hsx as [Hsx|Hsx], Hsy as [Hsy|Hsy]; rewrite Hsx, Hsy in Hxy; apply ipsec_spi_inj in Hxy; lia.
  - apply (IH l'); [|done]. apply NoDup_cons. split; [|done]. intros Hin. apply Hm1. by right.
Qed.

(** Two nodes of one numeral share an SPI, if there is any. *)
Lemma associations_same p me n n' m r x :
  strategies_ok p -> x ∈ associations p me n m r ->
  exists y, y ∈ associations p me n' m r /\ xs_Spi y = xs_Spi x.
Proof.
  intros (Ha & He & Hc)%strategies_Spi. unfold associations. rewrite elem_of_app. intros [Hx|Hx].
  - destruct (UseAH _) eqn:Hu; [|by apply not_elem_of_nil in Hx]. apply list_elem_of_singleton in Hx as ->.
    exists (ah_association p me n' m r). split; [by apply elem_of_app; left; left|]. unfold ah_association. by rewrite !Ha.
  - destruct (UseESP _) eqn:Hu; [|by apply not_elem_of_nil in Hx]. apply list_elem_of_singleton in Hx as ->.
    exists (esp_association p me n' m r). split; [by apply elem_of_app; right; left|].
    unfold esp_association. by rewrite !Hc, !He.
Qed.

(** Every SPI of two nodes is taken twice when a third one has the numeral of one of them. *)
Lemma ipsec_states_collide p me m pre mid post n n' a a' cidr cidr' r l :
  strategies_ok p -> UseAH (authenticationStrategy p) = true \/ UseESP (encryptionStrategy p) = true ->
  usable_remote me n = Some (a, cidr) -> usable_remote me n' = Some (a', cidr') ->
  computeNodeNumeral cidr = Some r -> computeNodeNumeral cidr' = Some r ->
  ipsec_states p me m (pre ++ n :: mid ++ n' :: post) = Some l -> ~ NoDup (xs_Spi <$> l).
Proof.
  intros Hok Huse Hu Hu' Hr Hr'. revert l. induction pre as [|x pre IH]; intros l; cbn [app ipsec_states].
  - rewrite Hu. simpl. rewrite Hr. simpl.
    destruct (ipsec_states p me m (mid ++ n' :: post)) as [l'|] eqn:Hl; simpl; [|done]. intros [= <-].
    assert (exists x, x ∈ associations p me n m r) as [x Hx].
    { unfold associations. destruct Huse as [-> | ->].
      - eexists. apply elem_of_app. left. by left.
      - eexists. apply elem_of_app. right. by left. }
    destruct (associations_same p me n n' m r x Hok Hx) as (y & Hy & Hxy).
    assert (y ∈ l') as Hyl.
    { clear -Hl Hy Hu' Hr'. revert l' Hl. induction mid as [|z mid IH]; intros l'; cbn [app ipsec_states].
      - rewrite Hu'. simpl. rewrite Hr'. simpl. destruct (ipsec_states p me m post); simpl; [|done]. intros [= <-].
        rewrite remote_states_eq, !elem_of_app. auto.
      - destruct (usable_remote me z) as [[? c]|]; [|apply IH]. simpl. destruct (computeNodeNumeral c); simpl; [|done].
        destruct (ipsec_states p me m (mid ++ n' :: post)) as [l''|]; simpl; [|done]. intros [= <-].
        rewrite elem_of_app. right. by apply IH. }
    rewrite fmap_app, NoDup_app. intros (_ & Hd & _). apply (Hd (xs_Spi x)).
    + apply list_elem_of_fmap_2. rewrite remote_states_eq, elem_of_app. auto.
    + rewrite <- Hxy. by apply list_elem_of_fmap_2.
  - destruct (usable_remote me x) as [[? c]|]; [|apply IH]. simpl. destruct (computeNodeNumeral c); simpl; [|done].
    destruct (ipsec_states p me m (pre ++ n :: mid ++ n' :: post)) as [l'|]; simpl; [|done]. intros [= <-].
    rewrite fmap_app, NoDup_app. intros (_ & _ & Hnd). by apply (IH l').
Qed.

(** Every remote node that counts has its states. *)
Lemma ipsec_states_complete p me m allNodes l n a cidr r :
  ipsec_states p me m allNodes = Some l -> n ∈ allNodes -> usable_remote me n = Some (a, cidr) ->
  computeNodeNumeral cidr = Some r -> forall x, x ∈ remote_states p me n m r -> x ∈ l.
Proof.
  intros Hl Hn Hu Hr x Hx. revert l Hl. induction allNodes as [|z allNodes IH]; intros l; [by apply not_elem_of_nil in Hn|].
  cbn [ipsec_states]. apply elem_of_cons in Hn as [<-|Hn].
  - rewrite Hu. simpl. rewrite Hr. simpl. destruct (ipsec_states p me m allNodes); simpl; [|done]. intros [= <-].
    apply elem_of_app. by left.
  - destruct (usable_remote me z) as [[? c]|]; [|by apply IH]. simpl. destruct (computeNodeNumeral c); simpl; [|done].
    destruct (ipsec_states p me m allNodes); simpl; [|done]. intros [= <-]. apply elem_of_app. right. by apply IH.
Qed.

(** A usable remote node of a run that got past the numerals has one. *)
Lemma ipsec_states_numeral p me m allNodes l n a cidr :
  ipsec_states p me m allNodes = Some l -> n ∈ allNodes -> usable_remote me n = Some (a, cidr) ->
  is_Some (computeNodeNumeral cidr).
Proof.
  intros Hl Hn Hu. revert l Hl. induction allNodes as [|z allNodes IH]; intros l; [by apply not_elem_of_nil in Hn|].
  cbn [ipsec_states]. apply elem_of_cons in Hn as [<-|Hn].
  - rewrite Hu. simpl. destruct (computeNodeNumeral cidr); simpl; [by eexists|done].
  - destruct (usable_remote me z) as [[? c]|]; [|by apply IH]. simpl. destruct (computeNodeNumeral c); simpl; [|done].
    destruct (ipsec_states p me m allNodes) as [l'|]; simpl; [|done]. intros _. by apply (IH Hn l').
Qed.
End States.

(** ** The work of the provider *)

(** The states are separate from the policies: what is done to these leaves those alone. *)
Class PolicyFrame (K : Type) `{Kernel K} `{NetlinkConsts} `{!StateLaws K} := {
  Policy_states : forall p k a, a = XfrmPolicyAdd p \/ a = XfrmPolicyUpdate p \/ a = XfrmPolicyDel p ->
    entries state_table (exec a k).2 ≡ₚ entries state_table k;
  PolicyList_lists : forall k, exists l, k_XfrmPolicyList FAMILY_ALL k = (inl l, k)
}.

(** And the other way round. *)
Class StateFrame (K : Type) `{Kernel K} `{NetlinkConsts} `{!PolicyLaws K} :=
  State_policies : forall s k a, a = XfrmStateAdd s \/ a = XfrmStateUpdate s \/ a = XfrmStateDel s ->
    entries policy_table (exec a k).2 ≡ₚ entries policy_table k.

#[export] Instance sim_PolicyFrame `{NetlinkConsts} : PolicyFrame Sim.
Proof.
  split; [|intros k; by eexists]. intros p k a [->|[->| ->]]; cbn; unfold sim_add, sim_del;
    [by destruct (existsb _ _)|by destruct (list_find _ _) as [[]|]|by destruct (decide _)].
Defined.

#[export] Instance sim_StateFrame `{NetlinkConsts} : StateFrame Sim.
Proof.
  intros p k a [->|[->| ->]]; cbn; unfold sim_add, sim_del;
    [by destruct (existsb _ _)|by destruct (list_find _ _) as [[]|]|by destruct (decide _)].
Defined.

Section Theorems.
Context {K : Type} `{Kernel K} `{NetlinkConsts}.
Implicit Types (w : World K IpsecRoutingProvider) (me : NodeInfo) (allNodes : list NodeInfo).

Lemma ipsec_apply_eq me allNodes w cidr a m l :
  PodCIDR me = Some cidr -> Address me = Some a -> computeNodeNumeral cidr = Some m ->
  ipsec_states (prov w) me m allNodes = Some l ->
  ipsec_apply me allNodes w
  = (wrap "error applying xfrm state: %v" (XfrmStateTable_Ensure l);;
     wrap "error applying xfrm policy: %v" (XfrmPolicyTable_Ensure (ipsec_policies me allNodes))) w.
Proof.
  intros Hc Ha Hm Hl. unfold ipsec_apply. rewrite Hc, Ha, Hm. rewrite bind_run. unfold get_prov. cbv beta iota.
  by rewrite Hl.
Qed.

(** C36: two nodes whose pod CIDRs have one numeral (networks of one size are a
    multiple of 16384 networks apart) end the process of every other node: the SPIs of their associations
    are the same, and the duplicate is fatal. Nothing has been changed by then. *)
Theorem colliding_numerals_exit me pre mid post n n' a a' cidr cidr' r w mine b m l actual k :
  PodCIDR me = Some mine -> Address me = Some b -> computeNodeNumeral mine = Some m ->
  usable_remote me n = Some (a, cidr) -> usable_remote me n' = Some (a', cidr') ->
  computeNodeNumeral cidr = Some r -> computeNodeNumeral cidr' = Some r ->
  strategies_ok (prov w) ->
  UseAH (authenticationStrategy (prov w)) = true \/ UseESP (encryptionStrategy (prov w)) = true ->
  ipsec_states (prov w) me m (pre ++ n :: mid ++ n' :: post) = Some l ->
  k_XfrmStateList FAMILY_ALL (kern w) = (inl actual, k) ->
  ipsec_apply me (pre ++ n :: mid ++ n' :: post) w = (Exit, after w (sched w) [] k).
Proof.
  intros Hc Hb Hm Hu Hu' Hr Hr' Hok Huse Hl Hlist. rewrite (ipsec_apply_eq _ _ _ _ _ _ _ Hc Hb Hm Hl).
  rewrite bind_run. unfold wrap at 1.
  rewrite (XfrmStateTable_Ensure_dup _ _ _ _ Hlist); [done|].
  exact (ipsec_states_collide _ _ _ _ _ _ _ _ _ _ _ _ _ _ Hok Huse Hu Hu' Hr Hr' Hl).
Qed.

Section Laws.
Context `{!StateLaws K} `{!PolicyFrame K}.

(** The policies are worked on without a crash and without an effect on the states. *)
Lemma XfrmPolicyTable_Ensure_frame expected w :
  let r := XfrmPolicyTable_Ensure expected w in
  r.1 ≠ Exit /\ entries state_table (kern r.2) ≡ₚ entries state_table (kern w).
Proof.
  split.
  - destruct (PolicyList_lists (kern w)) as [actual Hl]. destruct (policy_runs expected w actual _ Hl) as (? & ? & ? & ? & r & -> & _ & Ho).
    by destruct r.
  - assert (quiet (P := IpsecRoutingProvider) (fun k => entries state_table k ≡ₚ entries state_table (kern w)) (XfrmPolicyTable_Ensure expected)) as Hq;
      [|by apply Hq].
    unfold XfrmPolicyTable_Ensure. quiet_steps; intros k Hk.
    { destruct (PolicyList_lists k) as (l & ->). exact Hk. }
    all: rewrite Policy_states; eauto.
Qed.

(** The node's associations, neither more nor less, up to the program's comparison. *)
Definition associations_installed p me allNodes (m : Z) (installed : list XfrmState) : Prop :=
  (forall n a cidr, n ∈ allNodes -> usable_remote me n = Some (a, cidr) ->
     exists i, computeNodeNumeral cidr = Some i /\
       forall s, s ∈ associations p n me i m ++ associations p me n m i ->
         exists y, y ∈ installed /\ xfrmStateEqual y s = true) /\
  (forall y, y ∈ installed ->
     exists n a cidr i s, n ∈ allNodes /\ usable_remote me n = Some (a, cidr) /\ computeNodeNumeral cidr = Some i /\
       s ∈ associations p n me i m ++ associations p me n m i /\ xfrmStateEqual y s = true).

Lemma states_installed p me allNodes m l installed :
  ipsec_states p me m allNodes = Some l ->
  (forall e, e ∈ l -> exists y, y ∈ installed /\ xfrmStateEqual y e = true) ->
  (forall y, y ∈ installed -> exists e, e ∈ l /\ xfrmStateEqual y e = true) ->
  associations_installed p me allNodes m installed.
Proof.
  intros Hl Hin Hout. split.
  - intros n a cidr Hn Hu. destruct (ipsec_states_numeral _ _ _ _ _ _ _ _ Hl Hn Hu) as [i Hi].
    exists i. split; [done|]. intros x Hx. rewrite <- remote_states_eq in Hx.
    apply Hin. by eapply ipsec_states_complete.
  - intros y Hy. apply Hout in Hy as (e & He & Hq).
    destruct (ipsec_states_elem _ _ _ _ _ _ Hl He) as (n & a & cidr & i & Hn & Hu & Hi & Hx).
    exists n, a, cidr, i, e. rewrite <- remote_states_eq. done.
Qed.

(** What the provider needs of the nodes and of the states the kernel holds. *)
Record ipsec_goal me allNodes w mine b m l : Prop := {
  ig_mine : PodCIDR me = Some mine;
  ig_address : Address me = Some b;
  ig_numeral : computeNodeNumeral mine = Some m;
  ig_states : ipsec_states (prov w) me m allNodes = Some l;
  ig_strategies : strategies_ok (prov w);
  ig_distinct : NoDup (Some m :: remote_numerals me allNodes);
  ig_accepts : forall s, s ∈ l -> accepts state_table s;
  ig_actual : NoDup (xs_Spi <$> entries state_table (kern w));
  ig_agree : forall a e, a ∈ entries state_table (kern w) -> e ∈ l -> xs_Spi a = xs_Spi e -> state_conflict a e = true
}.

(** The first half of a run. *)
Lemma ipsec_states_run me allNodes w mine b m l :
  ipsec_goal me allNodes w mine b m l ->
  exists log s k', XfrmStateTable_Ensure l w = (Ret tt, after w s log k') /\
    associations_installed (prov w) me allNodes m (entries state_table k') /\
    ipsec_apply me allNodes w
    = wrap "error applying xfrm policy: %v" (XfrmPolicyTable_Ensure (ipsec_policies me allNodes)) (after w s log k').
Proof.
  intros [Hc Hb Hm Hl Hok Hnd Hacc Hact Hag].
  destruct (XfrmStateTable_Ensure_converges l w) as (log & s & k' & Hr & Hin & Hout).
  { split; try done. eapply ipsec_states_NoDup; [done|by eapply numeral_range|done|done]. }
  exists log, s, k'. split_and!; [done|by eapply states_installed|].
  rewrite (ipsec_apply_eq _ _ _ _ _ _ _ Hc Hb Hm Hl), bind_run. unfold wrap at 1. by rewrite Hr.
Qed.

Lemma associations_installed_perm p me allNodes m l1 l2 :
  l1 ≡ₚ l2 -> associations_installed p me allNodes m l1 -> associations_installed p me allNodes m l2.
Proof.
  intros Hp [Hin Hout]. split.
  - intros n a cidr Hn Hu. destruct (Hin n a cidr Hn Hu) as (i & Hi & Hx). exists i. split; [done|].
    intros s Hs. destruct (Hx s Hs) as (y & Hy & Hq). exists y. by rewrite <- Hp.
  - intros y Hy. apply Hout. by rewrite Hp.
Qed.

(** End to end for the security associations: when the numerals of the nodes are distinct and the
    kernel has no state of one of the SPIs with another destination or protocol, the run does not
    crash, and whatever becomes of the policies it leaves exactly the associations of the node: for
    every node with an address and a pod CIDR, the AH and ESP states of both directions that the
    strategies ask for, and no other state. *)
Theorem ipsec_installs_associations me allNodes w mine b m l :
  ipsec_goal me allNodes w mine b m l ->
  let r := ipsec_apply me allNodes w in
  r.1 ≠ Exit /\
  (forall n a cidr, n ∈ allNodes -> usable_remote me n = Some (a, cidr) ->
     exists i, computeNodeNumeral cidr = Some i /\
       forall s, s ∈ associations (prov w) n me i m ++ associations (prov w) me n m i ->
         exists y, y ∈ entries state_table (kern r.2) /\ xfrmStateEqual y s = true) /\
  (forall y, y ∈ entries state_table (kern r.2) ->
     exists n a cidr i s, n ∈ allNodes /\ usable_remote me n = Some (a, cidr) /\ computeNodeNumeral cidr = Some i /\
       s ∈ associations (prov w) n me i m ++ associations (prov w) me n m i /\ xfrmStateEqual y s = true).
Proof.
  intros Hg. cbv zeta. destruct (ipsec_states_run _ _ _ _ _ _ _ Hg) as (log & s & k' & _ & Hi & ->).
  destruct (XfrmPolicyTable_Ensure_frame (ipsec_policies me allNodes) (after w s log k')) as [Hne Hst].
  rewrite kern_after in Hst. rewrite wrap_world, wrap_Exit. split; [done|].
  by apply (associations_installed_perm _ _ _ _ (entries state_table k')).
Qed.

(** With the policies: the whole work of the provider. *)
Context `{!PolicyLaws K} `{!StateFrame K}.

Lemma policies_goal_perm expected k k' :
  entries policy_table k' ≡ₚ entries policy_table k -> policies_goal expected k -> policies_goal expected k'.
Proof.
  intros Hp [He Ha Hag Hacc]. split; [done|by rewrite Hp| |].
  - intros a e. rewrite Hp. apply Hag.
  - intros e Hin. setoid_rewrite Hp. by apply Hacc.
Qed.

Lemma XfrmStateTable_Ensure_policies expected w :
  entries policy_table (kern (XfrmStateTable_Ensure expected w).2) ≡ₚ entries policy_table (kern w).
Proof.
  assert (quiet (P := IpsecRoutingProvider) (fun k => entries policy_table k ≡ₚ entries policy_table (kern w))
            (XfrmStateTable_Ensure expected)) as Hq; [|by apply Hq].
  unfold XfrmStateTable_Ensure. quiet_steps; intros k Hk.
  { destruct (XfrmStateList_lists k) as (l & -> & _). exact Hk. }
  all: rewrite State_policies; eauto.
Qed.

(** C21: end to end for the ipsec provider. Conditions: the numerals of the nodes and the selectors
    of the policies are distinct; the states the kernel holds already have distinct SPIs, and one with
    the SPI of an expected state has its destination and protocol too - a state of another destination, as
    after a change of address, makes every run fail ([readdressed_state_stuck]) -; the policies it holds
    have distinct selectors and the mark of the expected policy of the same selector; and it takes
    the states and policies it does not hold. Then the run succeeds, and the kernel has exactly the AH
    and ESP associations of the node with every other node, and exactly the policies that send the
    traffic between the pods and the addresses of the two through ESP, with the default ones. *)
Theorem ipsec_protects_every_node me allNodes w mine b m l :
  ipsec_goal me allNodes w mine b m l -> policies_goal (ipsec_policies me allNodes) (kern w) ->
  exists w', ipsec_apply me allNodes w = (Ret tt, w') /\
    associations_installed (prov w) me allNodes m (entries state_table (kern w')) /\
    (forall e, e ∈ ipsec_policies me allNodes -> exists y, y ∈ entries policy_table (kern w') /\ policy_held e y) /\
    (forall y, y ∈ entries policy_table (kern w') -> exists e, e ∈ ipsec_policies me allNodes /\ policy_held e y).
Proof.
  intros Hg Hp. destruct (ipsec_states_run _ _ _ _ _ _ _ Hg) as (log & s & k' & Hr & Hi & ->).
  pose proof (XfrmStateTable_Ensure_policies l w) as Hk. rewrite Hr in Hk. simpl in Hk.
  destruct (XfrmPolicyTable_Ensure_converges (ipsec_policies me allNodes) (after w s log k')) as (log2 & s2 & k2 & Hr2 & _ & Hin & Hout).
  { rewrite kern_after. by eapply policies_goal_perm. }
  destruct (XfrmPolicyTable_Ensure_frame (ipsec_policies me allNodes) (after w s log k')) as [_ Hst].
  rewrite Hr2 in Hst. unfold wrap. rewrite Hr2. eexists. split; [reflexivity|]. split_and!; [|done..].
  by apply (associations_installed_perm _ _ _ _ (entries state_table k')).
Qed.
End Laws.
End Theorems.

(** ** Policies *)

Section Policies.
Context `{NetlinkConsts}.
Implicit Types (me n : NodeInfo) (nodes : list NodeInfo) (pol : XfrmPolicy).

Definition set_Dir (d : Z) (p : XfrmPolicy) : XfrmPolicy :=
  MkXfrmPolicy (xp_Dst p) (xp_Src p) (xp_Proto p) (xp_DstPort p) (xp_SrcPort p) d
    (xp_Priority p) (xp_Index p) (xp_Mark p) (xp_Tmpls p).

Definition out_policy me n (mine theirs : option IPNet) (dir : Z) : XfrmPolicy :=
  ipsec_policy mine theirs 0 0 dir 100
    [MkXfrmPolicyTmpl (Address n) (Address me) XFRM_PROTO_ESP XFRM_MODE_TUNNEL 0 0].

Lemma dirs_distinct :
  XFRM_DIR_IN ≠ XFRM_DIR_OUT /\ XFRM_DIR_FWD ≠ XFRM_DIR_OUT.
Proof.
  pose proof XFRM_dirs_distinct as Hd. rewrite !NoDup_cons, !elem_of_cons in Hd.
  split; intros He; rewrite He in Hd; tauto.
Qed.

Lemma elem_of_remote_policies me n mine theirs pol :
  pol ∈ remote_policies me n mine theirs
  <-> pol = out_policy me n mine theirs XFRM_DIR_OUT \/
      pol = out_policy n me theirs mine XFRM_DIR_IN \/ pol = out_policy n me theirs mine XFRM_DIR_FWD.
Proof.
  destruct dirs_distinct as [Hi Hf]. unfold remote_policies. cbn [fmap list_fmap].
  rewrite (proj2 (Z.eqb_neq _ _) Hi), (proj2 (Z.eqb_neq _ _) Hf), Z.eqb_refl, !elem_of_cons.
  unfold out_policy. split; [intros [?|[?|[?|?%not_elem_of_nil]]]; auto; done|naive_solver].
Qed.

Lemma elem_of_ipsec_policies me nodes pol :
  pol ∈ ipsec_policies me nodes
  <-> pol ∈ base_policies \/
      exists n a cidr, n ∈ nodes /\ usable_remote me n = Some (a, cidr) /\
        (pol ∈ remote_policies me n (PodCIDR me) (Some cidr) \/
         pol ∈ remote_policies me n (PodCIDR me) (Some (ipToIpnet a)) \/
         pol ∈ remote_policies me n (Some (ipToIpnet (Address me))) (Some cidr)).
Proof.
  unfold ipsec_policies. rewrite elem_of_app. apply or_iff_compat_l.
  rewrite list_elem_of_In, in_flat_map. split.
  - intros (n & Hn & Hp). destruct (usable_remote me n) as [[a cidr]|] eqn:Hu; [|done].
    rewrite <- list_elem_of_In, !elem_of_app in Hp. exists n, a, cidr. by rewrite list_elem_of_In.
  - intros (n & a & cidr & Hn & Hu & Hp). exists n. rewrite <- list_elem_of_In, Hu.
    by rewrite <- list_elem_of_In, !elem_of_app.
Qed.

Lemma base_policies_plain pol : pol ∈ base_policies -> xp_Tmpls pol = [].
Proof.
  unfold base_policies. rewrite elem_of_app. by intros [(d & -> & _)%list_elem_of_fmap|(d & -> & _)%list_elem_of_fmap].
Qed.

(** A protected outbound policy and the three selectors it can have. *)
Lemma outbound_policy me nodes pol :
  pol ∈ ipsec_policies me nodes -> xp_Dir pol = XFRM_DIR_OUT -> xp_Tmpls pol ≠ [] ->
  exists n a cidr mine theirs, n ∈ nodes /\ usable_remote me n = Some (a, cidr) /\
    pol = out_policy me n mine theirs XFRM_DIR_OUT /\
    (mine = PodCIDR me /\ theirs = Some cidr \/ mine = PodCIDR me /\ theirs = Some (ipToIpnet a) \/
     mine = Some (ipToIpnet (Address me)) /\ theirs = Some cidr).
Proof.
  destruct dirs_distinct as [Hi Hf].
  intros Hp Hd Ht. apply elem_of_ipsec_policies in Hp as [Hp%base_policies_plain|(n & a & cidr & Hn & Hu & Hp)]; [done|].
  assert (forall mine theirs, pol ∈ remote_policies me n mine theirs -> pol = out_policy me n mine theirs XFRM_DIR_OUT) as Hout.
  { intros mine theirs [->|[->| ->]]%elem_of_remote_policies; [done|..]; cbn in Hd; congruence. }
  destruct Hp as [Hp|[Hp|Hp]]; apply Hout in Hp; eauto 12.
Qed.

(** C22: protected traffic is protected the same way at both ends and has keys to be protected with:
    for every policy with which a node sends traffic through ESP, the node at the other end has the
    policies that expect it, inbound and forwarded, with the same selectors, addresses and
    priority, and among the node's own associations is an ESP one between these addresses. *)
Theorem protected_both_ways p me nodes pol m l :
  me ∈ nodes -> is_Some (Address me) -> is_Some (PodCIDR me) ->
  pol ∈ ipsec_policies me nodes -> xp_Dir pol = XFRM_DIR_OUT -> xp_Tmpls pol ≠ [] ->
  strategies_ok p -> UseESP (encryptionStrategy p) = true -> ipsec_states p me m nodes = Some l ->
  (exists n, n ∈ nodes /\ Name n ≠ Name me /\
     set_Dir XFRM_DIR_IN pol ∈ ipsec_policies n nodes /\ set_Dir XFRM_DIR_FWD pol ∈ ipsec_policies n nodes) /\
  (forall t, t ∈ xp_Tmpls pol ->
     exists s, s ∈ l /\ xs_header s = (tmpl_Dst t, tmpl_Src t, tmpl_Proto t, tmpl_Mode t, xs_Spi s)).
Proof.
  intros Hme [b Hb] [mc Hmc] Hp Hd Ht Hok Hesp Hl.
  destruct (outbound_policy _ _ _ Hp Hd Ht) as (n & a & cidr & mine & theirs & Hn & Hu & -> & Hsel).
  pose proof Hu as (Hne & [x ->] & Ha & Hcidr)%usable_remote_Some. split.
  - exists n. split_and!; [done|done|..]; apply elem_of_ipsec_policies; right; exists me, (Some b), mc;
      (split_and!; [done|by apply usable_remote_Some; eauto|]); rewrite !elem_of_remote_policies, Hcidr, Ha; cbn in *;
      destruct Hsel as [[-> ->]|[[-> ->]|[-> ->]]]; rewrite ?Hmc, ?Hb; cbn; tauto.
  - intros t ->%list_elem_of_singleton. cbn.
    destruct (ipsec_states_numeral _ _ _ _ _ _ _ _ Hl Hn Hu) as [r Hr].
    exists (esp_association p me n m r). split.
    + eapply ipsec_states_complete; [done..|]. rewrite remote_states_eq, elem_of_app. right.
      unfold associations. rewrite Hesp. apply elem_of_app. right. by left.
    + destruct Hok as (Hka & Hke & Hkc). unfold esp_association at 1. rewrite Hkc, Hke.
      unfold xs_header. cbn. f_equal. unfold esp_association.
      destruct (strategies_Spi p) as (_ & He & Hc); [by split_and!|]. by rewrite Hc, He.
Qed.
End Policies.

Section Witnesses.
#[local] Existing Instance netlink_v1_1_0.

Definition sim_ipsec : IpsecRoutingProvider :=
  MkIpsec HmacSha1AuthenticationStrategy AesEncryptionStrategy UdpEncapsulationStrategy None 0.

(** The strategies of the package, in every combination. *)
Lemma shipped_strategies_ok auth encr encap u v :
  auth ∈ [HmacSha1AuthenticationStrategy; PlaintextAuthenticationStrategy] ->
  encr ∈ [AesEncryptionStrategy; PlaintextEncryptionStrategy] ->
  encap ∈ [UdpEncapsulationStrategy; EspEncapsulationStrategy] ->
  strategies_ok (MkIpsec auth encr encap u v).
Proof. rewrite !elem_of_cons, !elem_of_nil. unfold strategies_ok. naive_solver. Qed.

Lemma sim_ipsec_ok : strategies_ok sim_ipsec.
Proof. by repeat split. Qed.

Lemma node_numeral_is_network_number_witness :
  computeNodeNumeral (MkIPNet (Some [u8 100; u8 96; u8 1; u8 0]) (CIDRMask 24 32)) = Some 0x2001.
Proof. rewrite (node_numeral_is_network_number (u8 100) (u8 96) (u8 1) (u8 0) 24); [reflexivity|lia]. Defined.

Lemma spi_identifies_association_witness : Z.land (Z.shiftr (ipsec_spi 0x2001 0x2002 1) 16) 0x3fff = 0x2001.
Proof.
  destruct (spi_identifies_association 0x2001 0x2002 1) as (_ & Hs & _); [lia..|]. exact Hs.
Defined.

Lemma colliding_numerals_exit_witness :
  let n := MkNodeInfo "n" (ip4 172 20 0 2) (Some (net4 10 0 1 0 24)) true in
  let n' := MkNodeInfo "m" (ip4 172 20 0 3) (Some (net4 10 64 1 0 24)) true in
  fst (ipsec_apply info_me [info_me; n; n'] (sim_world sim_empty sim_ipsec)) = Exit.
Proof.
  intros n n'.
  destruct (ipsec_states sim_ipsec info_me 0x2001 [info_me; n; n']) as [l|] eqn:Hl; [|vm_compute in Hl; discriminate].
  rewrite (colliding_numerals_exit info_me [info_me] [] [] n n' (ip4 172 20 0 2) (ip4 172 20 0 3) (net4 10 0 1 0 24)
             (net4 10 64 1 0 24) 1 (sim_world sim_empty sim_ipsec) (net4 100 96 1 0 24) (bytes_of (ip4 172 20 0 1))
             0x2001 l [] sim_empty);
    [reflexivity|reflexivity|reflexivity|vm_compute; reflexivity|vm_compute; reflexivity|vm_compute; reflexivity
    |vm_compute; reflexivity|vm_compute; reflexivity|exact sim_ipsec_ok|by left|exact Hl|reflexivity].
Defined.

Lemma ipsec_installs_associations_witness :
  let r := ipsec_apply info_me [info_me; info_other] (sim_world sim_empty sim_ipsec) in
  r.1 ≠ Exit /\ exists y, y ∈ entries state_table (kern r.2).
Proof.
  destruct (ipsec_states sim_ipsec info_me 0x2001 [info_me; info_other]) as [l|] eqn:Hl; [|vm_compute in Hl; discriminate].
  destruct (ipsec_installs_associations info_me [info_me; info_other] (sim_world sim_empty sim_ipsec)
              (net4 100 96 1 0 24) (bytes_of (ip4 172 20 0 1)) 0x2001 l) as (Hne & Hin & _).
  { split; [reflexivity|reflexivity|vm_compute; reflexivity|exact Hl|exact sim_ipsec_ok|by_computation|intros s _; exact I
           |by_computation|intros a e Ha; exfalso; revert Ha; apply not_elem_of_nil]. }
  split; [exact Hne|].
  destruct (Hin info_other (ip4 172 20 0 2) (net4 100 96 2 0 24)) as (i & Hi & Hall);
    [right; by left|vm_compute; reflexivity|].
  destruct (Hall (ah_association sim_ipsec info_other info_me i 0x2001)) as (y & Hy & _); [by left|].
  exists y. exact Hy.
Defined.

(** The kernel starts with the policies of the listener's socket, which it would not add. *)
Definition sim_sockets : Sim :=
  set_policies ((fun dir => ipsec_policy (Some ipnetAll) (Some ipnetAll) 0 0 dir 0 []) <$> [XFRM_SOCKET_IN; XFRM_SOCKET_OUT]) sim_empty.

Lemma ipsec_protects_every_node_witness :
  exists w', ipsec_apply info_me [info_me; info_other] (sim_world sim_sockets sim_ipsec) = (Ret tt, w') /\
    exists y, y ∈ entries policy_table (kern w') /\
      policy_held (out_policy info_me info_other (PodCIDR info_me) (PodCIDR info_other) XFRM_DIR_OUT) y.
Proof.
  destruct (ipsec_states sim_ipsec info_me 0x2001 [info_me; info_other]) as [l|] eqn:Hl; [|vm_compute in Hl; discriminate].
  destruct (ipsec_protects_every_node info_me [info_me; info_other] (sim_world sim_sockets sim_ipsec)
              (net4 100 96 1 0 24) (bytes_of (ip4 172 20 0 1)) 0x2001 l) as (w' & Hr & _ & Hin & _).
  - split; [reflexivity|reflexivity|vm_compute; reflexivity|exact Hl|exact sim_ipsec_ok|by_computation|intros s _; exact I
           |by_computation|intros a e Ha; exfalso; revert Ha; apply not_elem_of_nil].
  - split; [by_computation|by_computation| |intros e _; right; intros i; exact I].
    intros a e Ha He Hk. apply xfrmPolicyMatches_iff in Hk. unfold policy_conflict. rewrite Hk. clear Hk.
    assert (xp_Mark a = None) as ->; [revert a Ha; apply Forall_forall; by_computation|].
    assert (xp_Mark e = None) as ->; [revert e He; apply Forall_forall; by_computation|]. reflexivity.
  - exists w'. split; [exact Hr|]. apply Hin. apply elem_of_ipsec_policies. right.
    exists info_other, (ip4 172 20 0 2), (net4 100 96 2 0 24).
    split; [right; by left|]. split; [vm_compute; reflexivity|]. left. apply elem_of_remote_policies. left. reflexivity.
Defined.

Lemma protected_both_ways_witness :
  let pol := out_policy info_me info_other (PodCIDR info_me) (PodCIDR info_other) XFRM_DIR_OUT in
  exists n, n ∈ [info_me; info_other] /\ set_Dir XFRM_DIR_IN pol ∈ ipsec_policies n [info_me; info_other].
Proof.
  intros pol.
  destruct (ipsec_states sim_ipsec info_me 0x2001 [info_me; info_other]) as [l|] eqn:Hl; [|vm_compute in Hl; discriminate].
  destruct (protected_both_ways sim_ipsec info_me [info_me; info_other] pol 0x2001 l) as ((n & Hn & _ & Hin & _) & _);
    [by left|by eexists|by eexists| |reflexivity|discriminate|exact sim_ipsec_ok|reflexivity|exact Hl|].
  - apply elem_of_ipsec_policies. right. exists info_other, (ip4 172 20 0 2), (net4 100 96 2 0 24).
    split; [right; by left|]. split; [vm_compute; reflexivity|]. left. apply elem_of_remote_policies. left. reflexivity.
  - exists n. split; [exact Hn|exact Hin].
Defined.
End Witnesses.
