(* ===== verification/IpsecDelivery.v ===== *)
(** * What the ipsec provider delivers

    The instance of [Delivery] for the ipsec provider: whatever the kernel held before, after a run
    that returned nil the associations and the policies of every other node are there, provided the
    policies the nodes ask for have distinct selectors. *)

From S2P Require Import Prelude GoNet GoNetFacts K8s Nodes NodesFacts NodeMapSpec Netlink Effects.
From S2P Require Import Tables Reconcile XfrmTables KernelLaws Sim XfrmFacts PolicyFacts Provider Delivery Ipsec IpsecFacts.

Section Ipsec.
Context {K : Type} `{Kernel K} `{NetlinkConsts} `{!StateLaws K} `{!PolicyLaws K} `{!PolicyFrame K}.
Context `{!Untouched (entries state_table)} `{!Untouched (entries policy_table)}.
Implicit Types (w : World K IpsecRoutingProvider) (me n : NodeInfo) (k : K).

(** The policies of a pair of nodes: between their pods, and between the pods of the one and the
    address of the other. *)
Definition node_policies me n (address : IP) (cidr : IPNet) : list XfrmPolicy :=
  remote_policies me n (PodCIDR me) (Some cidr)
  ++ remote_policies me n (PodCIDR me) (Some (ipToIpnet address))
  ++ remote_policies me n (Some (ipToIpnet (Address me))) (Some cidr).

Lemma node_policies_in me nodes n a cidr e :
  n ∈ nodes -> usable_remote me n = Some (a, cidr) -> e ∈ node_policies me n a cidr -> e ∈ ipsec_policies me nodes.
Proof.
  intros Hn Hu. unfold node_policies. rewrite !elem_of_app. intros He. apply elem_of_ipsec_policies. right.
  exists n, a, cidr. tauto.
Qed.

Lemma ipsec_policies_perm me l1 l2 : l1 ≡ₚ l2 -> ipsec_policies me l1 ≡ₚ ipsec_policies me l2.
Proof. intros Hp. unfold ipsec_policies. f_equiv. by apply Permutation.Permutation_flat_map. Qed.

(** The associations between the local node and the node at the address, and the policies that send
    the traffic between them there. *)
Definition ipsec_delivered (p : IpsecRoutingProvider) k me (address : IP) (cidr : IPNet) : Prop :=
  exists n m i,
    (Address n = address /\ PodCIDR n = Some cidr /\ computeNodeNumeral cidr = Some i /\
     (mine ← PodCIDR me; computeNodeNumeral mine) = Some m) /\
    (forall s, s ∈ associations p n me i m ++ associations p me n m i ->
       exists y, y ∈ entries state_table k /\ xfrmStateEqual y s = true) /\
    (forall e, e ∈ node_policies me n address cidr -> exists y, y ∈ entries policy_table k /\ policy_held e y).

(** Distinct selectors; [selectors_distinct] says when this is so. *)
Definition selectors_apart me (v : gmap string NodeInfo) : Prop :=
  NoDup (policy_key <$> ipsec_policies me (map_to_list v).*2).

Lemma snapshot_perm nm o : NodeMap_wf nm -> snapshot_list o nm ≡ₚ (map_to_list (view nm)).*2.
Proof.
  intros Hwf. destruct (snapshot_nodes nm o Hwf) as [Hin Hnd].
  assert (forall x n, view nm !! x = Some n -> Name n = x) as Hname.
  { intros x n Hx. pose proof (snapshot_member nm o x n Hwf Hx) as Hn%Hin.
    unfold view in Hx. rewrite lookup_fmap in Hx. apply fmap_Some in Hx as (l & Hl & ->).
    destruct (wf_node _ Hwf _ _ Hl) as (n' & Hn' & Hnm). unfold deref. by rewrite Hn'. }
  apply NoDup_Permutation; [by eapply NoDup_fmap_1| |].
  - apply (NoDup_fmap_1 Name). rewrite <- list_fmap_compose.
    rewrite (list_fmap_ext (Name ∘ snd) fst).
    + apply NoDup_fst_map_to_list.
    + intros i [x n] Hi%list_elem_of_lookup_2%elem_of_map_to_list. by apply Hname.
  - intros n. rewrite Hin, list_elem_of_fmap. split.
    + intros Hn. exists (Name n, n). split; [done|by apply elem_of_map_to_list].
    + intros ([x n'] & -> & Hx%elem_of_map_to_list). simpl. by rewrite (Hname _ _ Hx).
Qed.

Lemma ipsec_apply_success me allNodes w w' :
  ipsec_apply me allNodes w = (Ret tt, w') -> NoDup (policy_key <$> ipsec_policies me allNodes) ->
  prov w' = prov w /\
  exists m l, (mine ← PodCIDR me; computeNodeNumeral mine) = Some m /\ ipsec_states (prov w) me m allNodes = Some l /\
    (forall e, e ∈ l -> exists y, y ∈ entries state_table (kern w') /\ xfrmStateEqual y e = true) /\
    (forall e, e ∈ ipsec_policies me allNodes -> exists y, y ∈ entries policy_table (kern w') /\ policy_held e y).
Proof.
  unfold ipsec_apply. destruct (PodCIDR me) as [mine|] eqn:Hc; [|done]. destruct (Address me) as [b|]; [|done].
  cbn [mbind option_bind]. destruct (computeNodeNumeral mine) as [m|] eqn:Hm; [|done]. rewrite bind_run. unfold get_prov. cbv beta iota.
  destruct (ipsec_states (prov w) me m allNodes) as [l|] eqn:Hl; [|done].
  intros ([] & w1 & Hs%wrap_Ret_inv & Hr%wrap_Ret_inv)%bind_Ret_inv Hnd.
  destruct (XfrmStateTable_Ensure_success _ _ _ Hs) as [_ Hst].
  pose proof (XfrmPolicyTable_Ensure_success _ _ _ Hnd Hr) as Hpol.
  pose proof (XfrmStateTable_Ensure_keeps (fun p => p) l w) as [Hp1 _]. rewrite Hs in Hp1.
  pose proof (XfrmPolicyTable_Ensure_keeps (fun p => p) (ipsec_policies me allNodes) w1) as [Hp2 _]. rewrite Hr in Hp2.
  destruct (XfrmPolicyTable_Ensure_frame (ipsec_policies me allNodes) w1) as [_ Hframe]. rewrite Hr in Hframe.
  cbn [snd] in *. split; [congruence|]. exists m, l. split_and!; [done..| |done].
  intros e He. destruct (Hst e He) as (y & Hy & Hq). exists y. by rewrite Hframe.
Qed.

Lemma undisturbed_members {A B} (part : K -> list B) `{!Untouched part} (l : list A) (R : A -> B -> Prop) :
  undisturbed (fun k => forall x, x ∈ l -> exists y, y ∈ part k /\ R x y).
Proof.
  split.
  - intros a k Ha HQ x Hx. destruct (HQ x Hx) as (y & Hy & HR). exists y. by rewrite aside_part.
  - intros path k HQ x Hx. destruct (HQ x Hx) as (y & Hy & HR). exists y. by rewrite ReadFile_part.
Qed.

#[export] Instance Ipsec_Delivery : Delivery K IpsecRoutingProvider.
Proof.
  refine {| delivered := ipsec_delivered; deliverable := fun _ _ => selectors_apart |}.
  - intros nm0 nm w w' Hr Hl Hwf Hap name n a cidr Hn Hu.
    destruct (ensure_version_success _ _ _ _ _ _ _ Hr Hl) as (_ & w0 & w1 & _ & Hb & -> & ->).
    pose proof (snapshot_perm nm (sched w 0%nat) Hwf) as Hperm.
    destruct (ipsec_apply_success _ _ _ _ Hb) as (Hp & m & l & Hm & Hst & Hin & Hpol).
    { by rewrite (ipsec_policies_perm _ _ _ Hperm). }
    pose proof (snapshot_member nm (sched w 0%nat) name n Hwf Hn) as Hmem.
    destruct (ipsec_states_numeral _ _ _ _ _ _ _ _ Hst Hmem Hu) as [i Hi].
    pose proof (proj1 (usable_remote_Some _ _ _ _) Hu) as (_ & _ & Ha & Hcidr).
    exists n, m, i. split_and!; [done..| |].
    + intros s Hs. apply Hin. eapply ipsec_states_complete; [done..|]. rewrite remote_states_eq.
      rewrite Hp in Hs. exact Hs.
    + intros e He. apply Hpol. by eapply node_policies_in.
  - intros p me a cidr. unfold ipsec_delivered.
    repeat (apply undisturbed_ex; intros ?).
    apply undisturbed_and; [apply undisturbed_const|apply undisturbed_and; by apply undisturbed_members].
  - intros p me v. apply unaffected_const.
Defined.
End Ipsec.

(** ** When the selectors are distinct

    They are when the networks they are made of are: the pod CIDRs and the addresses of the nodes. *)

Section Selectors.
Context `{NetlinkConsts}.
Implicit Types (me n : NodeInfo) (nodes : list NodeInfo).

(** The networks at the other end. *)
Definition node_nets me n :=
  match usable_remote me n with
  | Some (address, cidr) => [ipnet_key (Some cidr); ipnet_key (Some (ipToIpnet address))]
  | None => []
  end.

Definition far_net (p : XfrmPolicy) :=
  if xp_Dir p =? XFRM_DIR_OUT then ipnet_key (xp_Dst p) else ipnet_key (xp_Src p).

Definition near_net (p : XfrmPolicy) :=
  if xp_Dir p =? XFRM_DIR_OUT then ipnet_key (xp_Src p) else ipnet_key (xp_Dst p).

Lemma policy_key_ends p q :
  policy_key p = policy_key q -> xp_Dir p = xp_Dir q /\ xp_Proto p = xp_Proto q /\ far_net p = far_net q /\ near_net p = near_net q.
Proof. unfold policy_key, far_net, near_net. intros [= -> _ _ -> -> ->]. done. Qed.

Lemma remote_policies_ends me n mine theirs p :
  p ∈ remote_policies me n mine theirs ->
  far_net p = ipnet_key theirs /\ near_net p = ipnet_key mine /\ xp_Proto p = 0 /\
  xp_Dir p ∈ [XFRM_DIR_IN; XFRM_DIR_OUT; XFRM_DIR_FWD].
Proof.
  destruct dirs_distinct as [Hi%Z.eqb_neq Hf%Z.eqb_neq]. rewrite elem_of_remote_policies. unfold far_net, near_net.
  intros [->|[->| ->]]; cbn; rewrite ?Z.eqb_refl, ?Hi, ?Hf, !elem_of_cons; auto 10.
Qed.

Lemma NoDup_dirs {A} (f : Z -> A) (g : A -> Z) l : NoDup l -> (forall d, g (f d) = d) -> NoDup (f <$> l).
Proof. intros Hl Hg. apply NoDup_fmap_2; [|done]. intros x y Hxy. by rewrite <- (Hg x), Hxy, Hg. Qed.

Lemma three_dirs : NoDup [XFRM_DIR_IN; XFRM_DIR_OUT; XFRM_DIR_FWD].
Proof. exact (proj1 (proj1 (NoDup_app [_; _; _] [_; _]) XFRM_dirs_distinct)). Qed.

Lemma remote_policies_NoDup me n mine theirs : NoDup (policy_key <$> remote_policies me n mine theirs).
Proof.
  unfold remote_policies. rewrite <- list_fmap_compose. apply (NoDup_dirs _ (fun k => k.1.1.1.1.1)); [apply three_dirs|].
  intros d. cbn. by destruct (d =? XFRM_DIR_OUT).
Qed.

Lemma base_policies_NoDup : NoDup (policy_key <$> base_policies).
Proof.
  pose proof XFRM_dirs_distinct as Hd. apply (NoDup_app [_; _; _] [_; _]) in Hd as (_ & _ & Hs).
  unfold base_policies. rewrite fmap_app, <- !list_fmap_compose. apply NoDup_app. split_and!.
  - apply (NoDup_dirs _ (fun k => k.1.1.1.1.1)); [apply three_dirs|done].
  - intros k (d & -> & _)%list_elem_of_fmap (d' & Hk & _)%list_elem_of_fmap. done.
  - apply (NoDup_dirs _ (fun k => k.1.1.1.1.1)); [apply Hs|done].
Qed.

Lemma node_policies_ends me n a cidr p :
  p ∈ node_policies me n a cidr -> xp_Proto p = 0 /\ xp_Dir p ∈ [XFRM_DIR_IN; XFRM_DIR_OUT; XFRM_DIR_FWD] /\
  far_net p ∈ [ipnet_key (Some cidr); ipnet_key (Some (ipToIpnet a))].
Proof.
  unfold node_policies. rewrite !elem_of_app, !elem_of_cons.
  intros [Hp|[Hp|Hp]]; apply remote_policies_ends in Hp as (-> & _ & -> & Hd); rewrite !elem_of_cons in Hd; auto.
Qed.

Lemma node_policies_NoDup me n a cidr :
  ipnet_key (Some cidr) ≠ ipnet_key (Some (ipToIpnet a)) ->
  ipnet_key (PodCIDR me) ≠ ipnet_key (Some (ipToIpnet (Address me))) -> NoDup (policy_key <$> node_policies me n a cidr).
Proof.
  intros Hf Hn. unfold node_policies. rewrite !fmap_app.
  apply NoDup_app. split_and!; [apply remote_policies_NoDup| |apply NoDup_app; split_and!; try apply remote_policies_NoDup].
  all: intros k (p & -> & Hp)%list_elem_of_fmap.
  - rewrite elem_of_app, !list_elem_of_fmap. intros [(q & (_ & _ & Hfk & Hnk)%policy_key_ends & Hq)|(q & (_ & _ & Hfk & Hnk)%policy_key_ends & Hq)];
      apply remote_policies_ends in Hp as (Hpf & Hpn & _), Hq as (Hqf & Hqn & _); congruence.
  - intros (q & (_ & _ & Hfk & Hnk)%policy_key_ends & Hq)%list_elem_of_fmap.
    apply remote_policies_ends in Hp as (Hpf & Hpn & _), Hq as (Hqf & Hqn & _). congruence.
Qed.

Lemma base_policies_apart me n a cidr p q :
  p ∈ base_policies -> q ∈ node_policies me n a cidr -> policy_key p ≠ policy_key q.
Proof.
  intros Hp (Hproto & Hdir & _)%node_policies_ends (Hd & Hpr & _)%policy_key_ends.
  pose proof XFRM_dirs_distinct as Hnd. apply (NoDup_app [_; _; _] [_; _]) in Hnd as (_ & Hx & _).
  unfold base_policies in Hp. apply elem_of_app in Hp as [(d & -> & _)%list_elem_of_fmap|(d & -> & Hin)%list_elem_of_fmap].
  - cbn in Hpr. rewrite Hproto in Hpr. discriminate.
  - cbn in Hd. subst d. by apply (Hx _ Hdir).
Qed.

(** The selectors are distinct when the pod CIDRs and addresses of the nodes are, with the address
    of the local node outside of its own CIDR's notation. *)
Lemma selectors_distinct me nodes :
  NoDup (nodes ≫= node_nets me) -> ipnet_key (PodCIDR me) ≠ ipnet_key (Some (ipToIpnet (Address me))) ->
  NoDup (policy_key <$> ipsec_policies me nodes).
Proof.
  intros Hnd Hme. unfold ipsec_policies. rewrite fmap_app.
  assert (forall l p, p ∈ flat_map (fun n => match usable_remote me n with
            | Some (a, cidr) => node_policies me n a cidr | None => [] end) l ->
          exists n a cidr, n ∈ l /\ usable_remote me n = Some (a, cidr) /\ p ∈ node_policies me n a cidr) as Hin.
  { intros l p. rewrite list_elem_of_In, in_flat_map. intros (n & Hn%list_elem_of_In & Hp).
    destruct (usable_remote me n) as [[a cidr]|] eqn:Hu; [|done]. apply list_elem_of_In in Hp. eauto 10. }
  apply NoDup_app. split_and!; [apply base_policies_NoDup| |].
  { intros k (p & -> & Hp)%list_elem_of_fmap (q & Hk & (n & a & cidr & _ & _ & Hq)%Hin)%list_elem_of_fmap.
    by apply (base_policies_apart _ _ _ _ _ _ Hp Hq). }
  induction nodes as [|n nodes IH]; [by apply NoDup_nil|]. cbn [flat_map]. cbn [mbind list_bind] in Hnd.
  apply NoDup_app in Hnd as (Hn & Hd & Hnd). rewrite fmap_app. apply NoDup_app.
  unfold node_nets in Hn, Hd at 1. destruct (usable_remote me n) as [[a cidr]|] eqn:Hu.
  2: { split_and!; [by apply NoDup_nil|by intros k Hk%not_elem_of_nil|by apply IH]. }
  split_and!; [| |by apply IH].
  - apply node_policies_NoDup; [|done]. apply NoDup_cons in Hn as [Hn _]. intros He. apply Hn. rewrite He. by left.
  - intros k (p & -> & Hp)%list_elem_of_fmap (q & (_ & _ & Hk & _)%policy_key_ends & (n' & a' & c' & Hn' & Hu' & Hq)%Hin)%list_elem_of_fmap.
    apply node_policies_ends in Hp as (_ & _ & Hp), Hq as (_ & _ & Hq). apply (Hd _ Hp). rewrite Hk.
    apply list_elem_of_bind. exists n'. split; [|done]. unfold node_nets. by rewrite Hu'.
Qed.
End Selectors.

(** ** The simulated kernel keeps the tables apart *)

#[export] Instance sim_states_untouched `{NetlinkConsts} : Untouched (entries (K := Sim) state_table).
Proof. split; [|done]. by intros []. Qed.

#[export] Instance sim_policies_untouched `{NetlinkConsts} : Untouched (entries (K := Sim) policy_table).
Proof. split; [|done]. by intros []. Qed.
