(* ===== verification/Dispatch.v ===== *)
(** * The provider an agent was configured with

    The agent holds its provider as a value of the interface [routing.Provider]. [AnyProvider] is
    that value: one of the five implementations with its state. A call through the interface goes to
    the implementation; [within] runs it on its own part of the state. The contracts of
    Provider.v and Delivery.v carry over, so that what is proved of the controller, and of the whole
    agent, holds for every configuration. *)

From S2P Require Import Prelude GoNet K8s Nodes NodesFacts NodeMapSpec Netlink Effects Tables KernelLaws Sim.
From S2P Require Import Provider Layer2 Gre Vxlan2 VxlanLegacy Delivery Ipsec IpsecFacts IpsecDelivery.

(** ** Running code on a part of the state *)

Section Within.
Context {K P S : Type} (inj : P -> S).

(** The world of the implementation, in the state [p]. *)
Definition part_world (p : P) (w : World K S) : World K P := MkWorld (kern w) (trace w) (sched w) p.

Definition whole_world (w : World K P) : World K S := MkWorld (kern w) (trace w) (sched w) (inj (prov w)).

Definition within {A} (p : P) (x : M K P A) : M K S A := fun w =>
  let '(r, w') := x (part_world p w) in (r, whole_world w').

Lemma whole_part p w : prov w = inj p -> whole_world (part_world p w) = w.
Proof. unfold whole_world, part_world. destruct w. by intros [= ->]. Qed.

Lemma within_run {A} p (x : M K P A) w r w' :
  within p x w = (r, w') -> exists w1, x (part_world p w) = (r, w1) /\ w' = whole_world w1.
Proof. unfold within. destruct (x _) as [r1 w1]. intros [= <- <-]. eauto. Qed.
End Within.

(** ** The value of the interface *)

(** The providers [run] chooses from; each is an implementation of [routing.Provider]. *)
Inductive AnyProvider :=
| Layer2Provider (p : Layer2RoutingProvider)
| GreProvider (p : GreRoutingProvider)
| VxlanLegacyProvider (p : VxlanRoutingProvider)
| VxlanProvider (p : Vxlan2RoutingProvider)
| IpsecProvider (p : IpsecRoutingProvider).

(** ** The contract of the interface, through it *)

Section Contract.
Context {K P S : Type} `{Kernel K} `{!Provider K P} (inj : P -> S) (last : S -> Z).
Context (last_inj : forall p, last (inj p) = lastVersionApplied p).
Implicit Types (w : World K S) (p : P).

Lemma within_current p nm0 nm w :
  prov w = inj p -> last (inj p) ≠ 0 -> IsVersion nm0 (last (inj p)) = true ->
  within inj p (EnsureCIDRs nm0 nm) w = (Ret tt, w).
Proof using last_inj.
  rewrite last_inj. intros Hp Hl Hv. unfold within. rewrite (EnsureCIDRs_current nm0 nm (part_world p w) Hl Hv).
  by rewrite whole_part.
Qed.

Lemma within_applied p nm0 nm w w' :
  within inj p (EnsureCIDRs nm0 nm) w = (Ret tt, w') -> (last (inj p) = 0 \/ IsVersion nm0 (last (inj p)) = false) ->
  IsReady nm = true /\ last (prov w') = version nm.
Proof using last_inj.
  rewrite last_inj. intros (w1 & Hr & ->)%within_run Hl.
  destruct (EnsureCIDRs_applied nm0 nm (part_world p w) w1 Hr Hl) as [Hready Hv].
  split; [done|]. simpl. by rewrite last_inj.
Qed.

Lemma within_failed p nm0 nm w e w' :
  within inj p (EnsureCIDRs nm0 nm) w = (Err e, w') -> last (prov w') = last (inj p).
Proof using last_inj.
  intros (w1 & Hr & ->)%within_run. simpl. rewrite !last_inj.
  exact (EnsureCIDRs_failed nm0 nm (part_world p w) e w1 Hr).
Qed.

Lemma within_silent p nm0 nm w : exists log,
  trace (within inj p (EnsureCIDRs nm0 nm) w).2 = trace w ++ log /\ silent log.
Proof.
  destruct (within inj p (EnsureCIDRs nm0 nm) w) as [r w'] eqn:Hr. apply within_run in Hr as (w1 & Hr & ->).
  destruct (EnsureCIDRs_silent nm0 nm (part_world p w)) as (log & Ht & Hs). rewrite Hr in Ht. by exists log.
Qed.

Lemma within_delivers `{!Delivery K P} p nm0 nm w w' :
  within inj p (EnsureCIDRs nm0 nm) w = (Ret tt, w') -> (last (inj p) = 0 \/ IsVersion nm0 (last (inj p)) = false) ->
  NodeMap_wf nm ->
  exists p', prov w' = inj p' /\
    (deliverable p' (kern w') (local_node nm) (view nm) -> forall name n address cidr, view nm !! name = Some n ->
     usable_remote (local_node nm) n = Some (address, cidr) -> delivered p' (kern w') (local_node nm) address cidr).
Proof using last_inj.
  rewrite last_inj. intros (w1 & Hr & ->)%within_run Hl Hwf. exists (prov w1). split; [done|]. intros Hd.
  exact (EnsureCIDRs_delivers nm0 nm (part_world p w) w1 Hr Hl Hwf Hd).
Qed.
End Contract.

(** ** The instances *)

Section Dispatch.
Context {K : Type} `{Kernel K} `{NetlinkConsts}.

(** [provider.EnsureCIDRs(nodeMap)] on the value of the interface. *)
Definition Any_EnsureCIDRs (nm0 nm : NodeMap) : M K AnyProvider unit :=
  p ← get_prov;
  match p with
  | Layer2Provider p => within Layer2Provider p (EnsureCIDRs nm0 nm)
  | GreProvider p => within GreProvider p (EnsureCIDRs nm0 nm)
  | VxlanLegacyProvider p => within VxlanLegacyProvider p (EnsureCIDRs nm0 nm)
  | VxlanProvider p => within VxlanProvider p (EnsureCIDRs nm0 nm)
  | IpsecProvider p => within IpsecProvider p (EnsureCIDRs nm0 nm)
  end.

Definition any_lastVersionApplied (p : AnyProvider) : Z :=
  match p with
  | Layer2Provider p => lastVersionApplied p
  | GreProvider p => lastVersionApplied p
  | VxlanLegacyProvider p => lastVersionApplied p
  | VxlanProvider p => lastVersionApplied p
  | IpsecProvider p => lastVersionApplied p
  end.

Lemma Any_EnsureCIDRs_run nm0 nm w :
  Any_EnsureCIDRs nm0 nm w
  = match prov w with
    | Layer2Provider p => within Layer2Provider p (EnsureCIDRs nm0 nm) w
    | GreProvider p => within GreProvider p (EnsureCIDRs nm0 nm) w
    | VxlanLegacyProvider p => within VxlanLegacyProvider p (EnsureCIDRs nm0 nm) w
    | VxlanProvider p => within VxlanProvider p (EnsureCIDRs nm0 nm) w
    | IpsecProvider p => within IpsecProvider p (EnsureCIDRs nm0 nm) w
    end.
Proof. unfold Any_EnsureCIDRs. rewrite bind_run. unfold get_prov. by destruct (prov w). Qed.

#[export] Instance Any_Provider : Provider K AnyProvider.
Proof.
  refine {| EnsureCIDRs := Any_EnsureCIDRs; lastVersionApplied := any_lastVersionApplied |}.
  - intros nm0 nm w. rewrite Any_EnsureCIDRs_run. destruct (prov w) eqn:Hp; by apply within_current.
  - intros nm0 nm w w'. rewrite Any_EnsureCIDRs_run. destruct (prov w); by apply within_applied.
  - intros nm0 nm w e w'. rewrite Any_EnsureCIDRs_run. destruct (prov w); by apply within_failed.
  - intros nm0 nm w. rewrite Any_EnsureCIDRs_run. destruct (prov w); apply within_silent.
Defined.

Context `{!RouteLaws K} `{!NeighLaws K} `{!LinkLaws K} `{!StateLaws K} `{!PolicyLaws K}.
Context `{!NeighRouteFrame K} `{!LinkRouteFrame K} `{!PolicyFrame K}.
Context `{!Untouched (entries route_table)} `{!Untouched neighs} `{!Untouched links}.
Context `{!Untouched (entries state_table)} `{!Untouched (entries policy_table)}.

(** The nodes are reached the way of the provider that was chosen. *)
Definition any_delivered (p : AnyProvider) : K -> NodeInfo -> IP -> IPNet -> Prop :=
  match p with
  | Layer2Provider p => delivered p
  | GreProvider p => delivered p
  | VxlanLegacyProvider p => delivered p
  | VxlanProvider p => delivered p
  | IpsecProvider p => delivered p
  end.

(** What the provider that was chosen needs for it: see [layer2_delivered] (nothing),
    [remotes_ipv4] and [tunnels_current] for gre, [monitor_runs], [remotes_24] and [addresses_apart] for
    vxlan-legacy, [remotes_apart] for vxlan, [selectors_apart] for ipsec. *)
Definition any_deliverable (p : AnyProvider) : K -> NodeInfo -> gmap string NodeInfo -> Prop :=
  match p with
  | Layer2Provider p => deliverable p
  | GreProvider p => deliverable p
  | VxlanLegacyProvider p => deliverable p
  | VxlanProvider p => deliverable p
  | IpsecProvider p => deliverable p
  end.

#[export] Instance Any_Delivery : Delivery K AnyProvider.
Proof.
  refine {| delivered := any_delivered; deliverable := any_deliverable |}.
  - intros nm0 nm w w' Hr Hl Hwf. cbn [EnsureCIDRs Any_Provider] in Hr. rewrite Any_EnsureCIDRs_run in Hr.
    cbn [lastVersionApplied Any_Provider] in Hl.
    destruct (prov w) as [p|p|p|p|p];
      match type of Hr with within ?inj _ _ _ = _ =>
        destruct (within_delivers inj any_lastVersionApplied (fun _ => eq_refl) p nm0 nm w w' Hr Hl Hwf) as (p' & -> & Hd)
      end; exact Hd.
  - intros [p|p|p|p|p] me a cidr; apply delivered_undisturbed.
  - intros [p|p|p|p|p] me v; apply deliverable_unaffected.
Defined.
End Dispatch.
