(* ===== verification/Cni.v ===== *)
(** * The CNI configuration: pkg/cni

    The agent tells the container runtime about the pod network through one file. *)

From Stdlib Require Import Ascii.
From S2P Require Import Prelude GoNet GoNetFacts Netlink Effects Sim.

(** Text written with a quotation mark of another kind. *)
Definition dquote : ascii := Ascii.ascii_of_nat 34.

Fixpoint double_quotes (s : string) : string :=
  match s with
  | EmptyString => EmptyString
  | String c rest => String (if Ascii.eqb c "'" then dquote else c) (double_quotes rest)
  end.

(** [const cniConfig] *)
Definition cniConfig : string := double_quotes "
{
  'cniVersion':      '0.3.1',
  'name':            'k8s-pod-network',
  'type':            'bridge',
  'bridge':          'kopeio',
  'isDefaultGateway': true,
  'ipMasq': true,
  'ipam': {
    'type':   'host-local',
    'name':   'kopeio',
    'subnet': '{{PodCIDR}}'
  }
}
".

(** The local [expected] of [WriteCNIConfig]. *)
Definition cni_expected (podCIDR : option IPNet) : string :=
  let podCIDRString := match podCIDR with None => EmptyString | Some n => IPNet_String n end in
  ReplaceAll cniConfig "{{PodCIDR}}" podCIDRString.

(** [type SimpleConfigWriter struct] *)
Record SimpleConfigWriter := MkSimpleConfigWriter { Path : string }.

Section Write.
Context {K P : Type} `{Kernel K}.

(** [func (w *SimpleConfigWriter) WriteCNIConfig(podCIDR *net.IPNet) error] *)
Definition SimpleConfigWriter_WriteCNIConfig (writer : SimpleConfigWriter) (podCIDR : option IPNet) : M K P unit :=
  r ← try (query (k_ReadFile (Path writer)));
  existing ← match r with
             | inl b => mret b
             | inr e => if decide (e = NotExist) then mret EmptyString
                        else fail (Errorf "error reading cni config %s: %v" e)
             end;
  let expected := cni_expected podCIDR in
  if String.eqb existing expected then mret tt
  else wrap "error writing cni config %s: %v" (call (WriteFile (Path writer) expected 420)).
End Write.

(** ** The contract of the file system

    A read reports the contents of the file, its absence, or some other error, and changes
    nothing; a write that succeeds leaves the file with these contents. *)
Class FileLaws (K : Type) `{Kernel K} := {
  files : K -> gmap string string;
  ReadFile_reads : forall path k,
    exists r, k_ReadFile path k = (r, k) /\
      match r with
      | inl s => files k !! path = Some s
      | inr e => e = NotExist -> files k !! path = None
      end;
  WriteFile_writes : forall path s perm k k',
    exec (WriteFile path s perm) k = (None, k') -> files k' = <[path := s]> (files k)
}.

#[export] Instance sim_FileLaws : FileLaws Sim.
Proof.
  refine {| files := fun k => list_to_map (sim_files k) |}.
  - intros path k. eexists. split; [reflexivity|].
    induction (sim_files k) as [|[p s] l IH]; [done|]. rewrite filter_cons_bool. cbn [fst list_to_map foldr].
    case_bool_decide as Hp; cbn [fst] in Hp.
    + subst p. simpl. by rewrite lookup_insert_eq.
    + destruct (filter _ l) as [|f l']; simpl in *; by rewrite lookup_insert_ne.
  - intros path s perm k k' [= <-]. done.
Defined.

(** ** The text *)

Definition cni_before : string := String.substring 0 260 cniConfig.
Definition cni_after : string := String.substring 271 100 cniConfig.

(** The template, cut at its placeholder. *)
Lemma cni_expected_eq podCIDR :
  cni_expected podCIDR
  = cni_before +:+ match podCIDR with None => EmptyString | Some n => IPNet_String n end +:+ cni_after.
Proof. unfold cni_expected. generalize (match podCIDR with None => EmptyString | Some n => IPNet_String n end). intros s. vm_compute. reflexivity. Qed.

(** What a reader of the configuration takes from it: the text between [marker] and the next quotation
    mark. *)
Fixpoint text_after (marker s : string) : option string :=
  if HasPrefix s marker then fst <$> split_at dquote (string_drop (String.length marker) s)
  else match s with
       | EmptyString => None
       | String _ rest => text_after marker rest
       end.

Definition config_subnet (config : string) : option string := text_after (double_quotes "'subnet': '") config.

Lemma dotted_no_quote a b c d : contains dquote (dotted a b c d) = false.
Proof.
  assert (forall x, contains dquote (appendDecimal (zb x)) = false) as H by (intros x; by destruct x).
  unfold dotted. rewrite !contains_app, !H. done.
Qed.

Lemma canonical4_no_quote n : canonical4 n -> contains dquote (IPNet_String n) = false.
Proof.
  intros (p & l & Hp & Hl & -> & _). destruct p as [|a [|b [|c [|d [|]]]]]; try done.
  rewrite canonical4_String by done. rewrite !contains_app, dotted_no_quote.
  assert (appendDecimal l ∈ (fun i => appendDecimal (Z.of_nat i)) <$> seq 0 33) as Hin.
  { apply list_elem_of_fmap. exists (Z.to_nat l). split; [by rewrite Z2Nat.id by lia|]. apply elem_of_seq. lia. }
  revert Hin. generalize (appendDecimal l). apply Forall_forall. by_computation.
Qed.

Lemma cni_subnet s :
  contains dquote s = false -> config_subnet (cni_before +:+ s +:+ cni_after) = Some s.
Proof.
  intros Hs. transitivity (fst <$> split_at dquote (s +:+ cni_after)).
  - clear Hs. destruct s; vm_compute; reflexivity.
  - assert (exists rest, cni_after = String dquote rest) as [rest ->] by (eexists; reflexivity).
    by rewrite split_at_app.
Qed.

(** C34: for an IPv4 pod CIDR - as [net.ParseCIDR] returns it: four bytes under a mask, with no bits
    outside of it - the configuration is one of the pod network: whoever reads the subnet back from the file
    and parses it gets the node's pod CIDR. Nothing is said of IPv6 pod CIDRs. *)
Theorem config_names_the_pod_cidr n :
  canonical4 n -> exists s, config_subnet (cni_expected (Some n)) = Some s /\ ParseCIDR s = Some n.
Proof.
  intros Hn. exists (IPNet_String n). rewrite cni_expected_eq, cni_subnet by (by apply canonical4_no_quote).
  split; [done|by apply ParseCIDR_canonical4_String].
Qed.

Section Theorems.
Context {K P : Type} `{FileLaws K}.
Implicit Types (w : World K P) (writer : SimpleConfigWriter).

Definition cni_write writer podCIDR : action := WriteFile (Path writer) (cni_expected podCIDR) 420.

Lemma cni_expected_nonempty podCIDR : String.eqb EmptyString (cni_expected podCIDR) = false.
Proof. by rewrite cni_expected_eq. Qed.

(** What a call does, on every branch. *)
Lemma WriteCNIConfig_eq writer podCIDR w :
  exists r, k_ReadFile (Path writer) (kern w) = (r, kern w) /\
  SimpleConfigWriter_WriteCNIConfig writer podCIDR w
  = match r with
    | inr e => if decide (e = NotExist)
               then wrap "error writing cni config %s: %v" (call (cni_write writer podCIDR)) (after w (sched w) [] (kern w))
               else (Err (Errorf "error reading cni config %s: %v" e), after w (sched w) [] (kern w))
    | inl s => if String.eqb s (cni_expected podCIDR) then (Ret tt, after w (sched w) [] (kern w))
               else wrap "error writing cni config %s: %v" (call (cni_write writer podCIDR)) (after w (sched w) [] (kern w))
    end /\
  match r with
  | inl s => files (kern w) !! Path writer = Some s
  | inr e => e = NotExist -> files (kern w) !! Path writer = None
  end.
Proof.
  destruct (ReadFile_reads (Path writer) (kern w)) as (r & Hr & Hs). exists r. split; [done|]. split; [|done].
  unfold SimpleConfigWriter_WriteCNIConfig. rewrite bind_run. unfold try, query. rewrite Hr.
  assert (MkWorld (kern w) (trace w) (sched w) (prov w) = after w (sched w) [] (kern w)) as Hw.
  { unfold after. by rewrite app_nil_r. }
  rewrite Hw. destruct r as [s|e]; cbv beta iota.
  - rewrite bind_ret. by destruct (String.eqb s _).
  - destruct (decide (e = NotExist)) as [->|He]; [|done]. rewrite bind_ret, cni_expected_nonempty. done.
Qed.

(** C33: after a successful call the file holds the configuration of this pod CIDR and no other file
    has changed; it was written exactly if it did not hold it before; and while it holds it, further
    calls for this pod CIDR write nothing, whatever becomes of the reads. *)
Theorem cni_config_settles writer podCIDR w w' :
  SimpleConfigWriter_WriteCNIConfig writer podCIDR w = (Ret tt, w') ->
  files (kern w') !! Path writer = Some (cni_expected podCIDR) /\
  (forall path, path ≠ Path writer -> files (kern w') !! path = files (kern w) !! path) /\
  trace w' = trace w ++ (if decide (files (kern w) !! Path writer = Some (cni_expected podCIDR)) then []
                         else [(cni_write writer podCIDR, None)]) /\
  trace (SimpleConfigWriter_WriteCNIConfig writer podCIDR w').2 = trace w'.
Proof.
  intros Hr. destruct (WriteCNIConfig_eq writer podCIDR w) as (r & _ & He & Hf). rewrite He in Hr. clear He.
  assert (files (kern w') !! Path writer = Some (cni_expected podCIDR) /\
          (forall path, path ≠ Path writer -> files (kern w') !! path = files (kern w) !! path) /\
          trace w' = trace w ++ (if decide (files (kern w) !! Path writer = Some (cni_expected podCIDR)) then []
                                 else [(cni_write writer podCIDR, None)])) as (Hfile & Hother & Htrace).
  { assert (files (kern w) !! Path writer ≠ Some (cni_expected podCIDR) ->
            wrap "error writing cni config %s: %v" (call (cni_write writer podCIDR)) (after w (sched w) [] (kern w)) = (Ret tt, w') ->
            files (kern w') !! Path writer = Some (cni_expected podCIDR) /\
            (forall path, path ≠ Path writer -> files (kern w') !! path = files (kern w) !! path) /\
            trace w' = trace w ++ (if decide (files (kern w) !! Path writer = Some (cni_expected podCIDR)) then []
                                   else [(cni_write writer podCIDR, None)])) as Hwrite.
    { intros Hn Hc. unfold wrap, call in Hc. rewrite kern_after in Hc.
      destruct (exec (cni_write writer podCIDR) (kern w)) as [[e|] k'] eqn:Hx; [done|]. injection Hc as <-. simpl.
      unfold cni_write in Hx. rewrite (WriteFile_writes _ _ _ _ _ Hx), decide_False, app_nil_r by done. split_and!; [|intros path Hp|done].
      - by rewrite lookup_insert_eq.
      - by rewrite lookup_insert_ne. }
    destruct r as [s|e].
    - destruct (String.eqb_spec s (cni_expected podCIDR)) as [Hs|Hs]; [|apply Hwrite; [congruence|exact Hr]].
      rewrite Hs in Hf. injection Hr as <-. world. by rewrite decide_True, app_nil_r by done.
    - destruct (decide (e = NotExist)) as [->|]; [|done]. apply Hwrite; [by rewrite Hf|exact Hr]. }
  split_and!; [done..|]. destruct (WriteCNIConfig_eq writer podCIDR w') as (r' & _ & -> & Hf').
  destruct r' as [s|e].
  - assert (s = cni_expected podCIDR) as -> by congruence. rewrite String.eqb_refl. simpl. by rewrite app_nil_r.
  - destruct (decide (e = NotExist)) as [->|]; [by rewrite Hf' in Hfile|]. simpl. by rewrite app_nil_r.
Qed.
End Theorems.

Section Witnesses.
Lemma config_names_the_pod_cidr_witness :
  exists s, config_subnet (cni_expected (Some (net4 100 96 1 0 24))) = Some s /\ ParseCIDR s = Some (net4 100 96 1 0 24).
Proof.
  apply config_names_the_pod_cidr. exists [u8 100; u8 96; u8 1; u8 0], 24.
  split_and!; [reflexivity|lia|lia|vm_compute; reflexivity|vm_compute; reflexivity].
Defined.

Lemma cni_config_settles_witness :
  let writer := MkSimpleConfigWriter "/etc/cni/net.d/10-kopeio.conf" in
  let w := sim_world sim_empty tt in
  exists w', SimpleConfigWriter_WriteCNIConfig writer (Some (net4 100 96 1 0 24)) w = (Ret tt, w') /\
    files (kern w') !! Path writer = Some (cni_expected (Some (net4 100 96 1 0 24))).
Proof.
  intros writer w. exists (SimpleConfigWriter_WriteCNIConfig writer (Some (net4 100 96 1 0 24)) w).2.
  assert (SimpleConfigWriter_WriteCNIConfig writer (Some (net4 100 96 1 0 24)) w
          = (Ret tt, (SimpleConfigWriter_WriteCNIConfig writer (Some (net4 100 96 1 0 24)) w).2)) as Hr
    by (vm_compute; reflexivity).
  split; [exact Hr|]. destruct (cni_config_settles writer (Some (net4 100 96 1 0 24)) w _ Hr) as (Hf & _). exact Hf.
Defined.
End Witnesses.
