(* ===== verification/Controller.v ===== *)
(** * The routing controller: pkg/routing/providercontroller.go

    [runWatcher] reads the node map while the watcher goes on changing it, [c.nodeMap.me] even
    without the map's mutex. The model takes the states the map is in at each of these reads as
    its input, in the order of the reads. *)

From S2P Require Import Prelude GoNet K8s Nodes NodesFacts NodeMapSpec Netlink Effects Sim Provider Layer2 Gre Cni.

(** The interface [cni.ConfigWriter], with what the controller relies on. *)
Record ConfigWriter (K P : Type) `{Kernel K} := MkConfigWriter {
  WriteCNIConfig : option IPNet -> M K P unit;
  WriteCNIConfig_silent : forall podCIDR, keeps (fun p => p) (WriteCNIConfig podCIDR);
  WriteCNIConfig_returns : forall podCIDR w, (WriteCNIConfig podCIDR w).1 ≠ Exit
}.
Arguments WriteCNIConfig {K P _}.

Definition simple_ConfigWriter {K P} `{Kernel K} (writer : SimpleConfigWriter) : ConfigWriter K P.
Proof.
  refine (MkConfigWriter K P _ (SimpleConfigWriter_WriteCNIConfig writer) _ _).
  - intros podCIDR. unfold SimpleConfigWriter_WriteCNIConfig. keeps_steps.
  - intros podCIDR w. unfold SimpleConfigWriter_WriteCNIConfig. rewrite bind_run. unfold try, query.
    destruct (k_ReadFile _ _) as [[s|e] k]; cbv beta iota.
    + rewrite bind_ret. cbv zeta. destruct (String.eqb _ _); [done|]. rewrite wrap_Exit. unfold call.
      by destruct (exec _ _) as [[] ?].
    + destruct (decide (e = NotExist)); [|done]. rewrite bind_ret. cbv zeta. destruct (String.eqb _ _); [done|].
      rewrite wrap_Exit. unfold call. by destruct (exec _ _) as [[] ?].
Defined.

(** The states of the map at the reads of one iteration: at [IsVersion], at [Snapshot], at the test
    of [me] and at its [PodCIDR] for the CNI configuration, and at the test of [me], at its
    [NetworkAvailable] and at its [Name] for the condition. *)
Record readings := MkReadings {
  at_IsVersion : NodeMap;
  at_Snapshot : NodeMap;
  at_cni_me : NodeMap;
  at_PodCIDR : NodeMap;
  at_me : NodeMap;
  at_NetworkAvailable : NodeMap;
  at_Name : NodeMap
}.

Section Controller.
Context {K P : Type} `{Kernel K} `{!Provider K P} `{CoreV1}.
Context (cniConfigWriter : option (ConfigWriter K P)).

Definition sleep (seconds : Z) : M K P unit := try (call (Sleep seconds));; mret tt.

(** [c.nodeMap.me != nil] *)
Definition me_known (m : NodeMap) : bool := match me m with Some _ => true | None => false end.

(** The fields of [*c.nodeMap.me]; a nil pointer panics. *)
Definition read_me (m : NodeMap) : M K P NodeInfo :=
  match me m with
  | Some l => mret (deref (heap m) l)
  | None => exit
  end.

(** [func setNodeCondition(...) error]; the times of the condition are left out. *)
Definition setNodeCondition (node type status reason message : string) : M K P unit :=
  call (PatchNodeCondition node type status reason message).

(** The second block of the loop; its result tells whether to [continue]. *)
Definition write_cni (v : readings) : M K P bool :=
  match cniConfigWriter with
  | None => mret false
  | Some writer =>
      if negb (me_known (at_cni_me v)) then mret false
      else
        n ← read_me (at_PodCIDR v);
        r ← try (WriteCNIConfig writer (PodCIDR n));
        match r with
        | inr _ => sleep 10;; mret true
        | inl _ => mret false
        end
  end.

(** The third block of the loop. *)
Definition announce (v : readings) : M K P unit :=
  if negb (me_known (at_me v)) then mret tt
  else
    n ← read_me (at_NetworkAvailable v);
    if NetworkAvailable n then mret tt
    else
      n ← read_me (at_Name v);
      try (setNodeCondition (Name n) NodeNetworkUnavailable ConditionFalse "RouteCreated"
             "kope.io network controller initialized node routes");;
      mret tt.

(** The body of the loop, after the test of the context. *)
Definition iteration (v : readings) : M K P unit :=
  r ← try (EnsureCIDRs (at_IsVersion v) (at_Snapshot v));
  match r with
  | inr _ => sleep 10
  | inl _ =>
      sleep 1;;
      continue ← write_cni v;
      if (continue : bool) then mret tt else announce v
  end.

(** The loop: a test of the context and the readings per round. [true] is the return of the
    context's error, [false] that the loop is still running when the input ends. *)
Fixpoint watch_loop (rounds : list (bool * readings)) : M K P bool :=
  match rounds with
  | [] => mret false
  | (cancelled, v) :: rest =>
      if (cancelled : bool) then mret true
      else iteration v;; watch_loop rest
  end.

(** The first loop, over the states of the map at its rounds. *)
Fixpoint wait_ready (maps : list NodeMap) : M K P bool :=
  match maps with
  | [] => mret false
  | m :: rest => if IsReady m then mret true else sleep 1;; wait_ready rest
  end.

(** [func (c *Controller) runWatcher(ctx context.Context) error] *)
Definition runWatcher (maps : list NodeMap) (rounds : list (bool * readings)) : M K P bool :=
  is_ready ← wait_ready maps;
  if (is_ready : bool) then watch_loop rounds else mret false.
End Controller.
