(* ===== verification/ControllerFacts.v ===== *)
(** * What the routing controller does *)

From S2P Require Import Prelude GoNet K8s Nodes NodesFacts NodeMapSpec Netlink Effects Sim.
From S2P Require Import RouteTable KernelLaws RouteFacts Provider Layer2 Gre Cni Controller.

(** ** The self node stays known *)

Section Self.
Context `{CoreV1}.

(** One state of the node map after another. *)
Definition later (m m' : NodeMap) : Prop := exists c, nm_run m c m'.

#[export] Instance later_preorder : PreOrder later.
Proof.
  split; [intros m; exists 0; constructor|]. intros m1 m2 m3 H12 [c2 H23].
  induction H23 as [|c m' op _ [c' IH]]; [done|]. eexists. by apply run_step.
Qed.

Lemma me_updateNode m src l : me m = Some l -> me (updateNode m src).1 = Some l.
Proof.
  intros Hl. unfold updateNode. destruct (nodes m !! node_Name src) as [k|]; rewrite Hl;
    by destruct (NodeInfo_update _ _) as [info []].
Qed.

Lemma me_replace_update_Some l src : forall names m c,
  me m = Some l -> me (foldl replace_update (names, m, c) src).1.2 = Some l.
Proof.
  induction src as [|x src IH]; intros names m c Hm; simpl; [done|].
  pose proof (me_updateNode m x l Hm) as Hx. destruct (updateNode m x) as [m' c']. by apply IH.
Qed.

Lemma me_replace_remove l names es : forall m c,
  me m = Some l -> me (foldl (replace_remove names) (m, c) es).1 = Some l.
Proof.
  induction es as [|e es IH]; intros m c Hm; simpl; [done|]. destruct (bool_decide _); by apply IH.
Qed.

Lemma me_later m m' l : later m m' -> me m = Some l -> me m' = Some l.
Proof.
  intros [c Hr] Hl. induction Hr as [|c m' op _ IH]; [done|]. destruct op as [src|src|o nl|]; simpl; [|done| |done].
  - by apply me_updateNode.
  - unfold ReplaceAllNodes. pose proof (me_replace_update_Some l nl ∅ m' false IH) as Hf.
    destruct (foldl replace_update _ nl) as [[names m1] c1]. by apply me_replace_remove.
Qed.

(** Readings taken one after the other. *)
Definition in_time (v : readings) : Prop :=
  later (at_IsVersion v) (at_Snapshot v) /\ later (at_Snapshot v) (at_cni_me v) /\
  later (at_cni_me v) (at_PodCIDR v) /\ later (at_PodCIDR v) (at_me v) /\
  later (at_me v) (at_NetworkAvailable v) /\ later (at_NetworkAvailable v) (at_Name v).

(** The self node stays known through the readings; they need not be states of the map that were
    there with the mutex free. *)
Definition keeps_self (m m' : NodeMap) : Prop := forall l, me m = Some l -> me m' = Some l.

Definition self_kept (v : readings) : Prop :=
  keeps_self (at_cni_me v) (at_PodCIDR v) /\
  keeps_self (at_me v) (at_NetworkAvailable v) /\ keeps_self (at_me v) (at_Name v).

Lemma in_time_self_kept v : in_time v -> self_kept v.
Proof.
  intros (_ & _ & H1 & _ & H2 & H3). split_and!; intros l; [by apply me_later..|].
  apply me_later. by transitivity (at_NetworkAvailable v).
Qed.
End Self.

(** ** Runs *)

Section Runs.
Context {K P : Type} `{Kernel K} `{!Provider K P} `{CoreV1}.
Context (cw : option (ConfigWriter K P)).
Implicit Types (w : World K P) (v : readings).

Lemma sleep_keeps seconds : keeps (fun p : P => p) (sleep seconds).
Proof. unfold sleep. keeps_steps. Qed.

Lemma sleep_returns seconds w : sleep seconds w = (Ret tt, (sleep seconds w).2).
Proof. unfold sleep. rewrite bind_run. unfold try, call. by destruct (exec _ _) as [[] ?]. Qed.

Lemma read_me_keeps m : keeps (fun p : P => p) (read_me (K := K) m).
Proof. unfold read_me. keeps_steps. Qed.

Lemma write_cni_keeps v : keeps (fun p : P => p) (write_cni cw v).
Proof.
  unfold write_cni. destruct cw as [writer|]; [|apply keeps_ret]. destruct (negb _); [apply keeps_ret|].
  apply keeps_bind; [apply read_me_keeps|]. intros n. apply keeps_bind; [apply keeps_try, WriteCNIConfig_silent|].
  intros [[]|e]; [apply keeps_ret|]. apply keeps_bind; [apply sleep_keeps|intros _; apply keeps_ret].
Qed.

Lemma me_known_Some m : me_known m = true <-> is_Some (me m).
Proof. unfold me_known. destruct (me m); split; [by eexists|done|done|by intros []]. Qed.

Lemma read_me_known m m' w :
  keeps_self m m' -> me_known m = true -> exists n, read_me m' w = (Ret n, w).
Proof.
  intros Hl [l Hm]%me_known_Some. unfold read_me. rewrite (Hl _ Hm). by eexists.
Qed.

(** Nothing in the second and third block ends the process or returns an error. *)
Lemma write_cni_returns v w : self_kept v -> exists b w', write_cni cw v w = (Ret b, w').
Proof.
  intros (Hl & _). unfold write_cni. destruct cw as [writer|]; [|by eexists _, _].
  destruct (me_known (at_cni_me v)) eqn:Hm; [|by eexists _, _]. simpl.
  destruct (read_me_known _ _ w Hl Hm) as [n Hn]. rewrite bind_run, Hn. rewrite bind_run. unfold try.
  pose proof (WriteCNIConfig_returns K P writer (PodCIDR n) w) as Hx.
  destruct (WriteCNIConfig writer (PodCIDR n) w) as [[[]|e|] w1]; [by eexists _, _| |done].
  rewrite bind_run, sleep_returns. by eexists _, _.
Qed.

Lemma announce_returns v w : self_kept v -> exists w', announce v w = (Ret tt, w').
Proof.
  intros (_ & Hl1 & Hl2). unfold announce. destruct (me_known (at_me v)) eqn:Hm; [|by eexists]. simpl.
  destruct (read_me_known _ _ w Hl1 Hm) as [n Hn]. rewrite bind_run, Hn.
  destruct (NetworkAvailable n); [by eexists|].
  destruct (read_me_known _ (at_Name v) w Hl2 Hm) as [n' Hn'].
  rewrite bind_run, Hn', bind_run. unfold try, setNodeCondition, call.
  destruct (exec _ _) as [[] ?]; by eexists.
Qed.

(** An iteration by the outcome of the provider. *)
Lemma iteration_eq v w :
  iteration cw v w
  = match EnsureCIDRs (at_IsVersion v) (at_Snapshot v) w with
    | (Ret _, w1) => (continue ← write_cni cw v; if (continue : bool) then mret tt else announce v) (sleep 1 w1).2
    | (Err _, w1) => (Ret tt, (sleep 10 w1).2)
    | (Exit, w1) => (Exit, w1)
    end.
Proof.
  unfold iteration. rewrite bind_run. unfold try.
  destruct (EnsureCIDRs _ _ w) as [[[]|e|] w1]; [|apply sleep_returns|done].
  rewrite bind_run, sleep_returns. done.
Qed.

Lemma iteration_returns v w :
  self_kept v ->
  (exists w', iteration cw v w = (Ret tt, w')) \/ (EnsureCIDRs (at_IsVersion v) (at_Snapshot v) w).1 = Exit.
Proof.
  intros Ht. rewrite iteration_eq. destruct (EnsureCIDRs _ _ w) as [[[]|e|] w1]; [|by left; eexists|by right].
  left. destruct (write_cni_returns v (sleep 1 w1).2 Ht) as (b & w2 & Hw). rewrite bind_run, Hw.
  destruct b; [by eexists|]. by apply announce_returns.
Qed.

Lemma watch_loop_ends rounds w :
  Forall (fun r => in_time r.2) rounds ->
  (watch_loop cw rounds w).1 = Ret (existsb fst rounds) \/
  exists r w0, r ∈ rounds /\ (EnsureCIDRs (at_IsVersion r.2) (at_Snapshot r.2) w0).1 = Exit.
Proof.
  intros Ht. revert w. induction Ht as [|[cancelled v] rounds Ht _ IH]; intros w; [by left|].
  cbn [watch_loop existsb fst]. destruct cancelled; [by left|]. rewrite bind_run.
  destruct (iteration_returns v w (in_time_self_kept v Ht)) as [[w' ->]|He].
  - destruct (IH w') as [He|(r & w0 & Hr & He)]; [by left|]. right. exists r, w0. split; [by right|done].
  - right. exists (false, v), w. split; [by left|done].
Qed.

(** Waiting for the node map is all the first loop does. *)
Lemma wait_ready_run maps : forall w,
  exists w', wait_ready maps w = (Ret (existsb IsReady maps), w') /\ kept (fun p : P => p) w w'.
Proof.
  induction maps as [|m maps IH]; intros w; cbn [wait_ready existsb]; [by exists w|].
  destruct (IsReady m); [by exists w|]. rewrite bind_run, sleep_returns.
  destruct (IH (sleep 1 w).2) as (w' & Hr & Hk). exists w'. split; [exact Hr|].
  etransitivity; [apply (sleep_keeps 1 w)|exact Hk].
Qed.

Lemma runWatcher_eq maps rounds w :
  exists w', kept (fun p : P => p) w w' /\
    runWatcher cw maps rounds w = if existsb IsReady maps then watch_loop cw rounds w' else (Ret false, w').
Proof.
  destruct (wait_ready_run maps w) as (w' & Hr & Hk). exists w'. split; [done|].
  unfold runWatcher. rewrite bind_run, Hr. by destruct (existsb IsReady maps).
Qed.

(** C24: once the node map is ready nothing but its context stops the controller: provider errors,
    errors of the CNI file and of the API server are met with another round, and reading [me] without
    the lock never meets a nil pointer, as the self node stays known once it is. Only a provider that
    ends the process does. Before that not even the context stops it. *)
Theorem controller_ends_only_when_cancelled maps rounds w :
  Forall (fun r => in_time r.2) rounds ->
  (runWatcher cw maps rounds w).1 = Ret (existsb IsReady maps && existsb fst rounds) \/
  exists r w0, r ∈ rounds /\ (EnsureCIDRs (at_IsVersion r.2) (at_Snapshot r.2) w0).1 = Exit.
Proof.
  intros Ht. destruct (runWatcher_eq maps rounds w) as (w' & _ & ->).
  destruct (existsb IsReady maps); [|by left]. by apply watch_loop_ends.
Qed.

(** What precedes an announcement of [node]'s network: in the same iteration the provider
    succeeded, and so did the CNI configuration, if there is one to write. *)
Definition preceded v node w0 : Prop :=
  exists w1, EnsureCIDRs (at_IsVersion v) (at_Snapshot v) w0 = (Ret tt, w1) /\
    (lastVersionApplied (prov w0) ≠ 0 /\ IsVersion (at_IsVersion v) (lastVersionApplied (prov w0)) = true \/
     IsReady (at_Snapshot v) = true /\ lastVersionApplied (prov w1) = version (at_Snapshot v)) /\
    (forall writer l, cw = Some writer -> me (at_cni_me v) = Some l -> exists n w2 w3,
       me (at_PodCIDR v) = Some n /\
       WriteCNIConfig writer (PodCIDR (deref (heap (at_PodCIDR v)) n)) w2 = (Ret tt, w3)) /\
    exists l, me (at_Name v) = Some l /\ node = Name (deref (heap (at_Name v)) l).

Lemma frame_or nm0 (p : P) :
  (lastVersionApplied p ≠ 0 /\ IsVersion nm0 (lastVersionApplied p) = true) \/
  (lastVersionApplied p = 0 \/ IsVersion nm0 (lastVersionApplied p) = false).
Proof. destruct (decide (lastVersionApplied p = 0)), (IsVersion nm0 (lastVersionApplied p)); auto. Qed.

Lemma silent_no_patch log node ty st rs msg e :
  silent log -> (PatchNodeCondition node ty st rs msg, e) ∉ log.
Proof. intros Hs Hin. unfold silent in Hs. rewrite Forall_forall in Hs. by specialize (Hs _ Hin). Qed.

Lemma kept_no_patch w w' node ty st rs msg e :
  kept (fun p : P => p) w w' -> (PatchNodeCondition node ty st rs msg, e) ∈ trace w' ->
  (PatchNodeCondition node ty st rs msg, e) ∈ trace w.
Proof.
  intros [_ (log & -> & Hs)] [?|Hin]%elem_of_app; [done|]. by apply silent_no_patch in Hin.
Qed.

Lemma write_cni_Ret v w w' :
  write_cni cw v w = (Ret false, w') -> forall writer l, cw = Some writer -> me (at_cni_me v) = Some l ->
  exists n w2 w3, me (at_PodCIDR v) = Some n /\
    WriteCNIConfig writer (PodCIDR (deref (heap (at_PodCIDR v)) n)) w2 = (Ret tt, w3).
Proof.
  intros Hw writer l Hc Hl. rewrite Hc in Hw. unfold write_cni, me_known in Hw. rewrite Hl in Hw. simpl in Hw.
  rewrite bind_run in Hw. unfold read_me in Hw. destruct (me (at_PodCIDR v)) as [n|]; [|done].
  unfold mret, M_ret in Hw. cbv beta iota in Hw. rewrite bind_run in Hw. unfold try in Hw.
  destruct (WriteCNIConfig writer _ w) as [[[]|e|] w3] eqn:He; [|by rewrite bind_run, sleep_returns in Hw|done].
  by exists n, w, w3.
Qed.

(** The calls of [announce]. *)
Lemma announce_patch v w node ty st rs msg e :
  (PatchNodeCondition node ty st rs msg, e) ∈ trace (announce v w).2 ->
  (PatchNodeCondition node ty st rs msg, e) ∈ trace w \/
  (ty = NodeNetworkUnavailable /\ st = ConditionFalse /\
   exists l, me (at_Name v) = Some l /\ node = Name (deref (heap (at_Name v)) l)).
Proof.
  unfold announce. destruct (negb _); [by left|]. rewrite bind_run. unfold read_me.
  destruct (me (at_NetworkAvailable v)) as [n|]; [|by left]. unfold mret at 1, M_ret at 1. cbv beta iota.
  destruct (NetworkAvailable _); [by left|]. rewrite bind_run.
  destruct (me (at_Name v)) as [l|]; [|by left]. unfold mret at 1, M_ret at 1. cbv beta iota.
  rewrite bind_run. unfold try, setNodeCondition, call.
  destruct (exec _ _) as [[x|] k]; cbn; rewrite elem_of_app, list_elem_of_singleton; (intros [?|[= -> -> -> _ _ _]]; [by left|]);
    right; (split_and!; [done..|by exists l]).
Qed.

Lemma iteration_patch v w node ty st rs msg e :
  (PatchNodeCondition node ty st rs msg, e) ∈ trace (iteration cw v w).2 ->
  (PatchNodeCondition node ty st rs msg, e) ∈ trace w \/
  (ty = NodeNetworkUnavailable /\ st = ConditionFalse /\ preceded v node w).
Proof.
  rewrite iteration_eq. pose proof (EnsureCIDRs_silent (at_IsVersion v) (at_Snapshot v) w) as Hs.
  destruct (EnsureCIDRs _ _ w) as [[[]|x|] w1] eqn:He; simpl in Hs; destruct Hs as (log & Ht & Hlog).
  - assert (forall a, (PatchNodeCondition node ty st rs msg, a) ∈ trace w1 -> (PatchNodeCondition node ty st rs msg, a) ∈ trace w) as H1.
    { intros a. rewrite Ht. intros [?|Hin]%elem_of_app; [done|]. by apply silent_no_patch in Hin. }
    rewrite bind_run. pose proof (write_cni_keeps v (sleep 1 w1).2) as Hk. pose proof (sleep_keeps 1 w1) as Hk1.
    destruct (write_cni cw v _) as [[b|x|] w2] eqn:Hw; simpl in Hk.
    2, 3: intros Hin; left; apply H1; exact (kept_no_patch _ _ _ _ _ _ _ _ (transitivity Hk1 Hk) Hin).
    destruct b; simpl.
    { intros Hin. left. apply H1. exact (kept_no_patch _ _ _ _ _ _ _ _ (transitivity Hk1 Hk) Hin). }
    intros [Hin|(-> & -> & Hname)]%announce_patch.
    { left. apply H1. exact (kept_no_patch _ _ _ _ _ _ _ _ (transitivity Hk1 Hk) Hin). }
    right. split_and!; [done|done|]. exists w1. split_and!; [done| |by eapply write_cni_Ret|done].
    destruct (frame_or (at_IsVersion v) (prov w)) as [?|Hf]; [by left|]. right. by eapply EnsureCIDRs_applied.
  - intros Hin. left. apply (kept_no_patch _ _ _ _ _ _ _ _ (sleep_keeps 10 w1)) in Hin.
    rewrite Ht in Hin. apply elem_of_app in Hin as [?|Hin]; [done|]. by apply silent_no_patch in Hin.
  - simpl. rewrite Ht. intros [?|Hin]%elem_of_app; [by left|]. by apply silent_no_patch in Hin.
Qed.

Lemma watch_loop_patch rounds w node ty st rs msg e :
  (PatchNodeCondition node ty st rs msg, e) ∈ trace (watch_loop cw rounds w).2 ->
  (PatchNodeCondition node ty st rs msg, e) ∈ trace w \/
  (ty = NodeNetworkUnavailable /\ st = ConditionFalse /\
   exists r w0, r ∈ rounds /\ preceded r.2 node w0).
Proof.
  revert w. induction rounds as [|[cancelled v] rounds IH]; intros w; [by left|]. cbn [watch_loop].
  destruct cancelled; [by left|]. rewrite bind_run.
  pose proof (iteration_patch v w node ty st rs msg e) as Hi.
  destruct (iteration cw v w) as [[[]|x|] w1]; simpl in *.
  2, 3: intros [?|(-> & -> & Hp)]%Hi; [by left|]; right; split_and!; [done..|]; exists (false, v), w;
    split; [by left|exact Hp].
  intros [[?|(-> & -> & Hp)]%Hi|(-> & -> & r & w0 & Hr & Hp)]%IH; [by left|right..]; split_and!; try done.
  - exists (false, v), w. split; [by left|exact Hp].
  - exists r, w0. split; [by right|exact Hp].
Qed.

(** Whatever the watcher does to the node map meanwhile, the controller only ever reports one
    thing to the API server, and not before the map is ready: that a node's network is available, the node is the agent's own, and in
    the same round the provider had brought its routes up to a version of the map, and the CNI
    configuration, if there is one to write, was in place. *)
Theorem announcement_follows_routes maps rounds w node ty st rs msg e :
  (PatchNodeCondition node ty st rs msg, e) ∈ trace (runWatcher cw maps rounds w).2 ->
  (PatchNodeCondition node ty st rs msg, e) ∈ trace w \/
  (existsb IsReady maps = true /\ ty = NodeNetworkUnavailable /\ st = ConditionFalse /\
   exists r w0, r ∈ rounds /\ preceded r.2 node w0).
Proof.
  destruct (runWatcher_eq maps rounds w) as (w' & Hk & ->).
  assert ((PatchNodeCondition node ty st rs msg, e) ∈ trace w' -> (PatchNodeCondition node ty st rs msg, e) ∈ trace w) as Hw
    by (intros Hin; exact (kept_no_patch _ _ _ _ _ _ _ _ Hk Hin)).
  destruct (existsb IsReady maps); [|by left; apply Hw].
  intros [?|(Ht & Hs & Hp)]%watch_loop_patch; [by left; apply Hw|by right].
Qed.

(** A round in which the provider succeeds, on a node whose network is not yet reported
    available, does report it, after the CNI configuration of the node's pod CIDR. *)
Theorem round_announces v w w1 l :
  EnsureCIDRs (at_IsVersion v) (at_Snapshot v) w = (Ret tt, w1) -> in_time v ->
  me (at_cni_me v) = Some l -> NetworkAvailable (deref (heap (at_NetworkAvailable v)) l) = false ->
  (forall writer, cw = Some writer ->
     exists w3, WriteCNIConfig writer (PodCIDR (deref (heap (at_PodCIDR v)) l)) (sleep 1 w1).2 = (Ret tt, w3)) ->
  exists w2 w3 e, iteration cw v w = (Ret tt, w3) /\
    write_cni cw v (sleep 1 w1).2 = (Ret false, w2) /\
    trace w3 = trace w2 ++ [(PatchNodeCondition (Name (deref (heap (at_Name v)) l)) NodeNetworkUnavailable ConditionFalse
                               "RouteCreated" "kope.io network controller initialized node routes", e)].
Proof.
  intros He (_ & _ & Hl1 & Hl2 & Hl3 & Hl4) Hme Hna Hcw.
  pose proof (me_later _ _ _ Hl1 Hme) as H1. pose proof (me_later _ _ _ Hl2 H1) as H2.
  pose proof (me_later _ _ _ Hl3 H2) as H3. pose proof (me_later _ _ _ Hl4 H3) as H4.
  rewrite iteration_eq, He, bind_run.
  assert (exists w2, write_cni cw v (sleep 1 w1).2 = (Ret false, w2)) as [w2 Hw].
  { unfold write_cni, me_known, read_me. rewrite Hme, H1. destruct cw as [writer|]; [|by eexists]. simpl.
    rewrite bind_ret, bind_run. unfold try. destruct (Hcw writer eq_refl) as [w3 ->]. by eexists. }
  rewrite Hw. exists w2. unfold announce, me_known, read_me. rewrite H2, H3, H4. simpl. rewrite bind_ret, Hna, bind_ret, bind_run.
  unfold try, setNodeCondition, call. destruct (exec _ _) as [[x|] k]; by eexists _, _.
Qed.
End Runs.

Section Witnesses.
#[local] Existing Instance netlink_v1_1_0.
#[local] Existing Instance sample_corev1.

Definition steady : readings := MkReadings map_ab map_ab map_ab map_ab map_ab map_ab map_ab.

Lemma steady_in_time : in_time steady.
Proof. by repeat split. Qed.

Definition sim_writer : ConfigWriter Sim Layer2RoutingProvider :=
  simple_ConfigWriter (MkSimpleConfigWriter "/etc/cni/net.d/10-kopeio.conf").

Definition sim_layer2 : World Sim Layer2RoutingProvider := sim_world sim_empty (MkLayer2 0 eth0).

Lemma controller_ends_only_when_cancelled_witness :
  let rounds := [(false, steady); (false, steady); (true, steady)] in
  (runWatcher (Some sim_writer) [map_ab] rounds sim_layer2).1 = Ret true \/
  exists r w0, r ∈ rounds /\ (EnsureCIDRs (at_IsVersion r.2) (at_Snapshot r.2) (w0 : World Sim Layer2RoutingProvider)).1 = Exit.
Proof.
  intros rounds.
  destruct (controller_ends_only_when_cancelled (Some sim_writer) [map_ab] rounds sim_layer2) as [He|(r & w0 & Hr & He)].
  - repeat (apply Forall_cons; split; [exact steady_in_time|]). constructor.
  - left. exact He.
  - right. exists r, w0. split; [exact Hr|exact He].
Defined.

Lemma announcement_follows_routes_witness :
  exists r w0, r ∈ [(false, steady)] /\ preceded (P := Layer2RoutingProvider) (Some sim_writer) r.2 "a" w0.
Proof.
  destruct (announcement_follows_routes (Some sim_writer) [map_ab] [(false, steady)] sim_layer2 "a" "NetworkUnavailable" "False"
              "RouteCreated" "kope.io network controller initialized node routes" None) as [Hin|(_ & _ & _ & Hp)].
  - assert (exists t, trace (runWatcher (Some sim_writer) [map_ab] [(false, steady)] sim_layer2).2
                      = t ++ [(PatchNodeCondition "a" "NetworkUnavailable" "False"
                                 "RouteCreated" "kope.io network controller initialized node routes", None)]) as [t Ht].
    { eexists [_; _; _]. vm_compute. reflexivity. }
    rewrite Ht. apply elem_of_app. right. by left.
  - exfalso. revert Hin. apply not_elem_of_nil.
  - exact Hp.
Defined.

Lemma round_announces_witness :
  exists (w2 w3 : World Sim Layer2RoutingProvider) e, iteration (Some sim_writer) steady sim_layer2 = (Ret tt, w3) /\
    trace w3 = trace w2 ++ [(PatchNodeCondition "a" "NetworkUnavailable" "False"
                               "RouteCreated" "kope.io network controller initialized node routes", e)].
Proof.
  assert (EnsureCIDRs map_ab map_ab sim_layer2 = (Ret tt, (EnsureCIDRs map_ab map_ab sim_layer2).2)) as He
    by (vm_compute; reflexivity).
  destruct (me map_ab) as [l|] eqn:Hl; [|vm_compute in Hl; discriminate].
  destruct (round_announces (Some sim_writer) steady sim_layer2 _ l He steady_in_time Hl) as (w2 & w3 & e & Hr & _ & Ht).
  - vm_compute in Hl. injection Hl as <-. vm_compute. reflexivity.
  - intros writer [= <-]. vm_compute in Hl. injection Hl as <-. eexists. vm_compute. reflexivity.
  - exists w2, w3, e. split; [exact Hr|]. rewrite Ht. vm_compute in Hl. injection Hl as <-. reflexivity.
Defined.
End Witnesses.
