(* ===== verification/NodeController.v ===== *)
(** * The node watcher: pkg/watchers/nodecontroller.go

    The API server is outside src/: what it answers to List and Watch and what arrives on the
    watch channel is the input of [runOnce]. *)

From S2P Require Import Prelude GoNet K8s Nodes NodesFacts NodeMapSpec Netlink Effects Sim Provider Controller ControllerFacts.

(** The event types of k8s.io/apimachinery/pkg/watch; the cases of one Go [switch] differ, and so do
    the two that are tested before. *)
Class WatchConsts := {
  watch_Added : string;
  watch_Modified : string;
  watch_Deleted : string;
  watch_Bookmark : string;
  watch_Error : string;
  watch_distinct : NoDup [watch_Added; watch_Modified; watch_Deleted; watch_Bookmark; watch_Error]
}.

Definition apimachinery_v0_29 : WatchConsts := {|
  watch_Added := "ADDED";
  watch_Modified := "MODIFIED";
  watch_Deleted := "DELETED";
  watch_Bookmark := "BOOKMARK";
  watch_Error := "ERROR";
  watch_distinct := ltac:(by_computation)
|}.

(** A watch event; [None] is an object that is no [*corev1.Node]. *)
Record event := MkEvent { event_Type : string; event_Object : option Node }.

(** What the [select] receives. *)
Inductive received :=
| ctx_Done
| channel_closed
| result_event (e : event).

(** The answers of the API server to one [runOnce]. *)
Record responses := MkResponses {
  List_result : list Node + error;
  Watch_result : option error;
  ResultChan : list received
}.

(** How a [runOnce] ends: with [stop], to be run again after an error or a closed channel, or not yet,
    when the input ends while it waits for the channel. *)
Inductive once :=
| Stop
| Again (e : option error)
| Waiting.

Section NodeController.
Context {K : Type} `{Kernel K} `{CoreV1} `{WatchConsts}.

(** The [for] loop with its [select]. *)
Fixpoint receive (ch : list received) : M K NodeMap once :=
  match ch with
  | [] => mret Waiting
  | ctx_Done :: _ => mret Stop
  | channel_closed :: _ => mret (Again None)
  | result_event e :: rest =>
      if bool_decide (event_Type e = watch_Error) then mret (Again (Some (ErrorMsg "error from watch: %v")))
      else if bool_decide (event_Type e = watch_Bookmark) then receive rest
      else
        match event_Object e with
        | None => mret (Again (Some (ErrorMsg "object had unexpected type %T")))
        | Some node =>
            if bool_decide (event_Type e = watch_Added) || bool_decide (event_Type e = watch_Modified)
            then modify_prov (fun m => (UpdateNode m node).1);; receive rest
            else if bool_decide (event_Type e = watch_Deleted)
            then modify_prov (fun m => RemoveNode m node);; receive rest
            else exit
        end
  end.

(** The closure [runOnce]. *)
Definition runOnce (a : responses) : M K NodeMap once :=
  match List_result a with
  | inr e => mret (Again (Some (Errorf "error listing nodes: %w" e)))
  | inl items =>
      o ← next_order;
      modify_prov (fun m => (ReplaceAllNodes o m items).1);;
      modify_prov MarkReady;;
      match Watch_result a with
      | Some e => mret (Again (Some (Errorf "error watching nodes: %w" e)))
      | None => receive (ResultChan a)
      end
  end.

(** [func (c *NodeController) runWatcher(ctx context.Context)]: true when it has returned, false when
    it is still running at the end of the input. *)
Fixpoint NodeController_runWatcher (attempts : list responses) : M K NodeMap bool :=
  match attempts with
  | [] => mret false
  | a :: rest =>
      r ← runOnce a;
      match r with
      | Stop => mret true
      | Waiting => mret false
      | Again (Some _) => sleep 10;; NodeController_runWatcher rest
      | Again None => NodeController_runWatcher rest
      end
  end.

(** ** The state of the API server

    [api_apply] is what an event says about the nodes that exist. *)
Definition api_apply (s : gmap string Node) (e : event) : gmap string Node :=
  match event_Object e with
  | None => s
  | Some node =>
      if bool_decide (event_Type e = watch_Added) || bool_decide (event_Type e = watch_Modified)
      then <[node_Name node := node]> s
      else if bool_decide (event_Type e = watch_Deleted) then delete (node_Name node) s
      else s
  end.

Definition listed_nodes (l : list Node) : gmap string Node := index_by (fun n => Some (node_Name n)) l.

Definition digest (s : gmap string Node) : gmap string NodeInfo :=
  (fun n => summarize (node_Name n) n) <$> s.

(** The events of a healthy watch: nodes that come, change and go, and bookmarks. *)
Definition healthy (e : event) : Prop :=
  event_Type e = watch_Bookmark \/
  is_Some (event_Object e) /\ event_Type e ∈ [watch_Added; watch_Modified; watch_Deleted].

Implicit Types (w : World K NodeMap).

Lemma watch_types_differ :
  watch_Added ≠ watch_Error /\ watch_Modified ≠ watch_Error /\ watch_Deleted ≠ watch_Error /\
  watch_Bookmark ≠ watch_Error /\ watch_Added ≠ watch_Bookmark /\ watch_Modified ≠ watch_Bookmark /\
  watch_Deleted ≠ watch_Bookmark /\ watch_Added ≠ watch_Deleted /\ watch_Modified ≠ watch_Deleted.
Proof.
  pose proof watch_distinct as Hd. rewrite !NoDup_cons, !elem_of_cons in Hd.
  split_and!; intros He; rewrite He in Hd; tauto.
Qed.

(** The digest of the API's state after an event is what the event makes of the digest. *)
Lemma digest_insert s n : digest (<[node_Name n := n]> s) = <[node_Name n := summarize (node_Name n) n]> (digest s).
Proof. unfold digest. by rewrite fmap_insert. Qed.

Lemma digest_delete s name : digest (delete name s) = delete name (digest s).
Proof. unfold digest. by rewrite fmap_delete. Qed.

(** Receiving healthy events keeps the node map in step with the API's state. *)
Lemma receive_tracks es : forall w s,
  Forall healthy es -> NodeMap_wf (prov w) -> view (prov w) = digest s ->
  exists m, NodeMap_wf m /\ view m = digest (foldl api_apply s es) /\ ready m = ready (prov w) /\
    forall tail, receive ((result_event <$> es) ++ tail) w
                 = receive tail (MkWorld (kern w) (trace w) (sched w) m).
Proof.
  destruct watch_types_differ as (Hae & Hme & Hde & Hbe & Hab & Hmb & Hdb & Had & Hmd).
  induction es as [|e es IH]; intros w s Hh Hwf Hv.
  { exists (prov w). split_and!; try done. intros tail. by destruct w. }
  apply Forall_cons in Hh as [He Hh]. cbn [fmap list_fmap app foldl].
  assert (forall m, NodeMap_wf m -> view m = digest (api_apply s e) -> ready m = ready (prov w) ->
    (forall tail, receive (result_event e :: tail) w = receive tail (MkWorld (kern w) (trace w) (sched w) m)) ->
    exists m, NodeMap_wf m /\ view m = digest (foldl api_apply (api_apply s e) es) /\ ready m = ready (prov w) /\
      forall tail, receive (result_event e :: (result_event <$> es) ++ tail) w
                   = receive tail (MkWorld (kern w) (trace w) (sched w) m)) as Hstep.
  { intros m Hm Hvm Hrm Hrec.
    destruct (IH (MkWorld (kern w) (trace w) (sched w) m) (api_apply s e) Hh Hm Hvm) as (m' & Hwf' & Hv' & Hr' & Hrec').
    exists m'. split_and!; [done|done|by rewrite Hr'|]. intros tail. by rewrite Hrec, Hrec'. }
  destruct He as [Hb|[[node Hn] Hty]].
  { apply (Hstep (prov w)); [done| |done|].
    - unfold api_apply. rewrite Hb. destruct (event_Object e); [|done]. by rewrite !bool_decide_false by done.
    - intros tail. cbn [receive]. rewrite Hb. rewrite bool_decide_false, bool_decide_true by done. by destruct w. }
  rewrite !elem_of_cons in Hty.
  assert (event_Type e = watch_Deleted \/
          bool_decide (event_Type e = watch_Added) || bool_decide (event_Type e = watch_Modified) = true) as [Ht|Ht].
  { destruct Hty as [Ht|[Ht|[Ht|?%elem_of_nil]]]; [right|right|by left|done]; rewrite Ht.
    - by rewrite bool_decide_true by done.
    - by rewrite (bool_decide_true (watch_Modified = watch_Modified)), orb_true_r by done. }
  - apply (Hstep (RemoveNode (prov w) node)); [by apply removeNode_wf| |done|].
    + unfold api_apply. rewrite Hn, Ht, !bool_decide_false, bool_decide_true by done. simpl.
      unfold RemoveNode. by rewrite removeNode_view, digest_delete, Hv.
    + intros tail. cbn [receive]. rewrite Hn, Ht, !bool_decide_false, bool_decide_true by done. done.
  - apply (Hstep (UpdateNode (prov w) node).1); [by apply updateNode_wf| | |].
    + unfold api_apply. rewrite Hn, Ht. unfold UpdateNode. by rewrite updateNode_view, digest_insert, Hv.
    + unfold UpdateNode. by rewrite updateNode_eq.
    + intros tail. cbn [receive]. rewrite Hn, Ht.
      rewrite (bool_decide_false (event_Type e = watch_Error)), (bool_decide_false (event_Type e = watch_Bookmark)); [done|..];
        intros Hx; rewrite Hx in Hty; destruct Hty as [?|[?|[?|?%elem_of_nil]]]; done.
Qed.

(** Whatever arrives, the watcher only runs operations of the node map. *)
Lemma later_apply m op : later m (nm_apply m op).
Proof. exists (0 + op_bound m op). apply run_step. constructor. Qed.

Lemma receive_later ch : forall w, later (prov w) (prov (receive ch w).2).
Proof.
  induction ch as [|r ch IH]; intros w; [reflexivity|]. destruct r as [| |e]; [reflexivity..|]. cbn [receive].
  destruct (bool_decide _); [reflexivity|]. destruct (bool_decide _); [apply IH|].
  destruct (event_Object e) as [node|]; [|reflexivity].
  destruct (_ || _); [|destruct (bool_decide _); [|reflexivity]]; rewrite bind_run; (etransitivity; [|apply IH]).
  - apply (later_apply (prov w) (OpUpdate node)).
  - apply (later_apply (prov w) (OpRemove node)).
Qed.

Lemma runOnce_later a w : later (prov w) (prov (runOnce a w).2).
Proof.
  unfold runOnce. destruct (List_result a) as [items|e]; [|reflexivity].
  rewrite bind_order. world. rewrite !bind_run. unfold modify_prov. cbv beta iota. cbn [kern trace sched prov].
  transitivity (MarkReady (ReplaceAllNodes (sched w 0%nat) (prov w) items).1).
  - transitivity (ReplaceAllNodes (sched w 0%nat) (prov w) items).1.
    + apply (later_apply (prov w) (OpReplace (sched w 0%nat) items)).
    + apply (later_apply _ OpReady).
  - destruct (Watch_result a) as [e|]; [reflexivity|].
    pose proof (receive_later (ResultChan a) (MkWorld (kern w) (trace w ++ []) (fun n => sched w (S n))
      (MarkReady (ReplaceAllNodes (sched w 0%nat) (prov w) items).1))) as Hl. exact Hl.
Qed.

Lemma later_wf m m' : later m m' -> NodeMap_wf m -> NodeMap_wf m'.
Proof. intros [c Hr] Hwf. by eapply run_wf. Qed.

(** A [runOnce] whose List and Watch succeed, up to the first event that is not a healthy one. *)
Lemma runOnce_tracks a w l es tail :
  NodeMap_wf (prov w) -> List_result a = inl l -> Watch_result a = None ->
  ResultChan a = (result_event <$> es) ++ tail -> Forall healthy es ->
  exists m s, NodeMap_wf m /\ view m = digest (foldl api_apply (listed_nodes l) es) /\ ready m = true /\
    runOnce a w = receive tail (MkWorld (kern w) (trace w) s m).
Proof.
  intros Hwf Hl Hw Hch Hh. unfold runOnce. rewrite Hl, bind_order, !bind_run. unfold modify_prov.
  cbn [kern trace sched prov after]. rewrite Hw, Hch, app_nil_r.
  set (m1 := (ReplaceAllNodes (sched w 0%nat) (prov w) l).1).
  destruct (receive_tracks es (MkWorld (kern w) (trace w) (fun n => sched w (S n)) (MarkReady m1)) (listed_nodes l))
    as (m & Hm & Hv & Hr & Hrec); [done| | |].
  - apply MarkReady_wf. apply (later_wf (prov w)); [|done]. apply (later_apply (prov w) (OpReplace _ l)).
  - simpl. change (view (MarkReady m1)) with (view m1). unfold m1.
    destruct (ReplaceAllNodes_spec (sched w 0%nat) (prov w) l Hwf) as [-> _]. done.
  - exists m, (fun n => sched w (S n)). split_and!; [done..|]. apply Hrec.
Qed.

(** The ways a [runOnce] can break off and be run again. *)
Definition breaks_off (r : received) : Prop :=
  r = channel_closed \/
  exists e, r = result_event e /\
    (event_Type e = watch_Error \/ event_Type e ≠ watch_Bookmark /\ event_Object e = None).

Definition interrupted (a : responses) : Prop :=
  (exists e, List_result a = inr e) \/
  exists l, List_result a = inl l /\
    ((exists e, Watch_result a = Some e) \/
     Watch_result a = None /\ exists es r rest,
       ResultChan a = (result_event <$> es) ++ r :: rest /\ Forall healthy es /\ breaks_off r).

Lemma interrupted_again a w :
  NodeMap_wf (prov w) -> interrupted a -> exists e w', runOnce a w = (Ret (Again e), w').
Proof.
  intros Hwf [[e Hl]|(l & Hl & [[e Hw]|(Hw & es & r & rest & Hch & Hh & Hr)])].
  - unfold runOnce. rewrite Hl. by eexists _, _.
  - unfold runOnce. rewrite Hl, bind_order, !bind_run. cbn [modify_prov]. rewrite Hw. by eexists _, _.
  - destruct (runOnce_tracks a w l es (r :: rest) Hwf Hl Hw Hch Hh) as (m & s & _ & _ & _ & ->).
    destruct Hr as [->|(e & -> & Hr)]; [by eexists _, _|]. cbn [receive].
    case_bool_decide; [by eexists _, _|]. destruct Hr as [?|[Hb Ho]]; [done|].
    rewrite bool_decide_false, Ho by done. by eexists _, _.
Qed.

(** C12: the watcher recovers: however many attempts broke off before, with a failed List or Watch, a
    closed channel, an error event or an object of another type, during the next one the node map
    holds the digest of what the API server said last, the listed nodes with the events since
    applied to them, and nothing left over from before; the map is ready, and its states form a run
    of its own operations. *)
Theorem watcher_tracks_api pre a l es w :
  NodeMap_wf (prov w) -> Forall interrupted pre ->
  List_result a = inl l -> Watch_result a = None -> ResultChan a = result_event <$> es -> Forall healthy es ->
  exists w', NodeController_runWatcher (pre ++ [a]) w = (Ret false, w') /\
    view (prov w') = digest (foldl api_apply (listed_nodes l) es) /\ IsReady (prov w') = true /\
    later (prov w) (prov w').
Proof.
  intros Hwf Hpre Hl Hw Hch Hh. revert w Hwf. induction Hpre as [|b pre Hb _ IH]; intros w Hwf; cbn [app NodeController_runWatcher].
  - pose proof (runOnce_later a w) as Hlater.
    destruct (runOnce_tracks a w l es [] Hwf Hl Hw) as (m & s & _ & Hv & Hr & Ho); [by rewrite app_nil_r|done|].
    rewrite bind_run. rewrite Ho in Hlater |- *. by eexists.
  - pose proof (runOnce_later b w) as Hlater. rewrite bind_run.
    destruct (interrupted_again b w Hwf Hb) as (e & w1 & Ho). rewrite Ho in Hlater |- *. simpl in Hlater.
    pose proof (later_wf _ _ Hlater Hwf) as Hwf1.
    assert (exists w2, prov w2 = prov w1 /\
              match e with
              | Some _ => sleep 10;; NodeController_runWatcher (pre ++ [a])
              | None => NodeController_runWatcher (pre ++ [a])
              end w1 = NodeController_runWatcher (pre ++ [a]) w2) as (w2 & Hp & ->).
    { destruct e as [e|]; [|by exists w1]. exists (sleep 10 w1).2. rewrite bind_run, sleep_returns.
      split; [|done]. by destruct (sleep_keeps 10 w1) as [Hp _]. }
    rewrite <- Hp in Hwf1, Hlater. destruct (IH w2 Hwf1) as (w' & Hr & Hv & Hrd & Hl2).
    exists w'. split_and!; [done..|]. by etransitivity.
Qed.
End NodeController.

Section Witnesses.
#[local] Existing Instance sample_corev1.
#[local] Existing Instance apimachinery_v0_29.

Lemma watcher_tracks_api_witness :
  let broken := MkResponses (inr (ErrorMsg "timeout")) None [] in
  let closed := MkResponses (inl [node_a]) None [channel_closed] in
  let a := MkResponses (inl [node_a; node_b]) None
             [result_event (MkEvent watch_Modified (Some node_a')); result_event (MkEvent watch_Deleted (Some node_b))] in
  exists w', NodeController_runWatcher [broken; closed; a] (sim_world sim_empty (NewNodeMap is_a)) = (Ret false, w') /\
    view (prov w') = {[ "a"%string := summarize "a" node_a' ]}.
Proof.
  intros broken closed a.
  destruct (watcher_tracks_api [broken; closed] a [node_a; node_b]
              [MkEvent watch_Modified (Some node_a'); MkEvent watch_Deleted (Some node_b)]
              (sim_world sim_empty (NewNodeMap is_a))) as (w' & Hr & Hv & _).
  - apply NewNodeMap_wf.
  - apply Forall_cons. split; [left; by eexists|]. apply Forall_cons. split; [|constructor].
    right. exists [node_a]. split; [reflexivity|]. right. split; [reflexivity|].
    exists [], channel_closed, []. split; [reflexivity|]. split; [constructor|by left].
  - reflexivity.
  - reflexivity.
  - reflexivity.
  - apply Forall_cons. split; [right; split; [by eexists|by_computation]|].
    apply Forall_cons. split; [right; split; [by eexists|by_computation]|]. constructor.
  - exists w'. split; [exact Hr|]. rewrite Hv. by_computation.
Defined.
End Witnesses.
