(* ===== verification/System.v ===== *)
(** * The parts together: watcher, node map, controller, API server and kernel

    The agent runs the node watcher and the routing controller as two goroutines that share the
    node map, while the API server goes on changing. [step] is a step relation on the state of all
    of them, in which the steps of one interleave freely with those of the others; each step of
    the program runs the definitions of its component. The watcher changes the node map one assignment
    at a time, while it holds the mutex; what the controller reads under the mutex it reads between
    two of these critical sections, and what it reads without the mutex it can read in the middle
    of one. The integer of a step bounds how often it increments the version of the node map. *)

From S2P Require Import Prelude GoNet K8s Nodes NodesFacts NodeMapSpec Locking Netlink Effects.
From S2P Require Import Provider Delivery Controller ControllerFacts NodeController.

(** Where the watcher is in its [runOnce]: before the answer to List, with the answer, with the
    answer filed, and in the [select] over the watch channel. *)
Inductive watcher_pc :=
| Idle
| Listed (items : list Node)
| Replaced
| Watching.

Record system (K P : Type) := MkSystem {
  (** The nodes of the API server. *)
  s_api : gmap string Node;
  (** The events since the last List that the watcher has not received. *)
  s_chan : list event;
  s_watcher : watcher_pc;
  (** The map when the mutex was free last, and the assignments the watcher has made since, in the
      critical section it is in. *)
  s_map : NodeMap;
  s_done : list write;
  (** Whether the controller has left its first loop. *)
  s_started : bool;
  (** The states the map had at the reads of the controller's current round. *)
  s_reads : list NodeMap;
  (** The kernel and the provider. *)
  s_world : World K P
}.
Arguments MkSystem {K P}.
Arguments s_api {K P}.
Arguments s_chan {K P}.
Arguments s_watcher {K P}.
Arguments s_map {K P}.
Arguments s_done {K P}.
Arguments s_started {K P}.
Arguments s_reads {K P}.
Arguments s_world {K P}.

Section System.
Context {K P : Type} `{Kernel K} `{!Provider K P} `{CoreV1} `{WatchConsts}.
Context (cw : option (ConfigWriter K P)).
Implicit Types (s : system K P) (w : World K P) (m : NodeMap).

(** The channel exists once List has answered: Watch starts at the answer's resource version. *)
Definition connected (pc : watcher_pc) : bool := match pc with Idle => false | _ => true end.

(** The world in which the watcher's code runs; it touches neither the kernel nor the provider. *)
Definition watcher_world w (m : NodeMap) : World K NodeMap := MkWorld (kern w) (trace w) (sched w) m.

(** One round of the [select] with a healthy event. *)
Definition on_event w m (e : event) : NodeMap := prov (receive [result_event e] (watcher_world w m)).2.

(** The reads of one iteration of the controller, in their order. *)
Definition round_readings (l : list NodeMap) : option readings :=
  match l with
  | [m1; m2; m3; m4; m5; m6; m7] => Some (MkReadings m1 m2 m3 m4 m5 m6 m7)
  | _ => None
  end.

(** The method of the map that a healthy event leads to. *)
Definition event_op (e : event) : option nm_op :=
  match event_Object e with
  | None => None
  | Some node =>
      if bool_decide (event_Type e = watch_Bookmark) then None
      else if bool_decide (event_Type e = watch_Added) || bool_decide (event_Type e = watch_Modified)
      then Some (OpUpdate node) else Some (OpRemove node)
  end.

(** The method the watcher is in or is about to call. *)
Definition watcher_op s (op : nm_op) : Prop :=
  match s_watcher s with
  | Idle => False
  | Listed items => exists o, op = OpReplace o items
  | Replaced => op = OpReady
  | Watching => match s_chan s with e :: _ => event_op e = Some op | [] => False end
  end.

(** What the memory of the map holds now. *)
Definition s_memory s : NodeMap := memory (s_map s) (s_done s).

Definition event_writes m (e : event) : list write :=
  match event_op e with Some op => op_writes m op | None => [] end.

(** The reads of a round before which the controller takes the mutex: [IsVersion] and [Snapshot]. *)
Definition locked_reads : nat := 2.

Inductive step s : Z -> system K P -> Prop :=
(** A node is created, changed or deleted, or a bookmark is sent. *)
| api_changes e :
    healthy e ->
    step s 0 (MkSystem (api_apply (s_api s) e) (if connected (s_watcher s) then s_chan s ++ [e] else s_chan s)
                (s_watcher s) (s_map s) (s_done s) (s_started s) (s_reads s) (s_world s))
| watcher_lists items :
    s_watcher s = Idle -> listed_nodes items = s_api s ->
    step s 0 (MkSystem (s_api s) [] (Listed items) (s_map s) (s_done s) (s_started s) (s_reads s) (s_world s))
(** The next assignment of the method. *)
| watcher_writes op x rest :
    watcher_op s op -> op_writes (s_map s) op = s_done s ++ x :: rest ->
    step s 0 (MkSystem (s_api s) (s_chan s) (s_watcher s) (s_map s) (s_done s ++ [x])
                (s_started s) (s_reads s) (s_world s))
(** The end of a method, after its last assignment: the mutex is released. *)
| watcher_replaces items o :
    s_watcher s = Listed items -> s_done s = op_writes (s_map s) (OpReplace o items) ->
    step s (op_bound (s_map s) (OpReplace o items))
      (MkSystem (s_api s) (s_chan s) Replaced (ReplaceAllNodes o (s_map s) items).1 []
         (s_started s) (s_reads s) (s_world s))
| watcher_marks_ready :
    s_watcher s = Replaced -> s_done s = op_writes (s_map s) OpReady ->
    step s 0 (MkSystem (s_api s) (s_chan s) Watching (MarkReady (s_map s)) [] (s_started s) (s_reads s) (s_world s))
| watcher_receives e rest :
    s_watcher s = Watching -> s_chan s = e :: rest -> s_done s = event_writes (s_map s) e ->
    step s 1 (MkSystem (s_api s) rest Watching (on_event (s_world s) (s_map s) e) []
                (s_started s) (s_reads s) (s_world s))
(** An error, an error event or a closed channel: the watcher starts over. *)
| watcher_breaks_off :
    s_done s = [] ->
    step s 0 (MkSystem (s_api s) [] Idle (s_map s) [] (s_started s) (s_reads s) (s_world s))
| controller_starts :
    s_done s = [] -> IsReady (s_map s) = true ->
    step s 0 (MkSystem (s_api s) (s_chan s) (s_watcher s) (s_map s) (s_done s) true (s_reads s) (s_world s))
(** The controller has to wait for the mutex. *)
| controller_reads :
    s_started s = true -> (length (s_reads s) < locked_reads)%nat -> s_done s = [] ->
    step s 0 (MkSystem (s_api s) (s_chan s) (s_watcher s) (s_map s) (s_done s) (s_started s)
                (s_reads s ++ [s_map s]) (s_world s))
(** It reads [nodeMap.me] and the fields behind it without the mutex. *)
| controller_peeks :
    s_started s = true -> (locked_reads <= length (s_reads s))%nat -> round_readings (s_reads s) = None ->
    step s 0 (MkSystem (s_api s) (s_chan s) (s_watcher s) (s_map s) (s_done s) (s_started s)
                (s_reads s ++ [s_memory s]) (s_world s))
(** The effects of a round, once it has read all it reads. Nobody else reads or changes what the
    controller acts on, so it does not matter that they are taken together. *)
| controller_acts v w' :
    round_readings (s_reads s) = Some v -> iteration cw v (s_world s) = (Ret tt, w') ->
    step s 0 (MkSystem (s_api s) (s_chan s) (s_watcher s) (s_map s) (s_done s) (s_started s) [] w').

Inductive steps s : Z -> system K P -> Prop :=
| steps_refl : steps s 0 s
| steps_step n s1 d s2 : steps s n s1 -> step s1 d s2 -> steps s (n + d) s2.

Lemma steps_trans s1 n s2 d s3 : steps s1 n s2 -> steps s2 d s3 -> steps s1 (n + d) s3.
Proof.
  intros H12. induction 1 as [|d s3 d' s4 _ IH H34]; [by rewrite Z.add_0_r|].
  rewrite Z.add_assoc. by eapply steps_step.
Qed.

Lemma steps_one s1 n s2 : step s1 n s2 -> steps s1 n s2.
Proof. intros Hs. rewrite <- (Z.add_0_l n). eapply steps_step; [apply steps_refl|exact Hs]. Qed.

(** The agent when it starts: nothing is known and nothing has been applied. *)
Definition start (api : gmap string Node) (p : Node -> bool) w : system K P :=
  MkSystem api [] Idle (NewNodeMap p) [] false [] w.

Definition api_wf (api : gmap string Node) : Prop :=
  forall name node, api !! name = Some node -> node_Name node = name.

Definition initial s : Prop :=
  exists api p w, s = start api p w /\ api_wf api /\ lastVersionApplied (prov w) = 0.

Definition reachable (n : Z) s : Prop := exists s0, initial s0 /\ steps s0 n s.

(** ** Events *)

(** A healthy event is received by one round of the loop, which runs one operation of the map. *)
Lemma receive_healthy e ch (w : World K NodeMap) :
  healthy e ->
  receive (result_event e :: ch) w = receive ch (receive [result_event e] w).2 /\
  prov (receive [result_event e] w).2 = match event_op e with Some op => nm_apply (prov w) op | None => prov w end.
Proof.
  destruct watch_types_differ as (Hae & Hme & Hde & Hbe & Hab & Hmb & Hdb & Had & Hmd).
  intros [Hb|[[node Hn] Hty]]; cbn [receive]; unfold event_op.
  { rewrite Hb. rewrite (bool_decide_false (watch_Bookmark = watch_Error)) by done.
    rewrite bool_decide_true by done. split; [done|]. by destruct (event_Object e). }
  rewrite Hn. rewrite !elem_of_cons in Hty. destruct Hty as [Ht|[Ht|[Ht|?%elem_of_nil]]]; [..|done]; rewrite Ht.
  - rewrite (bool_decide_false (watch_Added = watch_Error)), (bool_decide_false (watch_Added = watch_Bookmark)),
      (bool_decide_true (watch_Added = watch_Added)) by done. done.
  - rewrite (bool_decide_false (watch_Modified = watch_Error)), (bool_decide_false (watch_Modified = watch_Bookmark)),
      (bool_decide_true (watch_Modified = watch_Modified)), orb_true_r by done. done.
  - rewrite (bool_decide_false (watch_Deleted = watch_Error)), (bool_decide_false (watch_Deleted = watch_Bookmark)),
      (bool_decide_false (watch_Deleted = watch_Added)), (bool_decide_false (watch_Deleted = watch_Modified)),
      (bool_decide_true (watch_Deleted = watch_Deleted)) by done. done.
Qed.

Lemma on_event_op w m e :
  healthy e -> on_event w m e = match event_op e with Some op => nm_apply m op | None => m end.
Proof. intros He. unfold on_event. by rewrite (proj2 (receive_healthy e [] (watcher_world w m) He)). Qed.

Lemma on_event_evolves w m e : NodeMap_wf m -> healthy e -> evolves 1 m (on_event w m e).
Proof.
  intros Hwf He. rewrite on_event_op by done. unfold event_op.
  assert (evolves 1 m m) as Hrefl.
  { exists 0. rewrite Z.add_0_r. split_and!; try done || lia. symmetry. apply Z.mod_small, Hwf. }
  destruct (event_Object e) as [node|]; [|done]. destruct (bool_decide _); [done|].
  destruct (_ || _).
  - apply (evolves_apply m (OpUpdate node) Hwf).
  - apply (evolves_apply m (OpRemove node) Hwf).
Qed.

(** The node map stays in step with the API's state. *)
Lemma on_event_tracks w m e (api : gmap string Node) :
  NodeMap_wf m -> healthy e -> view m = digest api ->
  view (on_event w m e) = digest (api_apply api e) /\ ready (on_event w m e) = ready m.
Proof.
  intros Hwf He Hv.
  destruct (receive_tracks [e] (watcher_world w m) api) as (m' & _ & Hv' & Hr' & Hrec);
    [by apply Forall_singleton|done|done|].
  specialize (Hrec []). cbn [fmap list_fmap app] in Hrec. unfold on_event. by rewrite Hrec.
Qed.

Lemma api_apply_wf api e : api_wf api -> api_wf (api_apply api e).
Proof.
  intros Hwf name node. unfold api_apply. destruct (event_Object e) as [n|]; [|apply Hwf].
  destruct (_ || _).
  - intros [[<- <-]|[_ Hl]]%lookup_insert_Some; [done|by apply Hwf].
  - destruct (bool_decide _); [|apply Hwf]. intros [_ Hl]%lookup_delete_Some. by apply Hwf.
Qed.

Lemma listed_nodes_all api : api_wf api -> listed_nodes ((map_to_list api).*2) = api.
Proof.
  intros Hwf. assert (omap (fun n => Some (node_Name n)) (map_to_list api).*2 = (map_to_list api).*1) as Hkeys.
  { assert (forall l, (forall e, e ∈ l -> node_Name e.2 = e.1) ->
      omap (fun n => Some (node_Name n)) l.*2 = l.*1) as Hl.
    { intros l. induction l as [|e l IH]; intros Hl; [done|]. cbn. rewrite (Hl e ltac:(by left)). f_equal.
      apply IH. intros e' He'. apply Hl. by right. }
    apply Hl. intros [name node] Hin%elem_of_map_to_list. by apply Hwf. }
  apply map_eq. intros name. apply option_eq. intros node. unfold listed_nodes. rewrite index_by_unique.
  - rewrite list_elem_of_fmap. split.
    + intros [([name' node'] & -> & Hin%elem_of_map_to_list) [= Hn]]. simpl in *.
      by rewrite <- Hn, (Hwf _ _ Hin).
    + intros Hl. split; [|by rewrite (Hwf _ _ Hl)]. exists (name, node). split; [done|by apply elem_of_map_to_list].
  - rewrite Hkeys. apply NoDup_fst_map_to_list.
Qed.
End System.
