(* ===== verification/SystemFacts.v ===== *)
(** * What the parts guarantee together

    An invariant of every reachable state of [System], by induction over its steps, and what it
    gives: when the watcher has caught up and the version applied last is current, the pods of
    every node of the API server are reached, as far as the provider can serve it ([deliverable]);
    the network is reported available only after that; and from every state the program's own steps
    lead there if the provider succeeds. *)

From S2P Require Import Prelude GoNet K8s Nodes NodesFacts NodeMapSpec Locking Netlink Effects Sim.
From S2P Require Import RouteTable KernelLaws RouteFacts Provider Layer2 Vxlan2 Delivery Cni Controller ControllerFacts.
From S2P Require Import NodeController System.

(** ** Runs that leave the network alone *)

Section Undisturbed.
Context {K P : Type} `{Kernel K} (Q : K -> Prop) (HQ : undisturbed Q).

Lemma quiet_aside a : aside a = true -> quiet (P := P) Q (call a).
Proof using HQ. intros Ha. apply quiet_call. intros k. by apply HQ. Qed.

Lemma quiet_ReadFile path : quiet (P := P) Q (query (k_ReadFile path)).
Proof using HQ. apply quiet_query, HQ. Qed.
End Undisturbed.

#[export] Hint Resolve quiet_aside quiet_ReadFile : net.

(** A writer of the CNI configuration touches files alone. *)
Definition files_only {K P} `{Kernel K} (cw : option (ConfigWriter K P)) : Prop :=
  forall writer (Q : K -> Prop) podCIDR, cw = Some writer -> undisturbed Q -> quiet Q (WriteCNIConfig writer podCIDR).

Lemma simple_files_only {K P} `{Kernel K} writer : files_only (Some (simple_ConfigWriter (K := K) (P := P) writer)).
Proof.
  intros ? Q podCIDR [= <-] HQ. cbn. unfold SimpleConfigWriter_WriteCNIConfig. quiet_steps.
Qed.

Section Rest.
Context {K P : Type} `{Kernel K} `{!Provider K P} `{CoreV1}.
Context (cw : option (ConfigWriter K P)) (Hcw : files_only cw).
Implicit Types (w : World K P) (v : readings).

(** What an iteration does besides [EnsureCIDRs]. *)
Lemma sleep_quiet Q n : undisturbed Q -> quiet (P := P) Q (sleep n).
Proof. intros HQ. unfold sleep. quiet_steps. Qed.

Lemma write_cni_quiet Q v : undisturbed Q -> quiet Q (write_cni cw v).
Proof using Hcw.
  intros HQ. unfold write_cni, read_me. pose proof (sleep_quiet Q 10 HQ) as Hs.
  destruct cw as [writer|] eqn:Hc; [|quiet_steps]. pose proof (fun p => Hcw writer Q p eq_refl HQ).
  quiet_steps.
Qed.

Lemma announce_quiet Q v : undisturbed Q -> quiet (P := P) Q (announce v).
Proof. intros HQ. unfold announce, read_me, setNodeCondition. quiet_steps. Qed.

Lemma announce_prov v w : prov (announce v w).2 = prov w.
Proof.
  unfold announce, read_me. destruct (negb _); [done|]. rewrite bind_run.
  destruct (me (at_NetworkAvailable v)); [|done]. cbv beta iota. cbn [mret M_ret].
  destruct (NetworkAvailable _); [done|]. rewrite bind_run. destruct (me (at_Name v)); [|done].
  cbn [mret M_ret]. rewrite bind_run. unfold try, setNodeCondition, call. by destruct (exec _ _) as [[] ?].
Qed.

(** An iteration is a run of [EnsureCIDRs] and, after it, only calls that leave the network and
    the provider alone. *)
Lemma iteration_rest v w w' :
  iteration cw v w = (Ret tt, w') ->
  exists r w1, EnsureCIDRs (at_IsVersion v) (at_Snapshot v) w = (r, w1) /\ r ≠ Exit /\ prov w' = prov w1 /\
    forall Q, undisturbed Q -> Q (kern w1) -> Q (kern w').
Proof using Hcw.
  rewrite iteration_eq. destruct (EnsureCIDRs _ _ w) as [[[]|e|] w1] eqn:He; intros Hr; [| |done].
  - eexists _, w1. split; [reflexivity|]. split; [done|].
    pose proof (sleep_keeps 1 w1) as [Hp1 _]. pose proof (write_cni_keeps cw v (sleep 1 w1).2) as [Hp2 _].
    split.
    + rewrite bind_run in Hr. destruct (write_cni cw v _) as [[b|e|] w2]; [|done..]. simpl in Hp2.
      destruct b; [injection Hr as <-; congruence|].
      pose proof (announce_prov v w2) as Hp3. rewrite Hr in Hp3. simpl in Hp3. congruence.
    + intros Q HQ HQ1. pose proof (sleep_quiet Q 1 HQ w1 HQ1) as HQ2.
      assert (quiet Q (b ← write_cni cw v; if (b : bool) then mret tt else announce v)) as Hq.
      { apply quiet_bind; [by apply write_cni_quiet|]. intros []; [apply quiet_ret|by apply announce_quiet]. }
      specialize (Hq _ HQ2). by rewrite Hr in Hq.
  - injection Hr as <-. eexists _, w1. split; [reflexivity|]. split; [done|].
    pose proof (sleep_keeps 10 w1) as [Hp1 _]. split; [done|]. intros Q HQ. by apply sleep_quiet.
Qed.
End Rest.

(** ** The history of the node map *)

Section History.
Context `{CoreV1}.

(** A state of the map with the number of version increments there can have been until then. *)
Definition mark : Type := Z * NodeMap.

Definition before (a b : mark) : Prop := evolves (b.1 - a.1) a.2 b.2.

#[export] Instance before_transitive : Transitive before.
Proof.
  intros a b c Hab Hbc. unfold before. replace (c.1 - a.1) with ((b.1 - a.1) + (c.1 - b.1)) by lia.
  by eapply evolves_trans.
Qed.

Lemma before_step (a b : mark) n m : before a b -> evolves n b.2 m -> before a (b.1 + n, m).
Proof.
  intros Hab Hm. unfold before. simpl. replace (b.1 + n - a.1) with ((b.1 - a.1) + n) by lia.
  by eapply evolves_trans.
Qed.

Lemma evolves_refl m : NodeMap_wf m -> evolves 0 m m.
Proof.
  intros Hwf. exists 0. rewrite Z.add_0_r. split_and!; try done || lia. symmetry. apply Z.mod_small, Hwf.
Qed.

Lemma before_wf (a b : mark) : before a b -> NodeMap_wf b.2.
Proof. by intros (k & _ & _ & _ & Hwf). Qed.

Lemma before_le (a b : mark) : before a b -> a.1 <= b.1.
Proof. intros (k & Hk & _). lia. Qed.

Lemma u64_same v k : 0 <= v < 2 ^ 64 -> 0 <= k < 2 ^ 64 -> u64 (v + k) = v -> k = 0.
Proof. unfold u64. intros ???. Z.div_mod_to_equations. lia. Qed.

(** With fewer than 2^64 increments, a version that is current again was current all the time. *)
Lemma same_version_between (a m b : mark) :
  before a m -> before m b -> NodeMap_wf a.2 -> b.1 - a.1 < 2 ^ 64 -> version b.2 = version a.2 ->
  version m.2 = version a.2 /\ observe m.2 = observe a.2 /\ observe b.2 = observe a.2.
Proof.
  intros (k1 & Hk1 & Hv1 & Hz1 & _) (k2 & Hk2 & Hv2 & Hz2 & _) Hwf Hc Hv.
  rewrite Hv1, u64_add_l, <- Z.add_assoc in Hv2. rewrite Hv in Hv2.
  pose proof (wf_version _ Hwf) as Hb.
  assert (k1 + k2 = 0) as Hk by (apply (u64_same (version a.2)); [done|lia|done]).
  assert (k1 = 0 /\ k2 = 0) as [-> ->] by lia.
  rewrite Hv1, Z.add_0_r. split_and!; [by apply Z.mod_small|by apply Hz1|by rewrite Hz2, Hz1].
Qed.
End History.

(** ** The invariant *)

Section Invariant.
Context {K P : Type} `{Kernel K} `{!Provider K P} `{!Delivery K P} `{CoreV1} `{WatchConsts}.
Context (cw : option (ConfigWriter K P)) (Hcw : files_only cw).
Implicit Types (s : system K P) (w : World K P) (m : NodeMap).

(** The watcher: what it has filed, with the events it has not received yet, is the API's state. *)
Definition tracks s : Prop :=
  api_wf (s_api s) /\ Forall healthy (s_chan s) /\
  match s_watcher s with
  | Idle => True
  | Listed items => foldl api_apply (listed_nodes items) (s_chan s) = s_api s
  | Replaced => exists filed, view (s_map s) = digest filed /\ foldl api_apply filed (s_chan s) = s_api s
  | Watching =>
      IsReady (s_map s) = true /\
      exists filed, view (s_map s) = digest filed /\ foldl api_apply filed (s_chan s) = s_api s
  end.

Lemma step_evolves s n s' :
  NodeMap_wf (s_map s) -> Forall healthy (s_chan s) -> step cw s n s' -> evolves n (s_map s) (s_map s').
Proof.
  intros Hwf Hh Hs. pose proof (evolves_refl _ Hwf) as Hrefl.
  destruct Hs as [e He|items Hi Hl|op x rest Hop Hw|items o Hi Hd|Hi Hd|e rest Hi Hc Hd|Hd|Hd Hr|Hst Hn Hd|Hst Hn Hn'|v w' Hv Hit];
    try exact Hrefl; simpl.
  - by apply (evolves_apply (s_map s) (OpReplace o items)).
  - by apply (evolves_apply (s_map s) OpReady).
  - apply on_event_evolves; [done|]. rewrite Hc in Hh. by apply Forall_cons in Hh as [? _].
Qed.

Lemma tracks_step s n s' : NodeMap_wf (s_map s) -> tracks s -> step cw s n s' -> tracks s'.
Proof.
  intros Hwf (Hapi & Hh & Ht). destruct 1 as [e He|items Hi Hl|op x rest Hop Hw|items o Hi Hd|Hi Hd|e rest Hi Hc Hd|Hd|Hd Hr|Hst Hn Hd|Hst Hn Hn'|v w' Hv Hit];
    unfold tracks; simpl; try done.
  - split; [by apply api_apply_wf|].
    destruct (s_watcher s); simpl; (split; [by try (apply Forall_app; split; [|apply Forall_singleton])|]).
    + done.
    + by rewrite foldl_app, Ht.
    + destruct Ht as (filed & Hf & Ht). exists filed. by rewrite foldl_app, Ht.
    + destruct Ht as (Hrd & filed & Hf & Ht). split; [done|]. exists filed. by rewrite foldl_app, Ht.
  - rewrite Hi in Ht. split_and!; [done|done|]. exists (listed_nodes items). split; [|done].
    by destruct (ReplaceAllNodes_spec o (s_map s) items Hwf) as [-> _].
  - rewrite Hi in Ht. by split_and!.
  - rewrite Hi, Hc in Ht. destruct Ht as (Hrd & filed & Hf & Ht). rewrite Hc in Hh. apply Forall_cons in Hh as [He Hh].
    destruct (on_event_tracks (s_world s) (s_map s) e filed Hwf He Hf) as [Hv' Hr']. split_and!; [done|done| |].
    + unfold IsReady. by rewrite Hr'.
    + by exists (api_apply filed e).
Qed.

(** The critical section the watcher is in: what it has assigned is the beginning of the method
    that its code has come to. *)
Definition in_section s : Prop :=
  s_done s = [] \/ exists op rest, watcher_op s op /\ op_writes (s_map s) op = s_done s ++ rest.

Lemma in_section_step s n s' : in_section s -> step cw s n s' -> in_section s'.
Proof.
  intros Hin. unfold in_section.
  destruct 1 as [e He|items Hi Hl|op x rest Hop Hw|items o Hi Hd|Hi Hd|e rest Hi Hc Hd|Hd|Hd Hr|Hst Hn Hd|Hst Hn Hn'|v w' Hv Hit];
    simpl; try (by left); try exact Hin.
  - destruct Hin as [Hin|(op & rest & Hop & Hw)]; [by left|right]. exists op, rest. split; [|done].
    unfold watcher_op in *. simpl. destruct (s_watcher s); try done. by destruct (s_chan s).
  - destruct Hin as [Hin|(op & rest & Hop & Hw)]; [by left|]. unfold watcher_op in Hop. by rewrite Hi in Hop.
  - right. exists op, rest. split; [done|]. by rewrite <- app_assoc.
Qed.

(** Memory holds a well-formed map at every moment. *)
Lemma in_section_memory s :
  NodeMap_wf (s_map s) -> in_section s -> NodeMap_wf (s_memory s) /\ follows (s_map s) (s_memory s).
Proof.
  intros Hwf [Hd|(op & rest & _ & Hw)]; unfold s_memory.
  - by rewrite Hd.
  - by destruct (half_way _ _ _ _ Hwf Hw) as (? & ? & _).
Qed.

(** The nodes of a map are reached. *)
Definition reaches_all (p : P) (k : K) m : Prop :=
  forall name n address cidr, view m !! name = Some n ->
    usable_remote (local_node m) n = Some (address, cidr) -> delivered p k (local_node m) address cidr.

Lemma reaches_all_undisturbed p m : undisturbed (fun k => reaches_all p k m).
Proof.
  split.
  - intros a k Ha Hr name n address cidr Hn Hu. by apply delivered_undisturbed, (Hr name n).
  - intros path k Hr name n address cidr Hn Hu. by apply delivered_undisturbed, (Hr name n).
Qed.

(** This holds as far as the provider can serve the map. *)
Definition served (p : P) (k : K) m : Prop :=
  deliverable p k (local_node m) (view m) -> reaches_all p k m.

Lemma served_undisturbed p m : undisturbed (fun k => served p k m).
Proof.
  pose proof (reaches_all_undisturbed p m) as [Ha Hr].
  pose proof (deliverable_unaffected (K := K) p (local_node m) (view m)) as [Hda Hdr].
  split; [intros a k Hx Hs Hd%Hda; [|done]; by apply Ha, Hs|intros path k Hs Hd%Hdr; by apply Hr, Hs].
Qed.

Lemma observe_served p k m m' : observe m = observe m' -> served p k m -> served p k m'.
Proof.
  unfold observe. intros [= Hv Hme]. unfold served, reaches_all, local_node. by rewrite Hv, Hme.
Qed.

(** Marks in the order of time, up to the present. *)
Fixpoint chain (l : list mark) (now : mark) : Prop :=
  match l with
  | [] => True
  | a :: l => before a now /\ (forall b, b ∈ l -> before a b) /\ chain l now
  end.

Lemma chain_one a now : before a now -> chain [a] now.
Proof. intros Ha. split; [done|]. split; [|done]. by intros b ?%not_elem_of_nil. Qed.

Lemma chain_now l now now' : (forall a, before a now -> before a now') -> chain l now -> chain l now'.
Proof. intros Hn. induction l as [|a l IH]; [done|]. intros (Ha & Hl & Hc). split_and!; auto. Qed.

Lemma chain_snoc l now : before now now -> chain l now -> chain (l ++ [now]) now.
Proof.
  intros Hn. induction l as [|a l IH]; [intros _; by apply chain_one|].
  intros (Ha & Hl & Hc). split_and!; [done| |by apply IH].
  intros b [Hb|Hb%list_elem_of_singleton]%elem_of_app; [by apply Hl|by subst b].
Qed.

(** What the controller holds true of the kernel: a state of the map, not later than the reads of
    the current round, has the version applied last, and if the round found it current then the
    nodes of that state are reached. *)
Definition applied m0 w m (reads : list NodeMap) : Prop :=
  lastVersionApplied (prov w) ≠ 0 ->
  version m0 = lastVersionApplied (prov w) /\
  (IsVersion (default m (head reads)) (lastVersionApplied (prov w)) = true -> served (prov w) (kern w) m0).

Definition recorded n m reads w : Prop :=
  exists (b : mark) (marks : list mark), marks.*2 = take locked_reads reads /\ 0 <= b.1 /\ NodeMap_wf b.2 /\
    chain (b :: marks) (n, m) /\ applied b.2 w m reads.

Lemma recorded_wf n m reads w : recorded n m reads w -> NodeMap_wf m.
Proof. intros (b & marks & _ & _ & _ & (Hb & _) & _). by apply before_wf in Hb. Qed.

Lemma recorded_map n m reads w d m' :
  n + d < 2 ^ 64 -> recorded n m reads w -> evolves d m m' -> recorded (n + d) m' reads w.
Proof.
  intros Hn (b & marks & Hm & Hb0 & Hwf & Hc & Ha) He. exists b, marks. split_and!; [done|done|done| |].
  - eapply chain_now; [|exact Hc]. intros a Hab. by apply (before_step a (n, m)).
  - intros Hl. destruct (Ha Hl) as [Hv Hs]. split; [done|]. intros Hi. apply Hs. clear Hs.
    destruct reads as [|m1 reads]; [|done]. simpl in *. apply Z.eqb_eq in Hi. apply Z.eqb_eq.
    destruct Hc as (Hbn & _ & _).
    destruct (same_version_between b (n, m) (n + d, m')) as (Hsame & _); [done| |done|simpl; lia|simpl; congruence|].
    + unfold before. simpl. by replace (n + d - n) with d by lia.
    + simpl in Hsame. congruence.
Qed.

Lemma recorded_read n m reads w :
  (length reads < locked_reads)%nat -> recorded n m reads w -> recorded n m (reads ++ [m]) w.
Proof.
  intros Hlen Hr. pose proof (recorded_wf _ _ _ _ Hr) as Hwf. destruct Hr as (b & marks & Hm & Hb0 & Hwfb & Hc & Ha).
  exists b, (marks ++ [(n, m)]). split_and!; [|done|done| |].
  - rewrite take_ge in Hm by lia. rewrite take_ge by (rewrite length_app; simpl; lia). by rewrite fmap_app, Hm.
  - change (b :: marks ++ [(n, m)]) with ((b :: marks) ++ [(n, m)]). apply chain_snoc; [|done].
    unfold before. rewrite Z.sub_diag. by apply evolves_refl.
  - intros Hl. destruct (Ha Hl) as [Hv Hs]. split; [done|]. by destruct reads.
Qed.

(** What is read without the mutex does not bear on what is applied. *)
Lemma recorded_peek n m reads w m' :
  (locked_reads <= length reads)%nat -> recorded n m reads w -> recorded n m (reads ++ [m']) w.
Proof.
  intros Hlen (b & marks & Hm & Hb0 & Hwfb & Hc & Ha). exists b, marks.
  split_and!; [by rewrite take_app_le|done..|]. intros Hl. destruct (Ha Hl) as [Hv Hs]. split; [done|].
  destruct reads; [unfold locked_reads in Hlen; simpl in Hlen; lia|done].
Qed.

(** A round that found the version applied last to be current changes nothing; one that succeeds
    serves the map of its snapshot; one that fails had found another version. *)
Lemma recorded_round n m reads w v w' :
  n < 2 ^ 64 -> round_readings reads = Some v -> iteration cw v w = (Ret tt, w') ->
  recorded n m reads w -> recorded n m [] w'.
Proof using Hcw.
  intros Hn Hv Hit (b & marks & Hm & Hb0 & Hwf & Hc & Ha).
  destruct (iteration_rest cw Hcw v w w' Hit) as (r & w1 & He & Hr & Hp & Hkeep).
  destruct reads as [|m1 [|m2 [|m3 [|m4 [|m5 [|m6 [|m7 [|]]]]]]]]; try discriminate Hv. injection Hv as <-.
  destruct marks as [|k1 [|k2 marks]]; try discriminate Hm. destruct marks; [|discriminate Hm]. injection Hm as Hk1 Hk2.
  cbn [at_IsVersion at_Snapshot] in He. destruct Hc as (Hb & Hbl & Hk1n & _ & Hk2n & _ & _).
  assert (before b k1) as Hb1 by (apply Hbl; by left).
  assert (before b k2) as Hb2 by (apply Hbl; right; by left).
  destruct (frame_or m1 (prov w)) as [[Hl Hcur]|Hwork].
  - rewrite (EnsureCIDRs_current _ m2 _ Hl Hcur) in He. injection He as <- <-.
    exists b, []. split_and!; [done|done|done|by apply chain_one|].
    intros _. destruct (Ha Hl) as [Hver Hs]. rewrite Hp. split; [done|]. intros _.
    apply Hkeep; [apply served_undisturbed|]. by apply Hs.
  - destruct r as [[]|e|]; [| |done].
    + destruct (EnsureCIDRs_applied _ _ _ _ He Hwork) as [_ Hl].
      pose proof (before_wf _ _ Hb2) as Hwf2. pose proof (before_le _ _ Hb2) as Hle.
      exists k2, []. split_and!; [done|lia|done|by apply chain_one|].
      intros _. rewrite Hp, Hl, Hk2. split; [done|]. intros _. rewrite <- Hk2.
      apply Hkeep; [apply served_undisturbed|]. rewrite Hk2 in *. intros Hd name x address cidr.
      by apply (EnsureCIDRs_delivers _ _ _ _ He Hwork).
    + pose proof (EnsureCIDRs_failed _ _ _ _ _ He) as Hl. exists b, [].
      split_and!; [done|done|done|by apply chain_one|].
      intros Hl'. rewrite Hp, Hl in Hl' |- *. destruct (Ha Hl') as [Hver _]. split; [done|]. simpl. intros Hi. exfalso.
      apply Z.eqb_eq in Hi. destruct Hwork as [?|Hwork]; [done|]. apply Z.eqb_neq in Hwork. apply Hwork.
      destruct (same_version_between b k1 (n, m)) as (Hsame & _); [done|done|done|simpl; lia|simpl; congruence|].
      congruence.
Qed.

(** Everything that holds in every reachable state. *)
Record good (n : Z) s : Prop := {
  good_tracks : tracks s;
  good_recorded : recorded n (s_map s) (s_reads s) (s_world s)
}.

Lemma good_step n s d s' : n + d < 2 ^ 64 -> good n s -> step cw s d s' -> good (n + d) s'.
Proof using Hcw.
  intros Hn [Ht Hr] Hs. pose proof (recorded_wf _ _ _ _ Hr) as Hwf. split; [by eapply tracks_step|].
  pose proof (step_evolves _ _ _ Hwf (proj1 (proj2 Ht)) Hs) as He.
  destruct Hs as [e Hev|items Hi Hl|op x rest Hop Hw|items o Hi Hd|Hi Hd|e rest Hi Hc Hd|Hd|Hd Hrd|Hst Hlen Hd|Hst Hlen Hn'|v w' Hv Hit];
    simpl in *;
    try exact (recorded_map _ _ _ _ _ _ Hn Hr He); rewrite Z.add_0_r in *.
  - by apply recorded_read.
  - by apply recorded_peek.
  - by eapply recorded_round.
Qed.

Lemma good_initial s : initial s -> good 0 s.
Proof.
  intros (api & p & w & -> & Hapi & Hl). split; [by (unfold tracks; simpl; auto)|].
  exists (0, NewNodeMap p), [].
  split_and!; [done|done|apply NewNodeMap_wf|apply chain_one, evolves_refl, NewNodeMap_wf|done].
Qed.

Lemma steps_le s n s' : steps cw s n s' -> good 0 s -> 0 <= n /\ (n < 2 ^ 64 -> good n s').
Proof using Hcw.
  intros Hs Hg. induction Hs as [|n s1 d s2 Hs [Hle IH] Hst]; [by split|].
  destruct (Z_lt_le_dec n (2 ^ 64)) as [Hn|Hn].
  - specialize (IH Hn). destruct IH as [Ht Hr].
    destruct (step_evolves _ _ _ (recorded_wf _ _ _ _ Hr) (proj1 (proj2 Ht)) Hst) as (k & Hk & _).
    split; [lia|]. intros Hnd. by eapply good_step.
  - assert (0 <= d) as Hd; [|split; lia].
    destruct Hst; simpl; lia.
Qed.
End Invariant.
