(* ===== verification/SystemProperties.v ===== *)
(** * Properties of the whole agent

    The theorems about the reachable states of [System], from the invariant of SystemFacts.v, and
    their instances for the simulated kernel. *)

From S2P Require Import Prelude GoNet GoNetFacts K8s Nodes NodesFacts NodeMapSpec Locking Netlink Effects Tables Reconcile Sim.
From S2P Require Import RouteTable KernelLaws RouteFacts Provider Layer2 Gre Vxlan2 Delivery Cni Controller ControllerFacts.
From S2P Require Import NodeController System SystemFacts.

Section Watcher.
Context {K P : Type} `{Kernel K} `{!Provider K P} `{!Delivery K P} `{CoreV1} `{WatchConsts}.
Context (cw : option (ConfigWriter K P)).
Implicit Types (s : system K P) (w : World K P).

(** The part of the invariant that holds however often the version was incremented. *)
Definition sound s : Prop :=
  tracks s /\ NodeMap_wf (s_map s) /\ in_section s /\ Forall NodeMap_wf (s_reads s).

Lemma step_sound s n s' : sound s -> step cw s n s' -> sound s'.
Proof.
  intros (Ht & Hwf & Hin & Hr) Hs. split; [by apply (tracks_step cw s n)|].
  destruct (step_evolves cw _ _ _ Hwf (proj1 (proj2 Ht)) Hs) as (_ & _ & _ & _ & Hwf2).
  split; [done|]. split; [by apply (in_section_step cw s n)|]. destruct (in_section_memory s Hwf Hin) as [Hm _].
  destruct Hs; simpl in *; try done; apply Forall_app; (split; [done|by apply Forall_singleton]).
Qed.

Lemma steps_sound s n s' : steps cw s n s' -> sound s -> sound s'.
Proof. induction 1 as [|n s1 d s2 _ IH Hs]; [done|]. intros Hso. eapply step_sound; [by apply IH|exact Hs]. Qed.

Lemma reachable_sound n s : reachable cw n s -> sound s.
Proof.
  intros (s0 & (api & p & w & -> & Hapi & _) & Hs). apply (steps_sound _ _ _ Hs). split_and!.
  - unfold tracks. simpl. auto.
  - apply NewNodeMap_wf.
  - by left.
  - constructor.
Qed.

Lemma reachable_tracks n s :
  reachable cw n s -> tracks s /\ NodeMap_wf (s_map s) /\ Forall NodeMap_wf (s_reads s).
Proof. by intros (Ht & Hwf & _ & Hr)%reachable_sound. Qed.

(** C26: In every reachable state of the agent the node map is well formed: a node is filed under
    its own name, its pod CIDR is a network with a mask of its length, its address has 16 bytes,
    the version fits 64 bits, and the pointer to the self node never dangles; the states the
    controller has read in its round are of this kind as well. *)
Theorem reachable_maps_well_formed n s m :
  reachable cw n s -> m ∈ s_map s :: s_reads s ->
  (forall name i, view m !! name = Some i ->
     Name i = name /\ (forall c, PodCIDR i = Some c -> IPNet_wf c) /\
     (forall a, Address i = Some a -> length a = 16%nat)) /\
  (forall l, me m = Some l -> is_Some (heap m !! l)) /\ 0 <= version m < 2 ^ 64.
Proof.
  intros (_ & Hwf & Hr)%reachable_tracks Hm.
  assert (NodeMap_wf m) as [Hn Hme Hh Hv].
  { apply elem_of_cons in Hm as [->|Hm]; [done|]. rewrite Forall_forall in Hr. by apply Hr. }
  split_and!; try done; try lia. intros name i Hi. unfold view in Hi. rewrite lookup_fmap in Hi.
  apply fmap_Some in Hi as (l & Hl & ->). destruct (Hn name l Hl) as (x & Hx & Hnx).
  unfold deref. rewrite Hx. simpl. destruct (Hh l x Hx) as [Hc Ha]. done.
Qed.

Lemma watcher_in_step n s :
  reachable cw n s -> s_watcher s = Watching ->
  IsReady (s_map s) = true /\
  (exists filed, view (s_map s) = digest filed /\ foldl api_apply filed (s_chan s) = s_api s) /\
  (s_chan s = [] -> view (s_map s) = digest (s_api s)).
Proof.
  intros ((_ & _ & Ht) & _ & _)%reachable_tracks Hw. rewrite Hw in Ht. destruct Ht as (Hr & filed & Hv & Hf).
  split_and!; [done|by exists filed|]. intros Hc. rewrite Hc in Hf. simpl in Hf. by rewrite <- Hf.
Qed.

(** C5: In every reachable state, whatever has broken off and been resumed before: while the
    watcher is in its [select], the node map is ready and holds the digest of a state of the API
    server which the events it has yet to receive turn into the present one. When none is left,
    the map is the digest of the API server's nodes. *)
Theorem watcher_never_loses_a_node n s :
  reachable cw n s -> s_watcher s = Watching ->
  IsReady (s_map s) = true /\
  (exists filed, view (s_map s) = digest filed /\ foldl api_apply filed (s_chan s) = s_api s) /\
  (s_chan s = [] -> view (s_map s) = digest (s_api s)).
Proof. apply watcher_in_step. Qed.

(** ** The code of the watcher is a path of the system *)

Lemma receive_world ch : forall w0 : World K NodeMap,
  (receive ch w0).2 = MkWorld (kern w0) (trace w0) (sched w0) (prov (receive ch w0).2).
Proof.
  induction ch as [|r ch IH]; intros w0; [by destruct w0|]. destruct r as [| |e]; [by destruct w0..|]. cbn [receive].
  destruct (bool_decide _); [by destruct w0|]. destruct (bool_decide _); [apply IH|].
  destruct (event_Object e) as [node|]; [|by destruct w0].
  destruct (_ || _); [|destruct (bool_decide _); [|by destruct w0]]; rewrite bind_run; (etransitivity; [apply IH|done]).
Qed.

Lemma receive_foldl w es rest : forall (w0 : World K NodeMap),
  Forall healthy es ->
  receive ((result_event <$> es) ++ rest) w0
  = receive rest (MkWorld (kern w0) (trace w0) (sched w0) (foldl (on_event w) (prov w0) es)).
Proof.
  induction es as [|e es IH]; intros w0 Hh; [by destruct w0|]. apply Forall_cons in Hh as [He Hh].
  cbn [fmap list_fmap foldl app]. destruct (receive_healthy e ((result_event <$> es) ++ rest) w0 He) as [-> Hp].
  rewrite IH by done. rewrite (receive_world [result_event e] w0). cbn [kern trace sched prov].
  by rewrite Hp, (on_event_op w (prov w0) e He).
Qed.

(** What arrives begins with the healthy events; these are followed by what is none. *)
Lemma healthy_prefix ch :
  exists es rest, ch = (result_event <$> es) ++ rest /\ Forall healthy es /\
    forall e rest', rest = result_event e :: rest' -> ~ healthy e.
Proof.
  induction ch as [|r ch (es & rest & -> & Hh & Hr)]; [by exists [], []|].
  destruct r as [| |e]; [eexists [], _; by split_and!..|].
  assert (Decision (healthy e)) as [He|He] by (unfold healthy; apply _).
  - exists (e :: es), rest. split_and!; [done|by constructor|done].
  - eexists [], _. split_and!; [done|done|]. by intros e' rest' [= <- <-].
Qed.

(** An event of a type there is not, with a node. *)
Definition unknown_event (r : received) : Prop :=
  exists e node, r = result_event e /\ event_Object e = Some node /\
    event_Type e ∉ [watch_Added; watch_Modified; watch_Deleted; watch_Bookmark; watch_Error].

(** How the loop over the channel ends on what is no healthy event: the map stays. *)
Lemma receive_ends r rest (w0 : World K NodeMap) :
  (forall e, r = result_event e -> ~ healthy e) ->
  (receive (r :: rest) w0).2 = w0 /\
  (r = ctx_Done /\ (receive (r :: rest) w0).1 = Ret Stop \/
   breaks_off r /\ (exists e, (receive (r :: rest) w0).1 = Ret (Again e)) \/
   unknown_event r /\ (receive (r :: rest) w0).1 = Exit).
Proof.
  intros Hn. destruct r as [| |e]; cbn [receive].
  { split; [done|]. by left. } { split; [done|]. right. left. split; [by left|]. by eexists. }
  specialize (Hn e eq_refl). unfold healthy in Hn. rewrite !elem_of_cons, elem_of_nil in Hn.
  case_bool_decide as He; [split; [done|]; right; left; split; [right; eexists; split; [done|by left]|by eexists]|].
  rewrite bool_decide_false by tauto. destruct (event_Object e) as [node|] eqn:Ho; cycle 1.
  { split; [done|]. right. left. split; [right; exists e; split; [done|right; split; [tauto|done]]|by eexists]. }
  assert (event_Type e ≠ watch_Added /\ event_Type e ≠ watch_Modified /\ event_Type e ≠ watch_Deleted /\ event_Type e ≠ watch_Bookmark)
    as (Ha & Hm & Hd & Hb) by (split_and!; intros Heq; apply Hn; first [by left|right; split; [by eexists|tauto]]).
  rewrite !bool_decide_false by done. cbn [orb]. split; [done|]. right. right. split; [|done].
  exists e, node. split_and!; [done|done|]. rewrite !elem_of_cons, elem_of_nil. tauto.
Qed.

(** A critical section from where it is to its end. *)
Lemma assigns_rest api chan pc m started reads w op ws : forall done,
  watcher_op (MkSystem api chan pc m done started reads w) op -> op_writes m op = done ++ ws ->
  steps cw (MkSystem api chan pc m done started reads w) 0 (MkSystem api chan pc m (op_writes m op) started reads w).
Proof.
  induction ws as [|x ws IH]; intros done Hop Hw.
  - rewrite Hw, app_nil_r. apply steps_refl.
  - rewrite <- (Z.add_0_r 0). eapply steps_trans; [|apply (IH (done ++ [x])); [done|by rewrite <- app_assoc]].
    apply steps_one. exact (watcher_writes cw (MkSystem api chan pc m done started reads w) op x ws Hop Hw).
Qed.

(** The method that has been begun is brought to its end, or the next one if none has. *)
Lemma completes api chan pc m done started reads w op :
  in_section (MkSystem api chan pc m done started reads w) ->
  watcher_op (MkSystem api chan pc m done started reads w) op ->
  exists op', watcher_op (MkSystem api chan pc m done started reads w) op' /\
    steps cw (MkSystem api chan pc m done started reads w) 0 (MkSystem api chan pc m (op_writes m op') started reads w).
Proof.
  intros [Hd|(op' & ws & Hop & Hw)] Ho.
  - exists op. simpl in Hd. subst done. split; [done|]. by apply assigns_rest with (ws := op_writes m op).
  - exists op'. split; [done|]. by eapply assigns_rest.
Qed.

Lemma receives_event api e chan m done started reads w :
  in_section (MkSystem api (e :: chan) Watching m done started reads w) ->
  steps cw (MkSystem api (e :: chan) Watching m done started reads w) 1
    (MkSystem api chan Watching (on_event w m e) [] started reads w).
Proof.
  intros Hin. rewrite <- (Z.add_0_l 1).
  assert (steps cw (MkSystem api (e :: chan) Watching m done started reads w) 0
            (MkSystem api (e :: chan) Watching m (event_writes m e) started reads w)) as Hs.
  { unfold event_writes. destruct (event_op e) as [op|] eqn:He.
    - destruct (completes api (e :: chan) Watching m done started reads w op Hin) as (op' & Hop & Hs); [exact He|].
      unfold watcher_op in Hop. simpl in Hop. assert (op' = op) as -> by congruence. exact Hs.
    - destruct Hin as [Hd|(op & ws & Hop & _)]; [simpl in Hd; subst done; apply steps_refl|].
      unfold watcher_op in Hop. simpl in Hop. congruence. }
  eapply steps_trans; [exact Hs|]. apply steps_one.
  exact (watcher_receives cw (MkSystem api (e :: chan) Watching m (event_writes m e) started reads w) e chan eq_refl eq_refl eq_refl).
Qed.

Lemma receives_events api es : forall chan m started reads w,
  steps cw (MkSystem api (es ++ chan) Watching m [] started reads w) (Z.of_nat (length es))
    (MkSystem api chan Watching (foldl (on_event w) m es) [] started reads w).
Proof.
  induction es as [|e es IH]; intros chan m started reads w; [apply steps_refl|].
  replace (Z.of_nat (length (e :: es))) with (1 + Z.of_nat (length es)) by (simpl; lia).
  eapply steps_trans; [|apply IH]. apply receives_event. by left.
Qed.

Lemma api_sends pc m done started reads w es : forall api chan,
  connected pc = true -> Forall healthy es ->
  steps cw (MkSystem api chan pc m done started reads w) 0
    (MkSystem (foldl api_apply api es) (chan ++ es) pc m done started reads w).
Proof.
  induction es as [|e es IH]; intros api chan Hc Hh; [rewrite app_nil_r; apply steps_refl|].
  apply Forall_cons in Hh as [He Hh]. rewrite <- (Z.add_0_r 0). change (e :: es) with ([e] ++ es). rewrite app_assoc.
  eapply steps_trans; [|by apply IH]. apply steps_one.
  pose proof (api_changes cw (MkSystem api chan pc m done started reads w) e He) as Hs. simpl in Hs. by rewrite Hc in Hs.
Qed.

(** From the answer to List on, to the last event. *)
Lemma marks_ready api chan m done started reads w :
  in_section (MkSystem api chan Replaced m done started reads w) ->
  steps cw (MkSystem api chan Replaced m done started reads w) (Z.of_nat (length chan))
    (MkSystem api [] Watching (foldl (on_event w) (MarkReady m) chan) [] started reads w).
Proof.
  intros Hin. destruct (completes api chan Replaced m done started reads w OpReady Hin eq_refl) as (op & Hop & Hs).
  unfold watcher_op in Hop. simpl in Hop. subst op.
  rewrite <- (Z.add_0_l (Z.of_nat (length chan))). eapply steps_trans; [exact Hs|].
  rewrite <- (Z.add_0_l (Z.of_nat (length chan))). eapply steps_trans; [apply steps_one|].
  - exact (watcher_marks_ready cw (MkSystem api chan Replaced m _ started reads w) eq_refl eq_refl).
  - pose proof (receives_events api chan [] (MarkReady m) started reads w) as Hr. by rewrite app_nil_r in Hr.
Qed.

Lemma files_rest o api chan items m started reads w :
  steps cw (MkSystem api chan (Listed items) m (op_writes m (OpReplace o items)) started reads w)
    (2 * Z.of_nat (length items) + Z.of_nat (size (nodes m)) + Z.of_nat (length chan))
    (MkSystem api [] Watching (foldl (on_event w) (MarkReady (ReplaceAllNodes o m items).1) chan) [] started reads w).
Proof.
  eapply steps_trans; [apply steps_one|apply marks_ready; by left].
  exact (watcher_replaces cw (MkSystem api chan (Listed items) m _ started reads w) items o eq_refl eq_refl).
Qed.

Lemma files_answer o api chan items m started reads w :
  steps cw (MkSystem api chan (Listed items) m [] started reads w)
    (2 * Z.of_nat (length items) + Z.of_nat (size (nodes m)) + Z.of_nat (length chan))
    (MkSystem api [] Watching (foldl (on_event w) (MarkReady (ReplaceAllNodes o m items).1) chan) [] started reads w).
Proof.
  rewrite <- (Z.add_0_l (_ + Z.of_nat (length chan))). eapply steps_trans; [|apply files_rest].
  apply assigns_rest with (ws := op_writes m (OpReplace o items)); [by exists o|done].
Qed.

(** Where the watcher is after a [runOnce]: before the next one, which it runs again, or still in
    its [select], also when it has left that for good. *)
Definition once_pc (r : outcome once) : watcher_pc := match r with Ret (Again _) => Idle | _ => Watching end.

(** The [runOnce] behind the answer to List. *)
Lemma runOnce_listed a items w m es rest :
  List_result a = inl items -> Watch_result a = None -> ResultChan a = (result_event <$> es) ++ rest -> Forall healthy es ->
  runOnce a (watcher_world w m)
  = receive rest (MkWorld (kern w) (trace w) (fun n => sched w (S n))
                    (foldl (on_event w) (MarkReady (ReplaceAllNodes (sched w 0%nat) m items).1) es)).
Proof.
  intros Hl Hw Hch Hh. unfold runOnce. rewrite Hl, bind_order, !bind_run. unfold modify_prov. cbn [kern trace sched prov after].
  rewrite Hw, Hch, bind_run. cbv beta iota. rewrite (receive_foldl w) by done. cbn [kern trace sched prov watcher_world]. by rewrite app_nil_r.
Qed.

(** From the answer to List to the last of the events the API server goes through. *)
Lemma listed_path s items es o :
  s_watcher s = Idle -> s_done s = [] -> listed_nodes items = s_api s -> Forall healthy es ->
  steps cw s (2 * Z.of_nat (length items) + Z.of_nat (size (nodes (s_map s))) + Z.of_nat (length es))
    (MkSystem (foldl api_apply (s_api s) es) [] Watching
       (foldl (on_event (s_world s)) (MarkReady (ReplaceAllNodes o (s_map s) items).1) es) []
       (s_started s) (s_reads s) (s_world s)).
Proof.
  intros Hpc Hd Hi Hh. destruct s as [api chan pc m done started reads w]. simpl in *. subst pc done.
  rewrite <- (Z.add_0_l (_ + Z.of_nat (length es))). eapply steps_trans.
  - apply steps_one. by apply (watcher_lists cw (MkSystem api chan Idle m [] started reads w)).
  - rewrite <- (Z.add_0_l (_ + Z.of_nat (length es))). eapply steps_trans; [|apply files_answer].
    by apply (api_sends (Listed items) m [] started reads w es api []).
Qed.

Lemma then_breaks_off s n api m :
  steps cw s n (MkSystem api [] Watching m [] (s_started s) (s_reads s) (s_world s)) ->
  steps cw s n (MkSystem api [] Idle m [] (s_started s) (s_reads s) (s_world s)).
Proof.
  intros Hs. rewrite <- (Z.add_0_r n). eapply steps_trans; [exact Hs|]. apply steps_one.
  exact (watcher_breaks_off cw (MkSystem api [] Watching m [] (s_started s) (s_reads s) (s_world s)) eq_refl).
Qed.

(** C25: The step relation does not leave out anything the watcher's code does in a [runOnce], whatever
    the API server answers, as long as an answer to List is its present nodes: with an error of List or
    Watch, a closed channel, an error event or an object of another type, when the context is done,
    when an event has an unknown type, or when the input ends while it waits. The [runOnce] leaves the node
    map in the state that a path of the system leads to, on which the API server goes through the healthy
    events the watcher has received; the watcher is then before its next [runOnce] if the code
    starts over, and in its [select] otherwise. (A watcher that has returned takes no further step, and
    the end of the process is a step of [pstep], in Process.v.) The kernel is not touched. *)
Theorem runOnce_is_a_path s a :
  s_watcher s = Idle -> s_done s = [] -> (forall items, List_result a = inl items -> listed_nodes items = s_api s) ->
  let '(r, w') := runOnce a (watcher_world (s_world s) (s_map s)) in
  kern w' = kern (s_world s) /\ trace w' = trace (s_world s) /\
  exists n es,
    steps cw s n (MkSystem (foldl api_apply (s_api s) es) [] (once_pc r) (prov w') []
                    (s_started s) (s_reads s) (s_world s)) /\
    match List_result a, Watch_result a with
    | inr _, _ => n = 0 /\ es = [] /\ prov w' = s_map s /\ exists e, r = Ret (Again (Some e))
    | inl items, we =>
        n = 2 * Z.of_nat (length items) + Z.of_nat (size (nodes (s_map s))) + Z.of_nat (length es) /\
        match we with
        | Some _ => es = [] /\ exists e, r = Ret (Again (Some e))
        | None =>
            Forall healthy es /\ exists rest, ResultChan a = (result_event <$> es) ++ rest /\
            match rest with
            | [] => r = Ret Waiting
            | x :: _ => x = ctx_Done /\ r = Ret Stop \/ breaks_off x /\ (exists e, r = Ret (Again e)) \/
                        unknown_event x /\ r = Exit
            end
        end
    end.
Proof.
  intros Hpc Hd Hi. destruct (List_result a) as [items|e] eqn:Hl; cycle 1.
  { unfold runOnce. rewrite Hl. split_and!; [done..|]. exists 0, []. split; [|by eauto 10].
    destruct s as [api chan pc m done started reads w]. simpl in *. subst done. apply steps_one.
    exact (watcher_breaks_off cw (MkSystem api chan pc m [] started reads w) eq_refl). }
  specialize (Hi items eq_refl). pose proof (fun es => listed_path s items es (sched (s_world s) 0%nat) Hpc Hd Hi) as Hpath.
  destruct (Watch_result a) as [e|] eqn:Hw.
  { assert (exists e' (w' : World K NodeMap), runOnce a (watcher_world (s_world s) (s_map s)) = (Ret (Again (Some e')), w') /\
      kern w' = kern (s_world s) /\ trace w' = trace (s_world s) /\
      prov w' = MarkReady (ReplaceAllNodes (sched (s_world s) 0%nat) (s_map s) items).1) as (e' & w' & -> & Hk & Ht & ->).
    { unfold runOnce. rewrite Hl, bind_order, !bind_run. unfold modify_prov. rewrite Hw. eexists _, _. split; [done|].
      simpl. by rewrite app_nil_r. }
    split_and!; [done..|]. eexists _, []. split; [|by eauto]. apply then_breaks_off, Hpath. constructor. }
  destruct (healthy_prefix (ResultChan a)) as (es & rest & Hch & Hh & Hrest). specialize (Hpath es Hh).
  rewrite (runOnce_listed a items _ _ es rest Hl Hw Hch Hh). set (w0 := MkWorld _ _ _ _).
  assert (forall pc, pc = Watching \/ pc = Idle -> steps cw s _ (MkSystem (foldl api_apply (s_api s) es) [] pc (prov w0) []
    (s_started s) (s_reads s) (s_world s))) as Hpath' by (intros pc [-> | ->]; [exact Hpath|exact (then_breaks_off _ _ _ _ Hpath)]).
  clear Hpath. destruct rest as [|x rest].
  { cbn [receive]. split_and!; [done..|]. eexists _, es. split; [apply Hpath'; by left|]. split; [done|]. split; [done|]. by exists []. }
  destruct (receive_ends x rest w0) as [Hw0 Hcase]; [intros e He; apply (Hrest e rest); by rewrite He|].
  destruct (receive (x :: rest) w0) as [r w']. simpl in Hw0, Hcase. subst w'. split_and!; [done..|].
  eexists _, es. split.
  - apply Hpath'. destruct Hcase as [[_ ->]|[(_ & e & ->)|[_ ->]]]; [by left|by right|by left].
  - split; [done|]. split; [done|]. by exists (x :: rest).
Qed.
End Watcher.

Section Agent.
Context {K P : Type} `{Kernel K} `{!Provider K P} `{!Delivery K P} `{CoreV1} `{WatchConsts}.
Context (cw : option (ConfigWriter K P)) (Hcw : files_only cw).
Implicit Types (s : system K P) (w : World K P).

Lemma reachable_good n s : reachable cw n s -> n < 2 ^ 64 -> good n s.
Proof using Hcw.
  intros (s0 & Hi & Hs) Hn. destruct (steps_le cw Hcw _ _ _ Hs (good_initial _ Hi)) as [_ Hg]. by apply Hg.
Qed.

(** A version that is current at some moment of the round has been current since it was applied. *)
Lemma recorded_served n m reads w nm :
  n < 2 ^ 64 -> recorded n m reads w -> lastVersionApplied (prov w) ≠ 0 ->
  nm = m \/ head reads = Some nm ->
  IsVersion nm (lastVersionApplied (prov w)) = true -> served (prov w) (kern w) nm.
Proof.
  intros Hn (b & marks & Hm & Hb0 & Hwf & Hc & Ha) Hl Hnm Hv%Z.eqb_eq. destruct (Ha Hl) as [Hb Hs].
  destruct Hc as (Hbn & Hbl & Hc). assert (head marks.*2 = head reads) as Hhd by (rewrite Hm; by destruct reads).
  assert (forall k : mark, k = (n, m) \/ head marks = Some k -> before b k /\ before k (n, m) /\ k.1 <= n) as Hk.
  { intros k [->|Hh].
    - split; [done|]. unfold before. rewrite Z.sub_diag. split; [by apply evolves_refl, (before_wf b (n, m))|]. simpl. lia.
    - destruct marks as [|k' marks]; [done|]. injection Hh as ->. destruct Hc as (Hkn & _).
      split; [apply Hbl; by left|]. split; [done|]. by apply before_le in Hkn. }
  assert (exists k : mark, k.2 = nm /\ (k = (n, m) \/ head marks = Some k)) as (k & Hkm & Hkh).
  { destruct Hnm as [->|Hh]; [by exists (n, m); auto|]. rewrite <- Hhd in Hh. destruct marks as [|k marks]; [done|].
    injection Hh as <-. exists k. auto. }
  destruct (Hk k Hkh) as (Hbk & Hkn & Hkle).
  assert (before k k) as Hkk by (unfold before; rewrite Z.sub_diag; by apply evolves_refl, (before_wf b k)).
  destruct (same_version_between b k k) as (_ & Ho & _); [done|done|done|lia|congruence|].
  rewrite <- Hkm. apply (observe_served _ _ b.2); [done|]. apply Hs. apply Z.eqb_eq.
  rewrite <- Hhd. destruct marks as [|k1 marks]; simpl.
  - destruct Hkh as [->|]; [|done]. simpl in *. congruence.
  - destruct Hkh as [->|[= ->]]; [|congruence].
    destruct (same_version_between b k1 (n, m)) as (Hsame & _); [apply Hbl; by left|exact (proj1 Hc)|done|simpl; lia|simpl in *; congruence|].
    congruence.
Qed.

(** The guarantee of the whole agent: in every state it reaches in fewer than 2^64 version
    increments, with the steps of watcher, controller and API server interleaved in any way and
    errors anywhere before: once the watcher has received what the API server sent and the version
    the provider applied last is current, the pods of every node of the API server other than the
    local one that has an address and a pod CIDR are reached, provided that the condition of the
    provider holds. Skipping the work for an unchanged version never hides a change. *)
Lemma settled_reaches n s :
  reachable cw n s -> n < 2 ^ 64 -> s_watcher s = Watching -> s_chan s = [] ->
  lastVersionApplied (prov (s_world s)) ≠ 0 ->
  IsVersion (s_map s) (lastVersionApplied (prov (s_world s))) = true ->
  deliverable (prov (s_world s)) (kern (s_world s)) (local_node (s_map s)) (view (s_map s)) ->
  forall name node address cidr, s_api s !! name = Some node ->
    usable_remote (local_node (s_map s)) (summarize (node_Name node) node) = Some (address, cidr) ->
    delivered (prov (s_world s)) (kern (s_world s)) (local_node (s_map s)) address cidr.
Proof using Hcw.
  intros Hr Hn Hw Hc Hl Hv Hd name node address cidr Hnode Hu.
  destruct (reachable_good n s Hr Hn) as [(_ & _ & Ht) Hrec]. rewrite Hw, Hc in Ht.
  destruct Ht as (_ & filed & Hview & Hf). simpl in Hf. subst filed.
  apply (recorded_served _ _ _ _ (s_map s) Hn Hrec Hl ltac:(by left) Hv Hd name (summarize (node_Name node) node)); [|done].
  rewrite Hview. unfold digest. by rewrite lookup_fmap, Hnode.
Qed.

(** A round in which the provider succeeded serves one of the two states of the map it looked at. *)
Lemma round_serves n m reads w w1 w' v :
  n < 2 ^ 64 -> recorded n m reads w -> Forall NodeMap_wf reads -> round_readings reads = Some v ->
  EnsureCIDRs (at_IsVersion v) (at_Snapshot v) w = (Ret tt, w1) -> iteration cw v w = (Ret tt, w') ->
  prov w' = prov w1 /\ exists nm, (nm = at_IsVersion v \/ nm = at_Snapshot v) /\ served (prov w') (kern w') nm.
Proof using Hcw.
  intros Hn Hrec Hwf Hv He Hit. destruct (iteration_rest cw Hcw v w w' Hit) as (r & w2 & He2 & _ & Hp & Hkeep).
  assert (w2 = w1) as -> by congruence. split; [done|]. rewrite Hp.
  destruct reads as [|m1 [|m2 [|m3 [|m4 [|m5 [|m6 [|m7 [|]]]]]]]]; try discriminate Hv. injection Hv as <-.
  cbn [at_IsVersion at_Snapshot] in *. destruct (frame_or m1 (prov w)) as [[Hl Hcur]|Hwork].
  - rewrite (EnsureCIDRs_current _ m2 _ Hl Hcur) in He. injection He as <-.
    exists m1. split; [by left|]. apply Hkeep; [apply served_undisturbed|].
    by apply (recorded_served _ _ _ _ m1 Hn Hrec Hl ltac:(by right)).
  - exists m2. split; [by right|]. apply Hkeep; [apply served_undisturbed|].
    intros Hd name i address cidr. apply (EnsureCIDRs_delivers _ _ _ _ He Hwork); [|done].
    apply Forall_cons in Hwf as [_ [Hwf _]%Forall_cons]. exact Hwf.
Qed.

(** C3: The API server is told that the network of a node is available only for the agent's own node,
    and only by a round of the controller at whose end one of the two states of the map that the round
    looked at is served: the pods of every other node in it that has an address and a pod CIDR are
    reached, provided that the condition of the provider, [deliverable], holds of that map and of the
    kernel. Without it the report can be made while a node is not reached: with gre, for one, a node with
    an IPv6 pod CIDR is passed over and the network is reported all the same. *)
Theorem network_reported_when_served n s v w' node ty st rs msg e :
  reachable cw n s -> n < 2 ^ 64 -> round_readings (s_reads s) = Some v ->
  iteration cw v (s_world s) = (Ret tt, w') ->
  (PatchNodeCondition node ty st rs msg, e) ∈ trace w' ->
  (PatchNodeCondition node ty st rs msg, e) ∈ trace (s_world s) \/
  (ty = NodeNetworkUnavailable /\ st = ConditionFalse /\
   (exists l, me (at_Name v) = Some l /\ node = Name (deref (heap (at_Name v)) l)) /\
   exists nm, (nm = at_IsVersion v \/ nm = at_Snapshot v) /\
     (deliverable (prov w') (kern w') (local_node nm) (view nm) ->
      forall name i address cidr, view nm !! name = Some i ->
        usable_remote (local_node nm) i = Some (address, cidr) ->
        delivered (prov w') (kern w') (local_node nm) address cidr)).
Proof using Hcw.
  intros Hr Hn Hv Hit Hin. pose proof (iteration_patch cw v (s_world s) node ty st rs msg e) as Hp.
  rewrite Hit in Hp. destruct (Hp Hin) as [?|(-> & -> & w1 & He & _ & _ & Hl)]; [by left|]. right.
  split_and!; [done..|]. destruct (reachable_good n s Hr Hn) as [_ Hrec].
  destruct (reachable_tracks cw n s Hr) as (_ & _ & Hwf).
  by eapply round_serves.
Qed.

(** ** Catching up *)

(** What the watcher has before it. *)
Definition backlog s : Z :=
  Z.of_nat (length (s_chan s)) +
  match s_watcher s with
  | Idle => 2 * Z.of_nat (size (s_api s)) + Z.of_nat (size (nodes (s_map s)))
  | Listed items => 2 * Z.of_nat (length items) + Z.of_nat (size (nodes (s_map s)))
  | Replaced | Watching => 0
  end.

Lemma catches_up s :
  api_wf (s_api s) -> in_section s ->
  exists d m, d <= backlog s /\
    steps cw s d (MkSystem (s_api s) [] Watching m [] (s_started s) (s_reads s) (s_world s)).
Proof.
  destruct s as [api chan pc m done started reads w]. intros Hapi Hin. unfold backlog.
  destruct pc as [|items| |]; cbn [s_api s_chan s_watcher s_map s_done s_started s_reads s_world] in *.
  - destruct Hin as [Hd|(op & ws & Hop & _)]; [|done]. simpl in Hd. subst done.
    pose proof (files_answer cw in_order api [] (map_to_list api).*2 m started reads w) as Hs.
    eexists (0 + _), _. split; [|eapply steps_trans; [apply steps_one|exact Hs]].
    + rewrite length_fmap, length_map_to_list. simpl. lia.
    + apply (watcher_lists cw (MkSystem api chan Idle m [] started reads w)); [done|]. by apply listed_nodes_all.
  - destruct (completes cw api chan (Listed items) m done started reads w (OpReplace in_order items) Hin) as (op & [o ->] & Hs);
      [by exists in_order|].
    eexists (0 + _), _. split; [|eapply steps_trans; [exact Hs|apply files_rest]]. lia.
  - eexists _, _. split; [|by apply marks_ready]. lia.
  - destruct chan as [|e chan].
    + destruct Hin as [Hd|(op & ws & Hop & _)]; [|done]. simpl in Hd. subst done.
      exists 0, m. split; [done|apply steps_refl].
    + pose proof (receives_events cw api chan [] (on_event w m e) started reads w) as Hs. rewrite app_nil_r in Hs.
      eexists _, _. split; [|eapply steps_trans; [by apply receives_event|exact Hs]]. simpl length. lia.
Qed.

(** The reads of a round, while nothing changes. *)
Lemma reads_map api chan pc m w k : forall reads,
  (length reads + k = 7)%nat ->
  steps cw (MkSystem api chan pc m [] true reads w) 0 (MkSystem api chan pc m [] true (reads ++ repeat m k) w).
Proof.
  induction k as [|k IH]; intros reads Hk; simpl; [rewrite app_nil_r; apply steps_refl|].
  change (m :: repeat m k) with ([m] ++ repeat m k). rewrite app_assoc, <- (Z.add_0_r 0).
  eapply steps_trans; [apply steps_one|apply IH; rewrite length_app; simpl; lia].
  destruct (decide (length reads < locked_reads)%nat) as [Hl|Hl].
  - by apply (controller_reads cw (MkSystem api chan pc m [] true reads w)).
  - apply (controller_peeks cw (MkSystem api chan pc m [] true reads w)); [done|simpl; lia|]. simpl.
    destruct reads as [|? [|? [|? [|? [|? [|? [|? [|]]]]]]]]; simpl in *; done || lia.
Qed.

Definition steady_readings (m : NodeMap) : readings := MkReadings m m m m m m m.

(** C2: From every state the agent reaches, between two rounds of the controller, it catches up by
    its own steps: the watcher gets to a state in which the node map is the digest of the API
    server's present nodes, and if the provider's run on that map returns nil, and its condition
    [deliverable] holds of the map and of the kernel the run leaves, the controller's next
    round ends in a state in which the pods of every other node with an address and a pod CIDR are
    reached. Nothing has to be restarted, and the API server has nothing to do. The condition is needed:
    gre's run returns nil with an IPv6 node it has passed over. *)
Theorem agent_catches_up n s :
  reachable cw n s -> s_reads s = [] -> n + backlog s < 2 ^ 64 ->
  exists d s1, steps cw s d s1 /\ d <= backlog s /\ s_api s1 = s_api s /\ s_world s1 = s_world s /\
    view (s_map s1) = digest (s_api s) /\
    forall w2, EnsureCIDRs (s_map s1) (s_map s1) (s_world s) = (Ret tt, w2) ->
      deliverable (prov w2) (kern w2) (local_node (s_map s1)) (view (s_map s1)) ->
      exists s2, steps cw s1 0 s2 /\ s_api s2 = s_api s /\ s_map s2 = s_map s1 /\
        forall name node address cidr, s_api s !! name = Some node ->
          usable_remote (local_node (s_map s2)) (summarize (node_Name node) node) = Some (address, cidr) ->
          delivered (prov (s_world s2)) (kern (s_world s2)) (local_node (s_map s2)) address cidr.
Proof using Hcw.
  intros Hr Hreads Hn. destruct (reachable_sound cw n s Hr) as ((Hapi & _) & _ & Hin & _).
  destruct (catches_up s Hapi Hin) as (d & m & Hd & Hs). rewrite Hreads in Hs.
  assert (reachable cw (n + d) (MkSystem (s_api s) [] Watching m [] (s_started s) [] (s_world s))) as Hr1.
  { destruct Hr as (s0 & Hi & Hs0). exists s0. split; [done|]. by eapply steps_trans. }
  destruct (watcher_in_step cw _ _ Hr1 eq_refl) as (Hready & _ & Hview). specialize (Hview eq_refl).
  exists d, (MkSystem (s_api s) [] Watching m [] true [] (s_world s)).
  assert (steps cw s d (MkSystem (s_api s) [] Watching m [] true [] (s_world s))) as Hs1.
  { rewrite <- (Z.add_0_r d). eapply steps_trans; [exact Hs|]. apply steps_one.
    by apply (controller_starts cw (MkSystem (s_api s) [] Watching m [] (s_started s) [] (s_world s))). }
  split_and!; [done..|]. simpl in *. intros w2 He Hdel.
  destruct (iteration_returns cw (steady_readings m) (s_world s)) as [[w' Hit]|Hx].
  { by split_and!; intros ?. } 2: { simpl in Hx. by rewrite He in Hx. }
  pose proof (reads_map (s_api s) [] Watching m (s_world s) 7 [] eq_refl) as Hs2. simpl in Hs2.
  exists (MkSystem (s_api s) [] Watching m [] true [] w'). split_and!; [|done..|].
  - rewrite <- (Z.add_0_r 0). eapply steps_trans; [exact Hs2|]. apply steps_one.
    by apply (controller_acts cw (MkSystem (s_api s) [] Watching m [] true [m; m; m; m; m; m; m] (s_world s)) (steady_readings m)).
  - simpl. intros name node address cidr Hnode Hu.
    assert (reachable cw (n + d + 0) (MkSystem (s_api s) [] Watching m [] true [m; m; m; m; m; m; m] (s_world s))) as Hr2.
    { destruct Hr as (s0 & Hi & Hs0). exists s0. split; [done|]. eapply steps_trans; [|exact Hs2]. by eapply steps_trans. }
    destruct (reachable_good _ _ Hr2) as [_ Hrec]; [lia|]. destruct (reachable_tracks cw _ _ Hr2) as (_ & _ & Hwf).
    destruct (round_serves (n + d + 0) m [m; m; m; m; m; m; m] (s_world s) w2 w' (steady_readings m)) as (Hp & nm & Hnm & Hserved);
      [lia|done..|].
    assert (nm = m) as -> by (by destruct Hnm).
    assert (deliverable (prov w') (kern w') (local_node m) (view m)) as Hdel'.
    { destruct (iteration_rest cw Hcw _ _ _ Hit) as (r & w3 & He3 & _ & _ & Hkeep). simpl in He3.
      assert (w3 = w2) as -> by congruence. rewrite Hp.
      exact (Hkeep _ (unaffected_undisturbed _ (deliverable_unaffected _ _ _)) Hdel). }
    apply (Hserved Hdel' name (summarize (node_Name node) node)); [|done].
    rewrite Hview. unfold digest. by rewrite lookup_fmap, Hnode.
Qed.

(** ** Rounds that find nothing to do *)

Lemma idle_iteration v w :
  lastVersionApplied (prov w) ≠ 0 -> IsVersion (at_IsVersion v) (lastVersionApplied (prov w)) = true -> self_kept v ->
  exists w', iteration cw v w = (Ret tt, w') /\ prov w' = prov w /\
    forall Q, undisturbed Q -> Q (kern w) -> Q (kern w').
Proof using Hcw.
  intros Hl Hv Ht. pose proof (EnsureCIDRs_current (at_IsVersion v) (at_Snapshot v) w Hl Hv) as He.
  destruct (iteration_returns cw v w Ht) as [[w' Hit]|Hx]; [|by rewrite He in Hx].
  destruct (iteration_rest cw Hcw v w w' Hit) as (r & w1 & He1 & _ & Hp & Hkeep).
  assert (w1 = w) as -> by congruence. by exists w'.
Qed.

Lemma idle_rounds (rounds : list (bool * readings)) : forall w,
  lastVersionApplied (prov w) ≠ 0 ->
  Forall (fun r => self_kept r.2 /\ IsVersion (at_IsVersion r.2) (lastVersionApplied (prov w)) = true) rounds ->
  prov (watch_loop cw rounds w).2 = prov w /\
  forall Q, undisturbed Q -> Q (kern w) -> Q (kern (watch_loop cw rounds w).2).
Proof using Hcw.
  induction rounds as [|[cancelled v] rounds IH]; intros w Hl Hr; [done|]. apply Forall_cons in Hr as [[Ht Hv] Hr].
  cbn [watch_loop]. destruct cancelled; [done|]. simpl in Ht, Hv.
  destruct (idle_iteration v w Hl Hv Ht) as (w' & Hit & Hp & Hk). rewrite bind_run, Hit.
  rewrite <- Hp in Hl, Hr. destruct (IH w' Hl Hr) as [Hp' Hk']. split; [congruence|].
  intros Q HQ Hq. apply Hk'; [done|]. by apply Hk.
Qed.

(** C8: The controller trusts that nobody else changes the kernel. Whatever state the kernel is in -
    with the provider's routes, tunnels or associations taken away by others, say - the rounds that find
    the version of the map unchanged leave the network as it is, however many they are. A later
    round that finds another version makes up for it, whatever had been done to the kernel, if its
    provider returns nil and the condition of the provider, [deliverable], holds at its end: then the
    pods of every other node with an address and a pod CIDR are reached. The provider may well return an
    error instead, in that round and in every later one: see [changed_route_never_repaired]. *)
Theorem repaired_on_changes_only rounds v w w2 w3 :
  lastVersionApplied (prov w) ≠ 0 ->
  Forall (fun r => self_kept r.2 /\ IsVersion (at_IsVersion r.2) (lastVersionApplied (prov w)) = true) rounds ->
  let w1 := (watch_loop cw rounds w).2 in
  prov w1 = prov w /\ (forall Q, undisturbed Q -> Q (kern w) -> Q (kern w1)) /\
  (IsVersion (at_IsVersion v) (lastVersionApplied (prov w)) = false -> NodeMap_wf (at_Snapshot v) ->
   EnsureCIDRs (at_IsVersion v) (at_Snapshot v) w1 = (Ret tt, w2) -> iteration cw v w1 = (Ret tt, w3) ->
   deliverable (prov w3) (kern w3) (local_node (at_Snapshot v)) (view (at_Snapshot v)) ->
   forall name i address cidr, view (at_Snapshot v) !! name = Some i ->
     usable_remote (local_node (at_Snapshot v)) i = Some (address, cidr) ->
     delivered (prov w3) (kern w3) (local_node (at_Snapshot v)) address cidr).
Proof using Hcw.
  intros Hl Hr w1. destruct (idle_rounds rounds w Hl Hr) as [Hp Hk]. split; [done|]. split; [done|].
  intros Hv Hwf He Hit. destruct (iteration_rest cw Hcw v w1 w3 Hit) as (r & w2' & He2 & _ & Hp3 & Hkeep).
  assert (w2' = w2) as -> by congruence. rewrite Hp3. apply (Hkeep (fun k => served (prov w2) k (at_Snapshot v))); [apply served_undisturbed|].
  intros Hd name i address cidr. apply (EnsureCIDRs_delivers _ _ _ _ He); [|done..]. right. unfold w1. by rewrite Hp.
Qed.
End Agent.

(** ** A run of the agent *)

Section Witnesses.
#[local] Existing Instance netlink_v1_1_0.
#[local] Existing Instance sample_corev1.
#[local] Existing Instance apimachinery_v0_29.

(** Two nodes, the agent on the first of them, with the layer2 provider. *)
Definition api_ab : gmap string Node := {[ "a"%string := node_a; "b"%string := node_b ]}.

Definition sim_agent : option (ConfigWriter Sim Layer2RoutingProvider) := Some sim_writer.

Definition sim_done : World Sim Layer2RoutingProvider := (iteration sim_agent steady sim_layer2).2.

Definition sim_state (pc : watcher_pc) (m : NodeMap) (started : bool) (reads : list NodeMap)
    (w : World Sim Layer2RoutingProvider) : system Sim Layer2RoutingProvider :=
  MkSystem api_ab [] pc m [] started reads w.

Lemma api_ab_wf : api_wf api_ab.
Proof.
  intros name node. unfold api_ab. rewrite lookup_insert_Some, lookup_singleton_Some.
  by intros [[<- <-]|(_ & <- & <-)].
Qed.

Lemma sim_initial : initial (sim_state Idle (NewNodeMap is_a) false [] sim_layer2).
Proof. exists api_ab, is_a, sim_layer2. split_and!; [done|apply api_ab_wf|done]. Qed.

Lemma sim_idle : reachable sim_agent 0 (sim_state Idle (NewNodeMap is_a) false [] sim_layer2).
Proof. exists (sim_state Idle (NewNodeMap is_a) false [] sim_layer2). split; [apply sim_initial|apply steps_refl]. Qed.

Lemma sim_watching : reachable sim_agent 4 (sim_state Watching map_ab false [] sim_layer2).
Proof.
  eexists. split; [apply sim_initial|]. change 4 with (0 + 4). eapply steps_trans.
  - apply steps_one. apply (watcher_lists sim_agent (sim_state Idle (NewNodeMap is_a) false [] sim_layer2) [node_a; node_b]); [done|].
    vm_compute. reflexivity.
  - exact (files_answer sim_agent in_order api_ab [] [node_a; node_b] (NewNodeMap is_a) false [] sim_layer2).
Qed.

Lemma sim_reading : reachable sim_agent 4 (sim_state Watching map_ab true (repeat map_ab 7) sim_layer2).
Proof.
  destruct sim_watching as (s0 & Hi & Hs). exists s0. split; [done|]. change 4 with (4 + (0 + 0)).
  eapply steps_trans; [exact Hs|]. eapply steps_trans.
  - apply steps_one. by apply (controller_starts sim_agent (sim_state Watching map_ab false [] sim_layer2)).
  - exact (reads_map sim_agent api_ab [] Watching map_ab sim_layer2 7 [] eq_refl).
Qed.

Lemma sim_iteration : iteration sim_agent steady sim_layer2 = (Ret tt, sim_done).
Proof. vm_compute. reflexivity. Qed.

Lemma sim_files_only : files_only sim_agent.
Proof. apply simple_files_only. Qed.

Lemma reachable_maps_well_formed_witness : Name (summarize "b" node_b) = "b"%string /\ 0 <= version map_ab < 2 ^ 64.
Proof.
  destruct (reachable_maps_well_formed sim_agent 4 _ map_ab sim_watching ltac:(by left)) as (Hn & _ & Hv).
  split; [|exact Hv]. apply (Hn "b"%string). vm_compute. reflexivity.
Defined.

Lemma watcher_never_loses_a_node_witness : view map_ab = digest api_ab.
Proof.
  destruct (watcher_never_loses_a_node sim_agent 4 _ sim_watching eq_refl) as (_ & _ & Hv). exact (Hv eq_refl).
Defined.

(** The watch is closed after a node was deleted. *)
Lemma runOnce_is_a_path_witness :
  let a := MkResponses (inl [node_a; node_b]) None [result_event (MkEvent watch_Deleted (Some node_b)); channel_closed] in
  exists n es m, steps sim_agent (sim_state Idle (NewNodeMap is_a) false [] sim_layer2) n
                   (MkSystem (foldl api_apply api_ab es) [] Idle m [] false [] sim_layer2) /\
    view m = {[ "a"%string := summarize "a" node_a ]}.
Proof.
  intros a. pose proof (runOnce_is_a_path sim_agent (sim_state Idle (NewNodeMap is_a) false [] sim_layer2) a eq_refl eq_refl) as Hp.
  assert (forall items, List_result a = inl items -> listed_nodes items = api_ab) as Ha.
  { intros items [= <-]. vm_compute. reflexivity. }
  specialize (Hp Ha). destruct (runOnce a _) as [r w'] eqn:Hr. destruct Hp as (_ & _ & n & es & Hs & _).
  assert (r = Ret (Again None) /\ view (prov w') = {[ "a"%string := summarize "a" node_a ]}) as [-> Hv].
  { vm_compute in Hr. injection Hr as <- <-. split; [done|]. vm_compute. reflexivity. }
  exists n, es, (prov w'). split; [exact Hs|exact Hv].
Defined.

Lemma network_reported_when_served_witness :
  exists y, y ∈ entries route_table (kern sim_done) /\ route_key y = Some "100.96.2.0/24"%string.
Proof.
  destruct (network_reported_when_served sim_agent sim_files_only 4 _ steady sim_done "a" "NetworkUnavailable" "False"
              "RouteCreated" "kope.io network controller initialized node routes" None sim_reading eq_refl eq_refl sim_iteration)
    as [Hin|(_ & _ & _ & nm & Hnm & Hs)].
  - assert (exists t, trace sim_done = t ++ [(PatchNodeCondition "a" "NetworkUnavailable" "False"
                        "RouteCreated" "kope.io network controller initialized node routes", None)]) as [t Ht].
    { eexists [_; _; _]. vm_compute. reflexivity. }
    rewrite Ht. apply elem_of_app. right. by left.
  - exfalso. revert Hin. apply not_elem_of_nil.
  - assert (nm = map_ab) as -> by (by destruct Hnm as [Hnm|Hnm]).
    destruct (Hs I "b"%string (summarize "b" node_b) (ParseIP "172.20.0.2") (net4 100 96 2 0 24)) as (y & Hy & Hk & _);
      [vm_compute; reflexivity..|].
    exists y. split; [exact Hy|]. rewrite Hk. vm_compute. reflexivity.
Defined.

Lemma agent_catches_up_witness :
  exists d s1, steps sim_agent (sim_state Idle (NewNodeMap is_a) false [] sim_layer2) d s1 /\ d <= 4 /\
    view (s_map s1) = digest api_ab.
Proof.
  destruct (agent_catches_up sim_agent sim_files_only 0 _ sim_idle eq_refl) as (d & s1 & Hs & Hd & _ & _ & Hv & _).
  - vm_compute. reflexivity.
  - exists d, s1. split; [exact Hs|]. split; [exact Hd|exact Hv].
Defined.

(** Somebody has flushed the routing table after the agent was done. *)
Lemma repaired_on_changes_only_witness :
  let w := sim_world sim_empty (MkLayer2 (version map_ab) eth0) in
  let w1 := (watch_loop sim_agent [(false, steady); (false, steady)] w).2 in
  let m' := (UpdateNode map_ab node_a').1 in
  entries route_table (kern w1) = [] /\
  exists w3, iteration sim_agent (steady_readings m') w1 = (Ret tt, w3) /\
    exists y, y ∈ entries route_table (kern w3) /\ route_key y = Some "100.96.2.0/24"%string.
Proof.
  intros w w1 m'. pose proof steady_in_time as Ht%in_time_self_kept.
  destruct (EnsureCIDRs m' m' w1) as [[[]|e|] w2] eqn:He; [|vm_compute in He; discriminate He..].
  destruct (iteration sim_agent (steady_readings m') w1) as [[[]|e|] w3] eqn:Hit; [|vm_compute in Hit; discriminate Hit..].
  destruct (repaired_on_changes_only sim_agent sim_files_only [(false, steady); (false, steady)] (steady_readings m') w w2 w3)
    as (_ & Hk & Hs).
  - vm_compute. discriminate.
  - repeat (apply Forall_cons; split; [split; [exact Ht|vm_compute; reflexivity]|]). constructor.
  - split; [exact (Hk _ (untouched_empty _) eq_refl)|]. exists w3. split; [reflexivity|].
    destruct (Hs ltac:(vm_compute; reflexivity) (updateNode_wf _ _ (run_wf _ _ _ (NewNodeMap_wf is_a) map_ab_run)) He Hit I
                "b"%string (summarize "b" node_b) (ParseIP "172.20.0.2") (net4 100 96 2 0 24)) as (y & Hy & Hkey & _);
      [vm_compute; reflexivity..|].
    exists y. split; [exact Hy|]. rewrite Hkey. vm_compute. reflexivity.
Defined.
End Witnesses.
