(* ===== verification/Races.v ===== *)
(** * Reading the node map without its mutex

    The controller reads [nodeMap.me] and the fields behind it without the mutex, while the watcher may
    be in the middle of a critical section. The theorems say what that can and cannot do: memory
    changes by one assignment of the watcher at a time, a field read is old or new, the self node
    never vanishes under the controller, but two fields need not be from the same moment. *)

From S2P Require Import Prelude GoNet GoNetFacts K8s Nodes NodesFacts NodeMapSpec Locking Netlink Effects Sim.
From S2P Require Import Provider Layer2 Delivery Cni Controller ControllerFacts NodeController.
From S2P Require Import System SystemFacts SystemProperties.

Section Races.
Context {K P : Type} `{Kernel K} `{!Provider K P} `{!Delivery K P} `{CoreV1} `{WatchConsts}.
Context (cw : option (ConfigWriter K P)).
Implicit Types (s : system K P) (w : World K P) (m : NodeMap).

(** ** Memory *)

Lemma event_writes_run w m e : NodeMap_wf m -> healthy e -> memory m (event_writes m e) = on_event w m e.
Proof.
  intros Hwf He. rewrite on_event_op by done. unfold event_writes.
  destruct (event_op e); [by apply op_writes_run|done].
Qed.

(** A step is an assignment, or it leaves memory as it is. *)
Lemma step_memory s n s' :
  sound s -> step cw s n s' ->
  (s_memory s' = s_memory s /\ (s_map s' = s_map s /\ s_done s' = s_done s \/ s_done s' = [] /\ s_map s' = s_memory s)) \/
  exists op x rest, watcher_op s op /\ op_writes (s_map s) op = s_done s ++ x :: rest /\ write_ok (s_memory s) x /\
    s_memory s' = write_apply (s_memory s) x /\ s_map s' = s_map s /\ s_done s' = s_done s ++ [x].
Proof.
  intros ((_ & Hh & _) & Hwf & _ & _).
  destruct 1 as [e He|items Hi Hl|op x rest Hop Hw|items o Hi Hd|Hi Hd|e rest Hi Hc Hd|Hd|Hd Hr|Hst Hn Hd|Hst Hn Hn'|v w' Hv Hit];
    unfold s_memory; simpl; try (by left; auto).
  - right. exists op, x, rest. destruct (half_way _ _ _ _ Hwf Hw) as (_ & _ & [Hok _] & _).
    split_and!; try done. by rewrite memory_app.
  - left. rewrite Hd, op_writes_run by done. auto.
  - left. rewrite Hd. auto.
  - left. rewrite Hc in Hh. apply Forall_cons in Hh as [He _]. rewrite Hd, (event_writes_run (s_world s)) by done. auto.
  - left. rewrite Hd. auto.
Qed.

(** C6: In every interleaving, a step of the agent or of the API server changes the memory of the node
    map by one assignment of the method the watcher is executing, or not at all; and what the map is when
    the mutex is released is exactly what its assignments have left in memory. So the methods, which
    the other theorems take as single steps, are carried out one assignment at a time. *)
Theorem memory_changes_by_assignments n s d s' :
  reachable cw n s -> step cw s d s' ->
  (s_memory s' = s_memory s /\ (s_map s' = s_map s /\ s_done s' = s_done s \/ s_done s' = [] /\ s_map s' = s_memory s)) \/
  exists op x rest, watcher_op s op /\ op_writes (s_map s) op = s_done s ++ x :: rest /\
    s_memory s' = write_apply (s_memory s) x /\ s_map s' = s_map s /\ s_done s' = s_done s ++ [x].
Proof.
  intros Hr%reachable_sound Hs. destruct (step_memory s d s' Hr Hs) as [?|(op & x & rest & ? & ? & _ & ? & ? & ?)]; [by left|].
  right. by exists op, x, rest.
Qed.

(** ** The self node *)

(** The readings of the round, and memory as it is now, come one after the other. *)
Definition read_in_order s : Prop := StronglySorted follows (s_reads s ++ [s_memory s]).

Lemma sorted_last {A} (R : relation A) `{!PreOrder R} (l : list A) a b :
  R a b -> StronglySorted R (l ++ [a]) -> StronglySorted R (l ++ [b]).
Proof.
  intros Hab Hs. apply StronglySorted_app_2.
  - intros x y Hx Hy%list_elem_of_singleton. subst y. transitivity a; [|done].
    apply (StronglySorted_app_1_elem_of R l [a]); [done|done|by left].
  - by eapply StronglySorted_app_1_l.
  - repeat constructor.
Qed.

Lemma sorted_again {A} (R : relation A) `{!PreOrder R} (l : list A) a :
  StronglySorted R (l ++ [a]) -> StronglySorted R ((l ++ [a]) ++ [a]).
Proof.
  intros Hs. apply StronglySorted_app_2; [|done|repeat constructor].
  intros x y [Hx|Hx]%elem_of_app Hy%list_elem_of_singleton; subst y.
  - apply (StronglySorted_app_1_elem_of R l [a]); [done|done|by left].
  - apply list_elem_of_singleton in Hx. by subst x.
Qed.

Lemma read_in_order_step s n s' : sound s -> read_in_order s -> step cw s n s' -> read_in_order s'.
Proof.
  intros Hso Ho Hs.
  assert (follows (s_memory s) (s_memory s')) as Hf.
  { destruct (step_memory s n s' Hso Hs) as [[-> _]|(op & x & rest & _ & _ & Hok & -> & _)]; [done|by apply write_follows]. }
  assert (s_reads s' = s_reads s \/ s_reads s' = [] \/ s_reads s' = s_reads s ++ [s_memory s]) as Hreads.
  { destruct Hs; simpl; auto. right. right. unfold s_memory. by match goal with Hd : s_done s = [] |- _ => rewrite Hd end. }
  unfold read_in_order in *. destruct Hreads as [-> | [-> | ->]].
  - by apply (sorted_last follows _ (s_memory s)).
  - repeat constructor.
  - apply (sorted_last follows _ (s_memory s)); [done|]. by apply (sorted_again follows).
Qed.

Lemma reachable_read_in_order n s : reachable cw n s -> read_in_order s.
Proof.
  intros (s0 & Hi & Hs).
  assert (read_in_order s0) as Hr0 by (destruct Hi as (api & p & w & -> & _); repeat constructor).
  assert (reachable cw 0 s0) as Hs0%reachable_sound by (exists s0; split; [done|apply steps_refl]). clear Hi.
  enough (sound s /\ read_in_order s) by tauto.
  induction Hs as [|n s1 d s2 _ [IH1 IH2] Hs]; [done|]. split; [by eapply step_sound|by eapply read_in_order_step].
Qed.

Lemma reachable_self_kept n s v : reachable cw n s -> round_readings (s_reads s) = Some v -> self_kept v.
Proof.
  intros Hr Hv. pose proof (StronglySorted_app_1_l _ _ _ (reachable_read_in_order n s Hr)) as Hs. revert Hs Hv.
  destruct (s_reads s) as [|m1 [|m2 [|m3 [|m4 [|m5 [|m6 [|m7 [|]]]]]]]]; intros Hs [= <-].
  assert (forall a b l1 l2 l3, [m1; m2; m3; m4; m5; m6; m7] = l1 ++ a :: l2 ++ b :: l3 -> keeps_self a b) as Hab.
  { intros a b l1 l2 l3 Heq. rewrite Heq in Hs. apply StronglySorted_app_1_r in Hs.
    assert (follows a b) as [Hab _]; [|exact Hab]. apply (StronglySorted_app_1_elem_of follows [a] (l2 ++ b :: l3) a b Hs); [by left|].
    apply elem_of_app. right. by left. }
  split_and!; simpl.
  - by apply (Hab m3 m4 [m1; m2] [] [m5; m6; m7]).
  - by apply (Hab m5 m6 [m1; m2; m3; m4] [] [m7]).
  - by apply (Hab m5 m7 [m1; m2; m3; m4] [m6] []).
Qed.

Lemma round_ends n s v :
  reachable cw n s -> round_readings (s_reads s) = Some v ->
  (exists w', iteration cw v (s_world s) = (Ret tt, w')) \/
  (EnsureCIDRs (at_IsVersion v) (at_Snapshot v) (s_world s)).1 = Exit.
Proof. intros Hr Hv. by eapply iteration_returns, reachable_self_kept. Qed.

(** The controller tests [nodeMap.me] and then dereferences it again, each time without the mutex.
    In no interleaving with the assignments of the watcher does it meet a nil pointer: every round
    it reads comes to its end, unless the provider ends the process. *)
Theorem unlocked_reads_never_panic n s v :
  reachable cw n s -> round_readings (s_reads s) = Some v ->
  (exists w', iteration cw v (s_world s) = (Ret tt, w')) \/
  (EnsureCIDRs (at_IsVersion v) (at_Snapshot v) (s_world s)).1 = Exit.
Proof. apply round_ends. Qed.

(** ** The fields *)

Lemma parts_updates m ws : parts m ws -> NodeMap_wf m -> rtc updates_one m (memory m ws).
Proof.
  induction 1 as [m|m ws rest Hp _ IH]; intros Hwf; [done|]. rewrite memory_app.
  destruct (part_once m ws Hwf Hp) as [Hok _]. destruct (writes_wf _ _ Hwf Hok) as [Hwf1 _].
  eapply rtc_l; [by apply part_updates_one|by apply IH].
Qed.

Lemma nm_apply_updates m op : NodeMap_wf m -> rtc updates_one m (nm_apply m op).
Proof. intros Hwf. rewrite <- op_writes_run by done. by apply parts_updates; [apply op_writes_parts|]. Qed.

(** A state of memory between two states of the map, one update after the other. *)
Definition between m0 m' : Prop :=
  exists m1 m2, rtc updates_one m0 m1 /\ updates_one m1 m2 /\ NodeMap_wf m1 /\
    forall v, agree v m' m1 \/ agree v m' m2.

Lemma between_at m0 m : rtc updates_one m0 m -> NodeMap_wf m -> between m0 m.
Proof.
  intros Hr Hwf. exists m, (MarkReady m). split_and!; [done|by right; right|done|]. intros v. by left.
Qed.

Lemma between_memory m0 s :
  rtc updates_one m0 (s_map s) -> NodeMap_wf (s_map s) -> in_section s -> between m0 (s_memory s).
Proof.
  intros Hr Hwf [Hd|(op & rest & _ & Hw)]; unfold s_memory.
  - rewrite Hd. by apply between_at.
  - destruct (half_way_old_or_new _ _ _ _ Hwf Hw) as (m1 & m2 & Hr1 & Hu & Hwf1 & Ha).
    exists m1, m2. split_and!; [|done..]. by transitivity (s_map s).
Qed.

Lemma step_updates m0 s n s' :
  sound s -> step cw s n s' -> rtc updates_one m0 (s_map s) -> rtc updates_one m0 (s_map s').
Proof.
  intros ((_ & Hh & _) & Hwf & _) Hs Hr. etransitivity; [exact Hr|].
  destruct Hs as [e He|items Hi Hl|op x rest Hop Hw|items o Hi Hd|Hi Hd|e rest Hi Hc Hd|Hd|Hd Hrd|Hst Hn Hd|Hst Hn Hn'|v w' Hv Hit];
    simpl; try reflexivity.
  - by apply (nm_apply_updates _ (OpReplace o items)).
  - by apply (nm_apply_updates _ OpReady).
  - rewrite Hc in Hh. apply Forall_cons in Hh as [He _]. rewrite on_event_op by done.
    destruct (event_op e); [by apply nm_apply_updates|reflexivity].
Qed.

Lemma between_reads s0 n s :
  initial s0 -> steps cw s0 n s ->
  sound s /\ rtc updates_one (s_map s0) (s_map s) /\ Forall (between (s_map s0)) (s_reads s).
Proof.
  intros Hi Hs. induction Hs as [|n s1 d s2 _ (Hso & Hr & Hb) Hs].
  - assert (reachable cw 0 s0) as Hs0%reachable_sound by (exists s0; split; [done|apply steps_refl]).
    split_and!; [done..|]. destruct Hi as (api & p & w & -> & _). constructor.
  - split; [by eapply step_sound|]. split; [by eapply step_updates|].
    pose proof Hso as (_ & Hwf & Hin & _). destruct Hs; simpl; try done;
      (apply Forall_app; split; [done|apply Forall_singleton]); [by apply between_at|by apply between_memory].
Qed.

(** C7: Whatever the watcher is in the middle of: at each of the controller's reads there are two
    states of the map, the second made from the first by the update or removal of one node, such that
    [me] and the pod CIDR, the address and the availability of every node read as in one of the two.
    So a field is never anything but an old or a new value of that field. *)
Theorem unlocked_reads_are_old_or_new s0 n s m' :
  initial s0 -> steps cw s0 n s -> m' ∈ s_reads s ->
  exists m1 m2, rtc updates_one (s_map s0) m1 /\ updates_one m1 m2 /\ NodeMap_wf m1 /\
    forall v, agree v m' m1 \/ agree v m' m2.
Proof.
  intros Hi Hs Hm. destruct (between_reads s0 n s Hi Hs) as (_ & _ & Hb). rewrite Forall_forall in Hb. by apply Hb.
Qed.
End Races.

(** ** A race *)

Section Witnesses.
#[local] Existing Instance netlink_v1_1_0.
#[local] Existing Instance sample_corev1.
#[local] Existing Instance apimachinery_v0_29.

(** The controller has read under the mutex, and reads on while the watcher, which has received that
    the agent's own node has another pod CIDR and another address, is between the two. *)
Definition api_a'b : gmap string Node := <[ "a"%string := node_a' ]> api_ab.

Definition first_write : list write := take 1 (op_writes map_ab (OpUpdate node_a')).

Definition half_updated : NodeMap := memory map_ab first_write.

Definition race (done : list write) (reads : list NodeMap) : system Sim Layer2RoutingProvider :=
  MkSystem api_a'b [MkEvent watch_Modified (Some node_a')] Watching map_ab done true reads sim_layer2.

Definition torn : list NodeMap := [map_ab; map_ab; map_ab; half_updated; half_updated; half_updated; half_updated].

Lemma race_begins : steps sim_agent (sim_state Idle (NewNodeMap is_a) false [] sim_layer2) 4 (race [] []).
Proof.
  change 4 with (0 + 4 + 0 + 0). eapply steps_step; [eapply steps_step; [eapply steps_trans|]|].
  - apply steps_one. apply (watcher_lists sim_agent (sim_state Idle (NewNodeMap is_a) false [] sim_layer2) [node_a; node_b]); [done|].
    vm_compute. reflexivity.
  - exact (files_answer sim_agent in_order api_ab [] [node_a; node_b] (NewNodeMap is_a) false [] sim_layer2).
  - apply (api_changes sim_agent (sim_state Watching map_ab false [] sim_layer2) (MkEvent watch_Modified (Some node_a'))).
    right. split; [by eexists|by_computation].
  - by apply (controller_starts sim_agent
      (MkSystem api_a'b [MkEvent watch_Modified (Some node_a')] Watching map_ab [] false [] sim_layer2)).
Qed.

Lemma race_reads done reads k : (2 <= length reads)%nat -> (length reads + k <= 7)%nat ->
  steps sim_agent (race done reads) 0 (race done (reads ++ repeat (memory map_ab done) k)).
Proof.
  revert reads. induction k as [|k IH]; intros reads Hl Hk; [rewrite app_nil_r; apply steps_refl|].
  cbn [repeat]. change (memory map_ab done :: ?l) with ([memory map_ab done] ++ l). rewrite app_assoc, <- (Z.add_0_l 0).
  eapply steps_trans; [apply steps_one|apply IH; rewrite length_app; simpl; lia].
  apply (controller_peeks sim_agent (race done reads)); [done|done|]. cbn [s_reads race].
  destruct reads as [|? [|? [|? [|? [|? [|? [|? [|]]]]]]]]; simpl in *; done || lia.
Qed.

Lemma race_writes reads : step sim_agent (race [] reads) 0 (race first_write reads).
Proof.
  destruct (op_writes map_ab (OpUpdate node_a')) as [|x rest] eqn:Hw; [vm_compute in Hw; discriminate|].
  unfold first_write. rewrite Hw. apply (watcher_writes sim_agent (race [] reads) (OpUpdate node_a') x rest); [|exact Hw].
  vm_compute. reflexivity.
Qed.

Lemma racing_steps : steps sim_agent (sim_state Idle (NewNodeMap is_a) false [] sim_layer2) 4 (race first_write torn).
Proof.
  change 4 with (4 + (0 + 0 + 0 + 0 + 0)). eapply steps_trans; [apply race_begins|].
  eapply steps_trans; [eapply steps_trans; [eapply steps_trans; [eapply steps_trans; apply steps_one|]|apply steps_one]|].
  - apply (controller_reads sim_agent (race [] [])); [done|cbn; unfold locked_reads; lia|done].
  - apply (controller_reads sim_agent (race [] [map_ab])); [done|cbn; unfold locked_reads; lia|done].
  - apply (race_reads [] [map_ab; map_ab] 1); cbn; lia.
  - apply race_writes.
  - apply (race_reads first_write [map_ab; map_ab; map_ab] 4); cbn; lia.
Qed.

Lemma racing_initial : initial (sim_state Idle (NewNodeMap is_a) false [] sim_layer2).
Proof. apply sim_initial. Qed.

Lemma racing : reachable sim_agent 4 (race first_write torn).
Proof. eexists. split; [apply racing_initial|apply racing_steps]. Qed.

(** The controller's reading of its own node has the new pod CIDR and the old address. *)
Lemma torn_reading :
  exists l, me half_updated = Some l /\
    PodCIDR (deref (heap half_updated) l) = Some (net4 100 96 9 0 24) /\
    Address (deref (heap half_updated) l) = ParseIP "172.20.0.1".
Proof. exists 1%positive. vm_compute. by repeat split. Qed.

Lemma half_updated_differs : half_updated ≠ map_ab.
Proof. intros He. apply (f_equal (fun m => deref (heap m) 1%positive)) in He. vm_compute in He. discriminate. Qed.

Lemma memory_changes_by_assignments_witness :
  exists x, half_updated = write_apply map_ab x /\ first_write = [x].
Proof.
  destruct (memory_changes_by_assignments sim_agent 4 (race [] []) 0 (race first_write [])) as [[He _]|(op & x & rest & _ & _ & Hx & _ & Hd)].
  - eexists. split; [apply racing_initial|apply race_begins].
  - apply race_writes.
  - exfalso. exact (half_updated_differs He).
  - exists x. split; [exact Hx|exact Hd].
Defined.

Lemma unlocked_reads_never_panic_witness :
  exists v w', round_readings torn = Some v /\ iteration sim_agent v sim_layer2 = (Ret tt, w').
Proof.
  eexists. destruct (unlocked_reads_never_panic sim_agent 4 (race first_write torn) _ racing eq_refl) as [[w' Hw]|He].
  - exists w'. split; [reflexivity|exact Hw].
  - exfalso. vm_compute in He. discriminate He.
Defined.

Lemma unlocked_reads_are_old_or_new_witness :
  exists m1 m2, updates_one m1 m2 /\
    (forall v, agree v half_updated m1 \/ agree v half_updated m2) /\
    exists l, me half_updated = Some l /\
      PodCIDR (deref (heap half_updated) l) = Some (net4 100 96 9 0 24) /\
      Address (deref (heap half_updated) l) = ParseIP "172.20.0.1".
Proof.
  destruct (unlocked_reads_are_old_or_new sim_agent _ 4 (race first_write torn) half_updated racing_initial racing_steps)
    as (m1 & m2 & _ & Hu & _ & Ha).
  - do 3 right. left.
  - exists m1, m2. split; [exact Hu|]. split; [exact Ha|exact torn_reading].
Defined.
End Witnesses.
