(* ===== verification/Recovery.v ===== *)
(** * From transient faults to a network that works

    The retries of the controller together with the way the vxlan provider works: whenever the kernel
    refuses a call of a round, the provider returns the error and has changed nothing but tables of
    which the next round finds out what they hold; so the controller's loop gets there as soon as
    the faults are over, and records the version only then. *)

From S2P Require Import Prelude GoNet GoNetFacts K8s Nodes NodesFacts NodeMapSpec Netlink Effects Tables Reconcile.
From S2P Require Import Netutil RouteTable NeighTable KernelLaws Sim RouteFacts NeighFacts Faults Provider Vxlan2 Delivery.
From S2P Require Import Controller ControllerFacts System SystemFacts SystemProperties.

(** ** Predicates of the kernel behind the faults *)

Section Undisturbed.
Context {K : Type} `{Kernel K}.

Lemma flaky_undisturbed (Q : K -> Prop) : undisturbed Q -> undisturbed (fun f : Flaky K => Q (fl_kernel f)).
Proof.
  intros [Ha Hr]. split.
  - intros a f Has HQ. destruct (refusing_cases Some (exec a) f) as [(rest & Hx & _)|(e & rest & Hx & _)];
      change (exec a f) with (refusing Some (exec a) f); rewrite Hx; [by apply Ha|done].
  - intros path f HQ. destruct (refusing_cases inr (k_ReadFile path) f) as [(rest & Hx & _)|(e & rest & Hx & _)];
      change (k_ReadFile path f) with (refusing inr (k_ReadFile path) f); rewrite Hx; [by apply Hr|done].
Qed.

Lemma faults_undisturbed c : undisturbed (fun f : Flaky K => faults f < c)%nat.
Proof.
  split.
  - intros a f Has Hc. destruct (refusing_cases Some (exec a) f) as [(rest & Hx & Hn)|(e & rest & Hx & Hn)];
      change (exec a f) with (refusing Some (exec a) f); rewrite Hx; unfold faults in *; simpl in *; lia.
  - intros path f Hc. destruct (refusing_cases inr (k_ReadFile path) f) as [(rest & Hx & Hn)|(e & rest & Hx & Hn)];
      change (k_ReadFile path f) with (refusing inr (k_ReadFile path) f); rewrite Hx; unfold faults in *; simpl in *; lia.
Qed.
End Undisturbed.

Section Recovery.
Context {K : Type} `{Kernel K} `{NetlinkConsts} `{!RouteLaws K} `{!NeighLaws K} `{!NeighRouteFrame K}.
Context `{!Untouched (entries route_table)} `{!Untouched neighs} `{CoreV1}.
Implicit Types (w : World (Flaky K) Vxlan2RoutingProvider) (nm : NodeMap) (l : Link) (k : K) (ns : list Neigh) (rs : list Route).

(** ** The neighbours *)

Lemma set_neighs_routes ns : forall k log e k',
  exec_all (NeighSet <$> ns) k = (log, e, k') -> entries route_table k' ≡ₚ entries route_table k.
Proof.
  induction ns as [|n ns IH]; intros k log e k'; cbn [fmap list_fmap exec_all]; [by intros [= _ _ <-]|].
  pose proof (NeighSet_routes n k) as Hn. destruct (exec (NeighSet n) k) as [[x|] k1]; [by intros [= _ _ <-]|].
  destruct (exec_all (NeighSet <$> ns) k1) as [[log1 e1] k2] eqn:Hx. intros [= _ _ <-].
  rewrite (IH _ _ _ _ Hx). exact Hn.
Qed.

Lemma flaky_neighbours l ns w :
  neigh_goal ns -> (forall n, n ∈ ns -> neigh_accepts n) ->
  exists w', prov w' = prov w /\
    entries route_table (fl_kernel (kern w')) ≡ₚ entries route_table (fl_kernel (kern w)) /\
    ((NeighTable_Ensure l ns w = (Ret tt, w') /\ (faults (kern w') <= faults (kern w))%nat /\
      forall i e, index_by neigh_key ns !! i = Some e ->
        exists y, y ∈ neighs (fl_kernel (kern w')) /\ neigh_held e y) \/
     exists e, NeighTable_Ensure l ns w = (Err e, w') /\ (faults (kern w') < faults (kern w))%nat).
Proof.
  intros Hg Hacc. pose proof (NeighTable_Ensure_keeps (fun p => p) l ns w) as [Hp _].
  destruct (NeighList_lists (link_Index (Attrs l)) (fl_kernel (kern w))) as (actual & Hl & Hperm).
  destruct (refusing_cases inr (k_NeighList (link_Index (Attrs l)) FAMILY_ALL) (kern w)) as [(rest & Hx & Hn)|(e & rest & Hx & Hn)];
    change (refusing inr (k_NeighList (link_Index (Attrs l)) FAMILY_ALL) (kern w))
      with (k_NeighList (link_Index (Attrs l)) FAMILY_ALL (kern w)) in Hx; cycle 1.
  { assert (exists e', NeighTable_Ensure l ns w = (Err e', after w (sched w) [] (MkFlaky (fl_kernel (kern w)) rest))) as [e' Hr].
    { unfold NeighTable_Ensure. rewrite (bind_query_error _ _ _ _ _ _ Hx). by eexists. }
    rewrite Hr in Hp. eexists. split; [exact Hp|]. split; [done|]. right. exists e'. split; [exact Hr|].
    unfold faults in *. simpl in *. lia. }
  rewrite Hl in Hx. simpl in Hx. pose proof (NeighTable_Ensure_eq l ns w _ _ Hx) as Hr. cbv zeta in Hr.
  fold (neigh_upserts (sched w 0%nat) actual ns) in Hr.
  destruct (set_all (neigh_upserts (sched w 0%nat) actual ns) (fl_kernel (kern w))) as (k' & Hs).
  { intros n Hin. by eapply Hacc, upserts_expected. }
  destruct (flaky_exec_all _ (MkFlaky (fl_kernel (kern w)) rest) _ _ Hs)
    as [(log & rest1 & Hf & Hn1)|(n & log & log1 & e & k1 & rest1 & Hf & Ht & Hn1)]; rewrite Hf in Hr; rewrite Hr in Hp.
  - eexists. split; [exact Hp|]. split; [by eapply set_neighs_routes|]. left. split; [exact Hr|].
    split; [unfold faults in *; simpl in *; lia|]. by eapply upserts_settle.
  - eexists. split; [exact Hp|]. split.
    + rewrite <- fmap_take in Ht. by eapply set_neighs_routes.
    + right. eexists. split; [exact Hr|]. unfold faults in *. simpl in *. lia.
Qed.

(** ** What a round needs *)

(** The nodes can be told apart and have IPv4 pod CIDRs, the kernel takes the entries and the routes the
    provider wants to add - with the hardware address it computes -, and no foreign route is in
    the way. *)
Record vxlan2_ready nm l k : Prop := {
  ready_wf : NodeMap_wf nm;
  ready_map : IsReady nm = true;
  ready_me : is_Some (PodCIDR (local_node nm)) /\ is_Some (Address (local_node nm));
  ready_apart : remotes_apart (local_node nm) (view nm);
  ready_remote : forall name n a cidr, view nm !! name = Some n -> usable_remote (local_node nm) n = Some (a, cidr) ->
    let route := vxlan2_route (link_Index (Attrs l)) cidr in
    To4 (net_IP cidr) ≠ None /\ accepts route_table route /\ route_listed (Some l) route = true /\
    (forall mac, mapToMAC (net_IP cidr) = Some mac -> neigh_accepts (vxlan2_arp (link_Index (Attrs l)) cidr mac) /\
       neigh_accepts (vxlan_fdb (link_Index (Attrs l)) a mac)) /\
    forall r, r ∈ other_routes (Some l) k -> route_conflict r route = false;
  ready_routes : NoDup (omap route_key (listed_routes (Some l) k))
}.

Lemma vxlan2_ready_after nm l k k' :
  vxlan2_ready nm l k -> NoDup (omap route_key (listed_routes (Some l) k')) ->
  other_routes (Some l) k' ≡ₚ other_routes (Some l) k -> vxlan2_ready nm l k'.
Proof.
  intros [Hwf Hm Hme Ha Hr _] Hnd Ho. split; try done. intros name n a cidr Hn Hu.
  destruct (Hr name n a cidr Hn Hu) as (? & ? & ? & ? & Hf). split_and!; try done.
  intros r Hin. apply Hf. by rewrite <- Ho.
Qed.

Lemma vxlan2_ready_perm nm l k k' :
  entries route_table k' ≡ₚ entries route_table k -> vxlan2_ready nm l k -> vxlan2_ready nm l k'.
Proof.
  intros Hp Hr. apply (vxlan2_ready_after _ _ k); [done| |].
  - unfold listed_routes. rewrite (omap_perm route_key _ (filter (route_listed (Some l)) (entries route_table k))) by (by rewrite Hp).
    apply Hr.
  - unfold other_routes. by rewrite Hp.
Qed.

Lemma vxlan2_ready_undisturbed nm l : undisturbed (vxlan2_ready nm l).
Proof.
  split; intros ? k; intros; [apply (vxlan2_ready_perm _ _ k); [by apply aside_part|done]|].
  apply (vxlan2_ready_perm _ _ k); [by apply ReadFile_part|done].
Qed.

(** Whatever order a snapshot has, its round has a goal it can reach. *)
Lemma vxlan2_goal nm l k o :
  vxlan2_ready nm l k ->
  exists ns rs, vxlan2_remotes (link_Index (Attrs l)) (local_node nm) (snapshot_list o nm) = Some (ns, rs) /\
    NoDup (omap neigh_key ns) /\ neigh_goal ns /\ (forall n, n ∈ ns -> neigh_accepts n) /\ route_goal (Some l) rs k.
Proof.
  intros [Hwf _ _ Hap Hr Hnd]. destruct (snapshot_nodes nm o Hwf) as [Hview _].
  destruct (vxlan2_remotes_Some (link_Index (Attrs l)) (local_node nm) (snapshot_list o nm)) as (ns & rs & Hrem & _ & Hrs).
  { intros x a c Hx Hu. by apply (Hr _ _ _ _ (proj1 (Hview x) Hx) Hu). }
  destruct (remotes_apart_keys _ _ _ _ _ _ Hwf Hap Hrem) as [Hnk Hrk]. exists ns, rs. split; [done|]. split; [done|].
  split; [by eapply vxlan2_neigh_goal|]. split.
  - intros n Hn. destruct (vxlan2_remotes_from _ _ _ _ _ Hrem n Hn) as (x & a & c & mac & Hx & Hu & Hm & _ & Hcase).
    destruct (Hr _ _ _ _ (proj1 (Hview x) Hx) Hu) as (_ & _ & _ & Hacc & _). destruct (Hacc mac Hm). by destruct Hcase as [-> | ->].
  - assert (forall e, e ∈ rs -> exists c, e = vxlan2_route (link_Index (Attrs l)) c /\ accepts route_table e /\
      route_listed (Some l) e = true /\ forall r, r ∈ other_routes (Some l) k -> route_conflict r e = false) as Hall.
    { intros e He. destruct (Hrs e He) as (x & a & c & Hx & Hu & ->).
      destruct (Hr _ _ _ _ (proj1 (Hview x) Hx) Hu) as (_ & ? & ? & _ & ?). by exists c. }
    split; [|done|done| | |].
    + intros e He. destruct (Hall e He) as (c & -> & _). by exists c.
    + intros e He. by destruct (Hall e He) as (c & _ & _ & ? & _).
    + intros e He. by destruct (Hall e He) as (c & _ & ? & _).
    + intros e r He. destruct (Hall e He) as (c & _ & _ & _ & Hf). apply Hf.
Qed.

(** ** A round *)

Definition reaches nm (p : Vxlan2RoutingProvider) k : Prop :=
  forall name n address cidr, view nm !! name = Some n -> usable_remote (local_node nm) n = Some (address, cidr) ->
    vxlan2_delivered p k (local_node nm) address cidr.

(** The expected routes of a link in step are there. *)
Lemma in_sync_held link rs k : route_goal link rs k -> routes_in_sync link rs k -> routes_held rs k.
Proof.
  intros Hg [Hnd Hs] e He. assert (is_Some (route_key e)) as [i Hi].
  { destruct (goal_dst _ _ _ Hg e He) as [c Hc]. unfold route_key. rewrite Hc. by eexists. }
  specialize (Hs i). rewrite (proj2 (index_by_unique route_key rs i e (goal_expected _ _ _ Hg)) (conj He Hi)) in Hs.
  destruct (index_by route_key (listed_routes link k) !! i) as [y|] eqn:Hy; [|done].
  apply index_by_Some in Hy as [Hy Hk]. exists y. split; [|by split; [rewrite Hk, Hi|]].
  by apply list_elem_of_filter in Hy as [_ Hy].
Qed.

Lemma flaky_apply nm l o w :
  vxlan2_ready nm l (fl_kernel (kern w)) -> v2_link (prov w) = Some l ->
  exists w', prov w' = prov w /\
    ((vxlan2_apply (local_node nm) (snapshot_list o nm) w = (Ret tt, w') /\ reaches nm (prov w) (fl_kernel (kern w'))) \/
     exists e, vxlan2_apply (local_node nm) (snapshot_list o nm) w = (Err e, w') /\
       (faults (kern w') < faults (kern w))%nat /\ vxlan2_ready nm l (fl_kernel (kern w'))).
Proof.
  intros Hr Hl. destruct (vxlan2_goal nm l _ o Hr) as (ns & rs & Hrem & Hnk & Hng & Hacc & Hg).
  destruct (ready_me _ _ _ Hr) as [[c Hc] [a Ha]].
  rewrite (vxlan2_apply_linked _ _ _ _ _ _ Hc Ha Hl), Hrem, bind_must.
  destruct (flaky_neighbours l ns w Hng Hacc) as (w1 & Hp1 & Hroutes & Hcase).
  assert (vxlan2_ready nm l (fl_kernel (kern w1))) as Hr1 by (by eapply vxlan2_ready_perm).
  destruct Hcase as [(Hn & Hle & Hheld)|(e & Hn & Hlt)]; cycle 1.
  { exists w1. split; [done|]. right. eexists. rewrite bind_run. unfold wrap at 1. rewrite Hn. split; [reflexivity|done]. }
  assert (route_goal (Some l) rs (fl_kernel (kern w1))) as Hg1 by (by eapply route_goal_perm).
  pose proof (RouteTable_Ensure_keeps (fun p => p) (Some l) rs true w1) as [Hp _].
  assert ((wrap "error applying neigh table: %v" (NeighTable_Ensure l ns);;
           wrap "error applying route table: %v" (RouteTable_Ensure (Some l) rs true)) w
          = wrap "error applying route table: %v" (RouteTable_Ensure (Some l) rs true) w1) as ->.
  { rewrite bind_run. unfold wrap at 1. by rewrite Hn. }
  unfold wrap.
  destruct (flaky_run (Some l) rs w1 Hg1) as [(w2 & Hrun & Hs & _ & Hoth & Ho)|(e & w2 & Hrun & Hg2 & Hlt & Hoth)];
    rewrite Hrun in *; exists w2; (split; [simpl in Hp; congruence|]).
  - left. split; [done|]. intros name n address cidr Hview Hu.
    eapply (vxlan2_held_delivered _ l ns rs); [done|apply Hr|exact Hrem|done| | |done|done].
    + eapply in_sync_held; [|exact Hs]. destruct Hg1 as [? ? _ ? ? Hf]. split; try done; [apply Hs|].
      intros e r He Hin. apply Hf; [done|]. by rewrite <- Hoth.
    + intros i e He. destruct (Hheld i e He) as (y & Hy & Hh). exists y. by rewrite (routes_neighs _ _ Ho).
  - right. eexists. split; [reflexivity|]. split; [lia|]. apply (vxlan2_ready_after _ _ (fl_kernel (kern w1))); [done|apply Hg2|done].
Qed.

Context (cw : option (ConfigWriter (Flaky K) Vxlan2RoutingProvider)) (Hcw : files_only cw).

(** The condition under which the provider works at all. *)
Definition outdated nm (p : Vxlan2RoutingProvider) : Prop :=
  v2_lastVersionApplied p = 0 \/ IsVersion nm (v2_lastVersionApplied p) = false.

Lemma flaky_EnsureCIDRs nm l w :
  vxlan2_ready nm l (fl_kernel (kern w)) -> v2_link (prov w) = Some l -> outdated nm (prov w) ->
  exists w', (EnsureCIDRs nm nm w = (Ret tt, w') /\ prov w' = v2_set_last (version nm) (prov w) /\
      reaches nm (prov w') (fl_kernel (kern w'))) \/
    exists e, EnsureCIDRs nm nm w = (Err e, w') /\ prov w' = prov w /\
      (faults (kern w') < faults (kern w))%nat /\ vxlan2_ready nm l (fl_kernel (kern w')).
Proof.
  intros Hr Hl Ho. cbn [EnsureCIDRs Vxlan2_Provider ensure_version_provider].
  rewrite (ensure_version_work v2_lastVersionApplied v2_set_last vxlan2_apply nm nm w Ho (ready_map _ _ _ Hr)). cbv zeta.
  assert (match me nm with Some l => deref (heap nm) l | None => zero_NodeInfo end = local_node nm) as ->
    by (unfold local_node, me_info; by destruct (me nm)).
  fold (snapshot_list (sched w 0%nat) nm). set (w0 := after w _ _ _).
  assert (kern w0 = kern w) as Hk by done. assert (prov w0 = prov w) as Hp0 by done.
  destruct (flaky_apply nm l (sched w 0%nat) w0) as (w' & Hp & [[Hrun Hreach]|(e & Hrun & Hlt & Hr')]); [done|done| |].
  - eexists. left. rewrite Hrun. split; [reflexivity|]. simpl. rewrite Hp, Hp0 in *. split; [done|].
    intros name n address cidr Hn Hu. exact (Hreach name n address cidr Hn Hu).
  - exists w'. right. exists e. rewrite Hrun. by split_and!.
Qed.
Lemma reaches_undisturbed nm p : undisturbed (reaches nm p).
Proof.
  pose proof (fun address cidr => delivered_undisturbed (K := K) p (local_node nm) address cidr) as Hd. split.
  - intros a k Ha HQ name n address cidr Hn Hu. destruct (Hd address cidr) as [Hd1 _]. apply Hd1; [done|by apply (HQ name n)].
  - intros path k HQ name n address cidr Hn Hu. destruct (Hd address cidr) as [_ Hd2]. apply Hd2. by apply (HQ name n).
Qed.

Lemma flaky_iteration nm l w :
  vxlan2_ready nm l (fl_kernel (kern w)) -> v2_link (prov w) = Some l -> outdated nm (prov w) ->
  exists w', iteration cw (steady_readings nm) w = (Ret tt, w') /\
    (prov w' = v2_set_last (version nm) (prov w) /\ reaches nm (prov w') (fl_kernel (kern w')) \/
     prov w' = prov w /\ (faults (kern w') < faults (kern w))%nat /\ vxlan2_ready nm l (fl_kernel (kern w'))).
Proof using All.
  intros Hr Hl Ho. destruct (flaky_EnsureCIDRs nm l w Hr Hl Ho) as (w1 & Hcase).
  destruct (iteration_returns cw (steady_readings nm) w) as [[w' Hit]|Hx]; [by split_and!; intros ?| |]; cycle 1.
  { exfalso. cbn [at_IsVersion at_Snapshot steady_readings] in Hx. by destruct Hcase as [[He _]|(e & He & _)]; rewrite He in Hx. }
  exists w'. split; [done|]. destruct (iteration_rest cw Hcw _ _ _ Hit) as (r & w1' & He' & _ & Hp & Hkeep).
  cbn [at_IsVersion at_Snapshot steady_readings] in He'.
  destruct Hcase as [(He & Hp1 & Hreach)|(e & He & Hp1 & Hlt & Hr1)]; rewrite He in He'; injection He' as <- <-.
  - left. split; [congruence|]. rewrite Hp. apply (Hkeep _ (flaky_undisturbed _ (reaches_undisturbed nm _)) Hreach).
  - right. split; [congruence|]. split; [by apply (Hkeep _ (faults_undisturbed _))|].
    by apply (Hkeep _ (flaky_undisturbed _ (vxlan2_ready_undisturbed nm l))).
Qed.

(** The controller's loop, with the node map as it is for some rounds. *)
Definition rounds nm (n : nat) w : World (Flaky K) Vxlan2RoutingProvider :=
  (watch_loop cw (replicate n (false, steady_readings nm)) w).2.

Lemma rounds_S nm n w w' : iteration cw (steady_readings nm) w = (Ret tt, w') -> rounds nm (S n) w = rounds nm n w'.
Proof. intros Hit. unfold rounds. cbn [replicate watch_loop]. by rewrite bind_run, Hit. Qed.

(** C4: With the vxlan provider and its device in place, transient failures of the kernel only delay
    the agent. Conditions ([vxlan2_ready]): every other node with an address and a pod CIDR has an IPv4 pod
    CIDR - one that has not would end the process -, no address is used twice among the nodes' addresses and
    those of their pod CIDRs, the kernel takes the nodes' entries and routes when it does not fail, and
    no foreign route is in their way. Then, whichever calls of its rounds are refused - listings, neighbour
    entries, deletions and additions of routes, the sleeps, the report to the API server - the
    controller's loop makes at most as many unsuccessful rounds as there are faults, in which the
    provider records nothing; the round after them records the version of the map, and then every
    such node has its neighbour entry, its forwarding entry and its route. *)
Theorem faults_only_delay nm l w :
  vxlan2_ready nm l (fl_kernel (kern w)) -> v2_link (prov w) = Some l -> outdated nm (prov w) ->
  exists n, (n <= faults (kern w))%nat /\
    (forall i, (i <= n)%nat -> prov (rounds nm i w) = prov w) /\
    prov (rounds nm (S n) w) = v2_set_last (version nm) (prov w) /\
    reaches nm (prov (rounds nm (S n) w)) (fl_kernel (kern (rounds nm (S n) w))).
Proof using All.
  remember (faults (kern w)) as c eqn:Hc. revert w Hc. induction (lt_wf c) as [c _ IH]. intros w -> Hr Hl Ho.
  destruct (flaky_iteration nm l w Hr Hl Ho) as (w' & Hit & [[Hp Hreach]|(Hp & Hlt & Hr')]).
  - exists 0%nat. split; [lia|]. rewrite (rounds_S _ _ _ _ Hit). split; [|done].
    intros i Hi. by replace i with 0%nat by lia.
  - rewrite <- Hp in Hl, Ho. destruct (IH _ Hlt w' eq_refl Hr' Hl Ho) as (n & Hn & Hidle & Hlast & Hreach).
    exists (S n). split; [lia|]. rewrite (rounds_S nm (S n) _ _ Hit), <- Hp. split; [|done].
    intros [|i] Hi; [done|]. rewrite (rounds_S nm i _ _ Hit). apply Hidle. lia.
Qed.
End Recovery.

Section Witnesses.
#[local] Existing Instance netlink_v1_1_0.
#[local] Existing Instance sample_corev1.

(** In the first round the listing of the neighbours is refused, in the second one the second of the
    neighbour entries, in the third one the route. *)
Definition sim_vexed : World (Flaky Sim) Vxlan2RoutingProvider :=
  MkWorld (MkFlaky sim_empty [Some (Errno 4); None; None; None; Some (Errno 12); None; None; None; None; Some (Errno 105)])
    [] (fun _ => in_order) sim_vxlan2.

Example sim_vexed_rounds :
  map (fun n => v2_lastVersionApplied (prov (rounds None map_ab n sim_vexed))) [0; 1; 2; 3; 4]%nat = [0; 0; 0; 0; 2].
Proof. vm_compute. reflexivity. Qed.
Lemma sim_vxlan2_ready : vxlan2_ready map_ab vxlan1 sim_empty.
Proof.
  assert (remote_ips (local_node map_ab) info_a = []) as Ha by reflexivity.
  assert (remote_nets (local_node map_ab) info_a = []) as Hna by reflexivity.
  split.
  - exact (run_wf _ _ _ (NewNodeMap_wf is_a) map_ab_run).
  - reflexivity.
  - split; eexists; reflexivity.
  - split.
    + intros x n [-> | ->]%map_ab_nodes; by_computation.
    + assert (forall n, remote_ips (local_node map_ab) info_a ## remote_ips (local_node map_ab) n /\
                        remote_nets (local_node map_ab) info_a ## remote_nets (local_node map_ab) n) as Hd.
      { intros n. rewrite Ha, Hna. by split; intros ? ?%elem_of_nil. }
      intros x y n m [-> | ->]%map_ab_nodes [-> | ->]%map_ab_nodes Hne; [done|apply Hd| |done].
      rewrite Ha, Hna. by split; intros ? _ ?%elem_of_nil.
  - intros name n a cidr [-> | ->]%map_ab_nodes Hu; vm_compute in Hu; [discriminate|]. injection Hu as <- <-.
    split_and!; [vm_compute; discriminate|exact I|vm_compute; reflexivity|by split|by intros r ?%elem_of_nil].
  - apply NoDup_nil_2.
Qed.

Lemma no_writer_files_only : files_only (K := Flaky Sim) (P := Vxlan2RoutingProvider) None.
Proof. intros writer Q podCIDR [=]. Qed.

Lemma faults_only_delay_witness :
  exists n, (n <= 3)%nat /\ prov (rounds None map_ab (S n) sim_vexed) = v2_set_last 2 sim_vxlan2 /\
    reaches map_ab (prov (rounds None map_ab (S n) sim_vexed)) (fl_kernel (kern (rounds None map_ab (S n) sim_vexed))).
Proof.
  destruct (faults_only_delay None no_writer_files_only map_ab vxlan1 sim_vexed) as (n & Hn & _ & Hp & Hreach).
  - exact sim_vxlan2_ready.
  - reflexivity.
  - left. reflexivity.
  - exists n. split; [exact Hn|]. split; [exact Hp|exact Hreach].
Defined.
End Witnesses.
