(* ===== verification/Agent.v ===== *)
(** * The agent: cmd/networking-agent

    [run] reads the options, works out which node it runs on and over which links, and builds the
    node map, the provider and the CNI writer the two controllers work with. The configuration
    file, the command line, the environment, the host name and the network interfaces are its
    inputs; sigs.k8s.io/yaml, klog and client-go are outside src/ and parameters. What follows, the
    start of the controllers and the loop over the signals, is in Process.v. *)

From Stdlib Require Import Ascii.
From S2P Require Import Prelude GoNet K8s Nodes Netlink Effects Sim Provider Layer2 Gre Vxlan2 VxlanLegacy.
From S2P Require Import Ipsec IpsecFacts IpsecDelivery Dispatch Cni.

(** ** Options: cmd/networking-agent/options.go *)

Record IPSECOptions := MkIPSECOptions {
  Authentication : string;
  Encryption : string;
  Encapsulation : string
}.

Record Options := MkOptions {
  opt_Provider : string;
  TargetLinkName : string;
  ResyncPeriod : Z;
  NodeName : string;
  MachineIDPath : string;
  SystemUUIDPath : string;
  BootIDPath : string;
  IPSEC : IPSECOptions;
  LogLevel : option Z;
  opt_PodCIDR : string;
  CNIConfigPath : string
}.

(** [&Options{}] *)
Definition zero_Options : Options :=
  MkOptions EmptyString EmptyString 0 EmptyString EmptyString EmptyString EmptyString
    (MkIPSECOptions EmptyString EmptyString EmptyString) None EmptyString EmptyString.

(** [time.Second], in nanoseconds. *)
Definition Second : Z := 1000000000.

(** [func (o *Options) InitDefaults()] *)
Definition InitDefaults (o : Options) : Options :=
  MkOptions "vxlan" EmptyString (30 * Second) (NodeName o) (MachineIDPath o) "/sys/class/dmi/id/product_uuid"
    (BootIDPath o) (MkIPSECOptions "sha1" "aes" "udp") (Some 1) "100.96.0.0/12" (CNIConfigPath o).

(** *** Flags

    Package [flag]: a flag is what [Set] does with its value to the variables [S] behind the flags;
    [None] is the error of [Set]. *)
Record Flag (S : Type) := MkFlag {
  flag_Set : string -> S -> option S;
  IsBoolFlag : bool
}.
Arguments MkFlag {S}.
Arguments flag_Set {S}.
Arguments IsBoolFlag {S}.

Definition StringVar (set : string -> Options -> Options) : Flag Options := MkFlag (fun v o => Some (set v o)) false.

(** Flags of two packages on one [FlagSet]. *)
Definition on_first {S T} (f : Flag S) : Flag (S * T) :=
  MkFlag (fun v p => s ← flag_Set f v p.1; Some (s, p.2)) (IsBoolFlag f).

Definition on_second {S T} (f : Flag T) : Flag (S * T) :=
  MkFlag (fun v p => t ← flag_Set f v p.2; Some (p.1, t)) (IsBoolFlag f).

Section Flags.
Context (ParseDuration : string -> option Z).

(** [func (options *Options) AddFlags(flags *flag.FlagSet)] *)
Definition AddFlags : list (string * Flag Options) :=
  [("sync-period", MkFlag (fun v o => d ← ParseDuration v;
      Some (MkOptions (opt_Provider o) (TargetLinkName o) d (NodeName o) (MachineIDPath o) (SystemUUIDPath o)
              (BootIDPath o) (IPSEC o) (LogLevel o) (opt_PodCIDR o) (CNIConfigPath o))) false);
   ("pod-cidr", StringVar (fun v o =>
      MkOptions (opt_Provider o) (TargetLinkName o) (ResyncPeriod o) (NodeName o) (MachineIDPath o) (SystemUUIDPath o)
        (BootIDPath o) (IPSEC o) (LogLevel o) v (CNIConfigPath o)));
   ("node-name", StringVar (fun v o =>
      MkOptions (opt_Provider o) (TargetLinkName o) (ResyncPeriod o) v (MachineIDPath o) (SystemUUIDPath o)
        (BootIDPath o) (IPSEC o) (LogLevel o) (opt_PodCIDR o) (CNIConfigPath o)));
   ("machine-id", StringVar (fun v o =>
      MkOptions (opt_Provider o) (TargetLinkName o) (ResyncPeriod o) (NodeName o) v (SystemUUIDPath o)
        (BootIDPath o) (IPSEC o) (LogLevel o) (opt_PodCIDR o) (CNIConfigPath o)));
   ("system-uuid", StringVar (fun v o =>
      MkOptions (opt_Provider o) (TargetLinkName o) (ResyncPeriod o) (NodeName o) (MachineIDPath o) v
        (BootIDPath o) (IPSEC o) (LogLevel o) (opt_PodCIDR o) (CNIConfigPath o)));
   ("boot-id", StringVar (fun v o =>
      MkOptions (opt_Provider o) (TargetLinkName o) (ResyncPeriod o) (NodeName o) (MachineIDPath o) (SystemUUIDPath o)
        v (IPSEC o) (LogLevel o) (opt_PodCIDR o) (CNIConfigPath o)));
   ("provider", StringVar (fun v o =>
      MkOptions v (TargetLinkName o) (ResyncPeriod o) (NodeName o) (MachineIDPath o) (SystemUUIDPath o)
        (BootIDPath o) (IPSEC o) (LogLevel o) (opt_PodCIDR o) (CNIConfigPath o)));
   ("target", StringVar (fun v o =>
      MkOptions (opt_Provider o) v (ResyncPeriod o) (NodeName o) (MachineIDPath o) (SystemUUIDPath o)
        (BootIDPath o) (IPSEC o) (LogLevel o) (opt_PodCIDR o) (CNIConfigPath o)));
   ("ipsec-encryption", StringVar (fun v o =>
      MkOptions (opt_Provider o) (TargetLinkName o) (ResyncPeriod o) (NodeName o) (MachineIDPath o) (SystemUUIDPath o)
        (BootIDPath o) (MkIPSECOptions (Authentication (IPSEC o)) v (Encapsulation (IPSEC o)))
        (LogLevel o) (opt_PodCIDR o) (CNIConfigPath o)));
   ("ipsec-authentication", StringVar (fun v o =>
      MkOptions (opt_Provider o) (TargetLinkName o) (ResyncPeriod o) (NodeName o) (MachineIDPath o) (SystemUUIDPath o)
        (BootIDPath o) (MkIPSECOptions v (Encryption (IPSEC o)) (Encapsulation (IPSEC o)))
        (LogLevel o) (opt_PodCIDR o) (CNIConfigPath o)));
   ("ipsec-encapsulation", StringVar (fun v o =>
      MkOptions (opt_Provider o) (TargetLinkName o) (ResyncPeriod o) (NodeName o) (MachineIDPath o) (SystemUUIDPath o)
        (BootIDPath o) (MkIPSECOptions (Authentication (IPSEC o)) (Encryption (IPSEC o)) v)
        (LogLevel o) (opt_PodCIDR o) (CNIConfigPath o)));
   ("cni-config", StringVar (fun v o =>
      MkOptions (opt_Provider o) (TargetLinkName o) (ResyncPeriod o) (NodeName o) (MachineIDPath o) (SystemUUIDPath o)
        (BootIDPath o) (IPSEC o) (LogLevel o) (opt_PodCIDR o) v))]%string.
End Flags.

(** The name and the value of an argument without its minus signs: cut at the first [=] that is not
    its first character. *)
Definition flag_parts (name : string) : string * option string :=
  match name with
  | String c rest =>
      match split_at "=" rest with
      | Some (name', value) => (String c name', Some value)
      | None => (name, None)
      end
  | EmptyString => (name, None)
  end.

(** [f.args[0]] as a flag: [None] if it is none and the flags end, [Some None] for bad syntax. *)
Definition flag_of (s : string) : option (option string) :=
  match s with
  | String "-" (String "-" EmptyString) => None
  | String "-" (String "-" name) | String "-" (String _ _ as name) =>
      match name with
      | String "-" _ | String "=" _ => Some None
      | _ => Some (Some name)
      end
  | _ => None
  end%char.

(** [func (f *FlagSet) Parse(arguments []string) error] with [flag.ExitOnError]; [None] is
    [os.Exit]. *)
Fixpoint flags_Parse {S} (formal : gmap string (Flag S)) (arguments : list string) (o : S) : option S :=
  match arguments with
  | [] => Some o
  | s :: rest =>
      match flag_of s with
      | None => Some o
      | Some None => None
      | Some (Some name) =>
          let '(name, value) := flag_parts name in
          flag ← formal !! name;
          if IsBoolFlag flag then
            o ← flag_Set flag (default "true" value) o;
            flags_Parse formal rest o
          else
            match value, rest with
            | Some v, _ => o ← flag_Set flag v o; flags_Parse formal rest o
            | None, v :: rest => o ← flag_Set flag v o; flags_Parse formal rest o
            | None, [] => None
            end
      end
  end.

(** [func (f *FlagSet) Set(name, value string) error] *)
Definition flags_Set {S} (formal : gmap string (Flag S)) (name value : string) (o : S) : option S :=
  flag ← formal !! name; flag_Set flag value o.

(** ** Starting: cmd/networking-agent/main.go *)

(** The line [run] prints first, from [networking.Version] and [networking.GitVersion]. *)
Definition banner (Version GitVersion : string) : string :=
  let gitVersion := GitVersion in
  let gitVersion :=
    if negb (String.eqb gitVersion EmptyString) then
      let gitVersion := if (6 <? String.length gitVersion)%nat then String.substring 0 6 gitVersion else gitVersion in
      "git-" +:+ gitVersion
    else gitVersion in
  "kopeio-networking " +:+ Version +:+ " " +:+ gitVersion +:+ String (Ascii.ascii_of_nat 10) EmptyString.

(** The fields of a [net.Interface] the program reads. *)
Record Interface := MkInterface { if_Name : string; if_Flags : Z }.

(** [func transform[T, V any](in []T, fn func(t T) V) []V] *)
Definition transform {T V} (l : list T) (fn : T -> V) : list V := foldl (fun out t => out ++ [fn t]) [] l.

(** [func findTargetLinks() ([]string, error)], from the result of [net.Interfaces]. *)
Definition findTargetLinks (networkInterfaces : list Interface + error) : list string + error :=
  match networkInterfaces with
  | inr e => inr (Errorf "error querying interfaces to determine primary network interface: %v" e)
  | inl networkInterfaces =>
      let candidates := foldl (fun candidates networkInterface =>
        if negb (Z.land (if_Flags networkInterface) FlagLoopback =? 0) then candidates
        else if negb (HasPrefix (if_Name networkInterface) "eth") && negb (HasPrefix (if_Name networkInterface) "en")
        then candidates
        else candidates ++ [networkInterface]) [] networkInterfaces in
      if (length candidates =? 0)%nat then inr (ErrorMsg "unable to determine interface (no interfaces found)")
      else inl (transform candidates if_Name)
  end.

Section Run.
Context {K : Type} `{Kernel K} `{NetlinkConsts}.
(** sigs.k8s.io/yaml, and the flags of klog with the variables behind them. *)
Context (yaml_Unmarshal : string -> Options -> Options + error).
Context (ParseDuration : string -> option Z).
Context {L : Type} (klog_flags : list (string * Flag L)) (klog_init : L).

(** [func (options *Options) LoadFrom(p string) error] *)
Definition LoadFrom (path : string) (options : Options) : M K unit Options :=
  r ← try (query (k_ReadFile path));
  match r with
  | inr e => if decide (e = NotExist) then fail e else fail (Errorf "error reading file %q: %v" e)
  | inl data =>
      match yaml_Unmarshal data options with
      | inr e => fail (Errorf "error parsing file %q: %v" e)
      | inl options => mret options
      end
  end.

(** [flags] after [AddFlags] and [klog.InitFlags]. *)
Definition formal_flags : gmap string (Flag (Options * L)) :=
  list_to_map ((prod_map id on_first <$> AddFlags ParseDuration) ++ (prod_map id on_second <$> klog_flags)).

(** The log level of the options becomes klog's flag -v; the result of [flags.Set] is not looked at. *)
Definition set_verbosity (options : Options) : Options * L :=
  match LogLevel options with
  | Some level => default (options, klog_init) (flags_Set formal_flags "v" (pretty level) (options, klog_init))
  | None => (options, klog_init)
  end.

(** The options, and klog's variables, after the configuration file, its log level and the command
    line [argv] ([os.Args]). *)
Definition read_options (argv : list string) : M K unit (Options * L) :=
  let options := InitDefaults zero_Options in
  r ← try (LoadFrom "/config/config.yaml" options);
  options ← match r with
            | inl options => mret options
            | inr e => if decide (e = NotExist) then mret options else fail (Errorf "error reading config file: %v" e)
            end;
  match flags_Parse formal_flags argv (set_verbosity options) with
  | None => exit
  | Some state => mret state
  end.

(** A file that identifies the machine. *)
Definition read_id (format path : string) : M K unit string :=
  b ← wrap format (query (k_ReadFile path));
  mret (TrimSpace b).

(** The matcher for the local node. *)
Definition node_matcher (NODE_NAME : string) (hostname : string + error) (options : Options) : M K unit (Node -> bool) :=
  if negb (String.eqb NODE_NAME EmptyString) then mret (fun node => String.eqb (node_Name node) NODE_NAME)
  else if negb (String.eqb (MachineIDPath options) EmptyString) then
    machineID ← read_id "error reading machine-id file %q: %v" (MachineIDPath options);
    mret (fun node => String.eqb (MachineID (Status_NodeInfo node)) machineID)
  else if negb (String.eqb (SystemUUIDPath options) EmptyString) then
    systemUUID ← read_id "error reading system-uuid file %q: %v" (SystemUUIDPath options);
    if String.eqb systemUUID "03000200-0400-0500-0006-000700080009"
    then fail (ErrorMsg "detected well-known invalid system-uuid 03000200-0400-0500-0006-000700080009")
    else mret (fun node => String.eqb (SystemUUID (Status_NodeInfo node)) systemUUID)
  else if negb (String.eqb (BootIDPath options) EmptyString) then
    bootID ← read_id "error reading boot-id file %q: %v" (BootIDPath options);
    mret (fun node => String.eqb (BootID (Status_NodeInfo node)) bootID)
  else
    let matchNodeName := NodeName options in
    matchNodeName ← (if String.eqb matchNodeName EmptyString
                     then match hostname with
                          | inl hostname => mret hostname
                          | inr e => fail (Errorf "error getting hostname: %v" e)
                          end
                     else mret matchNodeName);
    mret (fun node => String.eqb (node_Name node) matchNodeName).

(** The links packets travel over. *)
Definition target_links (networkInterfaces : list Interface + error) (options : Options) : M K unit (list string) :=
  if negb (String.eqb (TargetLinkName options) EmptyString) then mret [TargetLinkName options]
  else
    match findTargetLinks networkInterfaces with
    | inr e => fail (Errorf "unable to determine network device; pass --target to specify: %w" e)
    | inl [] => fail (ErrorMsg "unable to determine network device; pass --target to specify: %w")
    | inl links => mret links
    end.

(** The [switch]es of the case ["ipsec"]. *)
Definition encryption_of (name : string) : option EncryptionStrategy :=
  if String.eqb name "none" then Some PlaintextEncryptionStrategy
  else if String.eqb name "aes" then Some AesEncryptionStrategy else None.

Definition authentication_of (name : string) : option AuthenticationStrategy :=
  if String.eqb name "none" then Some PlaintextAuthenticationStrategy
  else if String.eqb name "sha1" then Some HmacSha1AuthenticationStrategy else None.

Definition encapsulation_of (name : string) : option EncapsulationStrategy :=
  if String.eqb name "udp" then Some UdpEncapsulationStrategy
  else if String.eqb name "esp" then Some EspEncapsulationStrategy else None.

Definition build_ipsec (options : Options) : M K unit IpsecRoutingProvider :=
  match encryption_of (Encryption (IPSEC options)) with
  | None => fail (ErrorMsg "unknown ipsec-encryption: %v")
  | Some encr =>
      match authentication_of (Authentication (IPSEC options)) with
      | None => fail (ErrorMsg "unknown ipsec-authentication: %v")
      | Some auth =>
          match encapsulation_of (Encapsulation (IPSEC options)) with
          | None => fail (ErrorMsg "unknown ipsec-encapsulation: %v")
          | Some encap =>
              p ← wrap "failed to build provider %q: %v" (NewIpsecRoutingProvider auth encr encap);
              r ← try Ipsec_Flush;
              match r with
              | inr _ => fail (ErrorMsg "cannot flush tables")
              | inl _ => mret p
              end
          end
      end
  end.

(** [switch options.Provider] *)
Definition build_provider (options : Options) (targetLinkNames : list string) : M K unit AnyProvider :=
  if String.eqb (opt_Provider options) "layer2" then
    if negb (length targetLinkNames =? 1)%nat
    then fail (ErrorMsg "expected exactly one target link with layer2; got %v")
    else
      p ← wrap "failed to build provider %q: %v" (NewLayer2RoutingProvider (default EmptyString (head targetLinkNames)));
      mret (Layer2Provider p)
  else if String.eqb (opt_Provider options) "gre" then mret (GreProvider NewGreRoutingProvider)
  else if String.eqb (opt_Provider options) "vxlan-legacy" then
    if negb (length targetLinkNames =? 1)%nat
    then fail (ErrorMsg "expected exactly one target link with layer2; got %v")
    else
      p ← wrap "failed to build provider %q: %v"
            (NewVxlanRoutingProvider (ParseCIDR (opt_PodCIDR options)) (default EmptyString (head targetLinkNames)));
      mret (VxlanLegacyProvider p)
  else if String.eqb (opt_Provider options) "vxlan" then
    p ← wrap "failed to build provider %q: %v"
          (NewVxlan2RoutingProvider (ParseCIDR (opt_PodCIDR options)) targetLinkNames);
    mret (VxlanProvider p)
  else if String.eqb (opt_Provider options) "ipsec" then
    p ← build_ipsec options;
    mret (IpsecProvider p)
  else fail (ErrorMsg "provider not known: %q").

(** [func run(ctx context.Context) error], up to the start of the two controllers: the node map, the
    provider and the CNI writer they get. [client_error] is that of [rest.InClusterConfig] or
    [kubernetes.NewForConfig]. *)
Definition run (argv : list string) (client_error : option error) (NODE_NAME : string) (hostname : string + error)
    (networkInterfaces : list Interface + error)
    : M K unit (NodeMap * AnyProvider * option SimpleConfigWriter) :=
  '(options, _) ← read_options argv;
  match client_error with
  | Some e => fail (Errorf "error building client configuration: %v" e)
  | None =>
      matcher ← node_matcher NODE_NAME hostname options;
      targetLinkNames ← target_links networkInterfaces options;
      provider ← build_provider options targetLinkNames;
      mret (NewNodeMap matcher, provider,
            if negb (String.eqb (CNIConfigPath options) EmptyString)
            then Some (MkSimpleConfigWriter (CNIConfigPath options)) else None)
  end.

(** ** What starting does *)

Definition set_Provider (v : string) (o : Options) : Options :=
  MkOptions v (TargetLinkName o) (ResyncPeriod o) (NodeName o) (MachineIDPath o) (SystemUUIDPath o)
    (BootIDPath o) (IPSEC o) (LogLevel o) (opt_PodCIDR o) (CNIConfigPath o).

Lemma flag_of_plain s : HasPrefix s "-" = false -> flag_of s = None.
Proof.
  destruct s as [|c s]; [done|]. cbn [HasPrefix]. destruct (decide (c = "-"%char)) as [->|Hc]; [by destruct s|].
  intros _. destruct c as [[] [] [] [] [] [] [] []]; done.
Qed.

Lemma provider_flag : exists f, formal_flags !! "provider"%string = Some f /\ IsBoolFlag f = false /\
  forall v o l, flag_Set f v (o, l) = Some (set_Provider v o, l).
Proof.
  unfold formal_flags. rewrite list_to_map_app.
  eexists. split; [by apply lookup_union_Some_l|]. done.
Qed.

Lemma parse_provider_flag v rest o l :
  flags_Parse formal_flags (("--provider=" +:+ v) :: rest) (o, l) = flags_Parse formal_flags rest (set_Provider v o, l).
Proof.
  destruct provider_flag as (f & Hf & Hb & Hs). cbn [flags_Parse].
  change (flag_of ("--provider=" +:+ v)) with (Some (Some ("provider=" +:+ v))). cbv beta iota.
  change (flag_parts ("provider=" +:+ v)) with ("provider"%string, Some v). cbv beta iota.
  rewrite Hf. cbn [mbind option_bind]. by rewrite Hb, Hs.
Qed.

(** [run] parses [os.Args] from the name of the program on, and the first argument that is no
    flag ends the flags: an agent started under a name that does not begin with a minus behaves, on
    every input, as if it had been given no flags at all, although each flag would be honoured by
    itself. *)
Theorem command_line_is_ignored argv0 args client_error NODE_NAME hostname ifs w :
  HasPrefix argv0 "-" = false ->
  run (argv0 :: args) client_error NODE_NAME hostname ifs w = run [] client_error NODE_NAME hostname ifs w /\
  forall v rest o l, flags_Parse formal_flags (("--provider=" +:+ v) :: rest) (o, l)
                     = flags_Parse formal_flags rest (set_Provider v o, l).
Proof.
  intros Hp. split; [|intros v rest o l; apply parse_provider_flag].
  unfold run, read_options. cbn [flags_Parse]. by rewrite (flag_of_plain _ Hp).
Qed.

(** Setting the log level is klog's business. *)
Lemma set_verbosity_options options : (set_verbosity options).1 = options.
Proof.
  unfold set_verbosity. destruct (LogLevel options) as [level|]; [|done].
  unfold flags_Set, formal_flags. rewrite list_to_map_app, lookup_union_r by reflexivity.
  destruct (list_to_map (prod_map id on_second <$> klog_flags) !! "v"%string) as [f|] eqn:Hf; [|done].
  apply elem_of_list_to_map_2, list_elem_of_fmap in Hf as ([x g] & [= _ ->] & _). cbn.
  by destruct (flag_Set g (pretty level) klog_init).
Qed.

Lemma read_options_run argv0 args w :
  HasPrefix argv0 "-" = false ->
  (read_options (argv0 :: args) w).1
  = match (k_ReadFile "/config/config.yaml" (kern w)).1 with
    | inl data => match yaml_Unmarshal data (InitDefaults zero_Options) with
                  | inl options => Ret (set_verbosity options)
                  | inr e => Err (Errorf "error reading config file: %v" (Errorf "error parsing file %q: %v" e))
                  end
    | inr e => if decide (e = NotExist) then Ret (set_verbosity (InitDefaults zero_Options))
               else Err (Errorf "error reading config file: %v" (Errorf "error reading file %q: %v" e))
    end.
Proof.
  intros Hp. unfold read_options, LoadFrom. cbv zeta. rewrite bind_run. unfold try at 1. rewrite bind_run.
  unfold try, query. destruct (k_ReadFile _ _) as [[data|e] k]; cbn [fst].
  - destruct (yaml_Unmarshal data _) as [o|e]; cbn.
    + by rewrite (flag_of_plain _ Hp).
    + done.
  - destruct (decide (e = NotExist)) as [->|He]; cbn.
    + rewrite ?decide_True by done. cbn. by rewrite (flag_of_plain _ Hp).
    + by rewrite ?decide_False by done.
Qed.

(** The options the agent runs with are those of its configuration file, the defaults where the
    file has nothing to say or is missing; a file that cannot be read or parsed is an error; the log
    level is handed to klog and changes no option. *)
Theorem configuration_file_decides argv0 args w options l w' :
  HasPrefix argv0 "-" = false ->
  read_options (argv0 :: args) w = (Ret (options, l), w') ->
  (options, l) = set_verbosity options /\
  match (k_ReadFile "/config/config.yaml" (kern w)).1 with
  | inl data => yaml_Unmarshal data (InitDefaults zero_Options) = inl options
  | inr e => e = NotExist /\ options = InitDefaults zero_Options
  end.
Proof.
  intros Hp Hr. pose proof (read_options_run argv0 args w Hp) as Hd. rewrite Hr in Hd. cbn [fst] in Hd.
  assert (forall o, Ret (options, l) = Ret (set_verbosity o) -> (options, l) = set_verbosity options /\ o = options) as Hv.
  { intros o [= Ho]. pose proof (set_verbosity_options o) as Hx. rewrite <- Ho in Hx. simpl in Hx. subst o. done. }
  destruct (k_ReadFile _ _) as [[data|e] k]; cbn [fst] in *.
  - destruct (yaml_Unmarshal _ _) as [o|e]; [|done]. apply Hv in Hd as [? ->]. done.
  - destruct (decide (e = NotExist)) as [->|He]; [|done]. apply Hv in Hd as [? <-]. done.
Qed.

(** *** Links *)

(** An interface that is no loopback and looks like an ethernet device. *)
Definition ethernet (i : Interface) : bool :=
  (Z.land (if_Flags i) FlagLoopback =? 0) && (HasPrefix (if_Name i) "eth" || HasPrefix (if_Name i) "en").

Lemma transform_fmap {T V} (l : list T) (fn : T -> V) : transform l fn = fn <$> l.
Proof.
  unfold transform. induction l as [|t l IH] using rev_ind; [done|]. by rewrite foldl_app, fmap_app, IH.
Qed.

Lemma findTargetLinks_eq ifs :
  findTargetLinks (inl ifs)
  = match filter (fun i => ethernet i) ifs with
    | [] => inr (ErrorMsg "unable to determine interface (no interfaces found)")
    | l => inl (if_Name <$> l)
    end.
Proof.
  unfold findTargetLinks.
  assert (foldl (fun candidates i => if negb (Z.land (if_Flags i) FlagLoopback =? 0) then candidates
            else if negb (HasPrefix (if_Name i) "eth") && negb (HasPrefix (if_Name i) "en") then candidates
            else candidates ++ [i]) [] ifs = filter (fun i => ethernet i) ifs) as ->.
  { induction ifs as [|i ifs IH] using rev_ind; [done|]. rewrite foldl_app, IH, (filter_snoc_bool ethernet).
    unfold ethernet. cbn [foldl]. destruct (_ =? 0), (HasPrefix _ "eth"), (HasPrefix _ "en"); cbn; by rewrite ?app_nil_r. }
  cbv zeta. rewrite transform_fmap. by destruct (filter _ ifs).
Qed.

(** The search for links to use returns the names of the ethernet-like interfaces other than
    loopbacks, all of them and in their order, and fails exactly when there is none or they cannot be
    listed; a run never goes on with an empty list of links. *)
Theorem findTargetLinks_ethernet ifs :
  findTargetLinks (inl ifs)
  = match filter (fun i => ethernet i) ifs with
    | [] => inr (ErrorMsg "unable to determine interface (no interfaces found)")
    | l => inl (if_Name <$> l)
    end /\
  (forall r options w links w', target_links r options w = (Ret links, w') -> links ≠ []).
Proof.
  split; [apply findTargetLinks_eq|].
  intros r options w links w'. unfold target_links. destruct (negb _); [by intros [= <- _]|].
  destruct (findTargetLinks r) as [[|x l]|e]; [done| |done]. by intros [= <- _].
Qed.

(** Without a configuration file the agent is the vxlan one: on a machine with ethernet links, with
    its node's name in the environment, it builds the vxlan2 provider for these links over
    100.96.0.0/12, matches its node by that name, and writes no CNI configuration. *)
Theorem agent_defaults argv0 args NODE_NAME hostname ifs w k :
  HasPrefix argv0 "-" = false -> k_ReadFile "/config/config.yaml" (kern w) = (inr NotExist, k) ->
  NODE_NAME ≠ EmptyString -> filter (fun i => ethernet i) ifs ≠ [] ->
  run (argv0 :: args) None NODE_NAME hostname (inl ifs) w
  = (p ← wrap "failed to build provider %q: %v"
           (NewVxlan2RoutingProvider (Some (MkIPNet (Some [x64; x60; x00; x00]) (IPv4Mask xff xf0 x00 x00)))
              (if_Name <$> filter (fun i => ethernet i) ifs));
     mret (NewNodeMap (fun node => String.eqb (node_Name node) NODE_NAME), VxlanProvider p, None))
      (after w (sched w) [] k).
Proof.
  intros Hp Hf Hn Hl. unfold run. rewrite bind_run. unfold read_options. cbv zeta. rewrite bind_run.
  assert (try (LoadFrom "/config/config.yaml" (InitDefaults zero_Options)) w = (Ret (inr NotExist), after w (sched w) [] k)) as ->.
  { unfold try at 1, LoadFrom. rewrite bind_run. unfold try, query, after. rewrite Hf, app_nil_r. by rewrite decide_True. }
  cbv beta iota. rewrite decide_True, bind_ret by done. cbn [flags_Parse]. rewrite (flag_of_plain _ Hp).
  destruct (set_verbosity (InitDefaults zero_Options)) as [o l'] eqn:Ho.
  pose proof (set_verbosity_options (InitDefaults zero_Options)) as Hv. rewrite Ho in Hv. simpl in Hv. subst o.
  unfold mret at 1, M_ret at 1. cbv beta iota. rewrite bind_run. unfold node_matcher.
  rewrite (proj2 (String.eqb_neq _ _) Hn). cbn [negb]. unfold mret at 1, M_ret at 1. cbv beta iota.
  rewrite bind_run. unfold target_links. cbn [InitDefaults zero_Options TargetLinkName String.eqb negb].
  rewrite findTargetLinks_eq. destruct (filter (fun i => ethernet i) ifs) as [|i l]; [done|].
  cbn [fmap list_fmap]. unfold mret at 1, M_ret at 1. cbv beta iota.
  unfold build_provider. cbn [InitDefaults zero_Options opt_Provider opt_PodCIDR CNIConfigPath].
  assert (ParseCIDR "100.96.0.0/12" = Some (MkIPNet (Some [x64; x60; x00; x00]) (IPv4Mask xff xf0 x00 x00))) as ->
    by (vm_compute; reflexivity).
  cbn [String.eqb Ascii.eqb Bool.eqb negb]. rewrite !bind_run.
  by destruct (wrap _ _ _) as [[p|e|] w'].
Qed.
End Run.

Section Witnesses.
#[local] Existing Instance netlink_v1_1_0.

Definition no_yaml (_ : string) (o : Options) : Options + error := inl o.

Definition no_duration (_ : string) : option Z := None.

(** The flag -v of klog, with the text it was given last. *)
Definition klog_v : list (string * Flag string) := [("v"%string, MkFlag (fun v _ => Some v) false)].

Lemma command_line_is_ignored_witness :
  run no_yaml no_duration klog_v EmptyString ["/usr/bin/networking-agent"; "--provider=gre"] None "a" (inl "host") (inl [MkInterface "eth0" 1])
    (sim_world sim_empty tt)
  = run no_yaml no_duration klog_v EmptyString [] None "a" (inl "host") (inl [MkInterface "eth0" 1]) (sim_world sim_empty tt).
Proof.
  destruct (command_line_is_ignored no_yaml no_duration klog_v EmptyString "/usr/bin/networking-agent" ["--provider=gre"%string] None "a" (inl "host"%string)
              (inl [MkInterface "eth0" 1]) (sim_world sim_empty tt) eq_refl) as [Hr _]. exact Hr.
Defined.

(** A configuration file with a provider and a log level. *)
Definition gre_yaml (data : string) (o : Options) : Options + error :=
  inl (set_Provider data (MkOptions (opt_Provider o) (TargetLinkName o) (ResyncPeriod o) (NodeName o) (MachineIDPath o)
         (SystemUUIDPath o) (BootIDPath o) (IPSEC o) (Some 4) (opt_PodCIDR o) (CNIConfigPath o))).

Definition sim_config : Sim := set_files [("/config/config.yaml", "gre")]%string sim_empty.

Definition gre_options : Options :=
  MkOptions "gre" EmptyString (30 * Second) EmptyString EmptyString "/sys/class/dmi/id/product_uuid"
    EmptyString (MkIPSECOptions "sha1" "aes" "udp") (Some 4) "100.96.0.0/12" EmptyString.

Lemma configuration_file_decides_witness :
  (gre_options, "4"%string) = set_verbosity no_duration klog_v EmptyString gre_options /\
  gre_yaml "gre" (InitDefaults zero_Options) = inl gre_options.
Proof.
  destruct (configuration_file_decides gre_yaml no_duration klog_v EmptyString "/usr/bin/networking-agent" []
              (sim_world sim_config tt) gre_options "4" (sim_world sim_config tt) eq_refl) as [Hl Ho].
  { vm_compute. reflexivity. }
  split; [exact Hl|].
  assert ((k_ReadFile "/config/config.yaml" (kern (sim_world sim_config tt))).1 = inl "gre"%string) as Hf by (vm_compute; reflexivity).
  rewrite Hf in Ho. exact Ho.
Defined.

Lemma findTargetLinks_ethernet_witness :
  findTargetLinks (inl [MkInterface "lo" 5; MkInterface "eth0" 1; MkInterface "docker0" 1; MkInterface "enp3s0" 1])
  = inl ["eth0"; "enp3s0"]%string.
Proof.
  rewrite (proj1 (findTargetLinks_ethernet (K := Sim)
             [MkInterface "lo" 5; MkInterface "eth0" 1; MkInterface "docker0" 1; MkInterface "enp3s0" 1])).
  vm_compute. reflexivity.
Defined.

Lemma agent_defaults_witness :
  let w := sim_world (set_links [eth0] sim_empty) tt in
  exists w', run no_yaml no_duration klog_v EmptyString ["/usr/bin/networking-agent"] None "a" (inl "host"%string)
               (inl [MkInterface "lo" 5; MkInterface "eth0" 1]) w
    = (Ret (NewNodeMap (fun node => String.eqb (node_Name node) "a"),
            VxlanProvider (MkVxlan2 (ParseCIDR "100.96.0.0/12") 1 0 4789 1400 None 0), None), w').
Proof.
  intros w.
  pose proof (agent_defaults no_yaml no_duration klog_v EmptyString "/usr/bin/networking-agent" [] "a" (inl "host"%string)
                [MkInterface "lo" 5; MkInterface "eth0" 1] w (set_links [eth0] sim_empty) eq_refl eq_refl
                ltac:(discriminate) ltac:(vm_compute; discriminate)) as Hr.
  rewrite Hr. eexists. vm_compute. reflexivity.
Defined.
End Witnesses.
