(* ===== verification/Process.v ===== *)
(** * The process of the agent: the rest of cmd/networking-agent/main.go

    [main] calls [run], which builds the node map, the provider and the CNI writer (Agent.v), makes
    the two controllers and starts them as goroutines, and then waits for signals until it exits.
    [pstep] is the life of that process: its start, the loop over the signals, and the steps of the
    two goroutines, which are those of [System], in any interleaving. *)

From S2P Require Import Prelude GoNet K8s Nodes NodesFacts NodeMapSpec Netlink Effects Tables Reconcile KernelLaws Sim.
From S2P Require Import Provider Layer2 Gre Vxlan2 VxlanLegacy Delivery Ipsec IpsecFacts IpsecDelivery Dispatch Cni.
From S2P Require Import RouteTable XfrmTables EspListener Controller ControllerFacts NodeController System SystemFacts SystemProperties Races Agent.

(** ** The controllers *)

(** The client of client-go has no part of the agent's state; the two controllers share the map. *)
Record NodeController := MkNodeController { nc_nodeMap : NodeMap }.

(** [func NewNodeController(kubeClient, nodeMap) ( *NodeController, error)] *)
Definition NewNodeController (nodeMap : NodeMap) : NodeController + error := inl (MkNodeController nodeMap).

Record RoutingController (P : Type) := MkRoutingController {
  rc_nodeMap : NodeMap;
  rc_provider : P;
  rc_cniConfigWriter : option SimpleConfigWriter
}.
Arguments MkRoutingController {P}.
Arguments rc_nodeMap {P}.
Arguments rc_provider {P}.
Arguments rc_cniConfigWriter {P}.

(** [func NewController(kubeClient, nodeMap, provider, cniConfigWriter) ( *Controller, error)] *)
Definition NewController {P} (nodeMap : NodeMap) (provider : P) (cniConfigWriter : option SimpleConfigWriter)
    : RoutingController P + error := inl (MkRoutingController nodeMap provider cniConfigWriter).

(** ** What [run] returns *)

Section Returns.
Context {K P : Type}.

(** The values a run can return. *)
Definition returns {A} (Q : A -> Prop) (x : M K P A) : Prop := forall w a w', x w = (Ret a, w') -> Q a.

Lemma returns_bind {A B} (Q : B -> Prop) (x : M K P A) (f : A -> M K P B) :
  (forall a, returns Q (f a)) -> returns Q (x ≫= f).
Proof. intros Hf w b w' (a & w1 & _ & Hb)%bind_Ret_inv. by eapply Hf. Qed.

Lemma returns_bind_via {A B} (R : A -> Prop) (Q : B -> Prop) (x : M K P A) (f : A -> M K P B) :
  returns R x -> (forall a, R a -> returns Q (f a)) -> returns Q (x ≫= f).
Proof. intros Hx Hf w b w' (a & w1 & Ha & Hb)%bind_Ret_inv. eapply Hf; [|exact Hb]. by eapply Hx. Qed.

Lemma returns_ret {A} (Q : A -> Prop) (a : A) : Q a -> returns Q (mret a : M K P A).
Proof. by intros HQ w b w' [= <- _]. Qed.

Lemma returns_fail {A} (Q : A -> Prop) e : returns Q (@fail K P A e).
Proof. by intros w a w'. Qed.

Lemma returns_wrap {A} (Q : A -> Prop) fmt (x : M K P A) : returns Q x -> returns Q (wrap fmt x).
Proof. intros Hx w a w' Hr%wrap_Ret_inv. by eapply Hx. Qed.
End Returns.

#[export] Hint Resolve returns_ret returns_fail : net.

Ltac returns_steps :=
  repeat first [ solve [auto with net] | apply returns_bind; intros ? | apply returns_wrap | case_match ].

(** Runs that do not end the process. *)

Section NoExit.
Context {K P : Type} `{Kernel K}.

Definition no_exit {A} (x : M K P A) : Prop := forall w, (x w).1 ≠ Exit.

Lemma no_exit_ret {A} (a : A) : no_exit (mret a).
Proof. by intros w. Qed.

Lemma no_exit_fail {A} e : no_exit (@fail K P A e).
Proof. by intros w. Qed.

Lemma no_exit_bind {A B} (x : M K P A) (f : A -> M K P B) : no_exit x -> (forall a, no_exit (f a)) -> no_exit (x ≫= f).
Proof. intros Hx Hf w. rewrite bind_run. specialize (Hx w). destruct (x w) as [[a|e|] w1]; [apply Hf|done|done]. Qed.

Lemma no_exit_wrap {A} fmt (x : M K P A) : no_exit x -> no_exit (wrap fmt x).
Proof. intros Hx w. specialize (Hx w). unfold wrap. by destruct (x w) as [[] ?]. Qed.

Lemma no_exit_try {A} (x : M K P A) : no_exit x -> no_exit (try x).
Proof. intros Hx w. specialize (Hx w). unfold try. by destruct (x w) as [[] ?]. Qed.

Lemma no_exit_query {A} (q : K -> (A + error) * K) : no_exit (query q).
Proof. intros w. unfold query. by destruct (q (kern w)) as [[] ?]. Qed.

Lemma no_exit_call a : no_exit (call a).
Proof. intros w. unfold call. by destruct (exec a (kern w)) as [[] ?]. Qed.

Lemma no_exit_each {A} (g : A -> M K P unit) l : (forall a, no_exit (g a)) -> no_exit (each g l).
Proof. intros Hg. induction l as [|a l IH]; [apply no_exit_ret|]. by apply no_exit_bind. Qed.

Lemma bind_exits {A B} (x : M K P A) (f : A -> M K P B) w :
  ((x ≫= f) w).1 = Exit -> (forall a, no_exit (f a)) -> (x w).1 = Exit.
Proof. rewrite bind_run. intros Hx Hf. destruct (x w) as [[a|e|] w1]; [by destruct (Hf a w1)|done|done]. Qed.
End NoExit.

#[export] Hint Resolve no_exit_ret no_exit_fail no_exit_query no_exit_call : net.

Ltac no_exit_steps :=
  repeat first [ solve [auto with net] | apply no_exit_bind; [|intros ?] | apply no_exit_wrap | apply no_exit_try
               | apply no_exit_each; intros ? | case_match ].

Section Run.
Context {K : Type} `{Kernel K} `{NetlinkConsts} {P : Type}.

(** Every provider starts out with no version applied. *)
Lemma NewLayer2_fresh name : returns (K := K) (P := P) (fun p => l2_lastVersionApplied p = 0) (NewLayer2RoutingProvider name).
Proof. unfold NewLayer2RoutingProvider. returns_steps. Qed.

Lemma NewVxlan_fresh cidr name :
  returns (K := K) (P := P) (fun p => vx_lastVersionApplied p = 0) (NewVxlanRoutingProvider cidr name).
Proof. unfold NewVxlanRoutingProvider. returns_steps. Qed.

Lemma NewVxlan2_fresh cidr names :
  returns (K := K) (P := P) (fun p => v2_lastVersionApplied p = 0) (NewVxlan2RoutingProvider cidr names).
Proof. unfold NewVxlan2RoutingProvider. returns_steps. Qed.

Lemma NewIpsec_fresh auth encr encap :
  returns (K := K) (P := P) (fun p => ip_lastVersionApplied p = 0) (NewIpsecRoutingProvider auth encr encap).
Proof. unfold NewIpsecRoutingProvider. returns_steps. Qed.
End Run.

(** What a provider is called on the command line. *)
Definition provider_name (p : AnyProvider) : string :=
  match p with
  | Layer2Provider _ => "layer2"
  | GreProvider _ => "gre"
  | VxlanLegacyProvider _ => "vxlan-legacy"
  | VxlanProvider _ => "vxlan"
  | IpsecProvider _ => "ipsec"
  end.

Section Main.
Context {K : Type} `{Kernel K} `{NetlinkConsts} `{CoreV1} `{WatchConsts}.
Context (yaml_Unmarshal : string -> Options -> Options + error) (ParseDuration : string -> option Z).
Context {L : Type} (klog_flags : list (string * Flag L)) (klog_init : L).

Lemma build_provider_fresh options links :
  returns (K := K) (fun p => any_lastVersionApplied p = 0 /\ provider_name p = opt_Provider options)
    (build_provider options links).
Proof.
  unfold build_provider.
  destruct (String.eqb_spec (opt_Provider options) "layer2") as [->|_].
  { case_match; [apply returns_fail|]. eapply returns_bind_via; [apply returns_wrap, NewLayer2_fresh|]. intros p Hp. by apply returns_ret. }
  destruct (String.eqb_spec (opt_Provider options) "gre") as [->|_]; [by apply returns_ret|].
  destruct (String.eqb_spec (opt_Provider options) "vxlan-legacy") as [->|_].
  { case_match; [apply returns_fail|]. eapply returns_bind_via; [apply returns_wrap, NewVxlan_fresh|]. intros p Hp. by apply returns_ret. }
  destruct (String.eqb_spec (opt_Provider options) "vxlan") as [->|_].
  { eapply returns_bind_via; [apply returns_wrap, NewVxlan2_fresh|]. intros p Hp. by apply returns_ret. }
  destruct (String.eqb_spec (opt_Provider options) "ipsec") as [->|_]; [|apply returns_fail].
  eapply (returns_bind_via (fun p => ip_lastVersionApplied p = 0)); [|intros p Hp; by apply returns_ret].
  unfold build_ipsec. case_match; [|apply returns_fail]. case_match; [|apply returns_fail]. case_match; [|apply returns_fail].
  eapply returns_bind_via; [apply returns_wrap, NewIpsec_fresh|]. intros p Hp. apply returns_bind. intros [?|?].
  - by apply returns_ret.
  - apply returns_fail.
Qed.

(** The inputs of the process: its arguments, the error of client-go, the environment, the host
    name and the network interfaces. *)
Record inputs := MkInputs {
  in_args : list string;
  in_client : option error;
  in_NODE_NAME : string;
  in_hostname : string + error;
  in_interfaces : list Interface + error
}.

Definition run_inputs (i : inputs) : M K unit (NodeMap * AnyProvider * option SimpleConfigWriter) :=
  run yaml_Unmarshal ParseDuration klog_flags klog_init (in_args i) (in_client i) (in_NODE_NAME i) (in_hostname i) (in_interfaces i).

(** What the agent starts out with: an empty map, and a provider that has applied nothing. *)
Lemma run_fresh i :
  returns (fun r => (exists matcher, r.1.1 = NewNodeMap matcher) /\ any_lastVersionApplied r.1.2 = 0) (run_inputs i).
Proof.
  unfold run_inputs, run. apply returns_bind. intros [options l]. case_match; [apply returns_fail|].
  apply returns_bind. intros matcher. apply returns_bind. intros links.
  eapply returns_bind_via; [apply build_provider_fresh|]. intros p [Hp _]. apply returns_ret. split; [by eexists|done].
Qed.

(** The end of [run] before its loop: the two controllers, which get the same node map. *)
Definition make_controllers (r : NodeMap * AnyProvider * option SimpleConfigWriter)
    : M K unit (NodeController * RoutingController AnyProvider) :=
  let '(nodeMap, provider, cniWriter) := r in
  match NewNodeController nodeMap with
  | inr e => fail (Errorf "Failed to build node controller: %v" e)
  | inl c =>
      match NewController nodeMap provider cniWriter with
      | inr e => fail (Errorf "Failed to build routing controller: %v" e)
      | inl rc => mret (c, rc)
      end
  end.

(** [func run(ctx context.Context) error] up to its loop over the signals. *)
Definition run_controllers (i : inputs) : M K unit (NodeController * RoutingController AnyProvider) :=
  r ← run_inputs i; make_controllers r.

(** [func main()] up to there; [klog.Fatalf] ends the process on an error of [run]. *)
Definition agent_main (i : inputs) : M K unit (NodeController * RoutingController AnyProvider) :=
  r ← try (run_controllers i);
  match r with
  | inl controllers => mret controllers
  | inr _ => exit
  end.

(** *** What can end the process before the loop

    An error of [run], and the command line: its flags do not parse, or ask for help. *)

Lemma minMTU_no_exit {P} names : forall m, no_exit (K := K) (P := P) (minMTU_loop names m).
Proof. induction names as [|name names IH]; intros m; cbn [minMTU_loop]; no_exit_steps. Qed.

Lemma build_provider_no_exit options links : no_exit (K := K) (build_provider options links).
Proof.
  unfold build_provider, build_ipsec, NewLayer2RoutingProvider, NewVxlanRoutingProvider, NewVxlan2RoutingProvider,
    NewIpsecRoutingProvider, Ipsec_Flush, XfrmPolicyTable_Flush, XfrmStateTable_Flush, doModprobe, NewUDPEncapListener.
  pose proof (@minMTU_no_exit unit). no_exit_steps.
Qed.

Lemma run_exits i w :
  (run_controllers i w).1 = Exit ->
  exists options, flags_Parse (formal_flags ParseDuration klog_flags) (in_args i) (set_verbosity ParseDuration klog_flags klog_init options) = None.
Proof.
  unfold run_controllers, run_inputs, run. intros Hx. apply bind_exits in Hx; [|intros [[m p] cni]; apply no_exit_ret].
  apply bind_exits in Hx; cycle 1.
  { intros [options l]. pose proof (build_provider_no_exit options). unfold node_matcher, read_id, target_links. no_exit_steps. }
  unfold read_options in Hx. rewrite bind_run in Hx.
  assert (no_exit (try (LoadFrom yaml_Unmarshal "/config/config.yaml" (InitDefaults zero_Options)))) as Hload
    by (unfold LoadFrom; no_exit_steps).
  specialize (Hload w). destruct (try _ w) as [[[o|e]|e|] w1]; [| |done|done]; rewrite bind_run in Hx.
  - exists o. cbn [mret M_ret] in Hx. destruct (flags_Parse _ _ _); [discriminate Hx|done].
  - exists (InitDefaults zero_Options). destruct (decide (e = NotExist)); [|discriminate Hx]. cbn [mret M_ret] in Hx.
    destruct (flags_Parse _ _ _); [discriminate Hx|done].
Qed.

(** ** The life of the process *)

(** [syscall.SIGINT], [SIGQUIT] and [SIGTERM], which [signal.Notify] asks for. *)
Definition notified (sig : Z) : bool := (sig =? 2) || (sig =? 3) || (sig =? 15).

Inductive process :=
| Starting (w : World K unit)
(** Both controllers run. [canceled] tells whether [cancel] was called, [signals] is the
    buffer of the channel, which holds one signal. *)
| Running (cw : option (ConfigWriter K AnyProvider)) (canceled : bool) (signals : option Z) (s : system K AnyProvider)
| Exited (code : Z).

Inductive label :=
| Main
| Signal (sig : Z)
| Work (n : Z).

(** The goroutines when they start. *)
Definition goroutines (api : gmap string Node) (c : NodeController) (rc : RoutingController AnyProvider) (w : World K unit)
    : system K AnyProvider :=
  MkSystem api [] Idle (nc_nodeMap c) [] false [] (MkWorld (kern w) (trace w) (sched w) (rc_provider rc)).

Inductive pstep (i : inputs) : process -> label -> process -> Prop :=
| run_starts api c rc w w' :
    api_wf api -> agent_main i w = (Ret (c, rc), w') ->
    pstep i (Starting w) Main
      (Running (simple_ConfigWriter <$> rc_cniConfigWriter rc) false None (goroutines api c rc w'))
(** [klog.Fatalf] ends the process with another code than 0; with [flag.ExitOnError] the command line
    can end it with code 0 also, when it asks for help. *)
| run_fails w w' code :
    agent_main i w = (Exit, w') -> (code = 0 -> (run_controllers i w).1 = Exit) -> pstep i (Starting w) Main (Exited code)
(** Before [signal.Notify] a signal ends the process. *)
| signal_kills w sig code : code ≠ 0 -> pstep i (Starting w) (Signal sig) (Exited code)
(** A signal that finds the channel full is dropped. *)
| signal_arrives cw canceled signals s sig :
    notified sig = true ->
    pstep i (Running cw canceled signals s) (Signal sig) (Running cw canceled (Some (default sig signals)) s)
(** The [select]: when both of its cases are ready it takes any of them. *)
| select_signal cw canceled sig s :
    pstep i (Running cw canceled (Some sig) s) Main (Running cw true None s)
| select_done cw signals s :
    pstep i (Running cw true signals s) Main (Exited 0)
(** The goroutines go on until the process is gone. A [klog.Fatalf] or a panic in one of them ends
    it too. *)
| goroutines_work cw canceled signals s n s' :
    step cw s n s' -> pstep i (Running cw canceled signals s) (Work n) (Running cw canceled signals s')
| controller_crashes cw canceled signals s v w' code :
    round_readings (s_reads s) = Some v -> iteration cw v (s_world s) = (Exit, w') -> code ≠ 0 ->
    pstep i (Running cw canceled signals s) (Work 0) (Exited code)
| watcher_crashes cw canceled signals s r w' code :
    s_watcher s = Watching -> s_done s = [] -> receive [r] (watcher_world (s_world s) (s_map s)) = (Exit, w') -> code ≠ 0 ->
    pstep i (Running cw canceled signals s) (Work 0) (Exited code).

Inductive psteps (i : inputs) (p : process) : list label -> process -> Prop :=
| psteps_refl : psteps i p [] p
| psteps_step ls p1 l p2 : psteps i p ls p1 -> pstep i p1 l p2 -> psteps i p (ls ++ [l]) p2.

(** How often the version of the map can have been incremented. *)
Definition cost (ls : list label) : Z :=
  foldr (fun l n => match l with Work d => d + n | _ => n end) 0 ls.

Definition is_signal (l : label) : bool := match l with Signal _ => true | _ => false end.

Definition is_main (l : label) : bool := match l with Main => true | _ => false end.

Definition count (f : label -> bool) (ls : list label) : nat := length (filter (fun l => f l) ls).

Lemma cost_snoc ls l : cost (ls ++ [l]) = cost ls + match l with Work d => d | _ => 0 end.
Proof. induction ls as [|x ls IH]; simpl; [destruct l; lia|]. destruct x; rewrite IH; lia. Qed.

Lemma count_snoc f ls l : count f (ls ++ [l]) = (count f ls + if f l then 1 else 0)%nat.
Proof. unfold count. rewrite (filter_snoc_bool f), length_app. destruct (f l); simpl; lia. Qed.

(** *** The goroutines are a system *)

Lemma run_system i api c rc w w' :
  api_wf api -> agent_main i w = (Ret (c, rc), w') -> initial (goroutines api c rc w').
Proof.
  intros Hapi Hmain. assert (run_controllers i w = (Ret (c, rc), w')) as Hrun.
  { unfold agent_main in Hmain. rewrite bind_run in Hmain. unfold try in Hmain.
    destruct (run_controllers i w) as [[cs|e|] w1]; [|done..]. by injection Hmain as <- <-. }
  apply bind_Ret_inv in Hrun as ([[m p] cni] & w1 & Hr & Hm). injection Hm as <- <- <-.
  destruct (run_fresh i w _ w1 Hr) as [[matcher Hn] Hp]. simpl in Hn, Hp. subst m.
  eexists api, matcher, _. split; [reflexivity|]. by split.
Qed.

Lemma process_is_system i w ls p :
  psteps i (Starting w) ls p ->
  match p with
  | Running cw _ _ s => reachable cw (cost ls) s /\ files_only cw
  | Starting w' => ls = [] /\ w' = w
  | Exited _ => True
  end.
Proof.
  induction 1 as [|ls p1 l p2 _ IH Hs]; [done|].
  destruct Hs as [api c rc w1 w' Hapi Hr| | |cw ca b s sig Hn|cw ca sig s|cw b s|cw ca b s n s' Hst| |]; try done; rewrite cost_snoc.
  - destruct IH as [-> ->]. split.
    + eexists. split; [by eapply run_system|]. apply steps_refl.
    + destruct (rc_cniConfigWriter rc); [apply simple_files_only|]. by intros ????.
  - by rewrite Z.add_0_r.
  - by rewrite Z.add_0_r.
  - destruct IH as [(s0 & Hi & Hs0) Hf]. split; [|done]. exists s0. split; [done|]. by eapply steps_step.
Qed.
(** *** Signals *)

Lemma stop_was_asked_for i w ls p :
  psteps i (Starting w) ls p ->
  match p with
  | Starting _ => True
  | Running _ canceled signals _ => canceled = true \/ is_Some signals -> exists sig, Signal sig ∈ ls /\ notified sig = true
  | Exited code => code = 0 -> (exists sig, Signal sig ∈ ls /\ notified sig = true) \/ (run_controllers i w).1 = Exit
  end.
Proof.
  intros Hp. induction Hp as [|ls' p1 l p2 Hps IH Hs]; [done|].
  assert ((exists sig, Signal sig ∈ ls' /\ notified sig = true) ->
          exists sig, Signal sig ∈ ls' ++ [l] /\ notified sig = true) as Hmore.
  { intros (sig & Hin & Hn). exists sig. split; [|done]. apply elem_of_app. by left. }
  destruct Hs as [|w1 w' code Hm Hc| |cw ca b s sig Hn|cw ca sig s|cw b s|cw ca b s n s' Hst| |]; try done.
  - by intros [?|[? ?]].
  - intros Hz. right. apply process_is_system in Hps as [_ ->]. by apply Hc.
  - intros _. exists sig. split; [|done]. apply elem_of_app. right. by left.
  - intros _. apply Hmore, IH. eauto.
  - intros _. left. apply Hmore, IH. eauto.
  - intros Hc. by apply Hmore, IH.
Qed.

(** The process ends with code 0 only after one of the signals it asked for, or when its command line
    asks for that: neither an error nor the end of a watch nor a cancelled context of another origin
    makes it stop quietly. *)
Theorem exits_quietly_only_on_a_signal i w ls :
  psteps i (Starting w) ls (Exited 0) ->
  (exists sig, Signal sig ∈ ls /\ notified sig = true) \/
  exists options, flags_Parse (formal_flags ParseDuration klog_flags) (in_args i) (set_verbosity ParseDuration klog_flags klog_init options) = None.
Proof. intros Hp. destruct (stop_was_asked_for i w ls _ Hp eq_refl) as [?|Hx]; [by left|right; by eapply run_exits]. Qed.

(** C27: From the moment a signal is in the channel, or [cancel] was called, the loop of [run] cannot
    go on for ever: its [select] is ready at every moment until the process ends, each round of it
    that does not end the process takes a signal from the channel, so that there is at most one
    round more than further signals; and the round that finds the context done ends it with code
    0. The goroutines may do what they like in between. *)
Theorem signals_end_the_process i cw canceled signals s ls p :
  canceled = true \/ is_Some signals ->
  psteps i (Running cw canceled signals s) ls p ->
  match p with
  | Starting _ => False
  | Running cw' canceled' signals' s' =>
      (count is_main ls <= count is_signal ls + 1)%nat /\
      (exists p', pstep i p Main p') /\
      forall p', pstep i p Main p' ->
        canceled' = true /\ p' = Exited 0 \/ is_Some signals' /\ p' = Running cw' true None s'
  | Exited _ => True
  end.
Proof.
  intros Hstop Hs.
  assert (match p with
          | Starting _ => False
          | Running _ canceled' signals' _ =>
              (canceled' = true \/ is_Some signals') /\
              (count is_main ls + match signals' with Some _ => 1 | None => 0 end <= count is_signal ls + 1)%nat
          | Exited _ => True
          end) as Hinv.
  { induction Hs as [|ls' p1 l p2 _ IH Hl]; [split; [done|]; by destruct signals; simpl; lia|].
    destruct Hl as [| | |cw2 ca b s2 sig Hn|cw2 ca sig s2|cw2 b s2|cw2 ca b s2 n s' Hst| |]; try done;
      rewrite !count_snoc; simpl.
    - split; [by eauto|]. destruct IH as [_ IH]. destruct b; lia.
    - split; [by left|]. destruct IH as [_ IH]. lia.
    - destruct IH as [IHs IH]. split; [done|]. destruct b; lia. }
  destruct p as [|cw' canceled' signals' s'|]; [done| |done]. destruct Hinv as [Hc Hle].
  split; [destruct signals'; lia|]. split.
  - destruct signals' as [sig|]; [eexists; apply select_signal|]. destruct Hc as [->|[? ?]]; [|done].
    eexists. apply select_done.
  - intros p' Hm. inversion Hm; subst; eauto.
Qed.

(** ** Crashes *)

Lemma receive_Exit r (w : World K NodeMap) w' :
  receive [r] w = (Exit, w') ->
  exists e node, r = result_event e /\ event_Object e = Some node /\
    event_Type e ∉ [watch_Added; watch_Modified; watch_Deleted; watch_Bookmark; watch_Error].
Proof.
  destruct r as [| |e]; [done..|]. cbn [receive].
  destruct (bool_decide (event_Type e = watch_Error)) eqn:He; [done|].
  destruct (bool_decide (event_Type e = watch_Bookmark)) eqn:Hb; [done|].
  destruct (event_Object e) as [node|] eqn:Ho; [|done].
  destruct (bool_decide (event_Type e = watch_Added)) eqn:Ha; [done|].
  destruct (bool_decide (event_Type e = watch_Modified)) eqn:Hm; [done|].
  destruct (bool_decide (event_Type e = watch_Deleted)) eqn:Hd; [done|]. intros _. exists e, node.
  rewrite bool_decide_eq_false in *. split; [done|]. split; [done|]. rewrite !elem_of_cons, elem_of_nil. tauto.
Qed.

(** C9: Every end of the process has one of these causes, whatever the API server sends and however the
    goroutines interleave. It was asked to stop: by one of the three signals, which its loop took
    - then the code is 0 -, or by a signal before it had asked for any. It did not start: [run]
    returned an error, for which [main] calls [klog.Fatalf], or the flags of its command line did not
    parse. Or it was running and crashed, with another code than 0: its provider ended the process in a round
    on readings the round has made, or the API server sent a node in an event of a type there is not. No
    nil pointer and no other error does it. *)
Theorem crashes_have_a_cause i w0 ls code :
  psteps i (Starting w0) ls (Exited code) ->
  (code = 0 /\ exists sig, Signal sig ∈ ls /\ notified sig = true) \/
  (exists sig, ls = [Signal sig]) \/
  (ls = [Main] /\
   (code ≠ 0 /\ (exists e w', run_controllers i w0 = (Err e, w')) \/
    exists options, flags_Parse (formal_flags ParseDuration klog_flags) (in_args i)
                      (set_verbosity ParseDuration klog_flags klog_init options) = None)) \/
  (code ≠ 0 /\ exists ls' n cw canceled signals s,
   ls = ls' ++ [Work n] /\ psteps i (Starting w0) ls' (Running cw canceled signals s) /\
   ((exists v, round_readings (s_reads s) = Some v /\
       (EnsureCIDRs (at_IsVersion v) (at_Snapshot v) (s_world s)).1 = Exit) \/
    (s_watcher s = Watching /\ exists e node, event_Object e = Some node /\
       event_Type e ∉ [watch_Added; watch_Modified; watch_Deleted; watch_Bookmark; watch_Error]))).
Proof.
  intros Hp. pose proof (stop_was_asked_for _ _ _ _ Hp) as Hquiet. cbn beta iota in Hquiet.
  inversion Hp as [|ls' p1 l p2 Hps Hs]; subst. pose proof (process_is_system _ _ _ _ Hps) as Hsys.
  inversion Hs as [|w1 w' ? Hm Hc|w1 sig ? Hc| | |cw signals s| |cw ca sg s v w' ? Hv Hit Hc|cw ca sg s r w' ? Hw Hd Hrec Hc]; subst.
  - destruct Hsys as [-> ->]. right. right. left. split; [done|]. unfold agent_main in Hm. rewrite bind_run in Hm.
    unfold try in Hm. pose proof (run_exits i w0) as Hx. destruct (run_controllers i w0) as [[c|e|] w2]; [done| |].
    + left. split; [by intros Hz%Hc|]. by eexists _, _.
    + right. by apply Hx.
  - destruct Hsys as [-> _]. right. left. by exists sig.
  - left. split; [done|]. destruct (stop_was_asked_for _ _ _ _ Hps) as (sig & Hin & Hn); [by left|].
    exists sig. split; [|done]. apply elem_of_app. by left.
  - right. right. right. split; [done|]. exists ls', 0, cw, ca, sg, s. split_and!; [done..|]. left. exists v. split; [done|].
    destruct (round_ends cw _ s v (proj1 Hsys) Hv) as [[w2 Hit2]|He]; [congruence|done].
  - right. right. right. split; [done|]. exists ls', 0, cw, ca, sg, s. split_and!; [done..|]. right. split; [done|].
    destruct (receive_Exit r _ _ Hrec) as (e & node & _ & ? & ?). by exists e, node.
Qed.

(** ** The whole agent, as configured *)

Context `{!RouteLaws K} `{!NeighLaws K} `{!LinkLaws K} `{!StateLaws K} `{!PolicyLaws K}.
Context `{!NeighRouteFrame K} `{!LinkRouteFrame K} `{!PolicyFrame K}.
Context `{!Untouched (entries route_table)} `{!Untouched neighs} `{!Untouched links}.
Context `{!Untouched (entries state_table)} `{!Untouched (entries policy_table)}.

(** C1: The guarantee, from the start of the process and for every configuration: whatever [run]
    was given, while the process runs, when the watcher has received everything the API server sent
    and the version the provider applied last is current, the pods of every other node with an
    address and a pod CIDR are reached the way of the provider that was configured, and that was
    built by [run] with nothing applied - provided that the condition of that provider holds of the
    nodes, its state and the kernel ([any_deliverable]). For layer2 there is none. For gre: the pod CIDRs
    of the other nodes are IPv4, and no link has the name of a node's tunnel but other endpoints; for
    vxlan-legacy: the monitor was started with the device, the pod CIDRs are IPv4 /24 networks, and no two
    nodes share an address or the start of a pod CIDR; for vxlan: no address is used twice among the
    nodes' addresses and those of their pod CIDRs; for ipsec: the policies have distinct selectors.
    Outside of it the provider can return nil with a node unreached. *)
Theorem configured_agent_reaches_every_node i w0 ls cw canceled signals s :
  psteps i (Starting w0) ls (Running cw canceled signals s) -> cost ls < 2 ^ 64 ->
  s_watcher s = Watching -> s_chan s = [] ->
  any_lastVersionApplied (prov (s_world s)) ≠ 0 ->
  IsVersion (s_map s) (any_lastVersionApplied (prov (s_world s))) = true ->
  any_deliverable (prov (s_world s)) (kern (s_world s)) (local_node (s_map s)) (view (s_map s)) ->
  forall name node address cidr, s_api s !! name = Some node ->
    usable_remote (local_node (s_map s)) (summarize (node_Name node) node) = Some (address, cidr) ->
    any_delivered (prov (s_world s)) (kern (s_world s)) (local_node (s_map s)) address cidr.
Proof.
  intros [Hr Hf]%process_is_system Hn Hw Hc Hl Hv Hd. exact (settled_reaches cw Hf _ _ Hr Hn Hw Hc Hl Hv Hd).
Qed.
End Main.

(** ** A life of the agent *)

Section Witnesses.
#[local] Existing Instance netlink_v1_1_0.
#[local] Existing Instance sample_corev1.
#[local] Existing Instance apimachinery_v0_29.

Definition sim_inputs : inputs :=
  MkInputs ["/usr/bin/networking-agent"%string] None "a" (inl "host"%string) (inl [MkInterface "eth0" 1]).

(** A machine with one link, configured for the layer2 provider. *)
Definition sim_boot : World Sim unit :=
  sim_world (set_links [eth0] (set_files [("/config/config.yaml", "layer2")]%string sim_empty)) tt.

Definition sim_psteps : process -> list label -> process -> Prop :=
  psteps gre_yaml no_duration klog_v EmptyString sim_inputs.

Definition booted : World Sim unit := (run_inputs gre_yaml no_duration klog_v EmptyString sim_inputs sim_boot).2.

Definition named_a : NodeMap := NewNodeMap (fun node => String.eqb (node_Name node) "a").

Definition filed_ab : NodeMap := MarkReady (ReplaceAllNodes in_order named_a [node_a; node_b]).1.

Definition sim_any : World Sim AnyProvider :=
  MkWorld (kern booted) (trace booted) (sched booted) (Layer2Provider (MkLayer2 0 eth0)).

Definition sim_applied : World Sim AnyProvider := (iteration None (steady_readings filed_ab) sim_any).2.

Definition sim_running (pc : watcher_pc) (m : NodeMap) (started : bool) (w : World Sim AnyProvider)
    (canceled : bool) (signals : option Z) : process :=
  Running None canceled signals (MkSystem api_ab [] pc m [] started [] w).

Lemma psteps_work w0 cw ca b s n s' : forall ls,
  steps cw s n s' -> sim_psteps w0 ls (Running cw ca b s) ->
  exists ls', sim_psteps w0 ls' (Running cw ca b s') /\ cost ls' = cost ls + n.
Proof.
  intros ls Hs Hp. induction Hs as [|n s1 d s2 _ (ls' & Hp' & Hc) Hs].
  - exists ls. split; [done|lia].
  - exists (ls' ++ [Work d]). split; [|rewrite cost_snoc; lia]. eapply psteps_step; [exact Hp'|by constructor].
Qed.

Lemma sim_starts : sim_psteps (Starting sim_boot) [Main] (sim_running Idle named_a false sim_any false None).
Proof.
  change [Main] with ([] ++ [Main]). eapply psteps_step; [apply psteps_refl|].
  apply (run_starts gre_yaml no_duration klog_v EmptyString sim_inputs api_ab (MkNodeController named_a)
           (MkRoutingController named_a (Layer2Provider (MkLayer2 0 eth0)) None) sim_boot booted api_ab_wf).
  vm_compute. reflexivity.
Qed.

(** The watcher files the nodes and the controller goes through a round. *)
Lemma sim_works :
  exists ls, sim_psteps (Starting sim_boot) ls (sim_running Watching filed_ab true sim_applied false None) /\ cost ls = 4.
Proof.
  assert (steps None (MkSystem api_ab [] Idle named_a [] false [] sim_any) (0 + (4 + (0 + (0 + 0))))
            (MkSystem api_ab [] Watching filed_ab [] true [] sim_applied)) as Hs.
  { eapply steps_trans; [apply steps_one|eapply steps_trans; [|eapply steps_trans; [apply steps_one|eapply steps_trans; [|apply steps_one]]]].
    - apply (watcher_lists None (MkSystem api_ab [] Idle named_a [] false [] sim_any) [node_a; node_b]); [done|].
      vm_compute. reflexivity.
    - exact (files_answer None in_order api_ab [] [node_a; node_b] named_a false [] sim_any).
    - by apply (controller_starts None (MkSystem api_ab [] Watching filed_ab [] false [] sim_any)).
    - exact (reads_map None api_ab [] Watching filed_ab sim_any 7 [] eq_refl).
    - apply (controller_acts None (MkSystem api_ab [] Watching filed_ab [] true (repeat filed_ab 7) sim_any)
               (steady_readings filed_ab) sim_applied); [done|]. vm_compute. reflexivity. }
  destruct (psteps_work _ _ _ _ _ _ _ _ Hs sim_starts) as (ls & Hl & Hc). exists ls. split; [exact Hl|exact Hc].
Qed.

Lemma sim_interrupted :
  exists ls, sim_psteps (Starting sim_boot) ls (sim_running Watching filed_ab true sim_applied false (Some 15)).
Proof.
  destruct sim_works as (ls & Hl & _). exists (ls ++ [Signal 15]). eapply psteps_step; [exact Hl|].
  by apply (signal_arrives gre_yaml no_duration klog_v EmptyString sim_inputs None false None).
Qed.

Lemma exits_quietly_only_on_a_signal_witness :
  exists ls sig, sim_psteps (Starting sim_boot) ls (Exited 0) /\ Signal sig ∈ ls.
Proof.
  destruct sim_interrupted as (ls & Hl).
  assert (sim_psteps (Starting sim_boot) ((ls ++ [Main]) ++ [Main]) (Exited 0)) as Hx.
  { eapply psteps_step; [eapply psteps_step; [exact Hl|apply select_signal]|apply select_done]. }
  destruct (exits_quietly_only_on_a_signal gre_yaml no_duration klog_v EmptyString sim_inputs sim_boot _ Hx)
    as [(sig & Hin & _)|[options Hf]]; [|discriminate Hf].
  eexists _, sig. split; [exact Hx|exact Hin].
Defined.

Lemma signals_end_the_process_witness :
  exists p, pstep gre_yaml no_duration klog_v EmptyString sim_inputs (sim_running Watching filed_ab true sim_applied false (Some 15)) Main p.
Proof.
  pose proof (signals_end_the_process gre_yaml no_duration klog_v EmptyString sim_inputs None false (Some 15)
    (MkSystem api_ab [] Watching filed_ab [] true [] sim_applied) [] _ (or_intror (ex_intro _ 15 eq_refl)) (psteps_refl _ _ _ _ _ _)) as Hp.
  destruct Hp as (_ & Hex & _). exact Hex.
Defined.

Lemma configured_agent_reaches_every_node_witness :
  exists y, y ∈ entries route_table (kern sim_applied) /\ route_key y = Some "100.96.2.0/24"%string.
Proof.
  destruct sim_works as (ls & Hl & Hc).
  destruct (configured_agent_reaches_every_node gre_yaml no_duration klog_v EmptyString sim_inputs sim_boot ls _ _ _ _ Hl) with
    (name := "b"%string) (node := node_b) (address := ParseIP "172.20.0.2") (cidr := net4 100 96 2 0 24)
    as (y & Hy & Hk & _).
  - rewrite Hc. reflexivity.
  - reflexivity.
  - reflexivity.
  - vm_compute. discriminate.
  - vm_compute. reflexivity.
  - exact I.
  - vm_compute. reflexivity.
  - vm_compute. reflexivity.
  - exists y. split; [exact Hy|]. rewrite Hk. vm_compute. reflexivity.
Defined.

(** The API server sends an event of an unknown type. *)
Lemma crashes_have_a_cause_witness :
  exists ls, sim_psteps (Starting sim_boot) ls (Exited 255) /\
    exists ls' n cw canceled signals s, ls = ls' ++ [Work n] /\
      sim_psteps (Starting sim_boot) ls' (Running cw canceled signals s) /\
      ((exists v, round_readings (s_reads s) = Some v /\ (EnsureCIDRs (at_IsVersion v) (at_Snapshot v) (s_world s)).1 = Exit) \/
       s_watcher s = Watching).
Proof.
  destruct sim_works as (ls & Hl & _).
  assert (pstep gre_yaml no_duration klog_v EmptyString sim_inputs
            (sim_running Watching filed_ab true sim_applied false None) (Work 0) (Exited 255)) as Hx.
  { apply (watcher_crashes gre_yaml no_duration klog_v EmptyString sim_inputs None false None _
             (result_event (MkEvent "WEIRD" (Some node_b))) (watcher_world sim_applied filed_ab)); [done|done|vm_compute; reflexivity|done]. }
  assert (sim_psteps (Starting sim_boot) (ls ++ [Work 0]) (Exited 255)) as Hp by (eapply psteps_step; [exact Hl|exact Hx]).
  exists (ls ++ [Work 0]). split; [exact Hp|].
  destruct (crashes_have_a_cause gre_yaml no_duration klog_v EmptyString sim_inputs sim_boot (ls ++ [Work 0]) 255 Hp)
    as [[Hz _]|[[sig Hs]|[[Hm _]|(_ & ls' & n & cw & ca & sg & s & Heq & Hr & Hcase)]]].
  - discriminate Hz.
  - apply (f_equal last) in Hs. rewrite last_snoc in Hs. discriminate Hs.
  - apply (f_equal last) in Hm. rewrite last_snoc in Hm. discriminate Hm.
  - exists ls', n, cw, ca, sg, s. split; [exact Heq|]. split; [exact Hr|].
    destruct Hcase as [Hv|[Hw _]]; [left; exact Hv|right; exact Hw].
Defined.
End Witnesses.
