(* ===== verification/ApiTypes.v ===== *)
(** * The operator's API types: operator/api/v1alpha1

    networking_types.go has the types and their accessors, zz_generated.deepcopy.go the deep copies. The
    types of apimachinery and of the declarative pattern they are made of are parameters. Objects live in
    a store, as their parts can point to shared memory: a deep copy must have the same content and share
    none of it. *)

From S2P Require Import Prelude.

(** ** The types *)

Section Types.
Context {TypeMeta ObjectMeta CommonSpec PatchSpec CommonStatus : Type}.

Record NetworkingSpec := MkNetworkingSpec { Spec_CommonSpec : CommonSpec; Spec_PatchSpec : PatchSpec }.

Record NetworkingStatus := MkNetworkingStatus { Status_CommonStatus : CommonStatus }.

Record Networking := MkNetworking {
  net_TypeMeta : TypeMeta;
  net_ObjectMeta : ObjectMeta;
  net_Spec : NetworkingSpec;
  net_Status : NetworkingStatus
}.

(** The methods of [addonv1alpha1.CommonObject]. *)
Definition ComponentName (o : Networking) : string := "networking".
Definition get_CommonSpec (o : Networking) : CommonSpec := Spec_CommonSpec (net_Spec o).
Definition get_PatchSpec (o : Networking) : PatchSpec := Spec_PatchSpec (net_Spec o).
Definition GetCommonStatus (o : Networking) : CommonStatus := Status_CommonStatus (net_Status o).
Definition SetCommonStatus (o : Networking) (s : CommonStatus) : Networking :=
  MkNetworking (net_TypeMeta o) (net_ObjectMeta o) (net_Spec o) (MkNetworkingStatus s).

(** Setting the status is a lens: it is what is read back, the last one counts, and the rest of the
    object stays. *)
Lemma status_lens o s t :
  GetCommonStatus (SetCommonStatus o s) = s /\ SetCommonStatus (SetCommonStatus o t) s = SetCommonStatus o s /\
  SetCommonStatus o (GetCommonStatus o) = o /\ net_Spec (SetCommonStatus o s) = net_Spec o.
Proof. by destruct o as [? ? ? []]. Qed.
End Types.

Arguments NetworkingSpec : clear implicits.
Arguments NetworkingStatus : clear implicits.
Arguments Networking : clear implicits.

(** ** Deep copies *)

Abbreviation ptr := positive (only parsing).

Section Copies.
Context {Cell : Type}.
Implicit Types (s : gmap ptr Cell).

(** A type with [DeepCopyInto]: what a value means in a store, and the memory it leads to. *)
Class DeepCopy (T : Type) := {
  meaning : Type;
  means : T -> gmap ptr Cell -> meaning;
  footprint : T -> gmap ptr Cell -> gset ptr;
  DeepCopyInto : T -> T -> gmap ptr Cell -> T * gmap ptr Cell
}.

(** [c] in the later store [s'] is a copy of [x]: it means what [x] meant, all its memory is new, and
    what was there has not changed. *)
Definition copied {T} `{DeepCopy T} s (x c : T) s' : Prop :=
  s ⊆ s' /\ means c s' = means x s /\ footprint c s' ⊆ dom s' /\ footprint c s' ## dom s.

(** What a [DeepCopyInto] promises. *)
Class DeepCopyLaws (T : Type) `{DeepCopy T} := {
  means_frame : forall (x : T) s s', (forall l, l ∈ footprint x s -> s' !! l = s !! l) ->
    means x s' = means x s /\ footprint x s' = footprint x s;
  DeepCopyInto_copies : forall (x out c : T) s s', footprint x s ⊆ dom s -> DeepCopyInto x out s = (c, s') -> copied s x c s'
}.

Section Facts.
Context {T : Type} `{DeepCopyLaws T}.
Implicit Types (x c out : T).

Lemma means_grown x s s' : footprint x s ⊆ dom s -> s ⊆ s' -> means x s' = means x s /\ footprint x s' = footprint x s.
Proof.
  intros Hf Hs. apply means_frame. intros l Hl%Hf%elem_of_dom. destruct Hl as [v Hv]. rewrite Hv.
  by eapply lookup_weaken.
Qed.

(** The copy of a part stays a copy while the other parts are copied, and the parts that are not
    copied yet are what they were. *)
Lemma copied_then x c s s1 s2 : copied s x c s1 -> s1 ⊆ s2 -> copied s x c s2.
Proof.
  intros (Hs & Hm & Hd & Hn) Hs2. destruct (means_grown c s1 s2 Hd Hs2) as [Hm2 Hf2].
  split; [by transitivity s1|]. rewrite Hm2, Hf2. split_and!; [done| |done].
  transitivity (dom s1); [done|]. by apply subseteq_dom.
Qed.

Lemma copied_after x c s s1 s2 : footprint x s ⊆ dom s -> s ⊆ s1 -> copied s1 x c s2 -> copied s x c s2.
Proof.
  intros Hf Hs (Hs2 & Hm & Hd & Hn). destruct (means_grown x s s1 Hf Hs) as [Hm1 _].
  split; [by transitivity s1|]. rewrite Hm, Hm1. split_and!; [done|done|].
  apply subseteq_dom in Hs. set_solver.
Qed.

(** Whoever changes the memory that was there, or the memory of the copy, does not change the other. *)
Lemma copied_separate x c s s' s2 :
  footprint x s ⊆ dom s -> copied s x c s' ->
  ((forall l, l ∉ dom s -> s2 !! l = s' !! l) -> means c s2 = means x s) /\
  ((forall l, l ∈ dom s -> s2 !! l = s' !! l) -> means x s2 = means x s).
Proof.
  intros Hf (Hs & Hm & Hd & Hn). split; intros Hl.
  - rewrite <- Hm. apply means_frame. intros l Hin. apply Hl. set_solver.
  - apply means_frame. intros l Hin%Hf. rewrite Hl by done. apply elem_of_dom in Hin as [v Hv]. rewrite Hv.
    by eapply lookup_weaken.
Qed.
End Facts.

(** A type without pointers, of which an assignment is a copy. *)
Definition plain (T : Type) : DeepCopy T :=
  {| meaning := T; means x _ := x; footprint _ _ := ∅; DeepCopyInto x _ s := (x, s) |}.
End Copies.
Arguments DeepCopy : clear implicits.

(** ** The generated copies *)

Section Generated.
(** Third-party types. [TypeMeta] and [CommonSpec] are made of strings, so that a value of theirs means
    itself; the others have their own [DeepCopyInto]. [X] is the memory they lead to. *)
Context {TypeMeta ObjectMeta ListMeta CommonSpec PatchSpec CommonStatus X : Type}.

#[local] Abbreviation Spec := (NetworkingSpec CommonSpec PatchSpec).
#[local] Abbreviation Status := (NetworkingStatus CommonStatus).
#[local] Abbreviation Obj := (Networking TypeMeta ObjectMeta CommonSpec PatchSpec CommonStatus).

(** A Go slice: a part of an array. *)
Record slice := MkSlice { sl_array : ptr; sl_offset : nat; sl_len : nat }.

Record NetworkingList := MkNetworkingList {
  list_TypeMeta : TypeMeta;
  list_ListMeta : ListMeta;
  (** [None] is the nil slice. *)
  Items : option slice
}.

Inductive cell :=
| ThirdParty (x : X)
| NetworkingCell (o : Obj)
| ArrayCell (l : list Obj)
| ListCell (l : NetworkingList)
| SpecCell (sp : Spec)
| StatusCell (st : Status).

Implicit Types (s : gmap ptr cell) (a l : ptr).

Context `{!DeepCopy cell ObjectMeta} `{!DeepCopyLaws ObjectMeta}.
Context `{!DeepCopy cell ListMeta} `{!DeepCopyLaws ListMeta}.
Context `{!DeepCopy cell PatchSpec} `{!DeepCopyLaws PatchSpec}.
Context `{!DeepCopy cell CommonStatus} `{!DeepCopyLaws CommonStatus}.
(** The zero values. *)
Context (zero_Networking : Obj) (zero_NetworkingList : NetworkingList).

(** [func (in *NetworkingSpec) DeepCopyInto(out *NetworkingSpec)] *)
Definition NetworkingSpec_DeepCopyInto (x out : Spec) s : Spec * gmap ptr cell :=
  let out := x in
  let out := MkNetworkingSpec (Spec_CommonSpec x) (Spec_PatchSpec out) in
  let '(p, s) := DeepCopyInto (Spec_PatchSpec x) (Spec_PatchSpec out) s in
  (MkNetworkingSpec (Spec_CommonSpec out) p, s).

(** [func (in *NetworkingStatus) DeepCopyInto(out *NetworkingStatus)] *)
Definition NetworkingStatus_DeepCopyInto (x out : Status) s : Status * gmap ptr cell :=
  let out := x in
  let '(c, s) := DeepCopyInto (Status_CommonStatus x) (Status_CommonStatus out) s in
  (MkNetworkingStatus c, s).

#[export] Instance NetworkingSpec_copies : DeepCopy cell Spec := {|
  meaning := CommonSpec * meaning (T := PatchSpec);
  means x s := (Spec_CommonSpec x, means (Spec_PatchSpec x) s);
  footprint x s := footprint (Spec_PatchSpec x) s;
  DeepCopyInto := NetworkingSpec_DeepCopyInto
|}.

#[export] Instance NetworkingStatus_copies : DeepCopy cell Status := {|
  meaning := meaning (T := CommonStatus);
  means x s := means (Status_CommonStatus x) s;
  footprint x s := footprint (Status_CommonStatus x) s;
  DeepCopyInto := NetworkingStatus_DeepCopyInto
|}.

(** [func (in *Networking) DeepCopyInto(out *Networking)] *)
Definition Networking_DeepCopyInto (x out : Obj) s : Obj * gmap ptr cell :=
  let out := x in
  let out := MkNetworking (net_TypeMeta x) (net_ObjectMeta out) (net_Spec out) (net_Status out) in
  let '(m, s) := DeepCopyInto (net_ObjectMeta x) (net_ObjectMeta out) s in
  let '(sp, s) := NetworkingSpec_DeepCopyInto (net_Spec x) (net_Spec out) s in
  let '(st, s) := NetworkingStatus_DeepCopyInto (net_Status x) (net_Status out) s in
  (MkNetworking (net_TypeMeta out) m sp st, s).

#[export] Instance Networking_copies : DeepCopy cell Obj := {|
  meaning := TypeMeta * meaning (T := ObjectMeta) * meaning (T := Spec) * meaning (T := Status);
  means x s := (net_TypeMeta x, means (net_ObjectMeta x) s, means (net_Spec x) s, means (net_Status x) s);
  footprint x s := footprint (net_ObjectMeta x) s ∪ footprint (net_Spec x) s ∪ footprint (net_Status x) s;
  DeepCopyInto := Networking_DeepCopyInto
|}.

(** The elements of an array; out of its bounds there are zero values. *)
Definition element s a (i : nat) : Obj :=
  match s !! a with Some (ArrayCell l) => default zero_Networking (l !! i) | _ => zero_Networking end.

Definition set_element s a (i : nat) (o : Obj) : gmap ptr cell :=
  match s !! a with Some (ArrayCell l) => <[a := ArrayCell (<[i := o]> l)]> s | _ => s end.

Definition elements s (sl : slice) : list Obj :=
  (fun i => element s (sl_array sl) (sl_offset sl + i)) <$> seq 0 (sl_len sl).

(** The loop over the items, from the [i]-th on. *)
Fixpoint copy_elements (n i : nat) (src : slice) (a : ptr) s : gmap ptr cell :=
  match n with
  | O => s
  | S n =>
      let '(c, s) := Networking_DeepCopyInto (element s (sl_array src) (sl_offset src + i)) (element s a i) s in
      copy_elements n (S i) src a (set_element s a i c)
  end.

(** [func (in *NetworkingList) DeepCopyInto(out *NetworkingList)] *)
Definition NetworkingList_DeepCopyInto (x out : NetworkingList) s : NetworkingList * gmap ptr cell :=
  let out := x in
  let out := MkNetworkingList (list_TypeMeta x) (list_ListMeta out) (Items out) in
  let '(m, s) := DeepCopyInto (list_ListMeta x) (list_ListMeta out) s in
  match Items x with
  | None => (MkNetworkingList (list_TypeMeta out) m (Items out), s)
  | Some src =>
      let a := fresh (dom s) in
      let s := <[a := ArrayCell (replicate (sl_len src) zero_Networking)]> s in
      (MkNetworkingList (list_TypeMeta out) m (Some (MkSlice a 0 (sl_len src))), copy_elements (sl_len src) 0 src a s)
  end.

#[export] Instance NetworkingList_copies : DeepCopy cell NetworkingList := {|
  meaning := TypeMeta * meaning (T := ListMeta) * option (list (meaning (T := Obj)));
  means x s := (list_TypeMeta x, means (list_ListMeta x) s, (fun sl => (fun o => means o s) <$> elements s sl) <$> Items x);
  footprint x s := footprint (list_ListMeta x) s ∪
    match Items x with
    | Some sl => {[sl_array sl]} ∪ ⋃ ((fun o => footprint o s) <$> elements s sl)
    | None => ∅
    end;
  DeepCopyInto := NetworkingList_DeepCopyInto
|}.

(** A variable of type [T] is a cell of the store. *)
Class Boxed (T : Type) := { box : T -> cell; unbox : cell -> option T; zero : T; unbox_box x : unbox (box x) = Some x }.

#[export, refine] Instance Networking_boxed : Boxed Obj := {|
  box := NetworkingCell; unbox k := match k with NetworkingCell o => Some o | _ => None end; zero := zero_Networking |}.
Proof. done. Defined.

#[export, refine] Instance NetworkingList_boxed : Boxed NetworkingList := {|
  box := ListCell; unbox k := match k with ListCell l => Some l | _ => None end; zero := zero_NetworkingList |}.
Proof. done. Defined.

#[export, refine] Instance NetworkingSpec_boxed : Boxed Spec := {|
  box := SpecCell; unbox k := match k with SpecCell l => Some l | _ => None end; zero := net_Spec zero_Networking |}.
Proof. done. Defined.

#[export, refine] Instance NetworkingStatus_boxed : Boxed Status := {|
  box := StatusCell; unbox k := match k with StatusCell l => Some l | _ => None end; zero := net_Status zero_Networking |}.
Proof. done. Defined.

(** What a pointer points to. *)
Definition deref {T} `{Boxed T} s (p : ptr) : T := default zero (s !! p ≫= unbox).

(** The body that all [func (in *T) DeepCopy() *T] have: nil, or a new variable that [in] is copied into. *)
Definition DeepCopy_body {T} `{Boxed T} (T_DeepCopyInto : T -> T -> gmap ptr cell -> T * gmap ptr cell)
    (i : option ptr) s : option ptr * gmap ptr cell :=
  match i with
  | None => (None, s)
  | Some p =>
      let out := fresh (dom s) in
      let s := <[out := box zero]> s in
      let '(c, s) := T_DeepCopyInto (deref s p) (deref s out) s in
      (Some out, <[out := box c]> s)
  end.

Definition Networking_DeepCopy := DeepCopy_body Networking_DeepCopyInto.
Definition NetworkingList_DeepCopy := DeepCopy_body NetworkingList_DeepCopyInto.
Definition NetworkingSpec_DeepCopy := DeepCopy_body NetworkingSpec_DeepCopyInto.
Definition NetworkingStatus_DeepCopy := DeepCopy_body NetworkingStatus_DeepCopyInto.

(** A [runtime.Object] of this package: a pointer with its type, which can be nil without the interface
    value being nil. *)
Inductive Object :=
| NetworkingObject (p : option ptr)
| NetworkingListObject (p : option ptr).

(** [func (in *Networking) DeepCopyObject() runtime.Object] *)
Definition Networking_DeepCopyObject (i : option ptr) s : option Object * gmap ptr cell :=
  let '(c, s) := Networking_DeepCopy i s in
  match c with Some _ => (Some (NetworkingObject c), s) | None => (None, s) end.

(** [func (in *NetworkingList) DeepCopyObject() runtime.Object] *)
Definition NetworkingList_DeepCopyObject (i : option ptr) s : option Object * gmap ptr cell :=
  let '(c, s) := NetworkingList_DeepCopy i s in
  match c with Some _ => (Some (NetworkingListObject c), s) | None => (None, s) end.

(** *** The copies of the structs *)

#[export] Instance NetworkingSpec_copied : DeepCopyLaws Spec.
Proof.
  split.
  - intros x s s' Hl. destruct (means_frame (Spec_PatchSpec x) s s' Hl) as [Hm Hf]. simpl. by rewrite Hm, Hf.
  - intros x out c s s' Hf. simpl. unfold NetworkingSpec_DeepCopyInto.
    destruct (DeepCopyInto (Spec_PatchSpec x) _ s) as [p s1] eqn:Hc. intros [= <- <-].
    destruct (DeepCopyInto_copies (Spec_PatchSpec x) _ _ _ _ Hf Hc) as (? & Hm & ? & ?).
    split_and!; simpl; [done|by rewrite Hm|done..].
Qed.

#[export] Instance NetworkingStatus_copied : DeepCopyLaws Status.
Proof.
  split.
  - intros x s s' Hl. exact (means_frame (Status_CommonStatus x) s s' Hl).
  - intros x out c s s' Hf. simpl. unfold NetworkingStatus_DeepCopyInto.
    destruct (DeepCopyInto (Status_CommonStatus x) _ s) as [p s1] eqn:Hc. intros [= <- <-].
    exact (DeepCopyInto_copies (Status_CommonStatus x) _ _ _ _ Hf Hc).
Qed.

#[export] Instance Networking_copied : DeepCopyLaws Obj.
Proof.
  split.
  - intros x s s' Hl. simpl in *.
    destruct (means_frame (net_ObjectMeta x) s s') as [Hm1 Hf1]; [intros l Hin; apply Hl; set_solver|].
    destruct (means_frame (net_Spec x) s s') as [Hm2 Hf2]; [intros l Hin; apply Hl; simpl in Hin; set_solver|].
    destruct (means_frame (net_Status x) s s') as [Hm3 Hf3]; [intros l Hin; apply Hl; simpl in Hin; set_solver|].
    simpl in *. split; congruence.
  - intros x out c s s' Hf. simpl in *. unfold Networking_DeepCopyInto.
    destruct (DeepCopyInto (net_ObjectMeta x) _ s) as [m s1] eqn:Hc1.
    destruct (NetworkingSpec_DeepCopyInto (net_Spec x) _ s1) as [sp s2] eqn:Hc2.
    destruct (NetworkingStatus_DeepCopyInto (net_Status x) _ s2) as [st s3] eqn:Hc3. intros [= <- <-].
    assert (copied s (net_ObjectMeta x) m s1) as H1 by (eapply DeepCopyInto_copies; [set_solver|exact Hc1]).
    pose proof H1 as [Hs1 _]. destruct (means_grown (net_Spec x) s s1) as [_ Hf2]; [simpl; set_solver|done|].
    assert (dom s ⊆ dom s1) as Hd1 by (by apply subseteq_dom).
    assert (copied s1 (net_Spec x) sp s2) as H2 by (eapply DeepCopyInto_copies; [rewrite Hf2; simpl; set_solver|exact Hc2]).
    pose proof H2 as [Hs2 _]. assert (s ⊆ s2) as Hs02 by (by transitivity s1).
    destruct (means_grown (net_Status x) s s2) as [_ Hf3]; [simpl; set_solver|done|].
    assert (dom s ⊆ dom s2) as Hd2 by (by apply subseteq_dom).
    assert (copied s2 (net_Status x) st s3) as H3 by (eapply DeepCopyInto_copies; [rewrite Hf3; simpl; set_solver|exact Hc3]).
    pose proof H3 as [Hs3 _].
    apply (copied_after (net_Spec x) sp s s1 s2) in H2; [|simpl; set_solver|done].
    apply (copied_after (net_Status x) st s s2 s3) in H3; [|simpl; set_solver|done].
    apply (copied_then _ _ s s1 s3) in H1; [|by transitivity s2]. apply (copied_then _ _ s s2 s3) in H2; [|done].
    destruct H1 as (Hs & Hm1 & Hd1' & Hn1), H2 as (_ & Hm2 & Hd2' & Hn2), H3 as (_ & Hm3 & Hd3' & Hn3).
    simpl in *. split_and!; [done|simpl; congruence|simpl; set_solver|simpl; set_solver].
Qed.

(** *** The items of a list *)

Lemma element_same s s' a i : s' !! a = s !! a -> element s' a i = element s a i.
Proof. unfold element. by intros ->. Qed.

Lemma set_element_lookup s a i o (os : list Obj) :
  s !! a = Some (ArrayCell os) -> set_element s a i o = <[a := ArrayCell (<[i := o]> os)]> s.
Proof. unfold set_element. by intros ->. Qed.

(** The copy of an object into an element of the array at [a]: all but that array stays. *)
Definition renewed s (x c : Obj) s' : Prop :=
  means c s' = means x s /\ footprint c s' ⊆ dom s' /\ footprint c s' ## dom s.

Lemma means_but (x : Obj) s s' a :
  footprint x s ⊆ dom (delete a s) -> delete a s ⊆ s' -> means x s' = means x s /\ footprint x s' = footprint x s.
Proof.
  intros Hf Hs. apply means_frame. intros k Hk%Hf%elem_of_dom. destruct Hk as [v Hv].
  rewrite (lookup_weaken _ _ _ _ Hv Hs). by apply lookup_delete_Some in Hv as [_ ->].
Qed.

Lemma renewed_then x c s s1 s2 a :
  a ∈ dom s -> renewed s x c s1 -> delete a s1 ⊆ s2 -> dom s1 ⊆ dom s2 -> renewed s x c s2.
Proof.
  intros Ha (Hm & Hd & Hn) Hs Hdom. destruct (means_but c s1 s2 a) as [Hm' Hf']; [|done|].
  - intros k Hk. rewrite dom_delete_L. apply elem_of_difference. split; [by apply Hd|].
    intros ->%elem_of_singleton. by apply (Hn a).
  - unfold renewed. rewrite Hm', Hf'. split_and!; [done|by transitivity (dom s1)|done].
Qed.

Lemma renewed_after x c s s1 s2 a :
  footprint x s ⊆ dom (delete a s) -> delete a s ⊆ s1 -> dom s ⊆ dom s1 -> renewed s1 x c s2 -> renewed s x c s2.
Proof.
  intros Hf Hs Hdom (Hm & Hd & Hn). unfold renewed. rewrite Hm, (proj1 (means_but x s s1 a Hf Hs)).
  split_and!; [done|done|]. intros k Hk Hks. apply (Hn k Hk). by apply Hdom.
Qed.

(** The [n] elements from the [i]-th on. *)
Definition items s (sl : slice) (i n : nat) : list Obj :=
  (fun j => element s (sl_array sl) (sl_offset sl + j)) <$> seq i n.

Lemma items_but s s' sl a i n : sl_array sl ∈ dom (delete a s) -> delete a s ⊆ s' -> items s' sl i n = items s sl i n.
Proof.
  intros [v Hv]%elem_of_dom Hs. apply list_fmap_ext. intros ? ? _. apply element_same.
  rewrite (lookup_weaken _ _ _ _ Hv Hs). by apply lookup_delete_Some in Hv as [_ ->].
Qed.

(** One round of the loop. *)
Lemma copy_element (x out c : Obj) s s1 a i (dn : list Obj) n :
  s !! a = Some (ArrayCell (dn ++ replicate (S n) zero_Networking)) -> length dn = i ->
  footprint x s ⊆ dom (delete a s) -> Networking_DeepCopyInto x out s = (c, s1) ->
  let s2 := set_element s1 a i c in
  s2 !! a = Some (ArrayCell ((dn ++ [c]) ++ replicate n zero_Networking)) /\ delete a s ⊆ delete a s2 /\
  dom s ⊆ dom s2 /\ renewed s x c s2.
Proof.
  intros Ha Hi Hf Hc. assert (footprint x s ⊆ dom s) as Hf'.
  { transitivity (dom (delete a s)); [done|]. apply subseteq_dom, delete_subseteq. }
  assert (copied s x c s1) as (Hs & Hm & Hd & Hn) by (by eapply DeepCopyInto_copies).
  rewrite (set_element_lookup _ _ _ _ (dn ++ replicate (S n) zero_Networking)) by (by eapply lookup_weaken).
  rewrite insert_app_r_alt by lia. rewrite Hi, Nat.sub_diag, <- app_assoc. cbn [replicate insert list_insert app].
  set (s2 := <[a := _]> s1). cbv zeta.
  assert (dom s1 ⊆ dom s2) as Hdom by (apply dom_insert_subseteq).
  assert (dom s ⊆ dom s1) as Hdom1 by (by apply subseteq_dom).
  assert (delete a s1 = delete a s2) as Hdel by (unfold s2; by rewrite delete_insert_eq).
  split_and!; [by apply lookup_insert_eq|rewrite <- Hdel; by apply delete_mono|by transitivity (dom s1)|].
  apply (renewed_then x c s s1 s2 a); [|done| |done].
  - apply elem_of_dom. by eexists.
  - rewrite Hdel. apply delete_subseteq.
Qed.

(** Copying elements into an array that is not among the memory of the originals: only that array
    changes, and it gets copies of them. *)
Lemma copy_elements_copies src a n : forall i s (dn : list Obj),
  s !! a = Some (ArrayCell (dn ++ replicate n zero_Networking)) -> length dn = i ->
  sl_array src ∈ dom (delete a s) -> Forall (fun x => footprint x s ⊆ dom (delete a s)) (items s src i n) ->
  exists cs, let s' := copy_elements n i src a s in
    delete a s ⊆ s' /\ dom s ⊆ dom s' /\ s' !! a = Some (ArrayCell (dn ++ cs)) /\
    Forall2 (fun x c => renewed s x c s') (items s src i n) cs.
Proof.
  induction n as [|n IH]; intros i s dn Ha Hi Hsrc Hf; cbn [copy_elements].
  { exists []. split_and!; [apply delete_subseteq|done|done|constructor]. }
  cbn [items seq fmap list_fmap] in *. fold (items s src (S i) n) in *. apply Forall_cons in Hf as [Hfx Hf].
  set (x := element s (sl_array src) (sl_offset src + i)) in *.
  destruct (Networking_DeepCopyInto x (element s a i) s) as [c s1] eqn:Hc.
  destruct (copy_element _ _ _ _ _ _ _ _ _ Ha Hi Hfx Hc) as (Ha2 & Hs2 & Hdom2 & Hx).
  set (s2 := set_element s1 a i c) in *. assert (delete a s ⊆ s2) as Hs2'.
  { transitivity (delete a s2); [done|apply delete_subseteq]. }
  pose proof (items_but s s2 src a (S i) n Hsrc Hs2') as Hitems.
  destruct (IH (S i) s2 (dn ++ [c]) Ha2) as (cs & Hs' & Hdom' & Ha' & Hcs).
  { rewrite length_app. simpl. lia. } { by apply (subseteq_dom _ _ Hs2). }
  { rewrite Hitems. apply (Forall_impl _ _ _ Hf). intros y Hy. rewrite (proj2 (means_but y s s2 a Hy Hs2')).
    transitivity (dom (delete a s)); [done|by apply subseteq_dom]. }
  rewrite Hitems in Hcs. cbv zeta in *. exists (c :: cs). split_and!.
  - by transitivity (delete a s2).
  - by transitivity (dom s2).
  - by rewrite Ha', <- app_assoc.
  - constructor.
    + apply (renewed_then x c s s2 _ a); [|done..]. apply elem_of_dom. by eexists.
    + apply Forall2_same_length_lookup. apply Forall2_same_length_lookup in Hcs as [Hlen Hcs]. split; [done|].
      intros j y c' Hy Hc'. apply (renewed_after y c' s s2 _ a); [|done|done|by eapply Hcs].
      by apply (Forall_lookup_1 _ _ _ _ Hf Hy).
Qed.

Lemma elements_same s s' sl : s' !! sl_array sl = s !! sl_array sl -> elements s' sl = elements s sl.
Proof. intros Hs. unfold elements. apply list_fmap_ext. intros ? ? _. by apply element_same. Qed.

Lemma lookup_elements s sl j :
  (j < sl_len sl)%nat -> elements s sl !! j = Some (element s (sl_array sl) (sl_offset sl + j)).
Proof. intros Hj. unfold elements. rewrite list_lookup_fmap, lookup_seq_lt by done. done. Qed.

Lemma footprint_member (x : Obj) s (os : list Obj) : x ∈ os -> footprint x s ⊆ ⋃ ((fun o => footprint o s) <$> os).
Proof.
  intros Hx k Hk. apply elem_of_union_list. exists (footprint x s). split; [|done].
  by apply (list_elem_of_fmap_2 (fun o => footprint o s)).
Qed.

(** A slice over the whole of an array. *)
Lemma elements_whole s a (os : list Obj) :
  s !! a = Some (ArrayCell os) -> elements s (MkSlice a 0 (length os)) = os.
Proof.
  intros Ha. apply list_eq. intros j. destruct (decide (j < length os)%nat) as [Hj|Hj].
  - rewrite lookup_elements by done. unfold element. simpl. rewrite Ha.
    destruct (lookup_lt_is_Some_2 os j Hj) as [o Ho]. by rewrite Ho.
  - rewrite !lookup_ge_None_2; [done|lia|]. unfold elements. rewrite length_fmap, length_seq. simpl. lia.
Qed.

Lemma list_means (x : NetworkingList) s :
  means x s = (list_TypeMeta x, means (list_ListMeta x) s, (fun sl => (fun o => means o s) <$> elements s sl) <$> Items x).
Proof. reflexivity. Qed.

Lemma list_footprint (x : NetworkingList) s :
  footprint x s = footprint (list_ListMeta x) s ∪
    match Items x with
    | Some sl => {[sl_array sl]} ∪ ⋃ ((fun o => footprint o s) <$> elements s sl)
    | None => ∅
    end.
Proof. reflexivity. Qed.

Lemma list_means_frame (x : NetworkingList) s s' :
  (forall k, k ∈ footprint x s -> s' !! k = s !! k) -> means x s' = means x s /\ footprint x s' = footprint x s.
Proof.
  rewrite !list_means, !list_footprint. intros Hl.
  destruct (means_frame (list_ListMeta x) s s') as [-> ->]; [intros k Hk; apply Hl; set_solver|].
  destruct (Items x) as [sl|]; [|done]. cbn [fmap option_fmap option_map].
  assert (elements s' sl = elements s sl) as -> by (apply elements_same, Hl; set_solver).
  assert (forall o, o ∈ elements s sl -> means o s' = means o s /\ footprint o s' = footprint o s) as Hall.
  { intros o Ho. apply means_frame. intros k Hk. apply Hl. pose proof (footprint_member o s _ Ho). set_solver. }
  assert ((fun o => means o s') <$> elements s sl = (fun o => means o s) <$> elements s sl) as ->.
  { apply list_fmap_ext. intros j o Ho%list_elem_of_lookup_2. by apply Hall. }
  assert ((fun o => footprint o s') <$> elements s sl = (fun o => footprint o s) <$> elements s sl) as ->; [|done].
  apply list_fmap_ext. intros j o Ho%list_elem_of_lookup_2. by apply Hall.
Qed.

(** The copies of a list of objects. *)
Lemma renewed_all s s' (xs cs : list Obj) :
  Forall2 (fun x c => renewed s x c s') xs cs ->
  (fun o => means o s') <$> cs = (fun o => means o s) <$> xs /\
  ⋃ ((fun o => footprint o s') <$> cs) ⊆ dom s' /\ ⋃ ((fun o => footprint o s') <$> cs) ## dom s.
Proof.
  induction 1 as [|x c xs cs (Hm & Hd & Hn) _ (IHm & IHd & IHn)]; [by split_and!|].
  rewrite !fmap_cons, IHm, Hm. cbn [union_list foldr]. split_and!; [done|by apply union_least|].
  by apply disjoint_union_l.
Qed.

(** The new array and its elements. *)
Lemma copy_items_copies src s s1 :
  s ⊆ s1 -> sl_array src ∈ dom s -> (forall o, o ∈ elements s src -> footprint o s ⊆ dom s) ->
  let a := fresh (dom s1) in
  let s' := copy_elements (sl_len src) 0 src a (<[a := ArrayCell (replicate (sl_len src) zero_Networking)]> s1) in
  s1 ⊆ s' /\ a ∈ dom s' /\ Forall2 (fun x c => renewed s x c s') (elements s src) (elements s' (MkSlice a 0 (sl_len src))).
Proof.
  intros Hs Hsrc Hf a. set (s2 := <[a := _]> s1). cbv zeta.
  assert (s1 !! a = None) as Hn by apply not_elem_of_dom, is_fresh.
  assert (delete a s2 = s1) as Hdel by (by apply delete_insert_id).
  assert (s ⊆ s2) as Hs2 by (transitivity s1; [done|by apply insert_subseteq]).
  assert (items s2 src 0 (sl_len src) = elements s src) as Hitems.
  { apply elem_of_dom in Hsrc as [v Hv]. apply elements_same. rewrite Hv. by eapply lookup_weaken. }
  destruct (copy_elements_copies src a (sl_len src) 0 s2 []) as (cs & Hs' & Hdom & Ha & Hcs).
  { by apply lookup_insert_eq. } { done. } { rewrite Hdel. by apply (subseteq_dom _ _ Hs). }
  { rewrite Hdel, Hitems. apply Forall_forall. intros o Ho. destruct (means_grown o s s2 (Hf o Ho) Hs2) as [_ ->].
    transitivity (dom s); [by apply Hf|by apply subseteq_dom]. }
  rewrite Hdel, Hitems in *. cbv zeta in *. set (s' := copy_elements _ _ _ _ _) in *. split; [done|].
  split; [apply elem_of_dom; by eexists|]. pose proof (Forall2_length _ _ _ Hcs) as Hlen.
  assert (sl_len src = length cs) as -> by (rewrite <- Hlen; unfold elements; by rewrite length_fmap, length_seq).
  rewrite (elements_whole s' a cs Ha). apply Forall2_same_length_lookup.
  apply Forall2_same_length_lookup in Hcs as [_ Hcs]. split; [done|]. intros j x c Hx Hc.
  destruct (Hcs j x c Hx Hc) as (Hm & Hd & Hnn). apply list_elem_of_lookup_2, Hf in Hx.
  destruct (means_grown x s s2 Hx Hs2) as [Hmx _]. split; [by rewrite Hm|]. split; [done|].
  intros k Hk Hks. apply (Hnn k Hk). by apply (subseteq_dom _ _ Hs2).
Qed.

Lemma list_copies (x out c : NetworkingList) s s' :
  footprint x s ⊆ dom s -> NetworkingList_DeepCopyInto x out s = (c, s') -> copied s x c s'.
Proof.
  rewrite list_footprint. intros [Hfm Hfi]%union_subseteq. unfold NetworkingList_DeepCopyInto.
  destruct (DeepCopyInto (list_ListMeta x) _ s) as [m s1] eqn:Hc.
  assert (copied s (list_ListMeta x) m s1) as Hcm by (by eapply DeepCopyInto_copies).
  pose proof Hcm as (Hs1 & Hm1 & Hd1 & Hn1). destruct (Items x) as [src|] eqn:Hitems; cycle 1.
  { intros [= <- <-]. unfold copied. rewrite !list_means, !list_footprint, Hitems. simpl.
    rewrite Hm1, (right_id_L ∅ (∪)). by split_and!. }
  apply union_subseteq in Hfi as [Hsrc%singleton_subseteq_l Hfi].
  assert (forall o, o ∈ elements s src -> footprint o s ⊆ dom s) as Hel.
  { intros o Ho. transitivity (⋃ ((fun o => footprint o s) <$> elements s src)); [by apply footprint_member|done]. }
  destruct (copy_items_copies src s s1 Hs1 Hsrc Hel) as (Hs' & Ha & Hcs). cbv zeta.
  set (a := fresh (dom s1)) in *. set (s2 := copy_elements _ _ _ _ _) in *. intros [= <- <-].
  apply (copied_then _ _ s s1 s2) in Hcm as (Hs & Hm & Hd & Hn); [|done].
  destruct (renewed_all _ _ _ _ Hcs) as (Hmi & Hdi & Hni).
  unfold copied. rewrite !list_means, !list_footprint, Hitems.
  cbn [list_TypeMeta list_ListMeta Items sl_array fmap option_fmap option_map].
  rewrite Hm, Hmi. split_and!; [done|done| |].
  - apply union_least; [done|]. apply union_least; [by apply singleton_subseteq_l|done].
  - apply disjoint_union_l. split; [done|]. apply disjoint_union_l. split; [|done].
    apply disjoint_singleton_l. intros Has%(subseteq_dom _ _ Hs1). by apply (is_fresh (dom s1)).
Qed.

#[export] Instance NetworkingList_copied : DeepCopyLaws NetworkingList.
Proof. split; [apply list_means_frame|apply list_copies]. Qed.

(** *** The copies on the heap *)

(** At [q] of [s'] there is an independent copy of the [x] at [p] of [s]: [q] is a new variable with the
    content of [x], the memory of [s] has not changed, and it takes a write to memory of [s] to change
    [x], and a write to the new memory to change the copy. *)
Definition independent_copy {T} `{Boxed T, !DeepCopy cell T} (x : T) (p q : ptr) s s' : Prop :=
  s !! q = None /\ s ⊆ s' /\ exists c, s' !! q = Some (box c) /\ means c s' = means x s /\
  (forall s2, (forall k, k ∉ dom s -> s2 !! k = s' !! k) -> s2 !! q = Some (box c) /\ means c s2 = means x s) /\
  (forall s2, (forall k, k ∈ dom s -> s2 !! k = s' !! k) -> s2 !! p = Some (box x) /\ means x s2 = means x s).

Lemma deref_box {T} `{Boxed T} (x : T) s p : s !! p = Some (box x) -> deref s p = x.
Proof. unfold deref. intros ->. simpl. by rewrite unbox_box. Qed.

Lemma DeepCopy_body_copies {T} `{Boxed T} `{!DeepCopy cell T} `{!DeepCopyLaws T} (x : T) p s :
  s !! p = Some (box x) -> footprint x s ⊆ dom s ->
  exists q s', DeepCopy_body DeepCopyInto (Some p) s = (Some q, s') /\ independent_copy x p q s s'.
Proof.
  intros Hp Hf. unfold DeepCopy_body. set (q := fresh (dom s)). set (s1 := <[q := box zero]> s).
  assert (q ∉ dom s) as Hq by apply is_fresh. assert (s !! q = None) as Hqn by (by apply not_elem_of_dom).
  assert (s ⊆ s1) as Hs1 by (by apply insert_subseteq).
  assert (deref s1 p = x) as -> by (apply deref_box; by eapply lookup_weaken).
  assert (dom s1 = {[q]} ∪ dom s) as Hdom1 by (unfold s1; by rewrite dom_insert_L).
  destruct (means_grown x s s1 Hf Hs1) as [Hm1 Hf1].
  destruct (DeepCopyInto x (deref s1 q) s1) as [c s2] eqn:Hc.
  assert (copied s1 x c s2) as (Hs2 & Hm & Hd & Hn) by (eapply DeepCopyInto_copies; [rewrite Hf1; set_solver|exact Hc]).
  set (s' := <[q := box c]> s2). exists q, s'. split; [done|].
  assert (q ∉ footprint c s2) as Hqc by set_solver.
  assert (s' !! q = Some (box c)) as Hq' by apply lookup_insert_eq.
  assert (s ⊆ s') as Hs'.
  { apply map_subseteq_spec. intros k v Hk. unfold s'. rewrite lookup_insert_ne by congruence.
    eapply lookup_weaken; [exact Hk|by transitivity s1]. }
  destruct (means_frame c s2 s') as [Hmc Hfc]; [intros k Hk; apply lookup_insert_ne; set_solver|].
  assert (copied s x c s') as Hcopied.
  { split; [done|]. rewrite Hmc, Hfc, Hm, Hm1. split_and!; [done| |set_solver].
    unfold s'. rewrite dom_insert_L. set_solver. }
  split; [done|]. split; [done|]. exists c. split; [done|]. split; [apply Hcopied|].
  split; intros s3 Hs3; destruct (copied_separate x c s s' s3 Hf Hcopied) as [Hnew Hold].
  - split; [by rewrite Hs3|by apply Hnew].
  - split; [|by apply Hold]. assert (p ∈ dom s) by (apply elem_of_dom; by eexists).
    rewrite Hs3 by done. by eapply lookup_weaken.
Qed.

(** C40: a deep copy of a Networking or of a NetworkingList is a new object with the content of the
    original that shares no memory with it: whatever is then done to the memory of before, the copy keeps
    its content, and whatever is done to the new memory, the original does. The copy of nil is a nil
    [runtime.Object], not an object with a nil pointer. *)
Theorem deep_copies_are_independent s p :
  (forall o : Obj, s !! p = Some (NetworkingCell o) -> footprint o s ⊆ dom s ->
    exists q s', Networking_DeepCopyObject (Some p) s = (Some (NetworkingObject (Some q)), s') /\
      independent_copy o p q s s') /\
  (forall x : NetworkingList, s !! p = Some (ListCell x) -> footprint x s ⊆ dom s ->
    exists q s', NetworkingList_DeepCopyObject (Some p) s = (Some (NetworkingListObject (Some q)), s') /\
      independent_copy x p q s s') /\
  Networking_DeepCopyObject None s = (None, s) /\ NetworkingList_DeepCopyObject None s = (None, s).
Proof.
  split_and!; [intros x Hp Hf..|done|done].
  - destruct (DeepCopy_body_copies x p s) as (q & s' & Hc & Hq); [exact Hp|exact Hf|]. exists q, s'. split; [|done].
    unfold Networking_DeepCopyObject, Networking_DeepCopy. cbn [DeepCopyInto Networking_copies] in Hc. by rewrite Hc.
  - destruct (DeepCopy_body_copies x p s) as (q & s' & Hc & Hq); [exact Hp|exact Hf|]. exists q, s'. split; [|done].
    unfold NetworkingList_DeepCopyObject, NetworkingList_DeepCopy. cbn [DeepCopyInto NetworkingList_copies] in Hc. by rewrite Hc.
Qed.
End Generated.

(** ** A concrete store *)

Section PlainLaws.
Context {Cell T : Type}.
#[local] Existing Instance plain.

Lemma plain_copied : DeepCopyLaws (Cell := Cell) T.
Proof.
  split; [done|]. intros x out c s s' _ [= <- <-]. split; [done|]. simpl. split_and!; [done|set_solver..].
Qed.
End PlainLaws.

(** Metadata that is a pointer to a map of labels, shared by whoever copies the pointer only. *)
Definition sample_cell : Type := cell (TypeMeta := string) (ObjectMeta := option ptr) (ListMeta := unit) (CommonSpec := string)
  (PatchSpec := unit) (CommonStatus := bool) (X := list (string * string)).

Definition labels_DeepCopyInto (x out : option ptr) (s : gmap ptr sample_cell) : option ptr * gmap ptr sample_cell :=
  match x with
  | None => (None, s)
  | Some p => match s !! p with
              | Some v => let q := fresh (dom s) in (Some q, <[q := v]> s)
              | None => (None, s)
              end
  end.

#[local] Instance labels_copies : DeepCopy sample_cell (option ptr) := {|
  meaning := option (option sample_cell);
  means x s := (fun p => s !! p) <$> x;
  footprint x _ := match x with Some p => {[p]} | None => ∅ end;
  DeepCopyInto := labels_DeepCopyInto
|}.

#[local] Instance labels_copied : DeepCopyLaws (option ptr).
Proof.
  split.
  - intros [p|] s s' Hl; [|done]. simpl in *. by rewrite Hl by set_solver.
  - intros [p|] out c s s' Hf; simpl in *; [|intros [= <- <-]; split_and!; set_solver].
    destruct (s !! p) as [v|] eqn:Hp; [|apply not_elem_of_dom in Hp; set_solver].
    set (q := fresh (dom s)). intros [= <- <-]. assert (q ∉ dom s) as Hq by apply is_fresh.
    split; [apply insert_subseteq; by apply not_elem_of_dom|]. simpl. rewrite lookup_insert_eq, Hp, dom_insert_L.
    split_and!; [done|set_solver..].
Qed.

#[local] Instance unit_copies : DeepCopy sample_cell unit := plain unit.
#[local] Instance unit_copied : DeepCopyLaws unit := plain_copied.
#[local] Instance bool_copies : DeepCopy sample_cell bool := plain bool.
#[local] Instance bool_copied : DeepCopyLaws bool := plain_copied.

Definition sample_networking (labels : option ptr) (version : string) (healthy : bool) : Networking string (option ptr) string unit bool :=
  MkNetworking "Networking" labels (MkNetworkingSpec version ()) (MkNetworkingStatus healthy).

Definition no_networking := sample_networking None EmptyString false.
Definition no_list : NetworkingList (TypeMeta := string) (ListMeta := unit) := MkNetworkingList EmptyString () None.

(** A list of two objects that share their labels, in the last two elements of an array of three. *)
Definition sample_list : NetworkingList (TypeMeta := string) (ListMeta := unit) :=
  MkNetworkingList "NetworkingList" () (Some (MkSlice 2 1 2)).

Definition sample_store : gmap ptr sample_cell :=
  list_to_map [(1, ListCell sample_list); (2, ArrayCell [no_networking; sample_networking (Some 3) "1.0" true;
    sample_networking (Some 3) "1.1" false]); (3, ThirdParty [("app", "networking")])]%positive.

Definition sample_list_boxed := NetworkingList_boxed (ObjectMeta := option ptr) (CommonSpec := string) (PatchSpec := unit)
  (CommonStatus := bool) (X := list (string * string)) no_list.
#[local] Existing Instance sample_list_boxed.

#[local] Instance sample_list_copies : DeepCopy sample_cell NetworkingList := NetworkingList_copies no_networking.

Lemma deep_copies_are_independent_witness :
  exists q s', NetworkingList_DeepCopyObject no_networking no_list (Some 1%positive) sample_store =
      (Some (NetworkingListObject (Some q)), s') /\
    independent_copy sample_list 1%positive q sample_store s'.
Proof.
  destruct (deep_copies_are_independent no_networking no_list sample_store 1%positive) as (_ & Hlist & _).
  apply Hlist; [reflexivity|]. apply (bool_decide_unpack _). vm_compute. exact I.
Defined.

(** The copies have labels of their own. *)
Example sample_copies :
  let '(o, s) := NetworkingList_DeepCopyObject no_networking no_list (Some 1%positive) sample_store in
  o = Some (NetworkingListObject (Some 4%positive)) /\
  s !! 4%positive = Some (ListCell (MkNetworkingList "NetworkingList" () (Some (MkSlice 5 0 2)))) /\
  s !! 5%positive = Some (ArrayCell [sample_networking (Some 6%positive) "1.0" true; sample_networking (Some 7%positive) "1.1" false]) /\
  s !! 6%positive = Some (ThirdParty [("app", "networking")]).
Proof. vm_compute. by split_and!. Qed.
