(* ===== verification/Operator.v ===== *)
(** * The operator: operator/main.go, operator/controllers/networking_controller.go

    The operator applies a manifest with kubebuilder-declarative-pattern and controller-runtime.
    What it does itself is to read its flags, set the manager up and leave the RBAC objects out of the
    manifest ([rbacModeTransform]). The libraries are outside src/: the calls into them are the
    constructors of [rt_call], with what the operator hands over, and their results are a parameter.
    The last component of the monad's state is the log of these calls. *)

From S2P Require Import Prelude Effects Sim Agent.

Section Operator.
Context {Object : Type} (Group Kind : Object -> string).

(** Whether the loop keeps an object. *)
Definition keep_object (obj : Object) : bool :=
  let keep := true in
  if String.eqb (Group obj) "rbac.authorization.k8s.io" then
    if String.eqb (Kind obj) "ClusterRole" || String.eqb (Kind obj) "ClusterRoleBinding"
       || String.eqb (Kind obj) "Role" || String.eqb (Kind obj) "RoleBinding"
    then false else keep
  else keep.

(** [rbacModeTransform]: the new [objects.Items], or its error. *)
Definition rbacModeTransform (RBACMode : string) (Items : list Object) : list Object + error :=
  if String.eqb RBACMode "reconcile" || String.eqb RBACMode EmptyString then inl Items
  else if String.eqb RBACMode "ignore" then
    inl (foldl (fun keepItems obj => if keep_object obj then keepItems ++ [obj] else keepItems) [] Items)
  else inr (ErrorMsg "unknown rbac mode %q").

(** The kinds of role and binding of the RBAC group. *)
Definition is_rbac (obj : Object) : Prop :=
  Group obj = "rbac.authorization.k8s.io"%string /\
  Kind obj ∈ ["ClusterRole"; "ClusterRoleBinding"; "Role"; "RoleBinding"]%string.

Lemma keep_object_iff obj : keep_object obj = true <-> ~ is_rbac obj.
Proof.
  unfold keep_object, is_rbac. rewrite !elem_of_cons.
  destruct (String.eqb_spec (Group obj) "rbac.authorization.k8s.io"), (String.eqb_spec (Kind obj) "ClusterRole"),
    (String.eqb_spec (Kind obj) "ClusterRoleBinding"), (String.eqb_spec (Kind obj) "Role"),
    (String.eqb_spec (Kind obj) "RoleBinding"); simpl; rewrite ?elem_of_nil; intuition congruence.
Qed.

(** C39: the mode "ignore" leaves out exactly the roles and role bindings of the manifest, the rest
    stays in its order; the modes "reconcile" and the empty one leave the manifest as it is; any other mode is an
    error; and applying a mode twice is applying it once. *)
Theorem rbac_mode_filters mode items :
  match rbacModeTransform mode items with
  | inl items' =>
      (mode = "ignore"%string /\ (forall obj, obj ∈ items' <-> obj ∈ items /\ ~ is_rbac obj) /\ items' `sublist_of` items \/
       (mode = "reconcile"%string \/ mode = EmptyString) /\ items' = items) /\
      rbacModeTransform mode items' = inl items'
  | inr _ => mode ∉ ["reconcile"; EmptyString; "ignore"]%string
  end.
Proof.
  assert (forall l, foldl (fun keepItems obj => if keep_object obj then keepItems ++ [obj] else keepItems) [] l
                    = filter (fun obj => keep_object obj) l) as Hf.
  { intros l. induction l as [|x l IH] using rev_ind; [done|]. rewrite foldl_app, IH, (filter_snoc_bool keep_object).
    cbn [foldl]. destruct (keep_object x); [done|]. by rewrite app_nil_r. }
  unfold rbacModeTransform.
  destruct (String.eqb_spec mode "reconcile") as [->|H1]; [by split; [right; auto|]|].
  destruct (String.eqb_spec mode EmptyString) as [->|H2]; [by split; [right; auto|]|]. cbn [orb].
  destruct (String.eqb_spec mode "ignore") as [->|H3]; [|rewrite !not_elem_of_cons; split_and!; [done..|apply not_elem_of_nil]].
  rewrite !Hf. split.
  - left. split_and!; [done| |apply sublist_filter]. intros obj. rewrite list_elem_of_filter, <- keep_object_iff. destruct (keep_object obj); naive_solver.
  - f_equal. apply filter_all. intros x Hx. by apply list_elem_of_filter in Hx as [? _].
Qed.
End Operator.

(** ** The manager *)

(** The flags of the operator. *)
Record ManagerFlags := MkManagerFlags {
  metricsAddr : string;
  probeAddr : string;
  enableLeaderElection : bool;
  rbacMode : string
}.

Definition default_ManagerFlags : ManagerFlags := MkManagerFlags ":8080" ":8081" false "reconcile".

(** [strconv.ParseBool] *)
Definition ParseBool (s : string) : option bool :=
  if bool_decide (s ∈ ["1"; "t"; "T"; "true"; "TRUE"; "True"]%string) then Some true
  else if bool_decide (s ∈ ["0"; "f"; "F"; "false"; "FALSE"; "False"]%string) then Some false else None.

Definition manager_flags : list (string * Flag ManagerFlags) :=
  [("metrics-bind-address", MkFlag (fun v f => Some (MkManagerFlags v (probeAddr f) (enableLeaderElection f) (rbacMode f))) false);
   ("health-probe-bind-address", MkFlag (fun v f => Some (MkManagerFlags (metricsAddr f) v (enableLeaderElection f) (rbacMode f))) false);
   ("leader-elect", MkFlag (fun v f => b ← ParseBool v; Some (MkManagerFlags (metricsAddr f) (probeAddr f) b (rbacMode f))) true);
   ("rbac-mode", MkFlag (fun v f => Some (MkManagerFlags (metricsAddr f) (probeAddr f) (enableLeaderElection f) v)) false)]%string.

(** [ctrl.Options] as [main] fills it in. *)
Record ManagerOptions := MkManagerOptions {
  MetricsBindAddress : string;
  Port : Z;
  HealthProbeBindAddress : string;
  LeaderElection : bool;
  LeaderElectionID : string;
  LeaderElectionResourceLock : string
}.

Section Manager.
Context {Object : Type} (Group Kind : Object -> string).

(** A [declarative.ObjectTransform]; those of the library are parameters. *)
Definition Transform : Type := list Object -> list Object + error.
Context (AddLabels : list (string * string) -> Transform) (ApplyPatches : Transform).

(** The options of [declarative.Reconciler.Init]. *)
Inductive init_option :=
| WithObjectTransform (t : Transform)
| WithOwner
| WithLabels
| WithStatus.

(** The calls into controller-runtime and the declarative pattern. *)
Inductive rt_call :=
| AddToScheme (package : string)
| addon_Init
| GetConfig
| NewManager (o : ManagerOptions)
| Reconciler_Init (options : list init_option)
| controller_New (name : string)
| WatchNetworking
| WatchChildren (ScopeWatchesToNamespace : bool)
| AddHealthzCheck (name : string)
| AddReadyzCheck (name : string)
| manager_Start.

(** What a call returns, from the state of the cluster. *)
Context {C : Type} (rt_exec : rt_call -> C -> option error * C).
Context {L : Type} (klog_flags : list (string * Flag L)) (klog_init : L).

Definition calls : Type := list (rt_call * option error).

Implicit Types (w : World C calls) (log : calls).

Definition rt (c : rt_call) : M C calls unit := fun w =>
  let '(e, k) := rt_exec c (kern w) in
  (match e with Some e => Err e | None => Ret tt end, MkWorld k (trace w) (sched w) (prov w ++ [(c, e)])).

(** A call whose failure ends the process: [utilruntime.Must], [ctrl.GetConfigOrDie]. *)
Definition or_die (c : rt_call) : M C calls unit :=
  r ← try (rt c); match r with inl _ => mret tt | inr _ => exit end.

(** A call that returns nothing. *)
Definition rt_void (c : rt_call) : M C calls unit := try (rt c);; mret tt.

Definition labels : list (string * string) := [("k8s-app", "networking")]%string.

(** What the reconciler does with the manifest. *)
Definition init_options (RBACMode : string) : list init_option :=
  [WithObjectTransform (rbacModeTransform Group Kind RBACMode); WithObjectTransform (AddLabels labels);
   WithOwner; WithLabels; WithStatus; WithObjectTransform ApplyPatches].

(** [func (r *NetworkingReconciler) SetupWithManager(mgr ctrl.Manager) error] *)
Definition SetupWithManager (RBACMode : string) : M C calls unit :=
  rt_void addon_Init;;
  rt (Reconciler_Init (init_options RBACMode));;
  rt (controller_New "networking-controller");;
  rt WatchNetworking;;
  rt (WatchChildren true).

(** [init] *)
Definition init_scheme : M C calls unit :=
  or_die (AddToScheme "clientgoscheme");;
  or_die (AddToScheme "addonsv1alpha1").

Definition manager_options (f : ManagerFlags) : ManagerOptions :=
  MkManagerOptions (metricsAddr f) 9443 (probeAddr f) (enableLeaderElection f) "networking.addons.kope.io" "leases".

(** [if err := ...; err != nil { ...; os.Exit(1) }], and what follows otherwise. *)
Definition or_exit1 (x : M C calls unit) (rest : M C calls Z) : M C calls Z :=
  r ← try x; match r with inr _ => mret 1 | inl _ => rest end.

Definition operator_flags : gmap string (Flag (ManagerFlags * L)) :=
  list_to_map ((prod_map id on_first <$> manager_flags) ++ (prod_map id on_second <$> klog_flags)).

(** [flag.Parse()]; it parses [os.Args[1:]]. *)
Definition parse_flags (argv : list string) : option ManagerFlags :=
  fst <$> flags_Parse operator_flags (tail argv) (default_ManagerFlags, klog_init).

(** [func main()]: the exit code of the process; [Exit] is the end in a library. *)
Definition operator_main (argv : list string) : M C calls Z :=
  init_scheme;;
  match parse_flags argv with
  | None => exit
  | Some f =>
      rt_void addon_Init;;
      or_die GetConfig;;
      or_exit1 (rt (NewManager (manager_options f)))
        (or_exit1 (SetupWithManager (rbacMode f))
          (or_exit1 (rt (AddHealthzCheck "healthz"))
            (or_exit1 (rt (AddReadyzCheck "readyz"))
              (or_exit1 (rt manager_Start) (mret 0)))))
  end.

(** *** The order of the set-up *)

(** [addon.Init] has no result; all other calls are checked. *)
Definition went_well log : Prop := Forall (fun e => e.2 = None \/ e.1 = addon_Init) log.

(** The calls end with one that failed, the first that did. *)
Definition stopped log : Prop := exists log' c e, log = log' ++ [(c, Some e)] /\ c ≠ addon_Init /\ went_well log'.

(** A run that makes these calls in this order up to the first that fails. *)
Definition staged {A} (good bad : outcome A -> Prop) (cs : list rt_call) (x : M C calls A) : Prop :=
  forall w, exists log, prov (x w).2 = prov w ++ log /\
    (good (x w).1 /\ log.*1 = cs /\ went_well log \/ bad (x w).1 /\ log.*1 `prefix_of` cs /\ stopped log).

Definition returned (r : outcome unit) : Prop := r = Ret tt.
Definition failed (r : outcome unit) : Prop := exists e, r = Err e.
Definition died {A} (r : outcome A) : Prop := r = Exit.
Definition exit_code (n : Z) (r : outcome Z) : Prop := r = Ret n.

Lemma staged_rt c : c ≠ addon_Init -> staged returned failed [c] (rt c).
Proof.
  intros Hc w. unfold rt. destruct (rt_exec c (kern w)) as [[e|] k]; eexists; (split; [reflexivity|]).
  - right. split_and!; [by eexists|done|]. exists [], c, e. split_and!; [done|done|constructor].
  - left. split_and!; [done|done|]. repeat constructor.
Qed.

Lemma staged_or_die c : c ≠ addon_Init -> staged returned died [c] (or_die c).
Proof.
  intros Hc w. unfold or_die. rewrite bind_run. unfold try, rt.
  destruct (rt_exec c (kern w)) as [[e|] k]; eexists; (split; [reflexivity|]).
  - right. split_and!; [done|done|]. exists [], c, e. split_and!; [done|done|constructor].
  - left. split_and!; [done|done|]. repeat constructor.
Qed.

Lemma staged_void : staged returned (fun _ => False) [addon_Init] (rt_void addon_Init).
Proof.
  intros w. unfold rt_void. rewrite bind_run. unfold try, rt.
  destruct (rt_exec addon_Init (kern w)) as [[e|] k]; eexists; (split; [reflexivity|]); left;
    (split_and!; [done|done|]); repeat constructor; by right.
Qed.

Lemma stopped_after log1 log2 : went_well log1 -> stopped log2 -> stopped (log1 ++ log2).
Proof.
  intros H1 (log' & c & e & -> & Hc & Hw). exists (log1 ++ log'), c, e.
  split_and!; [by rewrite app_assoc|done|by apply Forall_app].
Qed.

(** What a failure becomes in the caller. *)
Definition passed_on {A} (r : outcome unit) : outcome A := match r with Err e => Err e | _ => Exit end.

Lemma staged_bind {A} (good bad : outcome A -> Prop) bad1 cs1 cs2 x (y : M C calls A) :
  staged returned bad1 cs1 x -> staged good bad cs2 y ->
  (forall r, bad1 r -> r ≠ Ret tt /\ bad (passed_on r)) -> staged good bad (cs1 ++ cs2) (x;; y).
Proof.
  intros Hx Hy Hbad w. rewrite bind_run. destruct (Hx w) as (log1 & Hp1 & H1).
  destruct (x w) as [r w1]. cbn [fst snd] in *. destruct H1 as [(-> & <- & Hw1)|(Hb & Hpre & Hst)].
  - destruct (Hy w1) as (log2 & Hp2 & H2). exists (log1 ++ log2). split; [by rewrite Hp2, Hp1, app_assoc|].
    rewrite fmap_app. destruct H2 as [(Hg & <- & Hw2)|(Hb & Hpre & Hst)].
    + left. split_and!; [done|done|by apply Forall_app].
    + right. split_and!; [done|by apply prefix_app|by apply stopped_after].
  - exists log1. destruct (Hbad r Hb) as [Hne Hb']. destruct r as [[]|e|]; [done|..]; (split; [done|]);
      right; (split_and!; [done|by apply prefix_app_r|done]).
Qed.

Lemma staged_or_exit1 (good bad : outcome Z -> Prop) cs1 cs2 x rest :
  staged returned failed cs1 x -> staged good bad cs2 rest -> bad (Ret 1) -> staged good bad (cs1 ++ cs2) (or_exit1 x rest).
Proof.
  intros Hx Hy Hbad w. unfold or_exit1. rewrite bind_run. unfold try. destruct (Hx w) as (log1 & Hp1 & H1).
  destruct (x w) as [r w1]. cbn [fst snd] in *. destruct H1 as [(-> & <- & Hw1)|([e ->] & Hpre & Hst)].
  - destruct (Hy w1) as (log2 & Hp2 & H2). exists (log1 ++ log2). split; [by rewrite Hp2, Hp1, app_assoc|].
    rewrite fmap_app. destruct H2 as [(Hg & <- & Hw2)|(Hb & Hpre & Hst)].
    + left. split_and!; [done|done|by apply Forall_app].
    + right. split_and!; [done|by apply prefix_app|by apply stopped_after].
  - exists log1. split; [done|]. right. split_and!; [done|by apply prefix_app_r|done].
Qed.

Lemma staged_end : staged (exit_code 0) (fun r => r = Ret 1 \/ died r) [] (mret 0).
Proof. intros w. exists []. split; [by rewrite app_nil_r|]. left. split_and!; [done|done|constructor]. Qed.

Definition setup_calls (RBACMode : string) : list rt_call :=
  [addon_Init; Reconciler_Init (init_options RBACMode); controller_New "networking-controller"; WatchNetworking; WatchChildren true].

Lemma staged_SetupWithManager mode : staged returned failed (setup_calls mode) (SetupWithManager mode).
Proof.
  unfold SetupWithManager, setup_calls.
  assert (forall r, failed r -> r ≠ Ret tt /\ failed (passed_on r)) as Hf by (intros r [e ->]; split; [done|by eexists]).
  apply (staged_bind returned failed (fun _ => False) [_] [_; _; _; _]); [apply staged_void| |done].
  apply (staged_bind returned failed failed [_] [_; _; _]); [by apply staged_rt| |done].
  apply (staged_bind returned failed failed [_] [_; _]); [by apply staged_rt| |done].
  apply (staged_bind returned failed failed [_] [_]); [by apply staged_rt|by apply staged_rt|done].
Qed.

Definition main_calls (f : ManagerFlags) : list rt_call :=
  [AddToScheme "clientgoscheme"; AddToScheme "addonsv1alpha1"; addon_Init; GetConfig; NewManager (manager_options f)]
  ++ setup_calls (rbacMode f) ++ [AddHealthzCheck "healthz"; AddReadyzCheck "readyz"; manager_Start].

Lemma staged_main argv f :
  parse_flags argv = Some f -> staged (exit_code 0) (fun r => r = Ret 1 \/ died r) (main_calls f) (operator_main argv).
Proof.
  intros Hf. unfold operator_main. rewrite Hf. unfold main_calls, init_scheme.
  assert (forall r, died r -> r ≠ Ret tt /\ died (A := unit) (passed_on r)) as Hd by (by intros r ->).
  assert (forall r, died r -> r ≠ Ret tt /\ ((passed_on r : outcome Z) = Ret 1 \/ died (A := Z) (passed_on r)))
    as Hd' by (intros r ->; split; [done|by right]).
  cbn [app]. apply (staged_bind _ _ died [_; _] (addon_Init :: _)); [| |done].
  { apply (staged_bind returned died died [_] [_]); [by apply staged_or_die|by apply staged_or_die|done]. }
  apply (staged_bind _ _ (fun _ => False) [_] (GetConfig :: _)); [apply staged_void| |done].
  apply (staged_bind _ _ died [_] (_ :: _)); [by apply staged_or_die| |done].
  apply (staged_or_exit1 _ _ [_] (_ ++ _)); [by apply staged_rt| |by left].
  apply staged_or_exit1; [apply staged_SetupWithManager| |by left].
  apply (staged_or_exit1 _ _ [_] [_; _]); [by apply staged_rt| |by left].
  apply (staged_or_exit1 _ _ [_] [_]); [by apply staged_rt| |by left].
  apply (staged_or_exit1 _ _ [_] []); [by apply staged_rt|apply staged_end|by left].
Qed.

Lemma prefix_to_last {A} (l pre : list A) x : l `prefix_of` pre ++ [x] -> x ∉ pre -> x ∈ l -> l = pre ++ [x].
Proof.
  intros [k Hk] Hn Hx. destruct k as [|y k _] using rev_ind; [by rewrite app_nil_r in Hk|].
  rewrite app_assoc in Hk. apply app_inj_tail in Hk as [-> _]. destruct Hn. apply elem_of_app. by left.
Qed.

(** The operator goes through its set-up in order and stops at the first call that fails: the
    calls it makes are the whole list, all of them taken, when it ends with code 0, and otherwise a
    part of the list from its start whose last call is the first one that failed. In
    particular the manager is started only when everything else, the health checks included, is in
    place. *)
Theorem operator_starts_in_order argv f w :
  parse_flags argv = Some f ->
  exists log, prov (operator_main argv w).2 = prov w ++ log /\
    ((operator_main argv w).1 = Ret 0 /\ log.*1 = main_calls f /\ went_well log \/
     ((operator_main argv w).1 = Ret 1 \/ (operator_main argv w).1 = Exit) /\ log.*1 `prefix_of` main_calls f /\ stopped log) /\
    (manager_Start ∈ log.*1 -> exists log' e, log = log' ++ [(manager_Start, e)] /\ went_well log').
Proof.
  intros Hf. destruct (staged_main argv f Hf w) as (log & Hp & Hcases). exists log. split; [done|].
  split; [exact Hcases|]. intros Hstart.
  assert (exists pre, main_calls f = pre ++ [manager_Start] /\ (manager_Start ∉ pre)) as (pre & Hpre & Hn).
  { exists (removelast (main_calls f)). split; [done|]. unfold main_calls, setup_calls. cbn [app removelast].
    rewrite !elem_of_cons. intros Hx. repeat (destruct Hx as [Hx|Hx]; [done|]). by apply not_elem_of_nil in Hx. }
  assert (log.*1 = pre ++ [manager_Start]) as Hlog.
  { apply prefix_to_last; [|done|done]. rewrite <- Hpre. destruct Hcases as [(_ & -> & _)|(_ & Hpr & _)]; done. }
  destruct log as [|[c e] log' _] using rev_ind; [by apply not_elem_of_nil in Hstart|].
  rewrite fmap_app in Hlog. apply app_inj_tail in Hlog as [_ Hc]. simpl in Hc. subst c. exists log', e. split; [done|].
  destruct Hcases as [(_ & _ & Hw)|(_ & _ & l2 & c2 & e2 & Heq & _ & Hw)]; [by apply Forall_app in Hw as [Hw _]|].
  apply app_inj_tail in Heq as [-> _]. exact Hw.
Qed.
(** *** The RBAC mode is not checked *)

Lemma rbac_mode_flag mode rest f l :
  flags_Parse operator_flags (("--rbac-mode=" +:+ mode) :: rest) (f, l)
  = flags_Parse operator_flags rest (MkManagerFlags (metricsAddr f) (probeAddr f) (enableLeaderElection f) mode, l).
Proof.
  assert (exists g, operator_flags !! "rbac-mode"%string = Some g /\ IsBoolFlag g = false /\
    forall v f l, flag_Set g v (f, l) = Some (MkManagerFlags (metricsAddr f) (probeAddr f) (enableLeaderElection f) v, l))
    as (g & Hg & Hb & Hs).
  { unfold operator_flags. rewrite list_to_map_app. eexists. split; [by apply lookup_union_Some_l|]. done. }
  cbn [flags_Parse]. change (flag_of ("--rbac-mode=" +:+ mode)) with (Some (Some ("rbac-mode=" +:+ mode))). cbv beta iota.
  change (flag_parts ("rbac-mode=" +:+ mode)) with ("rbac-mode"%string, Some mode). cbv beta iota.
  rewrite Hg. cbn [mbind option_bind]. by rewrite Hb, Hs.
Qed.

(** With libraries that take every call. *)
Section Willing.
Context (Hok : forall c k, (rt_exec c k).1 = None).

Definition gives {A} (a : A) (x : M C calls A) : Prop := forall w, (x w).1 = Ret a.

Lemma gives_rt c : gives tt (rt c).
Proof using Hok. intros w. unfold rt. pose proof (Hok c (kern w)) as Hc. destruct (rt_exec c (kern w)) as [e k]. simpl in *. by subst e. Qed.

Lemma gives_bind {A} (a : A) (x : M C calls unit) y : gives tt x -> gives a y -> gives a (x;; y).
Proof. intros Hx Hy w. rewrite bind_run. specialize (Hx w). destruct (x w) as [r w1]. simpl in Hx. subst r. apply Hy. Qed.

Lemma gives_void c : gives tt (rt_void c).
Proof using Hok.
  intros w. unfold rt_void. rewrite bind_run. unfold try. pose proof (gives_rt c w) as Hc. destruct (rt c w) as [r w1].
  simpl in Hc. by subst r.
Qed.

Lemma gives_or_die c : gives tt (or_die c).
Proof using Hok.
  intros w. unfold or_die. rewrite bind_run. unfold try. pose proof (gives_rt c w) as Hc. destruct (rt c w) as [r w1].
  simpl in Hc. by subst r.
Qed.

Lemma gives_or_exit1 x rest : gives tt x -> gives 0 rest -> gives 0 (or_exit1 x rest).
Proof.
  intros Hx Hr w. unfold or_exit1. rewrite bind_run. unfold try. specialize (Hx w). destruct (x w) as [r w1].
  simpl in Hx. subst r. apply Hr.
Qed.

Lemma willing_main argv f w : parse_flags argv = Some f -> (operator_main argv w).1 = Ret 0.
Proof using Hok.
  intros Hf. unfold operator_main. rewrite Hf. revert w. change (gives 0 (init_scheme;; rt_void addon_Init;; or_die GetConfig;;
    or_exit1 (rt (NewManager (manager_options f))) (or_exit1 (SetupWithManager (rbacMode f))
      (or_exit1 (rt (AddHealthzCheck "healthz")) (or_exit1 (rt (AddReadyzCheck "readyz")) (or_exit1 (rt manager_Start) (mret 0))))))).
  unfold init_scheme, SetupWithManager.
  repeat first [apply gives_or_exit1 | apply gives_bind | apply gives_rt | apply gives_void | apply gives_or_die | done].
Qed.
End Willing.

(** Nobody checks the RBAC mode when the operator starts: a mode that does not exist is taken
    from the command line, every call of the set-up is taken like with any other mode and the manager
    is started; but the transform it registered fails on every manifest, so that nothing is ever
    applied. *)
Theorem unknown_mode_is_found_out_late argv0 mode w :
  mode ∉ ["reconcile"; EmptyString; "ignore"]%string ->
  (forall c k, (rt_exec c k).1 = None) ->
  (operator_main [argv0; "--rbac-mode=" +:+ mode] w).1 = Ret 0 /\
  (exists log options, prov (operator_main [argv0; "--rbac-mode=" +:+ mode] w).2 = prov w ++ log /\
     Reconciler_Init (WithObjectTransform (rbacModeTransform Group Kind mode) :: options) ∈ log.*1 /\
     manager_Start ∈ log.*1) /\
  forall items, exists e, rbacModeTransform Group Kind mode items = inr e.
Proof.
  intros Hmode Hok. set (f := MkManagerFlags ":8080" ":8081" false mode).
  assert (parse_flags [argv0; "--rbac-mode=" +:+ mode] = Some f) as Hf.
  { unfold parse_flags. cbn [tail]. by rewrite rbac_mode_flag. }
  assert ((operator_main [argv0; "--rbac-mode=" +:+ mode] w).1 = Ret 0) as H0.
  { by apply (willing_main Hok _ f). }
  split; [done|]. split.
  - destruct (staged_main _ f Hf w) as (log & Hp & [(_ & Hl & _)|([Hc|Hc] & _)]); [|congruence..].
    eexists log, _. split; [done|]. rewrite Hl. unfold main_calls, setup_calls, init_options. cbn [app].
    rewrite !elem_of_cons. split; [do 6 right; by left|do 12 right; by left].
  - intros items. rewrite !not_elem_of_cons in Hmode. destruct Hmode as (H1 & H2 & H3 & _).
    unfold rbacModeTransform. rewrite (proj2 (String.eqb_neq _ _) H1), (proj2 (String.eqb_neq _ _) H2),
      (proj2 (String.eqb_neq _ _) H3). by eexists.
Qed.
End Manager.

Section Witnesses.

(** Objects as their group and kind, libraries that do nothing, and a cluster that takes every call. *)
Definition no_labels (_ : list (string * string)) : Transform (Object := string * string) := inl.

Definition willing (c : rt_call (Object := string * string)) (n : nat) : option error * nat := (None, S n).

(** A cluster in which health checks cannot be added. *)
Definition unhealthy (c : rt_call (Object := string * string)) (n : nat) : option error * nat :=
  (match c with AddHealthzCheck _ => Some (ErrorMsg "no") | _ => None end, S n).

Definition sim_operator : World nat (calls (Object := string * string)) := MkWorld 0%nat [] (fun _ => in_order) [].

Lemma operator_starts_in_order_witness :
  exists log, stopped log /\
    prov (operator_main fst snd no_labels inl unhealthy [] tt ["manager"; "--rbac-mode=ignore"; "--leader-elect"]%string sim_operator).2 = log.
Proof.
  destruct (operator_starts_in_order fst snd no_labels inl unhealthy [] tt
              ["manager"; "--rbac-mode=ignore"; "--leader-elect"]%string
              (MkManagerFlags ":8080" ":8081" true "ignore") sim_operator) as (log & Hp & Hcases & _).
  - vm_compute. reflexivity.
  - exists log. split; [|exact Hp]. destruct Hcases as [(Hr & _)|(_ & _ & Hs)]; [|exact Hs].
    exfalso. revert Hr. vm_compute. discriminate.
Defined.

Lemma unknown_mode_is_found_out_late_witness :
  (operator_main fst snd no_labels inl willing [] tt ["manager"; "--rbac-mode=off"]%string sim_operator).1 = Ret 0.
Proof.
  destruct (unknown_mode_is_found_out_late fst snd no_labels inl willing [] tt "manager" "off" sim_operator) as [Hr _].
  - by_computation.
  - reflexivity.
  - exact Hr.
Defined.
End Witnesses.
